(** * Workflow synthesis, benchmark assembly and local execution

  A shallow embedding of

    - [workflowhub/generator/workflow/abstract_recipe.py]
      (the recipe-driven builder: [_generate_job], [_generate_files],
      [_generate_job_name], [_get_files_by_job_and_link]),
    - [wfcommons/wfbench/bench.py]
      (the benchmark assembler [create_benchmark] with its helpers, the
      local executor [run] with [assigning_correct_files] and
      [cleanup_sys_files], the input file of parameters and the data
      generator [generate_sys_data]),
    - [workflowhub/trace/trace.py]
      (the iteration protocol of a trace: [__iter__], [__next__]),

  followed by the properties of the specification that concern them and
  by further properties of the code.

  Conventions of the embedding.
    - A Python [dict] is an association list in insertion order; writing an
      existing key keeps the key's position, as CPython does.
    - A raising computation returns [Raise e]; the exception classes the
      code can meet are the constructors of [exn].
    - Random draws ([uuid.uuid4], [generate_rvs], [os.urandom]) and the
      operating system (directory contents, [Popen], [mkdir], [open]) are
      oracles supplied by the caller, indexed by the number of earlier
      observations. *)

From Stdlib Require Import ZArith List String Ascii Bool Lia Arith DecimalString.
From Stdlib Require Import DecimalPos.
From Stdlib Require Import Uint63 PrimFloat SpecFloat FloatOps.
Import ListNotations.

Local Open Scope string_scope.
Local Open Scope list_scope.

(** ** Python primitives *)

(** String concatenation, as [+] and f-strings do it. *)
Infix "+++" := String.append (right associativity, at level 60).

Module Py.

(** Exceptions that the embedded code can raise. *)
Inductive exn : Type :=
| KeyError (key : string)
| UnboundLocalError (variable : string)
| ZeroDivisionError
| ValueError
| OSError (what : string)
| FileNotFoundError (message : string).

Inductive result (A : Type) : Type :=
| Ok (a : A)
| Raise (e : exn).
Arguments Ok {A} a.
Arguments Raise {A} e.

Definition bind {A B} (m : result A) (k : A -> result B) : result B :=
  match m with
  | Ok a => k a
  | Raise e => Raise e
  end.

(** [for x in xs: st = body(x, st)], stopping at the first exception. *)
Fixpoint for_each {A S} (body : A -> S -> result S) (xs : list A) (st : S)
  : result S :=
  match xs with
  | [] => Ok st
  | x :: xs' => bind (body x st) (for_each body xs')
  end.

(** A [dict] with string keys, in insertion order. *)
Abbreviation dict V := (list (string * V)) (only parsing).

Fixpoint get {V} (k : string) (d : dict V) : option V :=
  match d with
  | [] => None
  | (k', v) :: d' => if String.eqb k k' then Some v else get k d'
  end.

(** [d[k]], raising [KeyError] when the key is absent. *)
Definition item {V} (k : string) (d : dict V) : result V :=
  match get k d with
  | Some v => Ok v
  | None => Raise (KeyError k)
  end.

(** [d[k] = v]. *)
Fixpoint set {V} (k : string) (v : V) (d : dict V) : dict V :=
  match d with
  | [] => [(k, v)]
  | (k', v') :: d' =>
      if String.eqb k k' then (k, v) :: d' else (k', v') :: set k v d'
  end.

(** [d.setdefault(k, v)], for its effect on [d]. *)
Definition setdefault {V} (k : string) (v : V) (d : dict V) : dict V :=
  match get k d with
  | Some _ => d
  | None => d ++ [(k, v)]
  end.

Definition keys {V} (d : dict V) : list string := map fst d.

(** [x in xs] for a list of strings. *)
Definition mem (x : string) (xs : list string) : bool :=
  existsb (String.eqb x) xs.

(** [c in s] for a one-character needle. *)
Definition has_char (c : ascii) (s : string) : bool :=
  existsb (Ascii.eqb c) (list_ascii_of_string s).

(** [s.rfind(c)]: index of the last occurrence, [-1] if there is none. *)
Fixpoint rfind_from (c : ascii) (s : list ascii) (i : Z) (found : Z) : Z :=
  match s with
  | [] => found
  | x :: s' =>
      rfind_from c s' (i + 1)%Z (if Ascii.eqb x c then i else found)
  end.

Definition rfind (c : ascii) (s : list ascii) : Z :=
  rfind_from c s 0%Z (-1)%Z.

(** [posixpath.splitext]: the extension starts at the last dot of the last
    path component, leading dots of that component not counting. *)
Definition splitext (p : string) : string * string :=
  let s := list_ascii_of_string p in
  let sepIndex := rfind "/"%char s in
  let dotIndex := rfind "."%char s in
  if (sepIndex <? dotIndex)%Z then
    let stem := firstn (Z.to_nat dotIndex) s in
    let filename := skipn (Z.to_nat (sepIndex + 1)) stem in
    if existsb (fun c => negb (Ascii.eqb c "."%char)) filename then
      (string_of_list_ascii stem,
       string_of_list_ascii (skipn (Z.to_nat dotIndex) s))
    else (p, "")
  else (p, "").

(** [round(a / n)] for integers [a] and [n <> 0]: Python 3 divides in
    binary64 and rounds the quotient half to even.  Below 2^52 in absolute
    value the binary64 quotient lies on the same side of every half-integer
    as the exact one, so the result is the exact quotient rounded half to
    even, which is what is computed here. *)
Definition round_div (a n : Z) : Z :=
  let n' := Z.abs n in
  let a' := (a * Z.sgn n)%Z in
  let q := (a' / n')%Z in
  let r := (a' mod n')%Z in
  if (2 * r <? n')%Z then q
  else if (n' <? 2 * r)%Z then (q + 1)%Z
  else if Z.even q then q else (q + 1)%Z.

(** The same computation on binary64 numbers, for integers below 2^53 in
    absolute value, which binary64 represents exactly: the division of the
    two integers as floats, and [round] of the quotient, half to even, read
    off its mantissa and exponent. *)
Definition float_of_Z (a : Z) : float :=
  if (a <? 0)%Z then PrimFloat.opp (PrimFloat.of_uint63 (Uint63.of_Z (- a)))
  else PrimFloat.of_uint63 (Uint63.of_Z a).

Definition round_float (x : float) : Z :=
  match Prim2SF x with
  | S754_finite s m e =>
      let m := Z.pos m in
      let v :=
        if (0 <=? e)%Z then (m * 2 ^ e)%Z
        else
          let d := (2 ^ (- e))%Z in
          let q := (m / d)%Z in
          let r := (m mod d)%Z in
          if (2 * r <? d)%Z then q
          else if (d <? 2 * r)%Z then (q + 1)%Z
          else if Z.even q then q else (q + 1)%Z in
      if s then (- v)%Z else v
  | _ => 0%Z
  end.

Definition binary64_round_div (a n : Z) : Z :=
  round_float (PrimFloat.div (float_of_Z a) (float_of_Z n)).

(** [d.values()]. *)
Definition values {V} (d : dict V) : list V := map snd d.

(** [str(z)] for an integer. *)
Definition str_Z (z : Z) : string := NilZero.string_of_int (Z.to_int z).

(** [repr(s)] for a string of printable characters without quote or
    backslash. *)
Definition repr_str (s : string) : string := "'" +++ s +++ "'".

(** [str(d)] for a dict from such strings to integers. *)
Definition repr_dict (d : dict Z) : string :=
  "{" +++ String.concat ", "
           (map (fun kv => repr_str (fst kv) +++ ": " +++ str_Z (snd kv)) d)
      +++ "}".

End Py.

Import Py.

Notation "x <- m ;; k" := (Py.bind m (fun x => k))
(at level 61, m at next level, right associativity).

(** ** Data model shared by the builder, the assembler and the executor *)

Inductive FileLink : Type := INPUT | OUTPUT.

Definition FileLink_eqb (a b : FileLink) : bool :=
match a, b with
| INPUT, INPUT | OUTPUT, OUTPUT => true
| _, _ => false
end.

Module File.
Record t : Type := mk { name : string; size : Z; link : FileLink }.
End File.

(** ** The recipe-driven builder (abstract_recipe.py) *)

Module Recipe.

(** [{distribution, min, max}] of a recipe entry. *)
Record Dist : Type :=
  { distribution : string; dist_min : Z; dist_max : Z }.

(** A job's recipe: its runtime law and, per link direction, a dict from
    extension to the law of the file size. *)
Record JobRecipe : Type :=
  { r_runtime : Dist; r_input : dict Dist; r_output : dict Dist }.

(** The random sources: the [k]-th call of [uuid.uuid4] as a string and
    the [k]-th call of [generate_rvs]. *)
Record Entropy : Type :=
  { uuid4 : nat -> string; generate_rvs : nat -> Dist -> Z }.

(** The mutable part of a [WorkflowRecipe] object, with the number of
    random draws made so far. *)
Record State : Type :=
  { jobs_files : dict (list File.t); draws : nat }.

(** [files_recipe]: [Optional[Dict[FileLink, Dict[str, int]]]]. *)
Definition FilesRecipe : Type := option (list (FileLink * dict Z)).

Fixpoint link_get (l : FileLink) (d : list (FileLink * dict Z))
  : option (dict Z) :=
  match d with
  | [] => None
  | (l', v) :: d' => if FileLink_eqb l l' then Some v else link_get l d'
  end.

(** The element appended to [extension_list] for a file name. *)
Definition extension_of (n : string) : string :=
  if has_char "."%char n then snd (splitext n) else n.

(** [extension_list] as built by the first loop of [_generate_files]. *)
Definition extension_list (fs : list File.t) (l : FileLink) : list string :=
  map (fun f => extension_of (File.name f))
      (filter (fun f => FileLink_eqb (File.link f) l) fs).

(** [num_files] for an extension that is to be synthesized. *)
Definition num_files (files_recipe : FilesRecipe) (l : FileLink)
           (extension : string) : Z :=
  match files_recipe with
  | Some ((_ :: _) as fr) =>
      match link_get l fr with
      | Some per_ext =>
          match get extension per_ext with
          | Some n => n
          | None => 1%Z
          end
      | None => 1%Z
      end
  | _ => 1%Z
  end.

(** [_generate_file]: one fresh file; [recipe[extension]] raises when the
    extension is not a key of the recipe. *)
Definition _generate_file (E : Entropy) (extension : string)
           (recipe : dict Dist) (l : FileLink) (k : nat)
  : result File.t :=
  d <- item extension recipe ;;
  Ok (File.mk (uuid4 E k +++ extension) (generate_rvs E k d) l).

(** [self.jobs_files[job_id].append(self._generate_file(...))]. *)
Definition append_generated (E : Entropy) (job_id extension : string)
           (recipe : dict Dist) (l : FileLink) (st : State) : result State :=
  fs <- item job_id (jobs_files st) ;;
  f <- _generate_file E extension recipe l (draws st) ;;
  Ok {| jobs_files := set job_id (fs ++ [f]) (jobs_files st);
        draws := S (draws st) |}.

(** [for _ in range(0, num_files): ...]. *)
Fixpoint repeat_append (E : Entropy) (job_id extension : string)
         (recipe : dict Dist) (l : FileLink) (n : nat) (st : State)
  : result State :=
  match n with
  | O => Ok st
  | S n' =>
      st' <- append_generated E job_id extension recipe l st ;;
      repeat_append E job_id extension recipe l n' st'
  end.

Definition _generate_files (E : Entropy) (job_id : string)
           (recipe : dict Dist) (l : FileLink) (files_recipe : FilesRecipe)
           (st : State) : result State :=
  fs <- item job_id (jobs_files st) ;;
  let exts := extension_list fs l in
  for_each
    (fun extension st =>
       if mem extension exts then Ok st
       else repeat_append E job_id extension recipe l
              (Z.to_nat (num_files files_recipe l extension)) st)
    (keys recipe) st.

(** The files linked from [input_files]: every output of a parent becomes
    an input of the job. *)
Definition inherited (input_files : list File.t) : list File.t :=
  map (fun f => File.mk (File.name f) (File.size f) INPUT)
      (filter (fun f => FileLink_eqb (File.link f) OUTPUT) input_files).

(** The part of the [Job] that [_generate_job] computes. *)
Record Job : Type :=
  { job_name : string; job_runtime : Z; job_args : list string;
    job_cores : Z; job_files : list File.t }.

(** [_generate_job].  The runtime, formatted to three decimals by the
    source, is carried in thousandths of a second.  [input_files] is
    [None] or a list; an empty list is falsy and links nothing, like
    [None]. *)
Definition _generate_job (E : Entropy) (workflow_recipe : dict JobRecipe)
           (job_name job_id : string) (input_files : option (list File.t))
           (files_recipe : FilesRecipe) (st : State)
  : result (Job * State) :=
  job_recipe <- item job_name workflow_recipe ;;
  let runtime := generate_rvs E (draws st) (r_runtime job_recipe) in
  let linked := match input_files with
                | Some fs => inherited fs
                | None => []
                end in
  let st := {| jobs_files := set job_id linked (jobs_files st);
               draws := S (draws st) |} in
  st <- _generate_files E job_id (r_input job_recipe) INPUT files_recipe st ;;
  st <- _generate_files E job_id (r_output job_recipe) OUTPUT files_recipe st ;;
  fs <- item job_id (jobs_files st) ;;
  Ok ({| job_name := job_id; job_runtime := runtime; job_args := [];
         job_cores := 1%Z; job_files := fs |}, st).

(** *** Vocabulary for the builder's properties *)

(** The [n] files drawn for one extension from draw [k] on. *)
Fixpoint batch (E : Entropy) (extension : string) (d : Dist) (l : FileLink)
         (k n : nat) : list File.t :=
  match n with
  | O => []
  | S n' =>
      File.mk (uuid4 E k +++ extension) (generate_rvs E k d) l
      :: batch E extension d l (S k) n'
  end.

(** A file that [_generate_file] can return for [extension]. *)
Definition generated_for (E : Entropy) (recipe : dict Dist) (l : FileLink)
           (extension : string) (g : File.t) : Prop :=
  exists k d, get extension recipe = Some d /\
              g = File.mk (uuid4 E k +++ extension) (generate_rvs E k d) l.

(** [fresh] is made of one batch per recipe extension outside [present],
    in recipe order, each of [num_files] files generated for it. *)
Definition synthesized (E : Entropy) (recipe : dict Dist) (l : FileLink)
           (files_recipe : FilesRecipe) (present : list string)
           (fresh : list File.t) : Prop :=
  exists batches,
    fresh = List.concat batches /\
    Forall2 (fun extension b =>
               List.length b = Z.to_nat (num_files files_recipe l extension) /\
               Forall (generated_for E recipe l extension) b)
            (filter (fun e => negb (mem e present)) (keys recipe)) batches.

End Recipe.

(** ** Tasks and workflows (wfcommons.common, as bench.py uses them) *)

Module Task.
(** The attributes of a [Task] that the assembler reads or writes.  The
    runtime is carried in thousandths of a second. *)
Record t : Type :=
  mk { name : string; category : string; runtime : Z; program : string;
       args : list string; files : list File.t }.
End Task.

(** [workflow.tasks] is a dict from task name to [Task];
    [workflow.tasks_parents] and [workflow.tasks_children] are dicts from
    task name to the list of parent, respectively child, names. *)
Record Workflow : Type :=
  { tasks : dict Task.t;
    tasks_parents : dict (list string);
    tasks_children : dict (list string) }.

(** ** The benchmark assembler (bench.py, class WorkflowBenchmark) *)

Module Bench.

(** A parameter that is either one value or a dict from category to value. *)
Inductive Param (V : Type) : Type :=
| Scalar (v : V)
| PerCategory (d : dict V).
Arguments Scalar {V} v.
Arguments PerCategory {V} d.

(** [p[task.category] if isinstance(p, dict) else p]. *)
Definition lookup {V} (p : Param V) (category : string) : result V :=
  match p with
  | Scalar v => Ok v
  | PerCategory d => item category d
  end.

(** Truth value of an optional integer-or-dict parameter. *)
Definition truthy (p : option (Param Z)) : bool :=
  match p with
  | None => false
  | Some (Scalar v) => negb (v =? 0)%Z
  | Some (PerCategory []) => false
  | Some (PerCategory (_ :: _)) => true
  end.

(** A float is carried by its [str] rendering, the only use the assembler
    makes of [percent_cpu]. *)
Definition PyFloat : Type := string.

(** What the assembler sees of the machine: the directory of bench.py and
    whether a [mkdir] or an [open(..., "w+")] succeeds. *)
Record Host : Type :=
  { this_dir : string;
    can_mkdir : string -> bool;
    can_open : string -> bool }.

Inductive level : Type := DEBUG | INFO | WARNING.

(** What the assembler changes outside the task graph: regular files with
    their size in bytes, the calls made on the logger, and the documents
    written by [write_json], each with its path.  The size of a saved
    document is not modelled: [disk] does not follow what [write_json]
    does to the file at that path. *)
Record World : Type :=
  { disk : dict Z;
    log : list (level * string);
    saved : list (string * Workflow) }.

Definition logged (lv : level) (msg : string) (w : World) : World :=
  {| disk := disk w; log := log w ++ [(lv, msg)]; saved := saved w |}.

Definition touched (path : string) (w : World) : World :=
  {| disk := set path 0%Z (disk w); log := log w; saved := saved w |}.

(** [Path.joinpath] for a relative second component. *)
Definition joinpath (dir name : string) : string := dir +++ "/" +++ name.

(** The local variables [lock] and [cores] of [create_benchmark]: [None]
    while no assignment has bound them. *)
Record Locals : Type := { lock : option string; cores : option string }.

(** Reading a local variable. *)
Definition read (variable : string) (v : option string) : result string :=
  match v with
  | Some s => Ok s
  | None => Raise (UnboundLocalError variable)
  end.

Definition lock_warning (folder : string) : string :=
  "Could not find folder to create lock files: " +++ folder +++
  String "010"%char
    "You will need to create them manually: 'cores.txt.lock' and 'cores.txt'".

(** Lines 115-127: the [try] block that creates the lock files and its
    [except (FileNotFoundError, OSError)] handler. *)
Definition create_lock_files (H : Host) (lock_files_folder : option string)
           (w : World) : Locals * World :=
  match lock_files_folder with
  | None => ({| lock := None; cores := None |}, w)
  | Some folder =>
      if can_mkdir H folder then
        let w := logged DEBUG ("Creating lock files at: " +++ folder) w in
        let lock_path := joinpath folder "cores.txt.lock" in
        let cores_path := joinpath folder "cores.txt" in
        let bound := {| lock := Some lock_path; cores := Some cores_path |} in
        if can_open H lock_path then
          let w := touched lock_path w in
          if can_open H cores_path then (bound, touched cores_path w)
          else (bound, logged WARNING (lock_warning folder) w)
        else (bound, logged WARNING (lock_warning folder) w)
      else
        ({| lock := None; cores := None |},
         logged WARNING (lock_warning folder) w)
  end.

(** Lines 131-151: the list [params] of one task. *)
Definition task_params (percent_cpu : Param PyFloat)
           (cpu_work gpu_work : option (Param Z))
           (lock_files_folder : option string) (L : Locals)
           (task : Task.t) : result (list string) :=
  cpu <- (match cpu_work with
          | Some cw =>
              if truthy cpu_work then
                _percent_cpu <- lookup percent_cpu (Task.category task) ;;
                _cpu_work <- lookup cw (Task.category task) ;;
                let base := ["--percent-cpu " +++ _percent_cpu;
                             "--cpu-work " +++ str_Z _cpu_work] in
                match lock_files_folder with
                | Some _ =>
                    lock_path <- read "lock" (lock L) ;;
                    cores_path <- read "cores" (cores L) ;;
                    Ok (base ++ ["--path-lock " +++ lock_path;
                                 "--path-cores " +++ cores_path])
                | None => Ok base
                end
              else Ok []
          | None => Ok []
          end) ;;
  gpu <- (match gpu_work with
          | Some gw =>
              if truthy gpu_work then
                _gpu_work <- lookup gw (Task.category task) ;;
                Ok ["--gpu-work " +++ str_Z _gpu_work]
              else Ok []
          | None => Ok []
          end) ;;
  Ok (cpu ++ gpu).

(** Lines 153-157: the task is reset and given its first arguments. *)
Definition reset_task (H : Host) (params : list string) (task : Task.t)
  : Task.t :=
  {| Task.name := Task.name task;
     Task.category := Task.category task;
     Task.runtime := 0%Z;
     Task.program := joinpath (this_dir H) "wfbench.py";
     Task.args := [Task.name task] ++ params;
     Task.files := [] |}.

(** [task.args.extend(more)]. *)
Definition extend_args (more : list string) (task : Task.t) : Task.t :=
  {| Task.name := Task.name task;
     Task.category := Task.category task;
     Task.runtime := Task.runtime task;
     Task.program := Task.program task;
     Task.args := Task.args task ++ more;
     Task.files := Task.files task |}.

(** [task.files.append(f)] for each [f] of [more], in order. *)
Definition append_files (more : list File.t) (task : Task.t) : Task.t :=
  {| Task.name := Task.name task;
     Task.category := Task.category task;
     Task.runtime := Task.runtime task;
     Task.program := Task.program task;
     Task.args := Task.args task;
     Task.files := Task.files task ++ more |}.

(** [for task in self.workflow.tasks.values(): ...] where the body mutates
    the task in place and may raise. *)
Fixpoint update_tasks (body : Task.t -> result Task.t) (ts : dict Task.t)
  : result (dict Task.t) :=
  match ts with
  | [] => Ok []
  | (k, task) :: ts' =>
      task' <- body task ;;
      rest <- update_tasks body ts' ;;
      Ok ((k, task') :: rest)
  end.

Definition with_tasks (wf : Workflow) (ts : dict Task.t) : Workflow :=
  {| tasks := ts;
     tasks_parents := tasks_parents wf;
     tasks_children := tasks_children wf |}.

(** [d[outer][inner] = v]. *)
Definition set_inner (outer inner : string) (v : Z) (d : dict (dict Z))
  : result (dict (dict Z)) :=
  row <- item outer d ;;
  Ok (set outer (set inner v row) d).

(** [_output_files]; the values of [data] are integers, on which [int] is
    the identity. *)
Definition _output_files (wf : Workflow) (data : dict Z)
  : result (dict (dict Z)) :=
  for_each
    (fun task output_files =>
       let output_files := setdefault (Task.name task) [] output_files in
       children <- item (Task.name task) (tasks_children wf) ;;
       match children with
       | [] =>
           sz <- item (Task.category task) data ;;
           set_inner (Task.name task) (Task.name task) sz output_files
       | _ :: _ =>
           for_each
             (fun child_name output_files =>
                child <- item child_name (tasks wf) ;;
                sz <- item (Task.category child) data ;;
                set_inner (Task.name task) (Task.name child) sz output_files)
             children output_files
       end)
    (values (tasks wf)) [].

(** [_calculate_input_files]. *)
Definition _calculate_input_files (wf : Workflow) : result (Z * Z) :=
  counts <-
    for_each
      (fun task (c : Z * Z) =>
         parents <- item (Task.name task) (tasks_parents wf) ;;
         match parents with
         | [] => Ok (fst c + 1, snd c)%Z
         | _ :: _ => Ok (fst c, snd c + 1)%Z
         end)
      (values (tasks wf)) (0, 0)%Z ;;
  let tasks_need_input := fst counts in
  let tasks_dont_need_input := snd counts in
  Ok (tasks_need_input, tasks_need_input * 2 + tasks_dont_need_input)%Z.

(** The first argument of [_add_output_files]: an [int] or a [Dict]. *)
Inductive OutputSpec : Type :=
| Uniform (file_size : Z)
| PerEdge (output_files : dict (dict Z)).

Definition edge_output_name (producer consumer : string) : string :=
  producer +++ "_" +++ consumer +++ "_output.txt".

Definition output_name (task : string) : string := task +++ "_output.txt".

Definition input_name (task : string) : string := task +++ "_input.txt".

(** [_add_output_files]. *)
Definition _add_output_files (output_files : OutputSpec) (wf : Workflow)
  : result Workflow :=
  ts <- update_tasks
          (fun task =>
             match output_files with
             | PerEdge outs =>
                 row <- item (Task.name task) outs ;;
                 Ok (append_files
                       (map (fun cs =>
                               File.mk (edge_output_name (Task.name task) (fst cs))
                                       (snd cs) OUTPUT) row)
                       task)
             | Uniform file_size =>
                 Ok (append_files
                       [File.mk (output_name (Task.name task)) file_size OUTPUT]
                       task)
             end)
          (tasks wf) ;;
  Ok (with_tasks wf ts).

(** The first loop of [_add_input_files]: [output_files] turned around. *)
Definition invert (output_files : dict (dict Z)) : result (dict (dict Z)) :=
  for_each
    (fun pc input_files =>
       for_each
         (fun cs input_files =>
            set_inner (fst cs) (fst pc) (snd cs)
                      (setdefault (fst cs) [] input_files))
         (snd pc) input_files)
    output_files [].

(** [_add_input_files]. *)
Definition _add_input_files (output_files : dict (dict Z)) (data : Param Z)
           (wf : Workflow) : result Workflow :=
  input_files <- invert output_files ;;
  ts <- update_tasks
          (fun task =>
             parents <- item (Task.name task) (tasks_parents wf) ;;
             match parents with
             | [] =>
                 sz <- lookup data (Task.category task) ;;
                 Ok (extend_args
                       [input_name (Task.name task)]
                       (append_files
                          [File.mk (input_name (Task.name task)) sz INPUT] task))
             | _ :: _ =>
                 match data with
                 | PerCategory _ =>
                     row <- item (Task.name task) input_files ;;
                     let names :=
                       map (fun ps => edge_output_name (fst ps) (Task.name task))
                           row in
                     Ok (extend_args names
                           (append_files
                              (map (fun ps =>
                                      File.mk (edge_output_name (fst ps)
                                                 (Task.name task))
                                              (snd ps) INPUT) row)
                              task))
                 | Scalar file_size =>
                     Ok (extend_args (map output_name parents)
                           (append_files
                              (map (fun parent =>
                                      File.mk (output_name parent) file_size INPUT)
                                   parents)
                              task))
                 end
             end)
          (tasks wf) ;;
  Ok (with_tasks wf ts).

(** The body of the loop of [_generate_data_for_root_nodes]: the input
    file of a root is written unless it is there already; [os.urandom]
    refuses a negative length. *)
Definition materialize_root_input (wf : Workflow) (save_dir : string)
           (data : Param Z) (task : Task.t) (w : World) : result World :=
  parents <- item (Task.name task) (tasks_parents wf) ;;
  match parents with
  | [] =>
      file_size <- lookup data (Task.category task) ;;
      let file := joinpath save_dir (input_name (Task.name task)) in
      match get file (disk w) with
      | Some _ => Ok w
      | None =>
          if (file_size <? 0)%Z then Raise ValueError
          else Ok (logged DEBUG ("Created file: " +++ file)
                     {| disk := set file file_size (disk w);
                        log := log w; saved := saved w |})
      end
  | _ :: _ => Ok w
  end.

(** [_generate_data_for_root_nodes]. *)
Definition _generate_data_for_root_nodes (wf : Workflow) (save_dir : string)
           (data : Param Z) (w : World) : result World :=
  for_each (materialize_root_input wf save_dir data) (values (tasks wf)) w.

(** The [--out] argument: the [str] of a dict from file name to size. *)
Definition out_argument (sizes : dict Z) : string :=
  "--out " +++ repr_dict sizes.

(** Lines 160-172: [data] is a dict. *)
Definition per_category_footprint (wf : Workflow) (save_dir : string)
           (data : dict Z) (w : World) : result (Workflow * World) :=
  outputs <- _output_files wf data ;;
  ts <- update_tasks
          (fun task =>
             row <- item (Task.name task) outputs ;;
             let outputs_file_size :=
               fold_left
                 (fun acc cs =>
                    set (edge_output_name (Task.name task) (fst cs)) (snd cs) acc)
                 row [] in
             Ok (extend_args [out_argument outputs_file_size] task))
          (tasks wf) ;;
  let wf := with_tasks wf ts in
  wf <- _add_output_files (PerEdge outputs) wf ;;
  wf <- _add_input_files outputs (PerCategory data) wf ;;
  let w := logged DEBUG "Generating system files." w in
  w <- _generate_data_for_root_nodes wf save_dir (PerCategory data) w ;;
  Ok (wf, w).

(** The loop of lines 185-192: every task gets its [--out] argument, and
    [outputs] is rebound for every task, so that the value left after the
    loop is that of the last task. *)
Fixpoint uniform_out_loop (wf : Workflow) (file_size : Z) (ts : dict Task.t)
         (outputs : option (dict (dict Z)))
  : result (dict Task.t * option (dict (dict Z))) :=
  match ts with
  | [] => Ok ([], outputs)
  | (k, task) :: ts' =>
      let task' :=
        extend_args
          [out_argument [(output_name (Task.name task), file_size)]] task in
      children <- item (Task.name task) (tasks_children wf) ;;
      let outputs :=
        match children with
        | [] => []
        | _ :: _ =>
            [(Task.name task,
              fold_left (fun row child => set child file_size row) children [])]
        end in
      rest <- uniform_out_loop wf file_size ts' (Some outputs) ;;
      Ok ((k, task') :: fst rest, snd rest)
  end.

(** Lines 175-197: [data] is an integer, in megabytes. *)
Definition uniform_footprint (wf : Workflow) (save_dir : string)
           (data : Z) (w : World) : result (Workflow * World) :=
  counts <- _calculate_input_files wf ;;
  let num_sys_files := fst counts in
  let num_total_files := snd counts in
  let w := logged DEBUG
             ("Number of input files to be created by the system: "
              +++ str_Z num_sys_files) w in
  let w := logged DEBUG
             ("Total number of files used by the workflow: "
              +++ str_Z num_total_files) w in
  file_size <- (if (num_total_files =? 0)%Z then Raise ZeroDivisionError
                else Ok (round_div (data * 1000000) num_total_files)) ;;
  let w := logged DEBUG
             ("Every input/output file is of size: " +++ str_Z file_size) w in
  looped <- uniform_out_loop wf file_size (tasks wf) None ;;
  let wf := with_tasks wf (fst looped) in
  wf <- _add_output_files (Uniform file_size) wf ;;
  outputs <- match snd looped with
             | Some o => Ok o
             | None => Raise (UnboundLocalError "outputs")
             end ;;
  wf <- _add_input_files outputs (Scalar file_size) wf ;;
  let w := logged DEBUG "Generating system files." w in
  w <- _generate_data_for_root_nodes wf save_dir (Scalar file_size) w ;;
  Ok (wf, w).

(** [create_benchmark] from line 115 on.  [wf] is [self.workflow] and
    [json_path] the path computed at lines 112-113; the function returns
    the path with the workflow and the world it leaves. *)
Definition create_benchmark (H : Host) (wf : Workflow)
           (save_dir json_path : string)
           (percent_cpu : Param PyFloat)
           (cpu_work gpu_work data : option (Param Z))
           (lock_files_folder : option string) (w : World)
  : result (string * Workflow * World) :=
  let (L, w) := create_lock_files H lock_files_folder w in
  ts <- update_tasks
          (fun task =>
             params <- task_params percent_cpu cpu_work gpu_work
                                   lock_files_folder L task ;;
             Ok (reset_task H params task))
          (tasks wf) ;;
  let wf := with_tasks wf ts in
  sized <- (match data with
            | Some (PerCategory d) => per_category_footprint wf save_dir d w
            | Some (Scalar n) => uniform_footprint wf save_dir n w
            | None => Ok (wf, w)
            end) ;;
  let (wf, w) := (sized : Workflow * World) in
  let w := logged INFO ("Saving benchmark workflow: " +++ json_path) w in
  Ok (json_path, wf,
      {| disk := disk w; log := log w;
         saved := saved w ++ [(json_path, wf)] |}).

End Bench.

(** *** Vocabulary for the assembler's properties *)

Module BenchSpec.
Import Bench.

(** Two dict entries with the same key whose tasks are related by [R]. *)
Definition entrywise (R : Task.t -> Task.t -> Prop)
           (kt kt' : string * Task.t) : Prop :=
  fst kt' = fst kt /\ R (snd kt) (snd kt').

(** [t'] is [t] after appends to its arguments and to its manifest, and
    nothing else. *)
Definition appended (t t' : Task.t) : Prop :=
  Task.name t' = Task.name t /\
  Task.category t' = Task.category t /\
  Task.runtime t' = Task.runtime t /\
  Task.program t' = Task.program t /\
  (exists more, Task.args t' = Task.args t ++ more) /\
  (exists more, Task.files t' = Task.files t ++ more).

(** A task with everything but its identity blanked. *)
Definition forget (t : Task.t) : Task.t :=
  {| Task.name := Task.name t; Task.category := Task.category t;
     Task.runtime := 0%Z; Task.program := ""; Task.args := [];
     Task.files := [] |}.

Definition forget_all (wf : Workflow) : Workflow :=
  with_tasks wf (map (fun kt => (fst kt, forget (snd kt))) (tasks wf)).

(** Every task finds its name in both adjacency dicts. *)
Definition listed (wf : Workflow) : Prop :=
  forall k t, In (k, t) (tasks wf) ->
              (exists ps, get (Task.name t) (tasks_parents wf) = Some ps) /\
              (exists cs, get (Task.name t) (tasks_children wf) = Some cs).

(** The tasks are stored under their names, and the parents listed for a
    task are tasks. *)
Definition named (wf : Workflow) : Prop :=
  Forall (fun kt => fst kt = Task.name (snd kt)) (tasks wf) /\
  NoDup (keys (tasks wf)) /\
  forall k ps, In k (keys (tasks wf)) ->
               get k (tasks_parents wf) = Some ps ->
               incl ps (keys (tasks wf)).

Definition parents_of (wf : Workflow) (name : string) : list string :=
  match get name (tasks_parents wf) with
  | Some ps => ps
  | None => []
  end.

Definition is_root (wf : Workflow) (t : Task.t) : bool :=
  match parents_of wf (Task.name t) with
  | [] => true
  | _ :: _ => false
  end.

Definition count_roots (wf : Workflow) : Z :=
  Z.of_nat (List.length (filter (is_root wf) (values (tasks wf)))).

Definition count_others (wf : Workflow) : Z :=
  Z.of_nat (List.length
              (filter (fun t => negb (is_root wf t)) (values (tasks wf)))).

(** The parameters of a task, [[]] if they do not resolve. *)
Definition params_of (pc : Param PyFloat) (cw gw : option (Param Z))
           (lff : option string) (L : Locals) (t : Task.t) : list string :=
  match task_params pc cw gw lff L t with
  | Ok ps => ps
  | Raise _ => []
  end.

(** What [_add_input_files] does to one task when [data] is an integer. *)
Definition uniform_inputs (wf : Workflow) (file_size : Z) (t : Task.t)
  : Task.t :=
  match parents_of wf (Task.name t) with
  | [] =>
      extend_args [input_name (Task.name t)]
                  (append_files
                     [File.mk (input_name (Task.name t)) file_size INPUT] t)
  | (_ :: _) as parents =>
      extend_args (map output_name parents)
                  (append_files
                     (map (fun parent =>
                             File.mk (output_name parent) file_size INPUT)
                          parents) t)
  end.

(** What the uniform-footprint branch does to one task. *)
Definition uniform_fill (wf : Workflow) (file_size : Z) (t : Task.t)
  : Task.t :=
  let n := Task.name t in
  uniform_inputs wf file_size
    (append_files [File.mk (output_name n) file_size OUTPUT]
       (extend_args [out_argument [(output_name n, file_size)]] t)).

(** All file records of the graph, and the sum of the sizes of its files,
    a file being counted once however many records name it. *)
Definition all_files (wf : Workflow) : list File.t :=
  flat_map Task.files (values (tasks wf)).

Definition size_of (fs : list File.t) (name : string) : Z :=
  match find (fun f => String.eqb (File.name f) name) fs with
  | Some f => File.size f
  | None => 0%Z
  end.

Definition file_names (wf : Workflow) : list string :=
  nodup string_dec (map File.name (all_files wf)).

Definition footprint (wf : Workflow) : Z :=
  fold_right Z.add 0%Z (map (size_of (all_files wf)) (file_names wf)).

(** The file names of the graph after the uniform branch: one output per
    task and one input per root. *)
Definition uniform_names (wf : Workflow) : list string :=
  map output_name (keys (tasks wf))
  ++ map input_name (map Task.name (filter (is_root wf) (values (tasks wf)))).

Definition children_of (wf : Workflow) (name : string) : list string :=
  match get name (tasks_children wf) with
  | Some cs => cs
  | None => []
  end.

(** The children listed for a task are tasks. *)
Definition children_are_tasks (wf : Workflow) : Prop :=
  forall k cs, In k (keys (tasks wf)) ->
               get k (tasks_children wf) = Some cs ->
               incl cs (keys (tasks wf)).

(** A task is listed among the children of each of its parents. *)
Definition linked_back (wf : Workflow) : Prop :=
  forall k t p, In (k, t) (tasks wf) ->
                In p (parents_of wf (Task.name t)) ->
                In (Task.name t) (children_of wf p).

(** [data] gives a non-negative size for the category of every task. *)
Definition covered (wf : Workflow) (data : dict Z) : Prop :=
  forall k t, In (k, t) (tasks wf) ->
              exists sz, get (Task.category t) data = Some sz /\ (0 <= sz)%Z.

(** [data[task.category]], 0 standing for a missing category. *)
Definition own_size (data : dict Z) (t : Task.t) : Z :=
  match get (Task.category t) data with
  | Some sz => sz
  | None => 0%Z
  end.

(** [data[tasks[name].category]]. *)
Definition category_size (wf : Workflow) (data : dict Z) (name : string) : Z :=
  match get name (tasks wf) with
  | Some t => own_size data t
  | None => 0%Z
  end.

(** The row [_output_files] computes for a task. *)
Definition row_of (wf : Workflow) (data : dict Z) (t : Task.t) : dict Z :=
  match children_of wf (Task.name t) with
  | [] => [(Task.name t, own_size data t)]
  | (_ :: _) as cs =>
      fold_left (fun row c => set c (category_size wf data c) row) cs []
  end.

Definition outputs_of (wf : Workflow) (data : dict Z) : dict (dict Z) :=
  map (fun kt => (Task.name (snd kt), row_of wf data (snd kt))) (tasks wf).

(** [invert], with the empty dict standing for an exception. *)
Definition inverted (outs : dict (dict Z)) : dict (dict Z) :=
  match invert outs with
  | Ok input_files => input_files
  | Raise _ => []
  end.

Definition is_output (f : File.t) : bool := FileLink_eqb (File.link f) OUTPUT.

Definition is_input (f : File.t) : bool := FileLink_eqb (File.link f) INPUT.

(** What [_add_input_files] does to one task when [data] is a dict and
    [input_files] is the inverted dict. *)
Definition per_category_inputs (wf : Workflow) (data : dict Z)
           (input_files : dict (dict Z)) (t : Task.t) : Task.t :=
  let n := Task.name t in
  match parents_of wf n with
  | [] =>
      extend_args [input_name n]
                  (append_files [File.mk (input_name n) (own_size data t) INPUT]
                                t)
  | _ :: _ =>
      let row := match get n input_files with
                 | Some r => r
                 | None => []
                 end in
      extend_args (map (fun ps => edge_output_name (fst ps) n) row)
                  (append_files
                     (map (fun ps =>
                             File.mk (edge_output_name (fst ps) n) (snd ps) INPUT)
                          row)
                     t)
  end.

(** What the per-category branch does to one task. *)
Definition per_category_fill (wf : Workflow) (data : dict Z) (t : Task.t)
  : Task.t :=
  let n := Task.name t in
  let row := row_of wf data t in
  per_category_inputs wf data (inverted (outputs_of wf data))
    (append_files
       (map (fun cs => File.mk (edge_output_name n (fst cs)) (snd cs) OUTPUT)
            row)
       (extend_args
          [out_argument
             (fold_left
                (fun acc cs => set (edge_output_name n (fst cs)) (snd cs) acc)
                row [])]
          t)).

(** The dependency contract between the graph [wf] and its assembled form
    [wf']: every input file of a task that has parents bears the name of
    an output file of one of these parents. *)
Definition inputs_come_from_parents (wf wf' : Workflow) : Prop :=
  forall k t' f,
    In (k, t') (tasks wf') ->
    parents_of wf k <> [] ->
    In f (Task.files t') -> File.link f = INPUT ->
    exists p tp g,
      In p (parents_of wf k) /\ In (p, tp) (tasks wf') /\
      In g (Task.files tp) /\ File.link g = OUTPUT /\
      File.name g = File.name f.

End BenchSpec.

(** ** The local executor (bench.py: run, assigning_correct_files,
    cleanup_sys_files) *)

Module Executor.

(** The directories the executor distinguishes: the one the process was
    launched in, the directory of bench.py ([this_dir]), the scratch
    directory of the [n]-th launch ([this_dir/wfbench_execution/<uuid>]),
    and any other. *)
Inductive Dir : Type :=
| Launch
| Package
| Scratch (n : nat)
| Elsewhere (path : string).

Definition Dir_eqb (a b : Dir) : bool :=
  match a, b with
  | Launch, Launch | Package, Package => true
  | Scratch n, Scratch m => Nat.eqb n m
  | Elsewhere p, Elsewhere q => String.eqb p q
  | _, _ => false
  end.

(** A [Popen] object: its command line and the scratch directory it was
    started in. *)
Record Proc : Type := { argv : list string; scratch : nat }.

Inductive Event : Type :=
| Spawned (task : string) (p : Proc)
| Slept
| Waited (p : Proc)
| Killall.

(** What the executor observes of the machine: whether [this_dir/name]
    exists at the [k]-th probe, whether [Popen] finds the executable of a
    command line, the entries of every directory before the run, and the
    entries of every directory at the time [cleanup_sys_files] first lists
    it.  Entries are regular files that the process may delete. *)
Record Machine : Type :=
  { present : nat -> string -> bool;
    popen_ok : list string -> bool;
    at_start : Dir -> list string;
    listing : Dir -> list string }.

(** The executor's variables: the set [has_executed] in insertion order,
    the list [procs], the current directory, the number of probes made, and
    the events so far. *)
Record State : Type :=
  { has_executed : list string;
    procs : list Proc;
    cwd : Dir;
    probes : nat;
    trace : list Event }.

Inductive outcome : Type :=
| Done (st : State)
| Failed (e : exn) (st : State).

Definition is_input (f : File.t) : bool := FileLink_eqb (File.link f) INPUT.

(** [assigning_correct_files]. *)
Definition assigning_correct_files (task : Task.t) : list string :=
  fold_left
    (fun files file => if is_input file then files ++ [File.name file] else files)
    (Task.files task) [].

(** Lines 386-394: the command line of a task. *)
Definition command_line (task : Task.t) : list string :=
  let executable := Task.program task in
  let arguments := Task.args task in
  if mem "--out" arguments then
    ["time"; "python"; executable] ++ arguments ++ assigning_correct_files task
  else ["time"; "python"; executable] ++ arguments.

(** The list comprehension of lines 377-381: one probe per name, in order. *)
Fixpoint probe_all (M : Machine) (names : list string) (k : nat)
  : list bool * nat :=
  match names with
  | [] => ([], k)
  | n :: names' =>
      let r := probe_all M names' (S k) in
      (present M k n :: fst r, snd r)
  end.

(** [all(xs)]. *)
Definition all (xs : list bool) : bool := forallb (fun b => b) xs.

(** Lines 375-401: the body of the [for] loop for one task. *)
Definition visit (M : Machine) (task : Task.t) (st : State) : outcome :=
  if mem (Task.name task) (has_executed st) then Done st
  else
    let probed :=
      probe_all M (map File.name (filter is_input (Task.files task)))
                (probes st) in
    let ready_to_execute := all (fst probed) in
    if negb ready_to_execute then
      Done {| has_executed := has_executed st; procs := procs st;
              cwd := cwd st; probes := snd probed; trace := trace st |}
    else
      let program := command_line task in
      let folder := List.length (has_executed st) in
      let p := {| argv := program; scratch := folder |} in
      if popen_ok M program then
        Done {| has_executed := has_executed st ++ [Task.name task];
                procs := procs st ++ [p];
                cwd := Package;
                probes := snd probed;
                trace := trace st ++ [Spawned (Task.name task) p] |}
      else
        Failed (FileNotFoundError "No such file or directory: 'time'")
               {| has_executed := has_executed st ++ [Task.name task];
                  procs := procs st;
                  cwd := Scratch folder;
                  probes := snd probed;
                  trace := trace st |}.

(** Lines 374-401: one pass of the [for] loop over the tasks. *)
Fixpoint scan (M : Machine) (tasks : list Task.t) (st : State) : outcome :=
  match tasks with
  | [] => Done st
  | task :: tasks' =>
      match visit M task st with
      | Done st' => scan M tasks' st'
      | Failed e st' => Failed e st'
      end
  end.

(** [time.sleep(1)]. *)
Definition sleep (st : State) : State :=
  {| has_executed := has_executed st; procs := procs st; cwd := cwd st;
     probes := probes st; trace := trace st ++ [Slept] |}.

(** Lines 373-403: the [while] loop, for at most [fuel] passes; [None]
    when the loop is still running after them. *)
Fixpoint poll (M : Machine) (tasks : list Task.t) (fuel : nat) (st : State)
  : option outcome :=
  if (List.length (has_executed st) <? List.length tasks)%nat then
    match fuel with
    | O => None
    | S fuel' =>
        match scan M tasks st with
        | Done st' => poll M tasks fuel' (sleep st')
        | Failed e st' => Some (Failed e st')
        end
    end
  else Some (Done st).

(** Lines 404-405: [for proc in procs: proc.wait()]. *)
Definition wait_all (st : State) : State :=
  {| has_executed := has_executed st; procs := procs st; cwd := cwd st;
     probes := probes st; trace := trace st ++ map Waited (procs st) |}.

(** [fnmatch] for a pattern made of literal characters and [*]. *)
Fixpoint wildcard (pattern : list ascii) (s : list ascii) : bool :=
  match pattern with
  | [] => match s with [] => true | _ :: _ => false end
  | c :: pattern' =>
      if Ascii.eqb c "*"%char then
        (fix star (s : list ascii) : bool :=
           wildcard pattern' s
           || match s with
              | [] => false
              | _ :: s' => star s'
              end) s
      else
        match s with
        | [] => false
        | d :: s' => Ascii.eqb c d && wildcard pattern' s'
        end
  end.

(** [glob.glob(pattern)] in a directory with these entries, for a pattern
    without directory part that does not start with a dot: hidden entries
    are skipped. *)
Definition glob (pattern : string) (entries : list string) : list string :=
  filter (fun n => negb (prefix "." n)
                   && wildcard (list_ascii_of_string pattern)
                               (list_ascii_of_string n))
         entries.

(** [os.remove(t)] for each [t], in a directory whose entries are regular
    files that the process may delete: the only failure is a name that is
    not there, at which the loop stops; returns the exception, if any, and
    the entries left. *)
Fixpoint remove_all (names : list string) (entries : list string)
  : option exn * list string :=
  match names with
  | [] => (None, entries)
  | t :: names' =>
      if mem t entries then
        remove_all names' (filter (fun x => negb (String.eqb x t)) entries)
      else (Some (FileNotFoundError ("No such file or directory: " +++ t)),
            entries)
  end.

(** [cleanup_sys_files], in a current directory with these entries. *)
Definition cleanup_sys_files (entries : list string)
  : option exn * list string :=
  let input_files := glob "*input*.txt" entries in
  let output_files := glob "*output.txt" entries in
  let all_files := input_files ++ output_files in
  remove_all all_files entries.

(** How a run ended: the exception that left [run], if any, the
    executor's variables, and the entries of its current directory. *)
Record Report : Type :=
  { raised : option exn; final : State; entries_left : list string }.

Definition wrapped_failure : exn :=
  FileNotFoundError "Not able to find the executable.".

(** Lines 408-413: the [except Exception] handler, entered with these
    entries in the current directory. *)
Definition handler (M : Machine) (st : State) (entries : list string)
  : Report :=
  if popen_ok M ["killall"; "stress-ng"] then
    let st := {| has_executed := has_executed st; procs := procs st;
                 cwd := cwd st; probes := probes st;
                 trace := trace st ++ [Killall] |} in
    match cleanup_sys_files entries with
    | (None, rest) =>
        {| raised := Some wrapped_failure; final := st; entries_left := rest |}
    | (Some e, rest) =>
        {| raised := Some e; final := st; entries_left := rest |}
    end
  else
    {| raised := Some (FileNotFoundError "No such file or directory: 'killall'");
       final := st; entries_left := entries |}.

Definition start : State :=
  {| has_executed := []; procs := []; cwd := Launch; probes := 0;
     trace := [] |}.

(** [run].  [document] is the outcome of reading the workflow and opening
    the log, with [wf["workflow"]["tasks"]] on success; [None] is returned
    when the poll loop is still running after [fuel] passes. *)
Definition run (M : Machine) (document : result (list Task.t)) (fuel : nat)
  : option Report :=
  let body :=
    match document with
    | Raise e => Some (Failed e start)
    | Ok tasks =>
        match poll M tasks fuel start with
        | Some (Done st) => Some (Done (wait_all st))
        | other => other
        end
    end in
  match body with
  | None => None
  | Some (Done st) =>
      match cleanup_sys_files (listing M (cwd st)) with
      | (None, rest) =>
          Some {| raised := None; final := st; entries_left := rest |}
      | (Some _, rest) => Some (handler M st rest)
      end
  | Some (Failed _ st) => Some (handler M st (listing M (cwd st)))
  end.

(** *** Vocabulary for the executor's properties *)

(** The entries of a directory after the run. *)
Definition after (M : Machine) (r : Report) (d : Dir) : list string :=
  if Dir_eqb d (cwd (final r)) then entries_left r else listing M d.

(** An entry that [cleanup_sys_files] looks for. *)
Definition generated (n : string) : bool :=
  negb (prefix "." n)
  && (wildcard (list_ascii_of_string "*input*.txt") (list_ascii_of_string n)
      || wildcard (list_ascii_of_string "*output.txt") (list_ascii_of_string n)).

(** The tasks launched, in order. *)
Fixpoint launches (tr : list Event) : list string :=
  match tr with
  | [] => []
  | Spawned task _ :: tr' => task :: launches tr'
  | _ :: tr' => launches tr'
  end.

(** The processes waited for, in order. *)
Fixpoint waits (tr : list Event) : list Proc :=
  match tr with
  | [] => []
  | Waited p :: tr' => p :: waits tr'
  | _ :: tr' => waits tr'
  end.

(** An absolute path. *)
Definition absolute (p : string) : bool := prefix "/" p.

(** The processes started, in order. *)
Fixpoint spawned (tr : list Event) : list Proc :=
  match tr with
  | [] => []
  | Spawned _ p :: tr' => p :: spawned tr'
  | _ :: tr' => spawned tr'
  end.

(** The command line the executor builds for a task: the recorded
    arguments and, when ["--out"] is one of them, the names of the input
    files as the manifest has them. *)
Definition expected_argv (task : Task.t) : list string :=
  ["time"; "python"; Task.program task] ++ Task.args task
  ++ (if mem "--out" (Task.args task)
      then map File.name (filter is_input (Task.files task))
      else []).

(** What holds of the executor's variables at every test of the [while]
    condition. *)
Record steady (tasks : list Task.t) (st : State) : Prop :=
  { launched_all_marked : launches (trace st) = has_executed st;
    marked_once : NoDup (has_executed st);
    marked_are_tasks : incl (has_executed st) (map Task.name tasks);
    started_all_kept : spawned (trace st) = procs st;
    nothing_awaited : waits (trace st) = [];
    command_lines :
      forall name p, In (Spawned name p) (trace st) ->
                     exists task, In task tasks /\ Task.name task = name /\
                                  argv p = expected_argv task }.

End Executor.

(** ** Concrete graphs and machines used in the examples *)

Module Examples.
Import Bench.

Definition host : Host :=
  {| this_dir := "/opt/wfcommons/wfbench";
     can_mkdir := fun _ => true;
     can_open := fun _ => true |}.

(** A machine on which no directory can be created. *)
Definition host_without_mkdir : Host :=
  {| this_dir := "/opt/wfcommons/wfbench";
     can_mkdir := fun _ => false;
     can_open := fun _ => true |}.

Definition empty_world : World := {| disk := []; log := []; saved := [] |}.

(** A task as the builder leaves it: a sampled runtime of 1.5 s and one
    synthesized output file. *)
Definition built (name category : string) : Task.t :=
  {| Task.name := name; Task.category := category; Task.runtime := 1500%Z;
     Task.program := ""; Task.args := [];
     Task.files := [File.mk "0b6c1a5e.fits" 4096%Z OUTPUT] |}.

(** A -> B. *)
Definition chain : Workflow :=
  {| tasks := [("A", built "A" "a"); ("B", built "B" "b")];
     tasks_parents := [("A", []); ("B", ["A"])];
     tasks_children := [("A", ["B"]); ("B", [])] |}.

(** A -> B, A -> C, B -> D. *)
Definition fork : Workflow :=
  {| tasks := [("A", built "A" "a"); ("B", built "B" "b");
               ("C", built "C" "c"); ("D", built "D" "d")];
     tasks_parents := [("A", []); ("B", ["A"]); ("C", ["A"]); ("D", ["B"])];
     tasks_children := [("A", ["B"; "C"]); ("B", ["D"]); ("C", []);
                        ("D", [])] |}.

(** A -> C, B -> C, C -> D: two roots and two other tasks. *)
Definition join : Workflow :=
  {| tasks := [("A", built "A" "a"); ("B", built "B" "b");
               ("C", built "C" "c"); ("D", built "D" "d")];
     tasks_parents := [("A", []); ("B", []); ("C", ["A"; "B"]); ("D", ["C"])];
     tasks_children := [("A", ["C"]); ("B", ["C"]); ("C", ["D"]);
                        ("D", [])] |}.

Definition sizes : dict Z :=
  [("a", 10%Z); ("b", 100%Z); ("c", 200%Z); ("d", 50%Z)].

(** Random sources that number their draws. *)
Definition entropy : Recipe.Entropy :=
  {| Recipe.uuid4 := fun k => "uuid" +++ str_Z (Z.of_nat k);
     Recipe.generate_rvs := fun k d => (Recipe.dist_min d + Z.of_nat k)%Z |}.

Definition law : Recipe.Dist :=
  {| Recipe.distribution := "norm"; Recipe.dist_min := 100%Z;
     Recipe.dist_max := 200%Z |}.

(** A recipe whose job reads a [.fits] and a [.hdr] file and writes a
    [.fits] file. *)
Definition mProject : Recipe.JobRecipe :=
  {| Recipe.r_runtime := law;
     Recipe.r_input := [(".fits", law); (".hdr", law)];
     Recipe.r_output := [(".fits", law)] |}.

Definition montage : dict Recipe.JobRecipe := [("mProject", mProject)].

(** The tasks of the chain A -> B as [create_benchmark] saves them for a
    footprint of 1 MB, and as [run] reads them back. *)
Definition assembled_chain : list Task.t :=
  Eval vm_compute in
    match create_benchmark host chain "/data" "/data/chain-2.json"
                           (Scalar "0.6") (Some (Scalar 100%Z)) None
                           (Some (Scalar 1%Z)) None empty_world with
    | Ok (_, wf, _) => values (tasks wf)
    | Raise _ => []
    end.

(** A machine on which the input of A is there from the start, the output
    of A appears before the third probe, and every command is found.  When
    cleanup lists the package directory it holds the input of A, the two
    outputs and the log. *)
Definition obliging : Executor.Machine :=
  {| Executor.present :=
       fun k n => String.eqb n "A_input.txt"
                  || (String.eqb n "A_output.txt" && Nat.leb 2 k);
     Executor.popen_ok := fun _ => true;
     Executor.at_start :=
       fun d => match d with
                | Executor.Package => ["A_input.txt"]
                | _ => []
                end;
     Executor.listing :=
       fun d => match d with
                | Executor.Package =>
                    ["A_input.txt"; "run.txt"; "A_output.txt"; "B_output.txt"]
                | _ => []
                end |}.

Definition no_report : Executor.Report :=
  {| Executor.raised := None; Executor.final := Executor.start;
     Executor.entries_left := [] |}.

(** The run of the assembled chain on that machine. *)
Definition chain_report : Executor.Report :=
  Eval vm_compute in
    match Executor.run obliging (Ok assembled_chain) 5 with
    | Some r => r
    | None => no_report
    end.

(** A task whose arguments carry ["--out"] as an argument of its own. *)
Definition flagged : Task.t :=
  {| Task.name := "A"; Task.category := "a"; Task.runtime := 0%Z;
     Task.program := "/opt/wfcommons/wfbench/wfbench.py";
     Task.args := ["A"; "--out"; "{'A_output.txt': 5}"];
     Task.files := [File.mk "A_output.txt" 5%Z OUTPUT;
                    File.mk "A_input.txt" 5%Z INPUT] |}.

Definition flagged_report : Executor.Report :=
  Eval vm_compute in
    match Executor.run obliging (Ok [flagged]) 5 with
    | Some r => r
    | None => no_report
    end.

(** A machine without [time]: only [killall] is found. *)
Definition without_time : Executor.Machine :=
  {| Executor.present := Executor.present obliging;
     Executor.popen_ok :=
       fun argv => match argv with
                   | cmd :: _ => String.eqb cmd "killall"
                   | [] => false
                   end;
     Executor.at_start := Executor.at_start obliging;
     Executor.listing :=
       fun d => match d with
                | Executor.Package => ["A_input.txt"; "run.txt"]
                | _ => []
                end |}.

(** A machine launched in a directory that holds a file matching both
    patterns between two output files. *)
Definition with_double_match : Executor.Machine :=
  {| Executor.present := fun _ _ => false;
     Executor.popen_ok := fun _ => true;
     Executor.at_start := fun _ => [];
     Executor.listing :=
       fun d => match d with
                | Executor.Launch =>
                    ["b_output.txt"; "input_output.txt"; "c_output.txt"]
                | _ => []
                end |}.

End Examples.

(** ** The builder's job names and file queries (abstract_recipe.py) *)

Module Naming.
Import Recipe.




Definition fresh_recipe : State := {| jobs_files := []; draws := 0 |}.




(** *** Vocabulary *)




(** A string such as [str(uuid.uuid4())]: not empty, and free of dots and
    slashes. *)
Definition plain (s : string) : bool :=
  negb (String.eqb s "") && negb (has_char "."%char s)
  && negb (has_char "/"%char s).

(** An extension such as [".fits"]: a dot followed by characters other
    than dots and slashes. *)
Definition dotted (e : string) : bool :=
  match e with
  | String c rest =>
      Ascii.eqb c "."%char && negb (has_char "."%char rest)
      && negb (has_char "/"%char rest)
  | EmptyString => false
  end.

(** The files [_generate_files] appends for the extensions [ks] when the
    extensions in [present] are there already and [k] draws have been
    made. *)
Fixpoint fresh_files (E : Entropy) (recipe : dict Dist) (l : FileLink)
         (files_recipe : FilesRecipe) (present ks : list string) (k : nat)
  : list File.t :=
  match ks with
  | [] => []
  | e :: ks' =>
      if mem e present then fresh_files E recipe l files_recipe present ks' k
      else
        match get e recipe with
        | Some d =>
            let n := Z.to_nat (num_files files_recipe l e) in
            batch E e d l k n
            ++ fresh_files E recipe l files_recipe present ks' (k + n)
        | None => fresh_files E recipe l files_recipe present ks' k
        end
  end.

(** The names of [fs] start with the uuids of the draws from [k] on, one
    draw per file. *)
Definition names_drawn (E : Entropy) (k : nat) (fs : list File.t) : Prop :=
  Forall2 (fun j f => exists e, File.name f = uuid4 E j +++ e)
          (seq k (List.length fs)) fs.

(** The uuids of the first [n] draws are as long as each other and differ
    from each other. *)
Definition collision_free (E : Entropy) (n : nat) : Prop :=
  forall i j, (i < n)%nat -> (j < n)%nat ->
              String.length (uuid4 E i) = String.length (uuid4 E j) /\
              (uuid4 E i = uuid4 E j -> i = j).

End Naming.

(** ** Further concrete inputs *)

Module Built.
Import Recipe Naming.

Definition no_job : Job :=
  {| job_name := ""; job_runtime := 0%Z; job_args := []; job_cores := 0%Z;
     job_files := [] |}.

(** The job that a fresh recipe object builds for [mProject] from the
    files of a parent, with the state it leaves. *)
Definition montage_job : Job * State :=
  Eval vm_compute in
    match _generate_job Examples.entropy Examples.montage "mProject"
                        "mProject_00000002"
                        (Some [File.mk "parent.fits" 10%Z OUTPUT;
                               File.mk "parent.hdr" 5%Z INPUT])
                        None fresh_recipe with
    | Ok r => r
    | Raise _ => (no_job, fresh_recipe)
    end.

(** A recipe object in which one job is registered with one input. *)
Definition one_job : State :=
  {| jobs_files := [("mProject_00000001", [File.mk "raw.fits" 7%Z INPUT])];
     draws := 0 |}.

(** The state after the output files of that job have been generated. *)
Definition one_job_with_outputs : State :=
  Eval vm_compute in
    match _generate_files Examples.entropy "mProject_00000001"
                          (r_output Examples.mProject) OUTPUT None one_job with
    | Ok st => st
    | Raise _ => one_job
    end.

End Built.

(** *** Further vocabulary for the assembler *)

Module AssemblySpec.
Import Bench BenchSpec.

(** The path of the input file that is generated for a root task. *)
Definition root_input (save_dir : string) (t : Task.t) : string :=
  joinpath save_dir (input_name (Task.name t)).

(** A per-category parameter that has no entry for a category. *)
Definition lacks {V} (p : Param V) (category : string) : Prop :=
  match p with
  | PerCategory d => get category d = None
  | Scalar _ => False
  end.

(** What [data] must satisfy for [create_benchmark] to size the files of
    a graph: a positive number of tasks for a total in megabytes; tasks
    stored under their names, a consistent adjacency and a non-negative
    size for every category otherwise. *)
Definition sizes_the_graph (wf : Workflow) (data : Param Z) : Prop :=
  match data with
  | Scalar D => (0 <= D)%Z /\ tasks wf <> []
  | PerCategory d =>
      named wf /\ children_are_tasks wf /\ linked_back wf /\ covered wf d
  end.

(** The table [input_files] has the entry [input_files[c][p] = sz]. *)
Definition reads (input_files : dict (dict Z)) (p c : string) (sz : Z)
  : Prop :=
  exists r, get c input_files = Some r /\ In (p, sz) r.

(** The table [output_files] has the entry [output_files[p][c] = sz]. *)
Definition writes (output_files : dict (dict Z)) (p c : string) (sz : Z)
  : Prop :=
  exists row, In (p, row) output_files /\ In (c, sz) row.

(** A table of two levels whose keys are distinct at both levels, as the
    keys of Python dicts are. *)
Definition proper_table (t : dict (dict Z)) : Prop :=
  NoDup (keys t) /\ forall p row, In (p, row) t -> NoDup (keys row).

(** The [--out] argument that describes the output files of a manifest. *)
Definition declared_outputs (fs : list File.t) : string :=
  out_argument (map (fun f => (File.name f, File.size f))
                    (filter is_output fs)).

End AssemblySpec.

Module Assembled.
Import Bench.

(** A disk on which the input of A is there already, with 99 bytes. *)
Definition seeded : World :=
  {| disk := [("/data/A_input.txt", 99%Z)]; log := []; saved := [] |}.

(** The world after the root inputs of the graph with roots A and B have
    been generated with 5 bytes each. *)
Definition materialized : World :=
  Eval vm_compute in
    match _generate_data_for_root_nodes Examples.join "/data" (Scalar 5%Z)
                                        seeded with
    | Ok w => w
    | Raise _ => seeded
    end.

(** A graph without tasks. *)
Definition no_tasks : Workflow :=
  {| tasks := []; tasks_parents := []; tasks_children := [] |}.

(** The benchmark of the fork with per-category sizes and lock files, as
    [create_benchmark] returns it on the seeded disk. *)
Definition locked_fork : string * Workflow * World :=
  Eval vm_compute in
    match create_benchmark Examples.host Examples.fork "/data"
                           "/data/fork-4.json" (Scalar "0.6")
                           (Some (Scalar 100%Z)) None
                           (Some (PerCategory Examples.sizes)) (Some "/locks")
                           seeded with
    | Ok r => r
    | Raise _ => ("", no_tasks, seeded)
    end.

End Assembled.

(** *** Further vocabulary for the executor *)

Module RunSpec.
Import Executor.

(** The names that the readiness test of a task probes, in order. *)
Definition inputs_of (task : Task.t) : list string :=
  map File.name (filter is_input (Task.files task)).

(** Every probe of a readiness test that starts at probe [k] finds its
    file. *)
Definition found_all (M : Machine) (k : nat) (names : list string) : Prop :=
  forall i n, nth_error names i = Some n -> present M (k + i) n = true.

(** Every launch of the trace is that of a task whose readiness test
    found all the inputs of the task. *)
Definition launched_when_ready (M : Machine) (tasks : list Task.t)
           (tr : list Event) : Prop :=
  forall name p,
    In (Spawned name p) tr ->
    exists task k, In task tasks /\ Task.name task = name /\
                   found_all M k (inputs_of task).

(** Where the process stands between two launches: in the directory it
    was started in until the first launch, in the directory of bench.py
    afterwards. *)
Definition standing (st : State) : Prop :=
  cwd st = match has_executed st with
           | [] => Launch
           | _ :: _ => Package
           end.

(** A visible entry that both patterns of [cleanup_sys_files] match. *)
Definition matches_both (n : string) : bool :=
  negb (prefix "." n)
  && wildcard (list_ascii_of_string "*input*.txt") (list_ascii_of_string n)
  && wildcard (list_ascii_of_string "*output.txt") (list_ascii_of_string n).

(** A machine on which nothing exists and no command is found but
    [killall]. *)
Definition barren : Machine :=
  {| present := fun _ _ => false;
     popen_ok := fun argv => match argv with
                             | cmd :: _ => String.eqb cmd "killall"
                             | [] => false
                             end;
     at_start := fun _ => [];
     listing := fun d => match d with
                         | Package => ["A_output.txt"; "run.txt"]
                         | _ => []
                         end |}.

(** A machine on which every file exists and every command is found. *)
Definition lavish : Machine :=
  {| present := fun _ _ => true;
     popen_ok := fun _ => true;
     at_start := fun _ => [];
     listing := fun d => match d with
                         | Package => ["A_output.txt"; "run.txt"; ".cache"]
                         | _ => []
                         end |}.

(** A task without files, followed by a task that waits for a file. *)
Definition free : Task.t :=
  {| Task.name := "F"; Task.category := "f"; Task.runtime := 0%Z;
     Task.program := "/opt/wfcommons/wfbench/wfbench.py";
     Task.args := ["F"]; Task.files := [] |}.

Definition waiting : Task.t :=
  {| Task.name := "W"; Task.category := "w"; Task.runtime := 0%Z;
     Task.program := "/opt/wfcommons/wfbench/wfbench.py";
     Task.args := ["W"];
     Task.files := [File.mk "F_output.txt" 1%Z INPUT] |}.

Definition barren_report : Report :=
  Eval vm_compute in
    match run barren (Ok [free; waiting]) 3 with
    | Some r => r
    | None => Examples.no_report
    end.

Definition lavish_report : Report :=
  Eval vm_compute in
    match run lavish (Ok [free; waiting]) 1 with
    | Some r => r
    | None => Examples.no_report
    end.

End RunSpec.

(** ** The input file of parameters and the data generator (bench.py) *)

Module Tools.
Import Bench.

(** What [generate_sys_data] changes: regular files with their size, and
    the lines printed. *)
Record Shell : Type := { files : dict Z; printed : list string }.

(** The body of the inner loop of [generate_sys_data]: the file is opened
    for writing, which replaces what it held, and filled with random
    bytes; [os.urandom] refuses a negative length. *)
Definition write_input (H : Host) (file_total_size : Z)
           (save_dir name : string) (sh : Shell) : result Shell :=
  let file := joinpath save_dir (input_name name) in
  if can_open H file then
    if (file_total_size <? 0)%Z then Raise ValueError
    else Ok {| files := set file file_total_size (files sh);
               printed := printed sh ++ ["Created file: " +++ file] |}
  else Raise (OSError file).

(** [generate_sys_data]. *)
Definition generate_sys_data (H : Host) (num_files file_total_size : Z)
           (task_name : list string) (save_dir : string) (sh : Shell)
  : result Shell :=
  for_each
    (fun _ sh => for_each (write_input H file_total_size save_dir) task_name sh)
    (seq 0 (Z.to_nat num_files)) sh.

(** [s.split(sep)[0]] for a non-empty [sep]: what precedes the first
    occurrence of [sep], all of [s] if there is none. *)
Fixpoint before_first (sep s : string) : string :=
  match s with
  | EmptyString => EmptyString
  | String c s' =>
      if prefix sep s then EmptyString else String c (before_first sep s')
  end.

(** [task.name.split("_0")[0]]. *)
Definition task_type (name : string) : string := before_first "_0" name.

(** The dict [inputs] of [generate_input_file], one field per key. *)
Record Inputs : Type :=
  { percent_cpu : dict PyFloat;
    cpu_work : dict Z;
    gpu_work : dict Z;
    data : dict Z }.

(** The body of the loop over the nodes: [setdefault] of the task type
    with the default of each key. *)
Definition add_task_type (inputs : Inputs) (task : Task.t) : Inputs :=
  let task_type := task_type (Task.name task) in
  {| percent_cpu := setdefault task_type "0.6" (percent_cpu inputs);
     cpu_work := setdefault task_type 1000%Z (cpu_work inputs);
     gpu_work := setdefault task_type 100%Z (gpu_work inputs);
     data := setdefault task_type 10%Z (data inputs) |}.

(** [generate_input_file]: the dict that is written to [path], for the
    tasks of the generated workflow in node order. *)
Definition generate_input_file (nodes : list Task.t) : Inputs :=
  fold_left add_task_type nodes
            {| percent_cpu := []; cpu_work := []; gpu_work := []; data := [] |}.

(** The keyword arguments read from an input file: a key that is absent
    leaves the default of [create_benchmark] in force. *)
Record Params : Type :=
  { p_percent_cpu : option (Param PyFloat);
    p_cpu_work : option (Param Z);
    p_gpu_work : option (Param Z);
    p_data : option (Param Z) }.

(** [create_benchmark_from_input_file], for the parsed content [params]
    of the input file; the path is computed as in [create_benchmark]. *)
Definition create_benchmark_from_input_file (H : Host) (wf : Workflow)
           (save_dir json_path : string) (params : Params)
           (lock_files_folder : option string) (w : World)
  : result (string * Workflow * World) :=
  create_benchmark H wf save_dir json_path
                   (match p_percent_cpu params with
                    | Some p => p
                    | None => Scalar "0.6"
                    end)
                   (p_cpu_work params) (p_gpu_work params) (p_data params)
                   lock_files_folder w.

(** The content of the file that [generate_input_file] wrote, read back
    unedited. *)
Definition as_written (inputs : Inputs) : Params :=
  {| p_percent_cpu := Some (PerCategory (percent_cpu inputs));
     p_cpu_work := Some (PerCategory (cpu_work inputs));
     p_gpu_work := Some (PerCategory (gpu_work inputs));
     p_data := Some (PerCategory (data inputs)) |}.

(** *** Vocabulary *)

(** [sep] occurs in [s]. *)
Fixpoint occurs (sep s : string) : bool :=
  match s with
  | EmptyString => prefix sep EmptyString
  | String _ s' => prefix sep s || occurs sep s'
  end.

(** The elements of a list in the order of their first occurrence. *)
Definition first_occurrences (l : list string) : list string :=
  fold_left (fun seen x => if mem x seen then seen else seen ++ [x]) l [].

(** The task types of the nodes, in the order of their first
    occurrence. *)
Definition task_types (nodes : list Task.t) : list string :=
  first_occurrences (map (fun task => task_type (Task.name task)) nodes).

Definition blank : Shell := {| files := []; printed := [] |}.

End Tools.

Module ToolExamples.
Import Bench Tools.

(** Two names written twice over a disk that holds one of the files. *)
Definition twice_written : Shell :=
  Eval vm_compute in
    match generate_sys_data Examples.host 2 5 ["A"; "B"] "/data"
                            {| files := [("/data/A_input.txt", 99%Z)];
                               printed := [] |} with
    | Ok sh => sh
    | Raise _ => blank
    end.

(** The nodes of a generated workflow: two tasks of one type and one of
    another. *)
Definition nodes : list Task.t :=
  [Examples.built "a_00000001" "a"; Examples.built "b_00000002" "b";
   Examples.built "a_00000003" "a"].

(** The fork with the categories of these nodes. *)
Definition typed_fork : Workflow :=
  {| tasks := [("A", Examples.built "A" "a"); ("B", Examples.built "B" "b");
               ("C", Examples.built "C" "a"); ("D", Examples.built "D" "b")];
     tasks_parents := tasks_parents Examples.fork;
     tasks_children := tasks_children Examples.fork |}.

End ToolExamples.

(** ** Iterating over a trace (trace.py: __iter__, __next__) *)

Module TraceIter.

(** What ends a call of [__next__] other than a value: the
    [StopIteration] of the source, and the errors of indexing [None] or of
    indexing past the end of a list. *)
Inductive signal : Type := StopIteration | TypeError | IndexError.

(** The two variables of a [Trace] that serve iteration. *)
Record Cursor : Type := { _n : nat; _order : option (list string) }.

(** [__init__]: [_n = 0] and [_order = None]. *)
Definition unstarted : Cursor := {| _n := 0; _order := None |}.

(** [__iter__], for the list that [nx.topological_sort] returns. *)
Definition __iter__ (topological_sort : list string) (c : Cursor) : Cursor :=
  {| _n := 0; _order := Some topological_sort |}.

(** [__next__], in a workflow of [size] nodes. *)
Definition __next__ (size : nat) (c : Cursor) : (string + signal) * Cursor :=
  if (_n c <? size)%nat then
    match _order c with
    | None => (inr TypeError, c)
    | Some order =>
        match nth_error order (_n c) with
        | Some val => (inl val, {| _n := S (_n c); _order := _order c |})
        | None => (inr IndexError, c)
        end
    end
  else (inr StopIteration, c).

(** The calls of [__next__] that a [for] loop makes, at most [fuel] of
    them: the values obtained before [StopIteration], or the error that
    ended the loop; [None] when the loop is still running. *)
Fixpoint drain (size fuel : nat) (c : Cursor)
  : option (list string * option signal * Cursor) :=
  match fuel with
  | O => None
  | S fuel' =>
      match __next__ size c with
      | (inl val, c') =>
          match drain size fuel' c' with
          | Some (vals, err, c'') => Some (val :: vals, err, c'')
          | None => None
          end
      | (inr StopIteration, c') => Some ([], None, c')
      | (inr err, c') => Some ([], Some err, c')
      end
  end.

(** [for job in trace: ...]: [__iter__] once, then [__next__]. *)
Definition for_loop (topological_sort : list string) (size fuel : nat)
           (c : Cursor) : option (list string * option signal * Cursor) :=
  drain size fuel (__iter__ topological_sort c).

End TraceIter.

(** ** The executor while it polls *)

Module Polling.
Import Executor.

(** The executor's variables that an outcome carries. *)
Definition state_of (o : outcome) : State :=
  match o with
  | Done st | Failed _ st => st
  end.

(** Lines 373-403 again: the [while] loop of [poll], observed after at
    most [n] passes.  Where [poll] has no answer because the loop is
    still running, [passes] gives the variables at the test of the
    condition that follows the [n]-th pass; where the loop has ended, by
    a false condition or by an exception, it gives the outcome of
    [poll]. *)
Fixpoint passes (M : Machine) (tasks : list Task.t) (n : nat) (st : State)
  : outcome :=
  if (List.length (has_executed st) <? List.length tasks)%nat then
    match n with
    | O => Done st
    | S n' =>
        match scan M tasks st with
        | Done st' => passes M tasks n' (sleep st')
        | Failed e st' => Failed e st'
        end
    end
  else Done st.

(** The events of a run up to that point. *)
Definition events (M : Machine) (tasks : list Task.t) (n : nat)
  : list Event :=
  trace (state_of (passes M tasks n start)).

(** The input files of a task exist at every probe. *)
Definition always_there (M : Machine) (task : Task.t) : Prop :=
  forall k f, In f (RunSpec.inputs_of task) -> present M k f = true.

(** On [Examples.obliging], the variables after one pass over the chain:
    A is launched, B waits for the output of A. *)
Definition first_chain_pass : State :=
  Eval vm_compute in
    state_of (passes Examples.obliging Examples.assembled_chain 1 start).

End Polling.

(** ** What the specification asks of the builder's fresh files *)

Module BuilderSpec.
Import Recipe.

(** Modelled from the specification: a file name carries the extension
    [e] when it is a base name, not empty and free of dots and slashes,
    followed by [e]. *)
Definition bears (e name : string) : Prop :=
  exists base, Naming.plain base = true /\ name = base +++ e.

(** A file name with at most one extension: a base name alone, or a base
    name followed by a dot and characters other than dots and slashes. *)
Definition simple (name : string) : Prop :=
  Naming.plain name = true \/
  exists e, Naming.dotted e = true /\ bears e name.

(** Modelled from the specification: the job has on record a file of
    direction [l] that carries the extension [e]. *)
Definition recorded (l : FileLink) (e : string) (fs : list File.t) : Prop :=
  exists f, In f fs /\ File.link f = l /\ bears e (File.name f).

(** Modelled from the specification: the number of fresh files asked for
    an extension is the entry of [files_recipe] for the direction and the
    extension when there is one, and a single file otherwise. *)
Definition requested (files_recipe : FilesRecipe) (l : FileLink)
           (e : string) : nat :=
  match files_recipe with
  | Some per_link =>
      match link_get l per_link with
      | Some per_extension =>
          match get e per_extension with
          | Some n => Z.to_nat n
          | None => 1%nat
          end
      | None => 1%nat
      end
  | None => 1%nat
  end.

(** Modelled from the specification: [n] fresh files of extension [e],
    each named by the uuid of its draw followed by [e] and sized by the
    same draw of the law [d]. *)
Definition drawn (E : Entropy) (e : string) (d : Dist) (l : FileLink)
           (k n : nat) : list File.t :=
  map (fun j => File.mk (uuid4 E j +++ e) (generate_rvs E j d) l) (seq k n).

(** Modelled from the specification: the fresh files of one direction.
    Going through the extensions of the recipe in order, an extension
    that a file on record in that direction carries gets no fresh file,
    and any other gets the requested number of fresh files; the draws
    are consecutive, from [k] up to [k']. *)
Inductive fresh_for (E : Entropy) (recipe : dict Dist) (l : FileLink)
          (files_recipe : FilesRecipe) (on_record : list File.t)
  : list string -> nat -> list File.t -> nat -> Prop :=
| fresh_done k : fresh_for E recipe l files_recipe on_record [] k [] k
| fresh_skipped e es k fs k' :
    recorded l e on_record ->
    fresh_for E recipe l files_recipe on_record es k fs k' ->
    fresh_for E recipe l files_recipe on_record (e :: es) k fs k'
| fresh_made e d es k fs k' :
    ~ recorded l e on_record ->
    get e recipe = Some d ->
    fresh_for E recipe l files_recipe on_record es
              (k + requested files_recipe l e) fs k' ->
    fresh_for E recipe l files_recipe on_record (e :: es) k
              (drawn E e d l k (requested files_recipe l e) ++ fs) k'.

(** A recipe whose job reads an archive: its only input extension has
    two dots. *)
Definition unpack : JobRecipe :=
  {| r_runtime := Examples.law;
     r_input := [(".tar.gz", Examples.law)];
     r_output := [] |}.

Definition archive : dict JobRecipe := [("unpack", unpack)].

End BuilderSpec.

(** * Properties *)

(** ** Dictionaries *)

Lemma get_set_same {V} (k : string) (v : V) (d : dict V) :
  get k (set k v d) = Some v.
Proof.
  induction d as [|[k' v'] d IH]; simpl.
  - now rewrite String.eqb_refl.
  - destruct (String.eqb k k') eqn:E; simpl.
    + now rewrite String.eqb_refl.
    + now rewrite E.
Qed.

Lemma get_set_other {V} (k k' : string) (v : V) (d : dict V) :
  k <> k' -> get k' (set k v d) = get k' d.
Proof.
  intros Hne. induction d as [|[k0 v0] d IH]; simpl.
  - destruct (String.eqb k' k) eqn:E; [|reflexivity].
    apply String.eqb_eq in E. congruence.
  - destruct (String.eqb k k0) eqn:E; simpl.
    + apply String.eqb_eq in E. subst k0.
      destruct (String.eqb k' k) eqn:E'; [|reflexivity].
      apply String.eqb_eq in E'. congruence.
    + now rewrite IH.
Qed.

Lemma item_Some {V} (k : string) (d : dict V) (v : V) :
  get k d = Some v -> item k d = Ok v.
Proof. unfold item. now intros ->. Qed.

Lemma get_In_keys {V} (k : string) (d : dict V) :
  In k (keys d) -> exists v, get k d = Some v.
Proof.
  induction d as [|[k' v'] d IH]; simpl; [tauto|].
  intros [->|H].
  - rewrite String.eqb_refl. eauto.
  - destruct (String.eqb k k'); eauto.
Qed.

Lemma get_Some_In {V} (k : string) (v : V) (d : dict V) :
  get k d = Some v -> In (k, v) d.
Proof.
  induction d as [|[k' v'] d IH]; simpl; [discriminate|].
  destruct (String.eqb k k') eqn:E.
  - apply String.eqb_eq in E. subst. intros [= ->]. now left.
  - intros H. right. auto.
Qed.

Lemma get_None_not_In {V} (k : string) (d : dict V) :
  get k d = None <-> ~ In k (keys d).
Proof.
  induction d as [|[k' v'] d IH]; simpl; [tauto|].
  destruct (String.eqb k k') eqn:E.
  - apply String.eqb_eq in E. subst. split; [discriminate|tauto].
  - apply String.eqb_neq in E. rewrite IH. split; [|tauto].
    intros H [H'|H']; [congruence|tauto].
Qed.

Lemma mem_In (x : string) (xs : list string) : mem x xs = true <-> In x xs.
Proof.
  unfold mem. rewrite existsb_exists. split.
  - intros [y [Hy E]]. apply String.eqb_eq in E. now subst.
  - intros H. exists x. split; [assumption|apply String.eqb_refl].
Qed.

Lemma mem_false (x : string) (xs : list string) :
  mem x xs = false <-> ~ In x xs.
Proof.
  rewrite <- mem_In. destruct (mem x xs); split; congruence.
Qed.

(** ** The error monad *)

Lemma bind_Ok {A B} (m : result A) (k : A -> result B) (r : B) :
  Py.bind m k = Ok r -> exists a, m = Ok a /\ k a = Ok r.
Proof. destruct m; simpl; [eauto|discriminate]. Qed.

Ltac bind_inv H :=
  let a := fresh "a" in
  let E := fresh "E" in
  apply bind_Ok in H; destruct H as [a [E H]].

Lemma Forall2_compose {A} (R1 R2 R : A -> A -> Prop) (xs ys zs : list A) :
  (forall x y z, R1 x y -> R2 y z -> R x z) ->
  Forall2 R1 xs ys -> Forall2 R2 ys zs -> Forall2 R xs zs.
Proof.
  intros HR H1. revert zs. induction H1; intros zs H2; inversion H2; subst.
  - constructor.
  - constructor; eauto.
Qed.

Lemma Forall2_In_r {A B} (R : A -> B -> Prop) xs ys y :
  Forall2 R xs ys -> In y ys -> exists x, In x xs /\ R x y.
Proof.
  induction 1; simpl; [tauto|].
  intros [<-|Hy]; [eauto|].
  destruct (IHForall2 Hy) as [x0 [? ?]]. eauto.
Qed.

Lemma Forall2_In_l {A B} (R : A -> B -> Prop) xs ys x :
  Forall2 R xs ys -> In x xs -> exists y, In y ys /\ R x y.
Proof.
  induction 1; simpl; [tauto|].
  intros [<-|Hx]; [eauto|].
  destruct (IHForall2 Hx) as [y0 [? ?]]. eauto.
Qed.

(** ** The assembler: what every phase leaves of a task *)

Module BenchFacts.
Import Bench BenchSpec.

Lemma update_tasks_Forall2 body ts ts' :
  update_tasks body ts = Ok ts' ->
  Forall2 (entrywise (fun t t' => body t = Ok t')) ts ts'.
Proof.
  revert ts'. induction ts as [|[k t] ts IH]; simpl; intros ts' H.
  - injection H as <-. constructor.
  - bind_inv H. bind_inv H. injection H as <-.
    constructor; [split; auto|auto].
Qed.

Lemma update_tasks_total body (f : Task.t -> Task.t) ts :
  (forall k t, In (k, t) ts -> body t = Ok (f t)) ->
  update_tasks body ts = Ok (map (fun kt => (fst kt, f (snd kt))) ts).
Proof.
  induction ts as [|[k t] ts IH]; simpl; intros Hb; [reflexivity|].
  rewrite (Hb k t) by now left. simpl.
  rewrite IH by (intros k' t' Hin; apply (Hb k' t'); now right). reflexivity.
Qed.

Lemma update_tasks_ext body body' ts :
  (forall k t, In (k, t) ts -> body t = body' t) ->
  update_tasks body ts = update_tasks body' ts.
Proof.
  induction ts as [|[k t] ts IH]; simpl; intros Hb; [reflexivity|].
  rewrite (Hb k t) by now left.
  rewrite IH by (intros k' t' Hin; apply (Hb k' t'); now right). reflexivity.
Qed.

Lemma update_tasks_map body (g : Task.t -> Task.t) ts :
  update_tasks body (map (fun kt => (fst kt, g (snd kt))) ts)
  = update_tasks (fun t => body (g t)) ts.
Proof.
  induction ts as [|[k t] ts IH]; simpl; [reflexivity|].
  now rewrite IH.
Qed.

Lemma appended_refl t : appended t t.
Proof.
  repeat split; try reflexivity; exists []; now rewrite app_nil_r.
Qed.

Lemma appended_trans t1 t2 t3 :
  appended t1 t2 -> appended t2 t3 -> appended t1 t3.
Proof.
  intros (N1 & C1 & R1 & P1 & [a1 A1] & [f1 F1])
         (N2 & C2 & R2 & P2 & [a2 A2] & [f2 F2]).
  repeat split; try congruence.
  - exists (a1 ++ a2). rewrite A2, A1. now rewrite app_assoc.
  - exists (f1 ++ f2). rewrite F2, F1. now rewrite app_assoc.
Qed.

Lemma appended_extend_args more t : appended t (extend_args more t).
Proof.
  repeat split; simpl; eauto. exists []. now rewrite app_nil_r.
Qed.

Lemma appended_append_files more t : appended t (append_files more t).
Proof.
  repeat split; simpl; eauto. exists []. now rewrite app_nil_r.
Qed.

Lemma entrywise_appended_trans xs ys zs :
  Forall2 (entrywise appended) xs ys ->
  Forall2 (entrywise appended) ys zs ->
  Forall2 (entrywise appended) xs zs.
Proof.
  apply Forall2_compose. intros x y z [K1 A1] [K2 A2]. split.
  - congruence.
  - eapply appended_trans; eassumption.
Qed.

Lemma update_tasks_appended body ts ts' :
  (forall t t', body t = Ok t' -> appended t t') ->
  update_tasks body ts = Ok ts' ->
  Forall2 (entrywise appended) ts ts'.
Proof.
  intros Hb H. apply update_tasks_Forall2 in H.
  eapply Forall2_impl; [|exact H]. intros a b [K E]. split; auto.
Qed.

Lemma add_output_files_appended spec wf wf' :
  _add_output_files spec wf = Ok wf' ->
  tasks_parents wf' = tasks_parents wf /\
  tasks_children wf' = tasks_children wf /\
  Forall2 (entrywise appended) (tasks wf) (tasks wf').
Proof.
  unfold _add_output_files. intros H. bind_inv H. injection H as <-.
  simpl. repeat split. eapply update_tasks_appended; [|exact E].
  intros t t' Hb. destruct spec.
  - injection Hb as <-. apply appended_append_files.
  - bind_inv Hb. injection Hb as <-. apply appended_append_files.
Qed.

Lemma add_input_files_appended outs data wf wf' :
  _add_input_files outs data wf = Ok wf' ->
  tasks_parents wf' = tasks_parents wf /\
  tasks_children wf' = tasks_children wf /\
  Forall2 (entrywise appended) (tasks wf) (tasks wf').
Proof.
  unfold _add_input_files. intros H. bind_inv H. bind_inv H.
  injection H as <-. simpl. repeat split.
  eapply update_tasks_appended; [|exact E0].
  intros t t' Hb. bind_inv Hb. destruct a1 as [|p ps].
  - bind_inv Hb. injection Hb as <-.
    eapply appended_trans; [apply appended_append_files|apply appended_extend_args].
  - destruct data.
    + injection Hb as <-.
      eapply appended_trans; [apply appended_append_files|apply appended_extend_args].
    + bind_inv Hb. injection Hb as <-.
      eapply appended_trans; [apply appended_append_files|apply appended_extend_args].
Qed.

Lemma per_category_footprint_appended wf save_dir d w wf' w' :
  per_category_footprint wf save_dir d w = Ok (wf', w') ->
  tasks_parents wf' = tasks_parents wf /\
  tasks_children wf' = tasks_children wf /\
  Forall2 (entrywise appended) (tasks wf) (tasks wf').
Proof.
  unfold per_category_footprint. intros H.
  bind_inv H. bind_inv H. bind_inv H. bind_inv H. bind_inv H.
  injection H as <- <-.
  apply add_output_files_appended in E1. destruct E1 as (P1 & C1 & F1).
  apply add_input_files_appended in E2. destruct E2 as (P2 & C2 & F2).
  simpl in *. repeat split; try congruence.
  eapply entrywise_appended_trans; [|exact F2].
  eapply entrywise_appended_trans; [|exact F1].
  eapply update_tasks_appended; [|exact E0].
  intros t t' Hb. bind_inv Hb. injection Hb as <-.
  apply appended_extend_args.
Qed.

Lemma uniform_out_loop_appended wf file_size ts outs r :
  uniform_out_loop wf file_size ts outs = Ok r ->
  Forall2 (entrywise appended) ts (fst r).
Proof.
  revert outs r. induction ts as [|[k t] ts IH]; simpl; intros outs r H.
  - injection H as <-. constructor.
  - bind_inv H. bind_inv H. injection H as <-. simpl.
    constructor; [|eapply IH; eassumption].
    split; [reflexivity|apply appended_extend_args].
Qed.

Lemma uniform_footprint_appended wf save_dir n w wf' w' :
  uniform_footprint wf save_dir n w = Ok (wf', w') ->
  tasks_parents wf' = tasks_parents wf /\
  tasks_children wf' = tasks_children wf /\
  Forall2 (entrywise appended) (tasks wf) (tasks wf').
Proof.
  unfold uniform_footprint. intros H.
  bind_inv H. bind_inv H. bind_inv H. bind_inv H. bind_inv H. bind_inv H.
  bind_inv H. injection H as <- <-.
  apply add_output_files_appended in E2. destruct E2 as (P1 & C1 & F1).
  apply add_input_files_appended in E4. destruct E4 as (P2 & C2 & F2).
  apply uniform_out_loop_appended in E1.
  simpl in *. repeat split; try congruence.
  eapply entrywise_appended_trans; [|exact F2].
  eapply entrywise_appended_trans; [|exact F1]. exact E1.
Qed.

End BenchFacts.

(** ** The builder: which files [_generate_files] synthesizes *)

Module RecipeFacts.
Import Recipe.

Lemma batch_length E e d l k n : List.length (batch E e d l k n) = n.
Proof. revert k; induction n; simpl; intros; [reflexivity|now rewrite IHn]. Qed.

Lemma batch_generated E recipe e d l k n :
  get e recipe = Some d ->
  Forall (generated_for E recipe l e) (batch E e d l k n).
Proof.
  intros Hd. revert k; induction n; simpl; intros; constructor; auto.
  exists k, d. auto.
Qed.

Lemma repeat_append_ok E job_id e recipe l d n :
  get e recipe = Some d ->
  forall st fs,
    get job_id (jobs_files st) = Some fs ->
    exists st',
      repeat_append E job_id e recipe l n st = Ok st' /\
      get job_id (jobs_files st') = Some (fs ++ batch E e d l (draws st) n).
Proof.
  intros Hd. induction n as [|n IH]; intros st fs Hfs; simpl.
  - exists st. now rewrite app_nil_r.
  - unfold append_generated, _generate_file, item.
    rewrite Hfs, Hd. simpl.
    set (f := File.mk (uuid4 E (draws st) +++ e) (generate_rvs E (draws st) d) l).
    destruct (IH {| jobs_files := set job_id (fs ++ [f]) (jobs_files st);
                    draws := S (draws st) |} (fs ++ [f]))
      as [st' [Hrun Hget]]; [apply get_set_same|].
    exists st'. split; [exact Hrun|].
    rewrite Hget. simpl. now rewrite <- app_assoc.
Qed.

Lemma generate_files_loop E job_id recipe l files_recipe present :
  forall ks st fs,
    incl ks (keys recipe) ->
    get job_id (jobs_files st) = Some fs ->
    exists st' batches,
      for_each
        (fun extension st =>
           if mem extension present then Ok st
           else repeat_append E job_id extension recipe l
                  (Z.to_nat (num_files files_recipe l extension)) st)
        ks st = Ok st' /\
      get job_id (jobs_files st') = Some (fs ++ List.concat batches) /\
      Forall2 (fun extension b =>
                 List.length b = Z.to_nat (num_files files_recipe l extension) /\
                 Forall (generated_for E recipe l extension) b)
              (filter (fun e => negb (mem e present)) ks) batches.
Proof.
  induction ks as [|e ks IH]; intros st fs Hincl Hfs; simpl.
  - exists st, []. simpl. rewrite app_nil_r. auto.
  - assert (Hks : incl ks (keys recipe)) by (intros x Hx; apply Hincl; now right).
    destruct (mem e present) eqn:Hmem; simpl.
    + apply IH; assumption.
    + destruct (get_In_keys e recipe) as [d Hd]; [apply Hincl; now left|].
      destruct (repeat_append_ok E job_id e recipe l d
                  (Z.to_nat (num_files files_recipe l e)) Hd st fs Hfs)
        as [st1 [Hrun Hget1]].
      rewrite Hrun. simpl.
      destruct (IH st1 _ Hks Hget1) as [st' [bs [Hloop [Hget' Hall]]]].
      exists st', (batch E e d l (draws st)
                     (Z.to_nat (num_files files_recipe l e)) :: bs).
      split; [exact Hloop|]. split.
      * rewrite Hget'. simpl. now rewrite <- app_assoc.
      * constructor; [|exact Hall]. split.
        -- apply batch_length.
        -- now apply batch_generated.
Qed.

(** [_generate_files] never raises on a job that has a file list, and
    appends exactly the batches of the extensions it did not find. *)
Lemma generate_files_spec E job_id recipe l files_recipe st fs :
  get job_id (jobs_files st) = Some fs ->
  exists st' fresh,
    _generate_files E job_id recipe l files_recipe st = Ok st' /\
    get job_id (jobs_files st') = Some (fs ++ fresh) /\
    synthesized E recipe l files_recipe (extension_list fs l) fresh.
Proof.
  intros Hfs. unfold _generate_files, item. rewrite Hfs. simpl.
  destruct (generate_files_loop E job_id recipe l files_recipe
              (extension_list fs l) (keys recipe) st fs)
    as [st' [bs [Hrun [Hget Hall]]]]; [apply incl_refl|assumption|].
  exists st', (List.concat bs). repeat split; try assumption.
  exists bs. auto.
Qed.

Lemma generated_link E recipe l e g :
  generated_for E recipe l e g -> File.link g = l.
Proof. intros [k [d [_ ->]]]. reflexivity. Qed.

Lemma synthesized_link E recipe l fr present fresh :
  synthesized E recipe l fr present fresh ->
  Forall (fun g => File.link g = l) fresh.
Proof.
  intros [bs [-> Hall]]. induction Hall as [|e b es bs [_ Hb] _ IH]; simpl.
  - constructor.
  - apply Forall_app. split; [|exact IH].
    eapply Forall_impl; [|exact Hb]. intros g. apply generated_link.
Qed.

Lemma extension_list_other_link fs l l' :
  Forall (fun g => File.link g = l') fs -> l' <> l ->
  extension_list fs l = [].
Proof.
  intros Hall Hne. unfold extension_list.
  induction Hall as [|g fs Hg _ IH]; simpl; [reflexivity|].
  rewrite Hg. destruct l', l; simpl; try congruence; exact IH.
Qed.

Lemma inherited_link input_files :
  Forall (fun g => File.link g = INPUT) (inherited input_files).
Proof.
  unfold inherited. apply Forall_forall. intros g Hg.
  apply in_map_iff in Hg. destruct Hg as [f [<- _]]. reflexivity.
Qed.

End RecipeFacts.

Section BuilderClaims.
Import Recipe RecipeFacts.

(** On that job the linked [.fits] input suppresses the fresh [.fits]
    input, the missing [.hdr] input is synthesized, and so is the [.fits]
    output, no output being recorded yet. *)
Example generate_job_montage :
  exists job st',
    _generate_job Examples.entropy Examples.montage "mProject"
                  "mProject_00000002"
                  (Some [File.mk "parent.fits" 10%Z OUTPUT;
                         File.mk "parent.hdr" 5%Z INPUT])
                  None {| jobs_files := []; draws := 0 |} = Ok (job, st') /\
    job_files job = [File.mk "parent.fits" 10%Z INPUT;
                     File.mk "uuid1.hdr" 101%Z INPUT;
                     File.mk "uuid2.fits" 102%Z OUTPUT].
Proof. do 2 eexists. split; reflexivity. Qed.

End BuilderClaims.

(** ** The assembler: frame, lock files, no data *)

Section AssemblerClaims.
Import Bench BenchSpec BenchFacts.

Lemma task_params_forget pc cw gw lff L t :
  task_params pc cw gw lff L (forget t) = task_params pc cw gw lff L t.
Proof. reflexivity. Qed.

Lemma create_benchmark_forget H wf sd jp pc cw gw data lff w :
  create_benchmark H (forget_all wf) sd jp pc cw gw data lff w
  = create_benchmark H wf sd jp pc cw gw data lff w.
Proof.
  unfold create_benchmark. destruct (create_lock_files H lff w) as [L w0].
  unfold forget_all at 1. simpl tasks. rewrite update_tasks_map.
  reflexivity.
Qed.

Lemma task_params_no_out pc cw gw lff L t ps :
  task_params pc cw gw lff L t = Ok ps ->
  Forall (fun a => prefix "--out" a = false) ps.
Proof.
  unfold task_params. intros H. bind_inv H. bind_inv H. injection H as <-.
  apply Forall_app. split.
  - destruct cw as [c|]; [|injection E as <-; constructor].
    destruct (truthy (Some c)); [|injection E as <-; constructor].
    bind_inv E. bind_inv E. destruct lff.
    + bind_inv E. bind_inv E. injection E as <-.
      repeat constructor.
    + injection E as <-. repeat constructor.
  - destruct gw as [g|]; [|injection E0 as <-; constructor].
    destruct (truthy (Some g)); [|injection E0 as <-; constructor].
    bind_inv E0. injection E0 as <-. repeat constructor.
Qed.

Lemma create_lock_files_saved H lff w :
  saved (snd (create_lock_files H lff w)) = saved w.
Proof.
  unfold create_lock_files. destruct lff as [folder|]; [|reflexivity].
  destruct (can_mkdir H folder); [|reflexivity].
  destruct (can_open H _); [|reflexivity].
  destruct (can_open H _); reflexivity.
Qed.

(** C6 (as amended).  The assembler first resets every task (runtime 0,
    the wfbench program, the task name followed by its parameters as
    arguments, an empty manifest) and from then on only appends to the
    arguments and to the manifest.  Keys, names, categories and the
    adjacency dicts are unchanged, and the outcome is the one obtained from
    the graph whose tasks carry nothing but name and category: the runtime
    sampled by the builder and the files it attached are discarded. *)
Theorem assembler_resets_then_only_appends
        (H : Host) (wf : Workflow) (save_dir json_path : string)
        (percent_cpu : Param PyFloat) (cpu_work gpu_work data : option (Param Z))
        (lock_files_folder : option string) (w : World)
        (path : string) (wf' : Workflow) (w' : World) :
  create_benchmark H wf save_dir json_path percent_cpu cpu_work gpu_work
                   data lock_files_folder w = Ok (path, wf', w') ->
  create_benchmark H (forget_all wf) save_dir json_path percent_cpu cpu_work
                   gpu_work data lock_files_folder w = Ok (path, wf', w') /\
  tasks_parents wf' = tasks_parents wf /\
  tasks_children wf' = tasks_children wf /\
  Forall2
    (entrywise
       (fun t t' =>
          exists params,
            task_params percent_cpu cpu_work gpu_work lock_files_folder
                        (fst (create_lock_files H lock_files_folder w)) t
            = Ok params /\
            appended (reset_task H params t) t'))
    (tasks wf) (tasks wf').
Proof.
  intros Hrun. split; [now rewrite create_benchmark_forget|].
  unfold create_benchmark in Hrun.
  destruct (create_lock_files H lock_files_folder w) as [L w0]. simpl fst.
  bind_inv Hrun. bind_inv Hrun. destruct a0 as [wf1 w1].
  injection Hrun as _ <- _.
  apply update_tasks_Forall2 in E.
  assert (Hreset :
            Forall2
              (entrywise
                 (fun t t' =>
                    exists params,
                      task_params percent_cpu cpu_work gpu_work
                                  lock_files_folder L t = Ok params /\
                      t' = reset_task H params t))
              (tasks wf) a).
  { eapply Forall2_impl; [|exact E]. intros x y [K B]. split; [exact K|].
    bind_inv B. injection B as <-. eauto. }
  assert (Hrest : tasks_parents wf1 = tasks_parents wf /\
                  tasks_children wf1 = tasks_children wf /\
                  Forall2 (entrywise appended) a (tasks wf1)).
  { destruct data as [[n|d]|].
    - apply uniform_footprint_appended in E0. exact E0.
    - apply per_category_footprint_appended in E0. exact E0.
    - injection E0 as <- _. simpl. repeat split.
      clear. induction a; constructor; auto. split; [reflexivity|].
      apply appended_refl. }
  destruct Hrest as (P & C & F). repeat split; try assumption.
  eapply Forall2_compose; [|exact Hreset|exact F].
  intros x y z [K1 [ps [Hps Hy]]] [K2 A]. split; [congruence|].
  exists ps. rewrite Hy in A. auto.
Qed.

(** C6, as the specification states it, this fails: the task A built with a runtime of
    1.5 s and one file comes out with runtime 0 and without that file, so
    it is not the built task with appends only. *)
Lemma assembler_discards_builder_state :
  exists path wf' w' t',
    create_benchmark Examples.host Examples.chain "/data" "/data/chain-2.json"
                     (Scalar "0.6") None None None None Examples.empty_world
    = Ok (path, wf', w') /\
    get "A" (tasks wf') = Some t' /\
    Task.runtime t' <> Task.runtime (Examples.built "A" "a") /\
    ~ In (File.mk "0b6c1a5e.fits" 4096%Z OUTPUT) (Task.files t') /\
    ~ appended (Examples.built "A" "a") t'.
Proof.
  do 4 eexists. split; [vm_compute; reflexivity|].
  split; [reflexivity|]. simpl. split; [discriminate|]. split; [tauto|].
  intros (_ & _ & R & _). discriminate R.
Qed.

Lemma assembler_resets_then_only_appends_witness :
  exists path wf' w',
    create_benchmark Examples.host (forget_all Examples.fork) "/data"
                     "/data/fork-4.json" (Scalar "0.6") (Some (Scalar 100%Z))
                     None (Some (PerCategory Examples.sizes)) (Some "/locks")
                     Examples.empty_world = Ok (path, wf', w') /\
    tasks_children wf' = tasks_children Examples.fork.
Proof.
  do 3 eexists.
  refine ((fun P => conj (proj1 P) (proj1 (proj2 (proj2 P))))
            (assembler_resets_then_only_appends
               Examples.host Examples.fork "/data" "/data/fork-4.json"
               (Scalar "0.6") (Some (Scalar 100%Z)) None
               (Some (PerCategory Examples.sizes)) (Some "/locks")
               Examples.empty_world _ _ _ _)).
  vm_compute. reflexivity.
Defined.

(** C8, the failing run: the lock directory cannot be created, [cpu_work]
    is set, and [create_benchmark] raises [UnboundLocalError] on the
    first task instead of returning the path. *)
Lemma lock_failure_with_cpu_work_raises :
  create_benchmark Examples.host_without_mkdir Examples.chain "/data"
                   "/data/chain-2.json" (Scalar "0.6")
                   (Some (Scalar 100%Z)) None None (Some "/locks")
                   Examples.empty_world
  = Raise (UnboundLocalError "lock").
Proof. reflexivity. Qed.

(** The same for every graph with a task, every data policy and every
    world: a failed [mkdir] leaves [lock] unbound, and the first task whose
    cpu parameters resolve reads it. *)
Lemma unbound_lock_aborts H wf sd jp pc cw gw data folder w k t rest v1 v2 :
  can_mkdir H folder = false ->
  truthy (Some cw) = true ->
  tasks wf = (k, t) :: rest ->
  lookup pc (Task.category t) = Ok v1 ->
  lookup cw (Task.category t) = Ok v2 ->
  create_benchmark H wf sd jp pc (Some cw) gw data (Some folder) w
  = Raise (UnboundLocalError "lock").
Proof.
  intros Hmk Htr Hts H1 H2. unfold create_benchmark, create_lock_files.
  rewrite Hmk, Hts. simpl update_tasks. unfold task_params at 1.
  rewrite Htr, H1, H2. reflexivity.
Qed.

(** With the same failure and no [cpu_work], the warning is logged and the
    run returns the path. *)
Lemma lock_failure_without_cpu_work_continues :
  exists wf' w',
    create_benchmark Examples.host_without_mkdir Examples.chain "/data"
                     "/data/chain-2.json" (Scalar "0.6") None None
                     (Some (Scalar 1%Z)) (Some "/locks") Examples.empty_world
    = Ok ("/data/chain-2.json", wf', w') /\
    In (WARNING, lock_warning "/locks") (log w').
Proof.
  do 2 eexists. split; [vm_compute; reflexivity|]. simpl. auto.
Qed.

(** C10.  Without [data], and when the parameters of every task resolve,
    [create_benchmark] returns the path and saves the workflow under it;
    every manifest is empty; the arguments of a task are its name followed
    by its cpu, lock and gpu parameters, none of which is an [--out]
    argument; and the disk holds what it held once the lock files were
    dealt with, so that no input file of a root has been written. *)
Theorem create_benchmark_without_data
        (H : Host) (wf : Workflow) (save_dir json_path : string)
        (percent_cpu : Param PyFloat) (cpu_work gpu_work : option (Param Z))
        (lock_files_folder : option string) (w : World) :
  Forall (fun kt =>
            exists params,
              task_params percent_cpu cpu_work gpu_work lock_files_folder
                          (fst (create_lock_files H lock_files_folder w))
                          (snd kt) = Ok params)
         (tasks wf) ->
  exists wf' w',
    create_benchmark H wf save_dir json_path percent_cpu cpu_work gpu_work
                     None lock_files_folder w = Ok (json_path, wf', w') /\
    saved w' = saved w ++ [(json_path, wf')] /\
    disk w' = disk (snd (create_lock_files H lock_files_folder w)) /\
    Forall2
      (entrywise
         (fun t t' =>
            Task.files t' = [] /\
            exists params,
              task_params percent_cpu cpu_work gpu_work lock_files_folder
                          (fst (create_lock_files H lock_files_folder w)) t
              = Ok params /\
              Task.args t' = Task.name t :: params /\
              Forall (fun a => prefix "--out" a = false) params))
      (tasks wf) (tasks wf').
Proof.
  intros Hps. unfold create_benchmark.
  destruct (create_lock_files H lock_files_folder w) as [L w0] eqn:HL.
  simpl fst in *. simpl snd.
  set (body := fun task =>
                 params <- task_params percent_cpu cpu_work gpu_work
                                       lock_files_folder L task ;;
                 Ok (reset_task H params task)).
  assert (Hts : exists ts, update_tasks body (tasks wf) = Ok ts).
  { induction (tasks wf) as [|[k t] ts IH]; simpl; [eauto|].
    inversion Hps as [|? ? [ps Hp] Hrest]; subst.
    destruct (IH Hrest) as [ts' Hts']. unfold body at 1.
    simpl in Hp. rewrite Hp. simpl. rewrite Hts'. simpl. eauto. }
  destruct Hts as [ts Hts]. rewrite Hts. simpl.
  eexists _, _. split; [reflexivity|]. simpl.
  split.
  { rewrite <- (create_lock_files_saved H lock_files_folder w), HL.
    reflexivity. }
  split; [reflexivity|].
  apply update_tasks_Forall2 in Hts.
  eapply Forall2_impl; [|exact Hts]. intros x y [K B]. split; [exact K|].
  unfold body in B. bind_inv B. injection B as <-. simpl.
  split; [reflexivity|]. exists a. repeat split; try assumption.
  eapply task_params_no_out; eassumption.
Qed.

Lemma create_benchmark_without_data_witness :
  exists wf' w',
    create_benchmark Examples.host Examples.fork "/data" "/data/fork-4.json"
                     (Scalar "0.6") (Some (Scalar 100%Z)) (Some (Scalar 7%Z))
                     None (Some "/locks") Examples.empty_world
    = Ok ("/data/fork-4.json", wf', w') /\
    saved w' = [("/data/fork-4.json", wf')].
Proof.
  destruct (create_benchmark_without_data
              Examples.host Examples.fork "/data" "/data/fork-4.json"
              (Scalar "0.6") (Some (Scalar 100%Z)) (Some (Scalar 7%Z))
              (Some "/locks") Examples.empty_world)
    as (wf' & w' & Hrun & Hsaved & _).
  - repeat constructor; eexists; vm_compute; reflexivity.
  - exists wf', w'. split; [exact Hrun|exact Hsaved].
Defined.

End AssemblerClaims.

(** ** The assembler: the uniform-footprint branch, phase by phase *)

Module UniformFacts.
Import Bench BenchSpec BenchFacts.

(** On these inputs, which include ties and quotients next to a tie,
    [round_div] is the binary64 computation. *)
Example round_div_is_the_binary64_computation :
  map (fun an => round_div (fst an) (snd an))
      [(5, 2); (7, 2); (1, 3); (2, 3); (0, 5); (-5, 2); (1000000, 6);
       (1000000, 17); (123456789000000, 7); (4503599627370495, 2);
       (4503599627370493, 2); (4503599627370495, 4503599627370494)]%Z
  = map (fun an => binary64_round_div (fst an) (snd an))
      [(5, 2); (7, 2); (1, 3); (2, 3); (0, 5); (-5, 2); (1000000, 6);
       (1000000, 17); (123456789000000, 7); (4503599627370495, 2);
       (4503599627370493, 2); (4503599627370495, 4503599627370494)]%Z.
Proof. vm_compute. reflexivity. Qed.

Lemma round_div_nonneg a n : (0 <= a)%Z -> (0 < n)%Z -> (0 <= round_div a n)%Z.
Proof.
  intros Ha Hn. unfold round_div.
  rewrite (Z.abs_eq n) by lia. rewrite (Z.sgn_pos n) by lia. rewrite Z.mul_1_r.
  assert (0 <= a / n)%Z by (apply Z.div_pos; lia).
  destruct (2 * (a mod n) <? n)%Z; [lia|].
  destruct (n <? 2 * (a mod n))%Z; [lia|].
  destruct (Z.even (a / n)); lia.
Qed.

(** Rounding to the nearest integer moves the product back to within half
    the divisor. *)
Lemma round_div_error a n :
  (0 < n)%Z -> (2 * Z.abs (n * round_div a n - a) <= n)%Z.
Proof.
  intros Hn. unfold round_div.
  rewrite (Z.abs_eq n) by lia. rewrite (Z.sgn_pos n) by lia. rewrite Z.mul_1_r.
  pose proof (Z.div_mod a n ltac:(lia)) as Hdm.
  pose proof (Z.mod_pos_bound a n Hn) as Hb.
  destruct (2 * (a mod n) <? n)%Z eqn:E1.
  - apply Z.ltb_lt in E1. lia.
  - apply Z.ltb_ge in E1.
    destruct (n <? 2 * (a mod n))%Z eqn:E2.
    + apply Z.ltb_lt in E2. lia.
    + apply Z.ltb_ge in E2. destruct (Z.even (a / n)); lia.
Qed.

Lemma listed_parents wf k t :
  listed wf -> In (k, t) (tasks wf) ->
  get (Task.name t) (tasks_parents wf) = Some (parents_of wf (Task.name t)).
Proof.
  intros Hl Hin. destruct (Hl k t Hin) as [[ps Hps] _].
  unfold parents_of. now rewrite Hps.
Qed.

Lemma count_loop wf vs c :
  (forall t, In t vs -> exists ps, get (Task.name t) (tasks_parents wf) = Some ps) ->
  for_each
    (fun task (c : Z * Z) =>
       parents <- item (Task.name task) (tasks_parents wf) ;;
       match parents with
       | [] => Ok (fst c + 1, snd c)%Z
       | _ :: _ => Ok (fst c, snd c + 1)%Z
       end)
    vs c
  = Ok (fst c + Z.of_nat (List.length (filter (is_root wf) vs)),
        snd c + Z.of_nat (List.length
                            (filter (fun t => negb (is_root wf t)) vs)))%Z.
Proof.
  revert c. induction vs as [|t vs IH]; intros c Hl; simpl.
  - destruct c. simpl. f_equal. f_equal; lia.
  - destruct (Hl t (or_introl eq_refl)) as [ps Hps].
    assert (Hroot : is_root wf t = match ps with [] => true | _ :: _ => false end).
    { unfold is_root, parents_of. now rewrite Hps. }
    rewrite (item_Some _ _ _ Hps), Hroot. cbn [Py.bind].
    assert (Hl' : forall t, In t vs ->
                            exists ps, get (Task.name t) (tasks_parents wf) = Some ps)
      by (intros; apply Hl; now right).
    destruct ps as [|p ps]; cbn [Py.bind negb]; rewrite (IH _ Hl');
      cbn [fst snd List.length]; f_equal; f_equal; lia.
Qed.

Lemma listed_values wf t :
  listed wf -> In t (values (tasks wf)) ->
  exists ps, get (Task.name t) (tasks_parents wf) = Some ps.
Proof.
  intros Hl Hin. apply in_map_iff in Hin. destruct Hin as [[k t'] [<- Hin]].
  apply (Hl k t' Hin).
Qed.

Lemma calculate_input_files_spec wf :
  listed wf ->
  _calculate_input_files wf
  = Ok (count_roots wf, count_roots wf * 2 + count_others wf)%Z.
Proof.
  intros Hl. unfold _calculate_input_files.
  rewrite count_loop by (intros; now apply listed_values).
  reflexivity.
Qed.

Lemma counts_of_graph wf :
  (count_roots wf + count_others wf = Z.of_nat (List.length (tasks wf)))%Z.
Proof.
  unfold count_roots, count_others, values.
  rewrite <- (length_map snd (tasks wf)).
  induction (map snd (tasks wf)) as [|t vs IH]; [reflexivity|].
  cbn [filter List.length]. destruct (is_root wf t); cbn [negb List.length]; lia.
Qed.

Lemma uniform_out_loop_total wf file_size ts outs :
  (forall k t, In (k, t) ts ->
               exists cs, get (Task.name t) (tasks_children wf) = Some cs) ->
  exists outs',
    uniform_out_loop wf file_size ts outs
    = Ok (map (fun kt =>
                 (fst kt,
                  extend_args
                    [out_argument [(output_name (Task.name (snd kt)), file_size)]]
                    (snd kt))) ts, outs') /\
    (outs' = None -> ts = [] /\ outs = None).
Proof.
  revert outs. induction ts as [|[k t] ts IH]; intros outs Hl; simpl.
  - exists outs. split; [reflexivity|auto].
  - destruct (Hl k t (or_introl eq_refl)) as [cs Hcs].
    unfold item. rewrite Hcs. simpl.
    match goal with
    | |- context [uniform_out_loop wf file_size ts (Some ?o)] =>
        destruct (IH (Some o)) as [outs' [Hrun Hnone]]
    end.
    { intros; eapply Hl; right; eassumption. }
    rewrite Hrun. simpl. exists outs'. split; [reflexivity|].
    intros ->. destruct (Hnone eq_refl) as [_ Habs]. discriminate.
Qed.

Lemma get_setdefault {V} k (v : V) d :
  exists v', get k (setdefault k v d) = Some v'.
Proof.
  unfold setdefault. destruct (get k d) eqn:E; [eauto|].
  exists v. induction d as [|[k' v'] d IH]; simpl in *.
  - now rewrite String.eqb_refl.
  - destruct (String.eqb k k'); [discriminate|auto].
Qed.

Lemma invert_total outs : exists input_files, invert outs = Ok input_files.
Proof.
  unfold invert. generalize (@nil (string * dict Z)) as acc.
  induction outs as [|[p row] outs IH]; intros acc; simpl; [eauto|].
  assert (Hrow : exists acc',
             for_each
               (fun cs input_files =>
                  set_inner (fst cs) p (snd cs)
                            (setdefault (fst cs) [] input_files))
               row acc = Ok acc').
  { clear. revert acc. induction row as [|[c sz] row IH]; intros acc.
    - simpl. eauto.
    - cbn [for_each fst snd]. unfold set_inner at 1.
      destruct (get_setdefault c (@nil (string * Z)) acc) as [v' Hv].
      apply item_Some in Hv. rewrite Hv.
      cbn [Py.bind]. apply IH. }
  destruct Hrow as [acc' Hacc]. rewrite Hacc. simpl. apply IH.
Qed.

Lemma add_output_files_uniform wf file_size :
  _add_output_files (Uniform file_size) wf
  = Ok (with_tasks wf
          (map (fun kt =>
                  (fst kt,
                   append_files
                     [File.mk (output_name (Task.name (snd kt))) file_size OUTPUT]
                     (snd kt)))
               (tasks wf))).
Proof.
  unfold _add_output_files.
  rewrite (update_tasks_total _
             (fun t => append_files
                         [File.mk (output_name (Task.name t)) file_size OUTPUT] t))
    by reflexivity.
  reflexivity.
Qed.

Lemma uniform_inputs_name wf file_size t :
  Task.name (uniform_inputs wf file_size t) = Task.name t.
Proof.
  unfold uniform_inputs. destruct (parents_of wf (Task.name t)); reflexivity.
Qed.

Lemma add_input_files_uniform outs wf file_size :
  listed wf ->
  _add_input_files outs (Scalar file_size) wf
  = Ok (with_tasks wf
          (map (fun kt => (fst kt, uniform_inputs wf file_size (snd kt)))
               (tasks wf))).
Proof.
  intros Hl. unfold _add_input_files.
  destruct (invert_total outs) as [inp Hinp]. rewrite Hinp. simpl.
  rewrite (update_tasks_total _ (uniform_inputs wf file_size)).
  - reflexivity.
  - intros k t Hin. unfold item, uniform_inputs.
    rewrite (listed_parents wf k t Hl Hin). simpl.
    destruct (parents_of wf (Task.name t)); reflexivity.
Qed.

Lemma generate_data_uniform wf save_dir file_size :
  (0 <= file_size)%Z ->
  forall vs w,
    (forall t, In t vs ->
               exists ps, get (Task.name t) (tasks_parents wf) = Some ps) ->
    exists w',
      for_each (materialize_root_input wf save_dir (Scalar file_size)) vs w
      = Ok w'.
Proof.
  intros Hsz. induction vs as [|t vs IH]; intros w Hl; [simpl; eauto|].
  destruct (Hl t (or_introl eq_refl)) as [ps Hps].
  cbn [for_each]. unfold materialize_root_input at 1.
  rewrite (item_Some _ _ _ Hps). cbn [Py.bind lookup].
  assert (Hl' : forall t, In t vs ->
                          exists ps, get (Task.name t) (tasks_parents wf) = Some ps)
    by (intros; apply Hl; now right).
  destruct ps as [|p ps].
  - destruct (get _ (disk w)); [apply IH; assumption|].
    destruct (file_size <? 0)%Z eqn:E; [apply Z.ltb_lt in E; lia|].
    apply IH; assumption.
  - apply IH; assumption.
Qed.

Lemma with_tasks_twice wf a b : with_tasks (with_tasks wf a) b = with_tasks wf b.
Proof. reflexivity. Qed.

Lemma listed_map wf (g : string * Task.t -> Task.t) :
  (forall kt, Task.name (g kt) = Task.name (snd kt)) ->
  listed wf ->
  listed (with_tasks wf (map (fun kt => (fst kt, g kt)) (tasks wf))).
Proof.
  intros Hg Hl k t Hin. simpl in *.
  apply in_map_iff in Hin. destruct Hin as [[k0 t0] [Heq Hin]].
  injection Heq as <- <-. rewrite Hg. apply (Hl k0 t0 Hin).
Qed.

Lemma count_roots_map wf (g : Task.t -> Task.t) :
  (forall t, Task.name (g t) = Task.name t) ->
  count_roots (with_tasks wf (map (fun kt => (fst kt, g (snd kt))) (tasks wf)))
  = count_roots wf /\
  count_others (with_tasks wf (map (fun kt => (fst kt, g (snd kt))) (tasks wf)))
  = count_others wf.
Proof.
  intros Hg. unfold count_roots, count_others, values. simpl tasks.
  rewrite map_map. simpl.
  induction (tasks wf) as [|[k t] ts [IH1 IH2]]; [split; reflexivity|].
  assert (Hroot : is_root (with_tasks wf (map (fun kt => (fst kt, g (snd kt)))
                                              ((k, t) :: ts))) (g t)
                  = is_root wf t).
  { unfold is_root, parents_of. simpl. now rewrite Hg. }
  cbn [map filter snd]. unfold is_root, parents_of in *. simpl tasks_parents in *.
  rewrite Hg. destruct (get (Task.name t) (tasks_parents wf)) as [[|p ps]|];
    cbn [negb List.length]; split; lia.
Qed.

(** The uniform-footprint run in closed form. *)
Lemma create_benchmark_uniform H wf sd jp pc cw gw D lff w :
  listed wf ->
  tasks wf <> [] ->
  Forall (fun kt =>
            exists params,
              task_params pc cw gw lff (fst (create_lock_files H lff w))
                          (snd kt) = Ok params)
         (tasks wf) ->
  (0 <= D)%Z ->
  let L := fst (create_lock_files H lff w) in
  let file_size :=
    round_div (D * 1000000) (count_roots wf * 2 + count_others wf) in
  exists w',
    create_benchmark H wf sd jp pc cw gw (Some (Scalar D)) lff w
    = Ok (jp,
          with_tasks wf
            (map (fun kt =>
                    (fst kt,
                     uniform_fill wf file_size
                       (reset_task H (params_of pc cw gw lff L (snd kt)) (snd kt))))
                 (tasks wf)),
          w').
Proof.
  intros Hl Hne Hps HD L file_size. unfold create_benchmark.
  destruct (create_lock_files H lff w) as [L0 w0]. simpl in L, Hps.
  subst L.
  set (g1 := fun t => reset_task H (params_of pc cw gw lff L0 t) t).
  rewrite (update_tasks_total _ g1).
  2:{ intros k t Hin. rewrite Forall_forall in Hps.
      destruct (Hps _ Hin) as [ps Hp]. simpl in Hp.
      unfold g1, params_of. rewrite Hp. reflexivity. }
  cbn [Py.bind].
  set (wf1 := with_tasks wf (map (fun kt => (fst kt, g1 (snd kt))) (tasks wf))).
  assert (Hl1 : listed wf1) by (apply listed_map; [reflexivity|assumption]).
  destruct (count_roots_map wf g1 ltac:(reflexivity)) as [Hr Ho].
  fold wf1 in Hr, Ho.
  assert (Htotal : (0 < count_roots wf * 2 + count_others wf)%Z).
  { pose proof (counts_of_graph wf). unfold count_roots, count_others in *.
    destruct (tasks wf); [congruence|]. simpl List.length in *. lia. }
  unfold uniform_footprint.
  rewrite (calculate_input_files_spec wf1 Hl1), Hr, Ho. cbn [Py.bind fst snd].
  destruct (Z.eqb_spec (count_roots wf * 2 + count_others wf) 0); [lia|].
  cbn [Py.bind]. fold file_size.
  destruct (uniform_out_loop_total wf1 file_size (tasks wf1) None)
    as [outs [Hloop Hsome]].
  { intros k t Hin. apply (Hl1 k t Hin). }
  rewrite Hloop. cbn [Py.bind fst snd].
  rewrite add_output_files_uniform. cbn [Py.bind].
  destruct outs as [outs|].
  2:{ destruct (Hsome eq_refl) as [Habs _]. subst wf1. simpl in Habs.
      destruct (tasks wf); [congruence|discriminate]. }
  cbn [Py.bind]. rewrite add_input_files_uniform.
  2:{ apply listed_map; [reflexivity|].
      apply listed_map; [reflexivity|assumption]. }
  cbn [Py.bind].
  match goal with
  | |- context [_generate_data_for_root_nodes ?wf2 sd (Scalar file_size) ?w2] =>
      destruct (generate_data_uniform wf2 sd file_size
                  ltac:(apply round_div_nonneg; lia) (values (tasks wf2)) w2)
        as [w' Hw']
  end.
  { intros t Hin. simpl tasks_parents.
    simpl tasks in Hin. unfold values in Hin.
    rewrite !map_map in Hin. apply in_map_iff in Hin.
    destruct Hin as [[k t0] [<- Hin]]. cbn [fst snd].
    rewrite uniform_inputs_name. simpl. apply (Hl k t0 Hin). }
  unfold _generate_data_for_root_nodes. rewrite Hw'. cbn [Py.bind].
  exists {| disk := disk (logged INFO ("Saving benchmark workflow: " +++ jp) w');
            log := log (logged INFO ("Saving benchmark workflow: " +++ jp) w');
            saved := saved (logged INFO ("Saving benchmark workflow: " +++ jp) w')
                     ++ [(jp, with_tasks wf
            (map (fun kt =>
                    (fst kt,
                     uniform_fill wf file_size
                       (reset_task H (params_of pc cw gw lff L0 (snd kt)) (snd kt))))
                 (tasks wf)))] |}.
  simpl tasks. rewrite !map_map. reflexivity.
Qed.

End UniformFacts.

(** ** File names *)

Lemma list_ascii_of_string_append (a b : string) :
  list_ascii_of_string (a +++ b)
  = list_ascii_of_string a ++ list_ascii_of_string b.
Proof. induction a; simpl; [reflexivity|now rewrite IHa]. Qed.

Lemma list_ascii_of_string_inj (a b : string) :
  list_ascii_of_string a = list_ascii_of_string b -> a = b.
Proof.
  intros H. rewrite <- (string_of_list_ascii_of_string a),
              <- (string_of_list_ascii_of_string b). now rewrite H.
Qed.

Lemma append_inj_l (a b s : string) : a +++ s = b +++ s -> a = b.
Proof.
  intros H. apply list_ascii_of_string_inj.
  apply (f_equal list_ascii_of_string) in H.
  rewrite !list_ascii_of_string_append in H.
  now apply app_inv_tail in H.
Qed.

Lemma append_inj_r (s a b : string) : s +++ a = s +++ b -> a = b.
Proof. induction s; simpl; intros H; [assumption|]. injection H. auto. Qed.

Module NameFacts.
Import Bench.

Lemma output_name_inj a b : output_name a = output_name b -> a = b.
Proof. apply append_inj_l. Qed.

Lemma input_name_inj a b : input_name a = input_name b -> a = b.
Proof. apply append_inj_l. Qed.

Lemma output_name_not_input_name a b : output_name a <> input_name b.
Proof.
  unfold output_name, input_name. intros H.
  apply (f_equal list_ascii_of_string) in H.
  rewrite !list_ascii_of_string_append in H.
  apply (f_equal (@rev ascii)) in H. rewrite !rev_app_distr in H.
  simpl in H. discriminate H.
Qed.

Lemma edge_output_name_inj p a b :
  edge_output_name p a = edge_output_name p b -> a = b.
Proof.
  unfold edge_output_name. intros H.
  apply append_inj_r in H. apply append_inj_r in H.
  now apply append_inj_l in H.
Qed.

End NameFacts.

(** ** The assembler: sizes and footprint of the uniform branch *)

Module FootprintFacts.
Import Bench BenchSpec BenchFacts UniformFacts NameFacts.

Lemma sum_const {A} (f : A -> Z) (c : Z) (l : list A) :
  (forall x, In x l -> f x = c) ->
  fold_right Z.add 0%Z (map f l) = (Z.of_nat (List.length l) * c)%Z.
Proof.
  induction l as [|x l IH]; intros Hc; [reflexivity|].
  cbn [map fold_right List.length]. rewrite IH by (intros; apply Hc; now right).
  rewrite (Hc x) by now left. lia.
Qed.

Lemma size_of_const (fs : list File.t) (c : Z) (n : string) :
  (forall f, In f fs -> File.size f = c) ->
  In n (map File.name fs) -> size_of fs n = c.
Proof.
  intros Hc Hin. unfold size_of.
  destruct (find (fun f => String.eqb (File.name f) n) fs) as [f|] eqn:E.
  - apply find_some in E. apply Hc, E.
  - apply in_map_iff in Hin. destruct Hin as [f [Hn Hf]].
    apply (find_none _ _ E) in Hf. rewrite Hn, String.eqb_refl in Hf.
    discriminate.
Qed.

(** The files of a task after the uniform branch. *)
Lemma uniform_fill_files H wf file_size ps t :
  Task.files (uniform_fill wf file_size (reset_task H ps t))
  = File.mk (output_name (Task.name t)) file_size OUTPUT
    :: match parents_of wf (Task.name t) with
       | [] => [File.mk (input_name (Task.name t)) file_size INPUT]
       | (_ :: _) as parents =>
           map (fun parent => File.mk (output_name parent) file_size INPUT)
               parents
       end.
Proof.
  unfold uniform_fill, uniform_inputs. simpl.
  destruct (parents_of wf (Task.name t)); reflexivity.
Qed.

Lemma NoDup_map_injective {A B} (f : A -> B) (l : list A) :
  (forall x y, f x = f y -> x = y) -> NoDup l -> NoDup (map f l).
Proof.
  intros Hinj. induction 1 as [|x l Hx Hl IH]; simpl; constructor; auto.
  rewrite in_map_iff. intros (y & E & Hy). apply Hinj in E. now subst.
Qed.

(** The roots of a list of tasks with distinct names have distinct names. *)
Lemma root_names_NoDup (wf : Workflow) (vs : list Task.t) :
  NoDup (map Task.name vs) ->
  NoDup (map Task.name (filter (is_root wf) vs)).
Proof.
  induction vs as [|t vs IH]; intros Hnd; [constructor|].
  inversion Hnd as [|? ? Hfresh Hrest]; subst. cbn [filter].
  destruct (is_root wf t); [|now apply IH].
  cbn [map]. constructor; [|now apply IH].
  intros Hin. apply Hfresh. apply in_map_iff in Hin.
  destruct Hin as (u & Hname & Hu). apply filter_In in Hu.
  apply in_map_iff. exists u. tauto.
Qed.

Lemma same_length_of_same_elements (l l' : list string) :
  NoDup l' -> incl l l' -> incl l' l ->
  List.length (nodup string_dec l) = List.length l'.
Proof.
  intros Hnd H1 H2. apply Nat.le_antisymm.
  - apply NoDup_incl_length; [apply NoDup_nodup|].
    intros x Hx. apply H1. now apply nodup_In in Hx.
  - apply NoDup_incl_length; [assumption|].
    intros x Hx. apply nodup_In. now apply H2.
Qed.

Lemma named_values wf :
  named wf -> map Task.name (values (tasks wf)) = keys (tasks wf).
Proof.
  intros [Hk _]. unfold values, keys. rewrite map_map.
  induction Hk as [|kt ts Hkt _ IH]; simpl; [reflexivity|].
  now rewrite IH, Hkt.
Qed.

Lemma uniform_names_NoDup wf : named wf -> NoDup (uniform_names wf).
Proof.
  intros Hn. pose proof (named_values wf Hn) as Hv.
  destruct Hn as (_ & Hnd & _). unfold uniform_names. apply NoDup_app.
  - apply NoDup_map_injective; [apply output_name_inj|assumption].
  - apply NoDup_map_injective; [apply input_name_inj|].
    apply root_names_NoDup. now rewrite Hv.
  - intros x Hx Hx'. apply in_map_iff in Hx, Hx'.
    destruct Hx as [a [<- _]]. destruct Hx' as [b [E _]].
    symmetry in E. exact (output_name_not_input_name a b E).
Qed.

Lemma uniform_files_names H wf file_size (ps : string * Task.t -> list string) :
  listed wf -> named wf ->
  let wf' := with_tasks wf
               (map (fun kt =>
                       (fst kt,
                        uniform_fill wf file_size
                          (reset_task H (ps kt) (snd kt))))
                    (tasks wf)) in
  (forall f, In f (all_files wf') -> File.size f = file_size) /\
  incl (map File.name (all_files wf')) (uniform_names wf) /\
  incl (uniform_names wf) (map File.name (all_files wf')).
Proof.
  intros Hl Hn wf'.
  assert (Hfiles :
            forall f, In f (all_files wf') <->
                      exists k t, In (k, t) (tasks wf) /\
                                  In f (Task.files
                                          (uniform_fill wf file_size
                                             (reset_task H (ps (k, t)) t)))).
  { intros f. unfold all_files, values, wf'. simpl tasks. rewrite map_map.
    rewrite in_flat_map. split.
    - intros [t' [Ht' Hf]]. apply in_map_iff in Ht'.
      destruct Ht' as [[k t] [<- Hin]]. eauto.
    - intros (k & t & Hin & Hf). eexists. split; [|exact Hf].
      apply in_map_iff. exists (k, t). auto. }
  assert (Hkey : forall k t, In (k, t) (tasks wf) -> Task.name t = k).
  { intros k t Hin. destruct Hn as (Hk & _). rewrite Forall_forall in Hk.
    symmetry. apply (Hk _ Hin). }
  split; [|split].
  - intros f Hf. apply Hfiles in Hf. destruct Hf as (k & t & Hin & Hf).
    rewrite uniform_fill_files in Hf. destruct Hf as [<-|Hf]; [reflexivity|].
    destruct (parents_of wf (Task.name t)).
    + destruct Hf as [<-|[]]. reflexivity.
    + apply in_map_iff in Hf. destruct Hf as [p [<- _]]. reflexivity.
  - intros n Hn'. apply in_map_iff in Hn'. destruct Hn' as [f [<- Hf]].
    apply Hfiles in Hf. destruct Hf as (k & t & Hin & Hf).
    rewrite uniform_fill_files in Hf. unfold uniform_names.
    apply in_or_app. destruct Hf as [<-|Hf].
    + left. simpl. apply in_map. rewrite (Hkey k t Hin).
      apply in_map_iff. exists (k, t). auto.
    + destruct (parents_of wf (Task.name t)) as [|p0 ps0] eqn:Eps.
      * destruct Hf as [<-|[]]. right. simpl. do 2 apply in_map.
        apply filter_In. split.
        -- apply in_map_iff. exists (k, t). auto.
        -- unfold is_root. now rewrite Eps.
      * left. apply in_map_iff in Hf. destruct Hf as [p [<- Hp]]. simpl.
        apply in_map. destruct Hn as (_ & _ & Hpar).
        apply (Hpar (Task.name t) (p0 :: ps0)); [| |exact Hp].
        -- rewrite (Hkey k t Hin). apply in_map_iff. exists (k, t). auto.
        -- rewrite <- Eps. apply (listed_parents wf k t Hl Hin).
  - intros n Hn'. unfold uniform_names in Hn'. apply in_app_or in Hn'.
    apply in_map_iff. destruct Hn' as [Hn'|Hn'].
    + apply in_map_iff in Hn'. destruct Hn' as [k [<- Hk]].
      apply in_map_iff in Hk. destruct Hk as [[k' t] [Hk' Hin]].
      simpl in Hk'. subst k'.
      exists (File.mk (output_name k) file_size OUTPUT). split; [reflexivity|].
      apply Hfiles. exists k, t. split; [assumption|].
      rewrite uniform_fill_files, (Hkey k t Hin). now left.
    + apply in_map_iff in Hn'. destruct Hn' as [m [<- Hm]].
      apply in_map_iff in Hm. destruct Hm as [t [<- Ht]].
      apply filter_In in Ht. destruct Ht as [Ht Hroot].
      apply in_map_iff in Ht. destruct Ht as [[k t'] [Heq Hin]].
      simpl in Heq. subst t'.
      exists (File.mk (input_name (Task.name t)) file_size INPUT).
      split; [reflexivity|]. apply Hfiles. exists k, t. split; [assumption|].
      rewrite uniform_fill_files. right. unfold is_root in Hroot.
      destruct (parents_of wf (Task.name t)); [now left|discriminate].
Qed.

Lemma uniform_footprint_value H wf file_size (ps : string * Task.t -> list string) :
  listed wf -> named wf ->
  footprint (with_tasks wf
               (map (fun kt =>
                       (fst kt,
                        uniform_fill wf file_size
                          (reset_task H (ps kt) (snd kt))))
                    (tasks wf)))
  = ((count_roots wf * 2 + count_others wf) * file_size)%Z.
Proof.
  intros Hl Hn.
  destruct (uniform_files_names H wf file_size ps Hl Hn) as (Hsz & H1 & H2).
  unfold footprint. rewrite (sum_const _ file_size).
  - f_equal. unfold file_names.
    rewrite (same_length_of_same_elements _ (uniform_names wf));
      [|now apply uniform_names_NoDup|assumption|assumption].
    unfold uniform_names. rewrite length_app, !length_map.
    pose proof (counts_of_graph wf). unfold count_roots, count_others in *.
    unfold keys. rewrite length_map. lia.
  - intros n Hn'. apply size_of_const; [assumption|].
    unfold file_names in Hn'. now apply nodup_In in Hn'.
Qed.

End FootprintFacts.

(** ** The assembler: the uniform footprint *)

Section UniformClaims.
Import Bench BenchSpec BenchFacts UniformFacts FootprintFacts.

(** C2 (as amended).  On a graph with at least one task, stored under
    distinct names with its adjacency listed, and for a footprint of
    [D >= 0] megabytes with [D * 10^6 < 2^52] (the range in which
    [round_div] is the binary64 computation of the source), the uniform
    branch returns; it counts
    [2 * roots + others] files; every file record of the result has size
    [round (D * 10^6 / total)]; the graph has [total] distinct files, so
    their sizes sum to [total * round (D * 10^6 / total)], which is within
    [total / 2] bytes of [D * 10^6]: half a byte of rounding per file. *)
Theorem uniform_footprint_file_sizes
        (H : Host) (wf : Workflow) (save_dir json_path : string)
        (percent_cpu : Param PyFloat) (cpu_work gpu_work : option (Param Z))
        (D : Z) (lock_files_folder : option string) (w : World) :
  listed wf ->
  named wf ->
  tasks wf <> [] ->
  Forall (fun kt =>
            exists params,
              task_params percent_cpu cpu_work gpu_work lock_files_folder
                          (fst (create_lock_files H lock_files_folder w))
                          (snd kt) = Ok params)
         (tasks wf) ->
  (0 <= D)%Z ->
  (D * 1000000 < 2 ^ 52)%Z ->
  let total := (2 * count_roots wf + count_others wf)%Z in
  let file_size := round_div (D * 1000000) total in
  exists wf' w',
    create_benchmark H wf save_dir json_path percent_cpu cpu_work gpu_work
                     (Some (Scalar D)) lock_files_folder w
    = Ok (json_path, wf', w') /\
    _calculate_input_files wf = Ok (count_roots wf, total) /\
    (forall f, In f (all_files wf') -> File.size f = file_size) /\
    footprint wf' = (total * file_size)%Z /\
    (2 * Z.abs (footprint wf' - D * 1000000) <= total)%Z.
Proof.
  intros Hl Hn Hne Hps HD _ total file_size.
  assert (Etotal : total = (count_roots wf * 2 + count_others wf)%Z)
    by (unfold total; lia).
  destruct (create_benchmark_uniform H wf save_dir json_path percent_cpu
              cpu_work gpu_work D lock_files_folder w Hl Hne Hps HD)
    as [w' Hrun].
  rewrite <- Etotal in Hrun. fold file_size in Hrun.
  eexists _, w'. split; [exact Hrun|].
  split; [rewrite Etotal; now apply calculate_input_files_spec|].
  set (ps := fun kt : string * Task.t =>
               params_of percent_cpu cpu_work gpu_work lock_files_folder
                         (fst (create_lock_files H lock_files_folder w))
                         (snd kt)).
  destruct (uniform_files_names H wf file_size ps Hl Hn) as (Hsz & _ & _).
  pose proof (uniform_footprint_value H wf file_size ps Hl Hn) as Hfp.
  rewrite <- Etotal in Hfp.
  split; [exact Hsz|]. split; [exact Hfp|].
  unfold ps in Hfp. rewrite Hfp. unfold file_size.
  apply round_div_error.
  pose proof (counts_of_graph wf). unfold total, count_roots, count_others in *.
  destruct (tasks wf); [congruence|]. simpl List.length in *. lia.
Qed.

(** C2, as the specification states it, this fails: with two roots, two other tasks and a
    footprint of 1 MB the six files have 166667 bytes each, and their sum
    is two bytes away from 10^6. *)
Lemma uniform_footprint_off_by_two :
  exists wf' w',
    create_benchmark Examples.host Examples.join "/data" "/data/join-4.json"
                     (Scalar "0.6") None None (Some (Scalar 1%Z)) None
                     Examples.empty_world
    = Ok ("/data/join-4.json", wf', w') /\
    (forall f, In f (all_files wf') -> File.size f = 166667%Z) /\
    footprint wf' = 1000002%Z /\
    ~ (Z.abs (footprint wf' - 1 * 1000000) <= 1)%Z.
Proof.
  do 2 eexists. split; [vm_compute; reflexivity|].
  split; [|split].
  - intros f Hf. vm_compute in Hf.
    repeat (destruct Hf as [<-|Hf]; [reflexivity|]). destruct Hf.
  - vm_compute. reflexivity.
  - vm_compute. intros Hle. apply Hle. reflexivity.
Qed.

End UniformClaims.

(** ** The assembler: the per-category branch, phase by phase *)

Module PerCategoryFacts.
Import Bench BenchSpec BenchFacts UniformFacts NameFacts FootprintFacts.

Lemma get_app_last {V} (k : string) (v : V) (d : dict V) :
  ~ In k (keys d) -> get k (d ++ [(k, v)]) = Some v.
Proof.
  induction d as [|[k' v'] d IH]; simpl; intros Hk.
  - now rewrite String.eqb_refl.
  - destruct (String.eqb_spec k k');
      [exfalso; apply Hk; left; now symmetry|]. apply IH. tauto.
Qed.

Lemma set_app_last {V} (k : string) (v v' : V) (d : dict V) :
  ~ In k (keys d) -> set k v' (d ++ [(k, v)]) = d ++ [(k, v')].
Proof.
  induction d as [|[k0 v0] d IH]; simpl; intros Hk.
  - now rewrite String.eqb_refl.
  - destruct (String.eqb_spec k k0);
      [exfalso; apply Hk; left; now symmetry|]. rewrite IH; tauto.
Qed.

Lemma setdefault_new {V} (k : string) (v : V) (d : dict V) :
  ~ In k (keys d) -> setdefault k v d = d ++ [(k, v)].
Proof.
  intros Hk. unfold setdefault.
  destruct (get k d) eqn:E; [|reflexivity].
  apply get_Some_In in E. exfalso. apply Hk.
  apply in_map_iff. exists (k, v0). auto.
Qed.

Lemma get_of_named wf k t :
  named wf -> In (k, t) (tasks wf) -> get k (tasks wf) = Some t.
Proof.
  intros (_ & Hnd & _). revert Hnd. unfold keys.
  induction (tasks wf) as [|[k0 t0] ts IH]; simpl; [tauto|].
  intros Hnd [Heq|Hin]; inversion Hnd as [|? ? Hk0 Hts]; subst.
  - injection Heq as -> ->. now rewrite String.eqb_refl.
  - destruct (String.eqb_spec k k0) as [->|].
    + exfalso. apply Hk0. apply in_map_iff. exists (k0, t). auto.
    + auto.
Qed.

Lemma name_of_named wf k t : named wf -> In (k, t) (tasks wf) -> Task.name t = k.
Proof.
  intros (Hk & _) Hin. rewrite Forall_forall in Hk. symmetry. apply (Hk _ Hin).
Qed.

Lemma listed_children wf k t :
  listed wf -> In (k, t) (tasks wf) ->
  get (Task.name t) (tasks_children wf) = Some (children_of wf (Task.name t)).
Proof.
  intros Hl Hin. destruct (Hl k t Hin) as [_ [cs Hcs]].
  unfold children_of. now rewrite Hcs.
Qed.

Lemma covered_size wf data k t :
  covered wf data -> In (k, t) (tasks wf) ->
  get (Task.category t) data = Some (own_size data t) /\ (0 <= own_size data t)%Z.
Proof.
  intros Hc Hin. destruct (Hc k t Hin) as [sz [Hsz Hpos]].
  unfold own_size. rewrite Hsz. auto.
Qed.

(** The inner loop of [_output_files] over the children of one task. *)
Lemma output_files_children wf data n acc :
  named wf -> covered wf data ->
  ~ In n (keys acc) ->
  forall cs row,
    incl cs (keys (tasks wf)) ->
    for_each
      (fun child_name output_files =>
         child <- item child_name (tasks wf) ;;
         sz <- item (Task.category child) data ;;
         set_inner n (Task.name child) sz output_files)
      cs (acc ++ [(n, row)])
    = Ok (acc ++ [(n, fold_left
                        (fun row c => set c (category_size wf data c) row)
                        cs row)]).
Proof.
  intros Hn Hc Hacc. induction cs as [|c cs IH]; intros row Hincl.
  - reflexivity.
  - cbn [for_each fold_left].
    assert (Hin : In c (keys (tasks wf))) by (apply Hincl; now left).
    apply in_map_iff in Hin. destruct Hin as [[k tc] [Hk Hin]].
    simpl in Hk. subst k.
    rewrite (item_Some _ _ _ (get_of_named wf c tc Hn Hin)). cbn [Py.bind].
    destruct (covered_size wf data c tc Hc Hin) as [Hsz _].
    rewrite (item_Some _ _ _ Hsz). cbn [Py.bind].
    rewrite (name_of_named wf c tc Hn Hin).
    unfold set_inner. rewrite (item_Some _ _ _ (get_app_last n row acc Hacc)).
    cbn [Py.bind]. rewrite set_app_last by assumption.
    assert (Hcs : category_size wf data c = own_size data tc).
    { unfold category_size. now rewrite (get_of_named wf c tc Hn Hin). }
    rewrite <- Hcs. apply IH. intros x Hx. apply Hincl. now right.
Qed.

Lemma output_files_loop wf data :
  listed wf -> named wf -> children_are_tasks wf -> covered wf data ->
  forall ts acc,
    incl ts (tasks wf) ->
    NoDup (keys acc ++ map (fun kt => Task.name (snd kt)) ts) ->
    for_each
      (fun task output_files =>
         let output_files := setdefault (Task.name task) [] output_files in
         children <- item (Task.name task) (tasks_children wf) ;;
         match children with
         | [] =>
             sz <- item (Task.category task) data ;;
             set_inner (Task.name task) (Task.name task) sz output_files
         | _ :: _ =>
             for_each
               (fun child_name output_files =>
                  child <- item child_name (tasks wf) ;;
                  sz <- item (Task.category child) data ;;
                  set_inner (Task.name task) (Task.name child) sz output_files)
               children output_files
         end)
      (values ts) acc
    = Ok (acc ++ map (fun kt => (Task.name (snd kt), row_of wf data (snd kt))) ts).
Proof.
  intros Hl Hn Hch Hc. induction ts as [|[k t] ts IH]; intros acc Hincl Hnd.
  - simpl. now rewrite app_nil_r.
  - assert (Hin : In (k, t) (tasks wf)) by (apply Hincl; now left).
    assert (Hnew : ~ In (Task.name t) (keys acc)).
    { intros Hk. apply NoDup_remove_2 in Hnd. apply Hnd.
      apply in_or_app. now left. }
    cbn [values map for_each snd]. rewrite setdefault_new by assumption.
    rewrite (item_Some _ _ _ (listed_children wf k t Hl Hin)). cbn [Py.bind].
    assert (Hstep :
              match children_of wf (Task.name t) with
              | [] =>
                  sz <- item (Task.category t) data ;;
                  set_inner (Task.name t) (Task.name t) sz
                            (acc ++ [(Task.name t, [])])
              | _ :: _ =>
                  for_each
                    (fun child_name output_files =>
                       child <- item child_name (tasks wf) ;;
                       sz <- item (Task.category child) data ;;
                       set_inner (Task.name t) (Task.name child) sz output_files)
                    (children_of wf (Task.name t))
                    (acc ++ [(Task.name t, [])])
              end = Ok (acc ++ [(Task.name t, row_of wf data t)])).
    { unfold row_of. destruct (children_of wf (Task.name t)) as [|c cs] eqn:Ecs.
      - destruct (covered_size wf data k t Hc Hin) as [Hsz _].
        rewrite (item_Some _ _ _ Hsz). cbn [Py.bind]. unfold set_inner.
        rewrite (item_Some _ _ _ (get_app_last _ _ acc Hnew)). cbn [Py.bind].
        now rewrite set_app_last.
      - apply output_files_children; try assumption.
        apply (Hch (Task.name t)).
        + rewrite (name_of_named wf k t Hn Hin).
          apply in_map_iff. exists (k, t). auto.
        + rewrite <- Ecs. apply (listed_children wf k t Hl Hin). }
    destruct (children_of wf (Task.name t)) eqn:Ecs;
      rewrite Hstep; cbn [Py.bind];
      (rewrite IH;
       [now rewrite <- app_assoc
       |intros x Hx; apply Hincl; now right
       |unfold keys in *; rewrite map_app, <- app_assoc; exact Hnd]).
Qed.

Lemma names_NoDup wf :
  named wf -> NoDup (map (fun kt => Task.name (snd kt)) (tasks wf)).
Proof.
  intros Hn. pose proof (named_values wf Hn) as Hv.
  unfold values in Hv. rewrite map_map in Hv. rewrite Hv. apply Hn.
Qed.

Lemma output_files_spec wf data :
  listed wf -> named wf -> children_are_tasks wf -> covered wf data ->
  _output_files wf data = Ok (outputs_of wf data).
Proof.
  intros Hl Hn Hch Hc. unfold _output_files.
  apply (output_files_loop wf data Hl Hn Hch Hc (tasks wf) []).
  - apply incl_refl.
  - simpl. now apply names_NoDup.
Qed.

Lemma get_map_key {A V} (f : A -> string) (g : A -> V) (l : list A) (x : A) :
  NoDup (map f l) -> In x l ->
  get (f x) (map (fun y => (f y, g y)) l) = Some (g x).
Proof.
  induction l as [|y l IH]; simpl; [tauto|].
  intros Hnd [->|Hin]; inversion Hnd as [|? ? Hy Hl]; subst.
  - now rewrite String.eqb_refl.
  - destruct (String.eqb_spec (f x) (f y)) as [E|_]; [|auto].
    exfalso. apply Hy. rewrite <- E. now apply in_map.
Qed.

Lemma get_outputs_of wf data k t :
  named wf -> In (k, t) (tasks wf) ->
  get (Task.name t) (outputs_of wf data) = Some (row_of wf data t).
Proof.
  intros Hn Hin. unfold outputs_of.
  apply (get_map_key (fun kt => Task.name (snd kt))
                     (fun kt => row_of wf data (snd kt)) (tasks wf) (k, t));
    [now apply names_NoDup|assumption].
Qed.

Lemma fold_set_get (f : string -> Z) (c : string) :
  forall cs row,
    get c (fold_left (fun row c => set c (f c) row) cs row)
    = if mem c cs then Some (f c) else get c row.
Proof.
  induction cs as [|c0 cs IH]; intros row; [reflexivity|].
  cbn [fold_left]. rewrite IH. unfold mem. cbn [existsb].
  fold (mem c cs). destruct (mem c cs).
  - now rewrite orb_true_r.
  - rewrite orb_false_r. destruct (String.eqb_spec c c0) as [->|Hne].
    + apply get_set_same.
    + apply get_set_other. congruence.
Qed.

Lemma set_In {V} (k k0 : string) (v v0 : V) (d : dict V) :
  In (k, v) (set k0 v0 d) -> (k = k0 /\ v = v0) \/ In (k, v) d.
Proof.
  induction d as [|[k1 v1] d IH]; simpl.
  - intros [H|[]]. injection H as <- <-. auto.
  - destruct (String.eqb k0 k1); simpl.
    + intros [H|H]; [injection H as <- <-|]; auto.
    + intros [H|H]; [auto|]. destruct (IH H); auto.
Qed.

Lemma fold_set_In (f : string -> Z) (c : string) (v : Z) :
  forall cs row,
    In (c, v) (fold_left (fun row c => set c (f c) row) cs row) ->
    (In c cs /\ v = f c) \/ In (c, v) row.
Proof.
  induction cs as [|c0 cs IH]; intros row; [auto|].
  cbn [fold_left]. intros H. apply IH in H. destruct H as [[H1 H2]|H].
  - left. split; [now right|assumption].
  - apply set_In in H. destruct H as [[-> ->]|H]; [left|right]; auto.
    split; [now left|reflexivity].
Qed.

(** Keys are never lost by the loops of [invert]. *)
Lemma set_keys {V} (k : string) (v : V) (d : dict V) (x : string) :
  In x (keys d) -> In x (keys (set k v d)).
Proof.
  induction d as [|[k0 v0] d IH]; simpl; [tauto|].
  destruct (String.eqb_spec k k0) as [->|]; simpl; tauto.
Qed.

Lemma setdefault_keys {V} (k : string) (v : V) (d : dict V) (x : string) :
  In x (keys d) \/ x = k -> In x (keys (setdefault k v d)).
Proof.
  unfold setdefault. destruct (get k d) eqn:E.
  - intros [H | ->]; [assumption|].
    apply get_Some_In in E. apply in_map_iff. exists (k, v0). auto.
  - unfold keys. rewrite map_app, in_app_iff. simpl. intuition.
Qed.

Lemma invert_row_keys p :
  forall row acc acc',
    for_each
      (fun cs input_files =>
         set_inner (fst cs) p (snd cs) (setdefault (fst cs) [] input_files))
      row acc = Ok acc' ->
    forall x, In x (keys acc) \/ In x (keys row) -> In x (keys acc').
Proof.
  induction row as [|[c sz] row IH]; intros acc acc' H x Hx.
  - injection H as <-. destruct Hx as [Hx|[]]. assumption.
  - cbn [for_each fst snd] in H. bind_inv H. unfold set_inner in E.
    bind_inv E. injection E as <-. apply (IH _ _ H).
    destruct Hx as [Hx|[Hx|Hx]].
    + left. apply set_keys. apply setdefault_keys. now left.
    + left. apply set_keys. apply setdefault_keys. right. now symmetry.
    + now right.
Qed.

Lemma invert_loop_keys :
  forall outs acc acc',
    for_each
      (fun pc input_files =>
         for_each
           (fun cs input_files =>
              set_inner (fst cs) (fst pc) (snd cs)
                        (setdefault (fst cs) [] input_files))
           (snd pc) input_files)
      outs acc = Ok acc' ->
    forall x, In x (keys acc) \/
              (exists p row, In (p, row) outs /\ In x (keys row)) ->
              In x (keys acc').
Proof.
  induction outs as [|[p row] outs IH]; intros acc acc' H x Hx.
  - injection H as <-. destruct Hx as [Hx|(? & ? & [] & _)]. assumption.
  - cbn [for_each fst snd] in H. bind_inv H. apply (IH _ _ H).
    destruct Hx as [Hx|(p' & row' & [Heq|Hin] & Hx)].
    + left. apply (invert_row_keys _ _ _ _ E). now left.
    + injection Heq as <- <-. left. apply (invert_row_keys _ _ _ _ E). now right.
    + right. eauto.
Qed.

Lemma inverted_keys outs p row x :
  In (p, row) outs -> In x (keys row) ->
  exists r, get x (inverted outs) = Some r.
Proof.
  intros Hin Hx. unfold inverted.
  destruct (invert_total outs) as [inp Hinp]. rewrite Hinp.
  apply get_In_keys. unfold invert in Hinp.
  apply (invert_loop_keys _ _ _ Hinp). right. eauto.
Qed.

Lemma generate_data_per_category wf save_dir data :
  forall vs w,
    (forall t, In t vs ->
               (exists ps, get (Task.name t) (tasks_parents wf) = Some ps) /\
               exists sz, get (Task.category t) data = Some sz /\ (0 <= sz)%Z) ->
    exists w',
      for_each (materialize_root_input wf save_dir (PerCategory data)) vs w
      = Ok w'.
Proof.
  induction vs as [|t vs IH]; intros w Hl; [simpl; eauto|].
  destruct (Hl t (or_introl eq_refl)) as [[ps Hps] [sz [Hsz Hpos]]].
  cbn [for_each]. unfold materialize_root_input at 1.
  rewrite (item_Some _ _ _ Hps). cbn [Py.bind lookup].
  assert (Hl' : forall t, In t vs ->
               (exists ps, get (Task.name t) (tasks_parents wf) = Some ps) /\
               exists sz, get (Task.category t) data = Some sz /\ (0 <= sz)%Z)
    by (intros; apply Hl; now right).
  destruct ps as [|p ps]; [|apply IH; assumption].
  rewrite (item_Some _ _ _ Hsz). cbn [Py.bind].
  destruct (get _ (disk w)); [apply IH; assumption|].
  destruct (sz <? 0)%Z eqn:E; [apply Z.ltb_lt in E; lia|].
  apply IH; assumption.
Qed.

Lemma per_category_inputs_name wf data inp t :
  Task.name (per_category_inputs wf data inp t) = Task.name t.
Proof.
  unfold per_category_inputs. destruct (parents_of wf (Task.name t)); reflexivity.
Qed.

(** A non-root task is a key of the inverted dict. *)
Lemma non_root_is_inverted wf data k t p ps :
  listed wf -> named wf -> linked_back wf ->
  In (k, t) (tasks wf) ->
  parents_of wf (Task.name t) = p :: ps ->
  exists r, get (Task.name t) (inverted (outputs_of wf data)) = Some r.
Proof.
  intros Hl Hn Hb Hin Hps.
  assert (Hp : In p (parents_of wf (Task.name t))) by (rewrite Hps; now left).
  pose proof (Hb k t p Hin Hp) as Hchild.
  assert (Hpk : In p (keys (tasks wf))).
  { destruct Hn as (Hn1 & Hn2 & Hpar).
    apply (Hpar (Task.name t) (p :: ps)); [| |now left].
    - apply in_map_iff. exists (k, t). split; [|assumption]. simpl.
      symmetry. apply (name_of_named wf k t); [|assumption].
      repeat split; assumption.
    - rewrite <- Hps. apply (listed_parents wf k t Hl Hin). }
  apply in_map_iff in Hpk. destruct Hpk as [[k' tp] [Heq Hinp]].
  simpl in Heq. subst k'.
  pose proof (name_of_named wf p tp Hn Hinp) as Hname.
  apply (inverted_keys _ p (row_of wf data tp)).
  - unfold outputs_of. apply in_map_iff. exists (p, tp). simpl.
    rewrite Hname. auto.
  - unfold row_of. rewrite Hname.
    destruct (children_of wf p) as [|c cs] eqn:Ecs; [destruct Hchild|].
    assert (Hget : exists v,
               get (Task.name t)
                   (fold_left (fun row c => set c (category_size wf data c) row)
                              (c :: cs) []) = Some v).
    { rewrite fold_set_get.
      destruct (mem (Task.name t) (c :: cs)) eqn:Em; [eauto|].
      apply mem_false in Em. tauto. }
    destruct Hget as [v Hv]. apply get_Some_In in Hv.
    apply in_map_iff. exists (Task.name t, v). auto.
Qed.

(** The per-category branch in closed form. *)
Lemma per_category_footprint_total wf save_dir data w :
  listed wf -> named wf -> children_are_tasks wf -> linked_back wf ->
  covered wf data ->
  exists w',
    per_category_footprint wf save_dir data w
    = Ok (with_tasks wf
            (map (fun kt => (fst kt, per_category_fill wf data (snd kt)))
                 (tasks wf)),
          w').
Proof.
  intros Hl Hn Hch Hb Hc. unfold per_category_footprint.
  rewrite (output_files_spec wf data Hl Hn Hch Hc). cbn [Py.bind].
  set (g2 := fun kt : string * Task.t =>
               extend_args
                 [out_argument
                    (fold_left
                       (fun acc cs =>
                          set (edge_output_name (Task.name (snd kt)) (fst cs))
                              (snd cs) acc)
                       (row_of wf data (snd kt)) [])]
                 (snd kt)).
  rewrite (update_tasks_total _ (fun t => g2 ("", t))).
  2:{ intros k t Hin.
      rewrite (item_Some _ _ _ (get_outputs_of wf data k t Hn Hin)).
      reflexivity. }
  cbn [Py.bind]. unfold _add_output_files.
  set (g3 := fun t : Task.t =>
               append_files
                 (map (fun cs =>
                         File.mk (edge_output_name (Task.name t) (fst cs))
                                 (snd cs) OUTPUT)
                      (row_of wf data t))
                 t).
  rewrite (update_tasks_total _ g3).
  2:{ intros k t2 Hin2. simpl tasks in Hin2. apply in_map_iff in Hin2.
      destruct Hin2 as [[k0 t] [Heq Hin]]. injection Heq as <- <-.
      cbn [fst snd]. unfold g2. cbn [snd Task.name extend_args].
      rewrite (item_Some _ _ _ (get_outputs_of wf data k0 t Hn Hin)).
      reflexivity. }
  cbn [Py.bind]. unfold _add_input_files.
  destruct (invert_total (outputs_of wf data)) as [inp Hinp].
  assert (Hinv : inverted (outputs_of wf data) = inp)
    by (unfold inverted; now rewrite Hinp).
  rewrite Hinp. cbn [Py.bind].
  rewrite (update_tasks_total _ (per_category_inputs wf data inp)).
  2:{ intros k t3 Hin3. simpl tasks in Hin3. rewrite map_map in Hin3.
      apply in_map_iff in Hin3.
      destruct Hin3 as [[k0 t] [Heq Hin]]. injection Heq as <- <-.
      cbn [fst snd tasks_parents with_tasks].
      unfold per_category_inputs, g3, g2.
      cbn [snd Task.name Task.category extend_args append_files].
      rewrite (item_Some _ _ _ (listed_parents wf k0 t Hl Hin)).
      cbn [Py.bind].
      destruct (parents_of wf (Task.name t)) as [|p ps] eqn:Eps.
      - cbn [lookup].
        destruct (covered_size wf data k0 t Hc Hin) as [Hsz _].
        rewrite (item_Some _ _ _ Hsz). reflexivity.
      - destruct (non_root_is_inverted wf data k0 t p ps Hl Hn Hb Hin Eps)
          as [r Hr].
        rewrite Hinv in Hr. rewrite (item_Some _ _ _ Hr), Hr. reflexivity. }
  cbn [Py.bind].
  match goal with
  | |- context [_generate_data_for_root_nodes ?wf2 save_dir _ ?w2] =>
      destruct (generate_data_per_category wf2 save_dir data
                  (values (tasks wf2)) w2) as [w' Hw']
  end.
  { intros t4 Hin4. cbn [tasks_parents with_tasks].
    simpl tasks in Hin4. unfold values in Hin4.
    rewrite !map_map in Hin4. apply in_map_iff in Hin4.
    destruct Hin4 as [[k t] [<- Hin]]. cbn [fst snd].
    rewrite per_category_inputs_name.
    unfold per_category_inputs, g3, g2.
    cbn [snd Task.name extend_args append_files].
    split; [apply (Hl k t Hin)|].
    destruct (Hc k t Hin) as [sz Hsz]. exists sz.
    destruct (parents_of wf (Task.name t)); exact Hsz. }
  unfold _generate_data_for_root_nodes. rewrite Hw'. cbn [Py.bind].
  exists w'. simpl tasks. rewrite !map_map. subst inp. reflexivity.
Qed.

Lemma keys_map {V} (g : string * V -> V) (d : dict V) :
  keys (map (fun kt => (fst kt, g kt)) d) = keys d.
Proof. unfold keys. rewrite map_map. reflexivity. Qed.

Lemma named_map wf (g : string * Task.t -> Task.t) :
  (forall kt, Task.name (g kt) = Task.name (snd kt)) ->
  named wf ->
  named (with_tasks wf (map (fun kt => (fst kt, g kt)) (tasks wf))).
Proof.
  intros Hg (Hk & Hnd & Hpar). unfold named. cbn [tasks tasks_parents with_tasks].
  rewrite keys_map. repeat split; try assumption.
  apply Forall_forall. intros kt' Hin. apply in_map_iff in Hin.
  destruct Hin as [kt [<- Hin]]. simpl. rewrite Hg.
  rewrite Forall_forall in Hk. apply (Hk _ Hin).
Qed.

Lemma children_are_tasks_map wf (g : string * Task.t -> Task.t) :
  children_are_tasks wf ->
  children_are_tasks (with_tasks wf (map (fun kt => (fst kt, g kt)) (tasks wf))).
Proof.
  intros Hch. unfold children_are_tasks.
  cbn [tasks tasks_children with_tasks]. rewrite keys_map. exact Hch.
Qed.

Lemma linked_back_map wf (g : string * Task.t -> Task.t) :
  (forall kt, Task.name (g kt) = Task.name (snd kt)) ->
  linked_back wf ->
  linked_back (with_tasks wf (map (fun kt => (fst kt, g kt)) (tasks wf))).
Proof.
  intros Hg Hb k t' p Hin Hp. cbn [tasks with_tasks] in Hin.
  apply in_map_iff in Hin. destruct Hin as [[k0 t] [Heq Hin]].
  injection Heq as <- <-. rewrite Hg in *. cbn [snd] in *.
  apply (Hb k0 t p Hin Hp).
Qed.

Lemma covered_map wf data (g : string * Task.t -> Task.t) :
  (forall kt, Task.category (g kt) = Task.category (snd kt)) ->
  covered wf data ->
  covered (with_tasks wf (map (fun kt => (fst kt, g kt)) (tasks wf))) data.
Proof.
  intros Hg Hc k t' Hin. cbn [tasks with_tasks] in Hin.
  apply in_map_iff in Hin. destruct Hin as [[k0 t] [Heq Hin]].
  injection Heq as <- <-. rewrite Hg. apply (Hc k0 t Hin).
Qed.

Lemma get_map_values {V} (g : V -> V) (k : string) (d : dict V) :
  get k (map (fun kt => (fst kt, g (snd kt))) d) = option_map g (get k d).
Proof.
  induction d as [|[k0 v0] d IH]; simpl; [reflexivity|].
  destruct (String.eqb k k0); [reflexivity|assumption].
Qed.

Lemma fold_left_ext {A B} (f g : A -> B -> A) (l : list B) (a : A) :
  (forall a b, f a b = g a b) -> fold_left f l a = fold_left g l a.
Proof.
  intros Hfg. revert a. induction l as [|b l IH]; intros a; simpl; [reflexivity|].
  now rewrite Hfg, IH.
Qed.

Lemma row_of_reset H wf data (ps : Task.t -> list string) t :
  row_of (with_tasks wf
            (map (fun kt => (fst kt, reset_task H (ps (snd kt)) (snd kt)))
                 (tasks wf)))
         data (reset_task H (ps t) t)
  = row_of wf data t.
Proof.
  unfold row_of. cbn [Task.name reset_task].
  change (children_of (with_tasks wf _) (Task.name t))
    with (children_of wf (Task.name t)).
  destruct (children_of wf (Task.name t)); [reflexivity|].
  apply fold_left_ext. intros row c. f_equal.
  unfold category_size. cbn [tasks with_tasks].
  rewrite (get_map_values (fun t => reset_task H (ps t) t)).
  destruct (get c (tasks wf)); reflexivity.
Qed.

Lemma per_category_fill_outputs wf data t :
  filter is_output (Task.files (per_category_fill wf data t))
  = filter is_output (Task.files t)
    ++ map (fun cs =>
              File.mk (edge_output_name (Task.name t) (fst cs)) (snd cs) OUTPUT)
           (row_of wf data t).
Proof.
  unfold per_category_fill, per_category_inputs.
  cbn [Task.name Task.files extend_args append_files].
  assert (Hout : forall (row : dict Z),
             filter is_output
                    (map (fun cs =>
                            File.mk (edge_output_name (Task.name t) (fst cs))
                                    (snd cs) OUTPUT) row)
             = map (fun cs =>
                      File.mk (edge_output_name (Task.name t) (fst cs))
                              (snd cs) OUTPUT) row).
  { induction row; simpl; [reflexivity|]. now rewrite IHrow. }
  assert (Hin : forall (row : dict Z),
             filter is_output
                    (map (fun ps =>
                            File.mk (edge_output_name (fst ps) (Task.name t))
                                    (snd ps) INPUT) row) = []).
  { induction row; simpl; [reflexivity|assumption]. }
  destruct (parents_of wf (Task.name t));
    cbn [Task.files extend_args append_files];
    rewrite !filter_app, Hout.
  - simpl. now rewrite app_nil_r.
  - rewrite Hin. now rewrite app_nil_r.
Qed.

(** The inputs that the per-category branch gives a task with parents. *)
Lemma per_category_fill_inputs wf data t f :
  Task.files t = [] ->
  In f (Task.files (per_category_fill wf data t)) ->
  File.link f = INPUT ->
  parents_of wf (Task.name t) <> [] ->
  exists r p sz,
    get (Task.name t) (inverted (outputs_of wf data)) = Some r /\
    In (p, sz) r /\
    f = File.mk (edge_output_name p (Task.name t)) sz INPUT.
Proof.
  intros Hempty Hf Hlink Hroot.
  unfold per_category_fill, per_category_inputs in Hf.
  cbn [Task.name extend_args append_files] in Hf.
  destruct (parents_of wf (Task.name t)) as [|p0 ps0]; [congruence|].
  cbn [Task.files extend_args append_files] in Hf. rewrite Hempty in Hf.
  cbn [app] in Hf. apply in_app_or in Hf. destruct Hf as [Hf|Hf].
  - apply in_map_iff in Hf. destruct Hf as [cs [<- _]]. discriminate Hlink.
  - destruct (get (Task.name t) (inverted (outputs_of wf data))) as [r|];
      [|destruct Hf].
    apply in_map_iff in Hf. destruct Hf as [[p sz] [<- Hps]].
    exists r, p, sz. auto.
Qed.

(** The per-category run in closed form. *)
Lemma create_benchmark_per_category H wf sd jp pc cw gw data lff w :
  listed wf -> named wf -> children_are_tasks wf -> linked_back wf ->
  covered wf data ->
  Forall (fun kt =>
            exists params,
              task_params pc cw gw lff (fst (create_lock_files H lff w))
                          (snd kt) = Ok params)
         (tasks wf) ->
  let L := fst (create_lock_files H lff w) in
  let reset := fun t => reset_task H (params_of pc cw gw lff L t) t in
  let wf1 := with_tasks wf (map (fun kt => (fst kt, reset (snd kt))) (tasks wf)) in
  exists w',
    create_benchmark H wf sd jp pc cw gw (Some (PerCategory data)) lff w
    = Ok (jp,
          with_tasks wf
            (map (fun kt => (fst kt, per_category_fill wf1 data (reset (snd kt))))
                 (tasks wf)),
          w').
Proof.
  intros Hl Hn Hch Hb Hc Hps L reset wf1. unfold create_benchmark.
  destruct (create_lock_files H lff w) as [L0 w0]. simpl in L, Hps.
  subst L.
  rewrite (update_tasks_total _ reset).
  2:{ intros k t Hin. rewrite Forall_forall in Hps.
      destruct (Hps _ Hin) as [ps Hp]. simpl in Hp.
      unfold reset, params_of. rewrite Hp. reflexivity. }
  cbn [Py.bind]. fold wf1.
  destruct (per_category_footprint_total wf1 sd data w0) as [w' Hw'].
  - apply (listed_map wf (fun kt => reset (snd kt))); [reflexivity|assumption].
  - apply (named_map wf (fun kt => reset (snd kt))); [reflexivity|assumption].
  - apply (children_are_tasks_map wf (fun kt => reset (snd kt))); assumption.
  - apply (linked_back_map wf (fun kt => reset (snd kt))); [reflexivity|assumption].
  - apply (covered_map wf data (fun kt => reset (snd kt))); [reflexivity|assumption].
  - rewrite Hw'. cbn [Py.bind].
    eexists. simpl tasks. rewrite map_map. reflexivity.
Qed.

End PerCategoryFacts.

(** ** The assembler: sizes of the per-category outputs *)

Section PerCategoryClaims.
Import Bench BenchSpec BenchFacts UniformFacts NameFacts FootprintFacts
       PerCategoryFacts.

(** C3.  On a graph stored under distinct names, with its adjacency listed
    and made of tasks, every task being a child of its parents, and for
    [data] giving a size to every category, the per-category branch
    returns, and in the result the output files of a task [k] are:
    if [k] has no children, the single file [k_k_output.txt] with the size
    of [k]'s own category; otherwise one file [k_c_output.txt] for each
    child [c], with the size of the category of [c], and no other. *)
Theorem per_category_output_sizes
        (H : Host) (wf : Workflow) (save_dir json_path : string)
        (percent_cpu : Param PyFloat) (cpu_work gpu_work : option (Param Z))
        (data : dict Z) (lock_files_folder : option string) (w : World) :
  listed wf ->
  named wf ->
  children_are_tasks wf ->
  linked_back wf ->
  covered wf data ->
  Forall (fun kt =>
            exists params,
              task_params percent_cpu cpu_work gpu_work lock_files_folder
                          (fst (create_lock_files H lock_files_folder w))
                          (snd kt) = Ok params)
         (tasks wf) ->
  exists wf' w',
    create_benchmark H wf save_dir json_path percent_cpu cpu_work gpu_work
                     (Some (PerCategory data)) lock_files_folder w
    = Ok (json_path, wf', w') /\
    forall k t,
      In (k, t) (tasks wf) ->
      exists t',
        In (k, t') (tasks wf') /\
        let outs := filter is_output (Task.files t') in
        match children_of wf k with
        | [] =>
            exists sz,
              get (Task.category t) data = Some sz /\
              outs = [File.mk (edge_output_name k k) sz OUTPUT]
        | (_ :: _) as cs =>
            (forall c, In c cs ->
                       exists tc sz,
                         In (c, tc) (tasks wf) /\
                         get (Task.category tc) data = Some sz /\
                         In (File.mk (edge_output_name k c) sz OUTPUT) outs) /\
            (forall f, In f outs ->
                       exists c tc sz,
                         In c cs /\ In (c, tc) (tasks wf) /\
                         get (Task.category tc) data = Some sz /\
                         f = File.mk (edge_output_name k c) sz OUTPUT)
        end.
Proof.
  intros Hl Hn Hch Hb Hc Hps.
  destruct (create_benchmark_per_category H wf save_dir json_path percent_cpu
              cpu_work gpu_work data lock_files_folder w Hl Hn Hch Hb Hc Hps)
    as [w' Hrun].
  eexists _, w'. split; [exact Hrun|]. clear Hrun.
  intros k t Hin. eexists. split.
  { cbn [tasks with_tasks]. apply in_map_iff. exists (k, t).
    split; [reflexivity|assumption]. }
  cbn [fst snd]. rewrite per_category_fill_outputs.
  cbn [Task.files Task.name reset_task filter app].
  rewrite (row_of_reset H wf data
             (params_of percent_cpu cpu_work gpu_work lock_files_folder
                        (fst (create_lock_files H lock_files_folder w)))).
  pose proof (name_of_named wf k t Hn Hin) as Hname. rewrite Hname.
  unfold row_of. rewrite Hname.
  assert (Hchild : forall c, In c (children_of wf k) ->
             exists tc sz,
               In (c, tc) (tasks wf) /\
               get (Task.category tc) data = Some sz /\
               category_size wf data c = sz).
  { intros c Hc'. assert (Hck : In c (keys (tasks wf))).
    { apply (Hch k (children_of wf k)); [| |assumption].
      - apply in_map_iff. exists (k, t). auto.
      - rewrite <- Hname. apply (listed_children wf k t Hl Hin). }
    apply in_map_iff in Hck. destruct Hck as [[c' tc] [Heq Hinc]].
    simpl in Heq. subst c'.
    destruct (covered_size wf data c tc Hc Hinc) as [Hsz _].
    exists tc, (own_size data tc). repeat split; try assumption.
    unfold category_size. now rewrite (get_of_named wf c tc Hn Hinc). }
  destruct (children_of wf k) as [|c0 cs] eqn:Ecs.
  - destruct (covered_size wf data k t Hc Hin) as [Hsz _].
    exists (own_size data t). split; [assumption|reflexivity].
  - split.
    + intros c Hc'. destruct (Hchild c Hc') as (tc & sz & Hinc & Hsz & Hcs).
      exists tc, sz. repeat split; try assumption.
      apply in_map_iff. exists (c, sz). split; [reflexivity|].
      apply get_Some_In. rewrite fold_set_get.
      destruct (mem c (c0 :: cs)) eqn:Em; [now rewrite Hcs|].
      apply mem_false in Em. tauto.
    + intros f Hf. apply in_map_iff in Hf. destruct Hf as [[c v] [<- Hcv]].
      apply fold_set_In in Hcv. destruct Hcv as [[Hc' Hv]|[]].
      destruct (Hchild c Hc') as (tc & sz & Hinc & Hsz & Hcs).
      exists c, tc, sz. repeat split; try assumption.
      simpl. now rewrite Hv, Hcs.
Qed.

(** The graph A -> B, A -> C, B -> D with sizes b = 100, c = 200 and
    d = 50: A's outputs to B and C have 100 and 200 bytes, B's output to D
    has 50, and the leaf D has one self-named output of 50 bytes. *)
Example per_category_fork :
  exists wf' w',
    create_benchmark Examples.host Examples.fork "/data" "/data/fork-4.json"
                     (Scalar "0.6") None None
                     (Some (PerCategory Examples.sizes)) None
                     Examples.empty_world
    = Ok ("/data/fork-4.json", wf', w') /\
    map (fun kt => (fst kt, filter is_output (Task.files (snd kt)))) (tasks wf')
    = [("A", [File.mk "A_B_output.txt" 100%Z OUTPUT;
              File.mk "A_C_output.txt" 200%Z OUTPUT]);
       ("B", [File.mk "B_D_output.txt" 50%Z OUTPUT]);
       ("C", [File.mk "C_C_output.txt" 200%Z OUTPUT]);
       ("D", [File.mk "D_D_output.txt" 50%Z OUTPUT])].
Proof. do 2 eexists. split; vm_compute; reflexivity. Qed.

End PerCategoryClaims.

(** ** The example graphs are well formed *)

Section ExampleFacts.
Import Bench BenchSpec.

Ltac each_task H :=
  simpl in H;
  repeat (destruct H as [H|H]; [injection H as <- <-|]); [..|destruct H].

Ltac each_key H :=
  simpl in H; repeat (destruct H as [<-|H]); [..|destruct H].

Lemma fork_listed : listed Examples.fork.
Proof. intros k t Hin. each_task Hin; split; eexists; reflexivity. Qed.

Lemma fork_named : named Examples.fork.
Proof.
  split; [repeat constructor|split].
  - repeat constructor; simpl; intuition discriminate.
  - intros k ps Hin Hget x Hx. each_key Hin; simpl in Hget;
      injection Hget as <-; simpl in Hx; simpl; intuition.
Qed.

Lemma fork_children_are_tasks : children_are_tasks Examples.fork.
Proof.
  intros k cs Hin Hget x Hx. each_key Hin; simpl in Hget;
    injection Hget as <-; simpl in Hx; simpl; intuition.
Qed.

Lemma fork_linked_back : linked_back Examples.fork.
Proof.
  intros k t p Hin Hp. each_task Hin; vm_compute in Hp; vm_compute;
    intuition (subst; auto).
Qed.

Lemma fork_covered : covered Examples.fork Examples.sizes.
Proof.
  intros k t Hin. each_task Hin; eexists; (split; [reflexivity|lia]).
Qed.

Lemma join_listed : listed Examples.join.
Proof. intros k t Hin. each_task Hin; split; eexists; reflexivity. Qed.

Lemma join_named : named Examples.join.
Proof.
  split; [repeat constructor|split].
  - repeat constructor; simpl; intuition discriminate.
  - intros k ps Hin Hget x Hx. each_key Hin; simpl in Hget;
      injection Hget as <-; simpl in Hx; simpl; intuition.
Qed.

End ExampleFacts.

Section WitnessesOfTheAssembler.
Import Bench BenchSpec.

Lemma uniform_footprint_file_sizes_witness :
  exists wf' w',
    create_benchmark Examples.host Examples.join "/data" "/data/join-4.json"
                     (Scalar "0.6") (Some (Scalar 100%Z)) None
                     (Some (Scalar 1%Z)) (Some "/locks") Examples.empty_world
    = Ok ("/data/join-4.json", wf', w') /\
    (forall f, In f (all_files wf') -> File.size f = 166667%Z) /\
    (2 * Z.abs (footprint wf' - 1000000) <= 6)%Z.
Proof.
  destruct (uniform_footprint_file_sizes
              Examples.host Examples.join "/data" "/data/join-4.json"
              (Scalar "0.6") (Some (Scalar 100%Z)) None 1%Z (Some "/locks")
              Examples.empty_world join_listed join_named)
    as (wf' & w' & Hrun & _ & Hsz & _ & Hfp).
  - discriminate.
  - repeat constructor; eexists; vm_compute; reflexivity.
  - lia.
  - reflexivity.
  - exists wf', w'. split; [exact Hrun|]. split; [exact Hsz|exact Hfp].
Defined.

Lemma per_category_output_sizes_witness :
  exists wf' w' t',
    create_benchmark Examples.host Examples.fork "/data" "/data/fork-4.json"
                     (Scalar "0.6") (Some (Scalar 100%Z)) None
                     (Some (PerCategory Examples.sizes)) (Some "/locks")
                     Examples.empty_world
    = Ok ("/data/fork-4.json", wf', w') /\
    In ("D", t') (tasks wf') /\
    filter is_output (Task.files t')
    = [File.mk "D_D_output.txt" 50%Z OUTPUT].
Proof.
  destruct (per_category_output_sizes
              Examples.host Examples.fork "/data" "/data/fork-4.json"
              (Scalar "0.6") (Some (Scalar 100%Z)) None Examples.sizes
              (Some "/locks") Examples.empty_world
              fork_listed fork_named fork_children_are_tasks fork_linked_back
              fork_covered)
    as (wf' & w' & Hrun & Hall).
  - repeat constructor; eexists; vm_compute; reflexivity.
  - destruct (Hall "D" (Examples.built "D" "d")) as (t' & Hin & Hout).
    + simpl. tauto.
    + exists wf', w', t'. split; [exact Hrun|]. split; [exact Hin|].
      simpl in Hout. destruct Hout as (sz & Hsz & Hout).
      injection Hsz as <-. exact Hout.
Defined.

End WitnessesOfTheAssembler.

(** ** The assembler: where the inverted dict comes from *)

Module InvertFacts.
Import Bench BenchSpec BenchFacts UniformFacts PerCategoryFacts.

Lemma get_app {V} (k : string) (d d' : dict V) :
  get k (d ++ d') = match get k d with
                    | Some v => Some v
                    | None => get k d'
                    end.
Proof.
  induction d as [|[k0 v0] d IH]; simpl; [reflexivity|].
  destruct (String.eqb k k0); [reflexivity|assumption].
Qed.

(** Every entry [input_files[c][p] = sz] stems from an entry
    [output_files[p][c] = sz]. *)
Definition stems_from (outs acc : dict (dict Z)) : Prop :=
  forall c r p sz,
    get c acc = Some r -> In (p, sz) r ->
    exists row, In (p, row) outs /\ In (c, sz) row.

Lemma invert_row_sound outs p full :
  In (p, full) outs ->
  forall row acc acc',
    incl row full ->
    stems_from outs acc ->
    for_each
      (fun cs input_files =>
         set_inner (fst cs) p (snd cs) (setdefault (fst cs) [] input_files))
      row acc = Ok acc' ->
    stems_from outs acc'.
Proof.
  intros Hp. induction row as [|[c sz] row IH]; intros acc acc' Hincl Hacc H.
  - injection H as <-. assumption.
  - cbn [for_each fst snd] in H. bind_inv H. unfold set_inner in E.
    bind_inv E. injection E as <-.
    apply (IH _ _ (fun x Hx => Hincl x (or_intror Hx))) in H; [assumption|].
    assert (Hacc1 : stems_from outs (setdefault c [] acc)).
    { unfold setdefault. destruct (get c acc); [assumption|].
      intros c' r p' sz' Hget Hin. rewrite get_app in Hget.
      destruct (get c' acc) eqn:Eg.
      - injection Hget as <-. apply (Hacc c' l p' sz' Eg Hin).
      - simpl in Hget. destruct (String.eqb c' c); [|discriminate].
        injection Hget as <-. destruct Hin. }
    unfold item in E0.
    destruct (get c (setdefault c [] acc)) as [r0|] eqn:Er0; [|discriminate].
    injection E0 as <-.
    intros c' r p' sz' Hget Hin.
    destruct (String.eqb_spec c c') as [<-|Hne].
    + rewrite get_set_same in Hget. injection Hget as <-.
      apply set_In in Hin. destruct Hin as [[-> ->]|Hin].
      * exists full. split; [assumption|]. apply Hincl. now left.
      * apply (Hacc1 c r0 p' sz' Er0 Hin).
    + rewrite get_set_other in Hget by assumption.
      apply (Hacc1 c' r p' sz' Hget Hin).
Qed.

Lemma invert_loop_sound outs :
  forall rest acc acc',
    incl rest outs ->
    stems_from outs acc ->
    for_each
      (fun pc input_files =>
         for_each
           (fun cs input_files =>
              set_inner (fst cs) (fst pc) (snd cs)
                        (setdefault (fst cs) [] input_files))
           (snd pc) input_files)
      rest acc = Ok acc' ->
    stems_from outs acc'.
Proof.
  induction rest as [|[p row] rest IH]; intros acc acc' Hincl Hacc H.
  - injection H as <-. assumption.
  - cbn [for_each fst snd] in H. bind_inv H.
    apply (IH _ _ (fun x Hx => Hincl x (or_intror Hx))) in H; [assumption|].
    apply (invert_row_sound outs p row (Hincl _ (or_introl eq_refl))
                            row acc a (incl_refl _) Hacc E).
Qed.

Lemma inverted_sound outs : stems_from outs (inverted outs).
Proof.
  unfold inverted. destruct (invert outs) as [inp|e] eqn:E.
  - unfold invert in E.
    apply (invert_loop_sound outs outs [] inp (incl_refl _)); [|assumption].
    intros c r p sz Hget. discriminate.
  - intros c r p sz Hget. discriminate.
Qed.

End InvertFacts.

(** ** The assembler: the dependency contract *)

Section ContractClaims.
Import Bench BenchSpec BenchFacts UniformFacts NameFacts FootprintFacts
       PerCategoryFacts InvertFacts.

(** In the uniform branch every input of a task with parents is named
    after the output of one of its parents. *)
Lemma uniform_inputs_come_from_parents
      (H : Host) (wf : Workflow) (save_dir json_path : string)
      (percent_cpu : Param PyFloat) (cpu_work gpu_work : option (Param Z))
      (D : Z) (lock_files_folder : option string) (w : World) :
  listed wf ->
  named wf ->
  tasks wf <> [] ->
  Forall (fun kt =>
            exists params,
              task_params percent_cpu cpu_work gpu_work lock_files_folder
                          (fst (create_lock_files H lock_files_folder w))
                          (snd kt) = Ok params)
         (tasks wf) ->
  (0 <= D)%Z ->
  exists wf' w',
    create_benchmark H wf save_dir json_path percent_cpu cpu_work gpu_work
                     (Some (Scalar D)) lock_files_folder w
    = Ok (json_path, wf', w') /\
    inputs_come_from_parents wf wf'.
Proof.
  intros Hl Hn Hne Hps HD.
  destruct (create_benchmark_uniform H wf save_dir json_path percent_cpu
              cpu_work gpu_work D lock_files_folder w Hl Hne Hps HD)
    as [w' Hrun].
  eexists _, w'. split; [exact Hrun|]. clear Hrun.
  intros k t' f Hin' Hroot Hf Hlink. cbn [tasks with_tasks] in *.
  apply in_map_iff in Hin'. destruct Hin' as [[k0 t] [Heq Hin]].
  injection Heq as <- <-. cbn [fst snd] in *.
  pose proof (name_of_named wf k0 t Hn Hin) as Hname.
  rewrite uniform_fill_files, Hname in Hf.
  destruct Hf as [<-|Hf]; [discriminate Hlink|].
  destruct (parents_of wf k0) as [|p0 ps0] eqn:Eps; [congruence|].
  apply in_map_iff in Hf. destruct Hf as [p [<- Hp]].
  assert (Hpk : In p (keys (tasks wf))).
  { destruct Hn as (_ & _ & Hpar). apply (Hpar k0 (p0 :: ps0)); [| |exact Hp].
    - apply in_map_iff. exists (k0, t). auto.
    - rewrite <- Eps, <- Hname. apply (listed_parents wf k0 t Hl Hin). }
  apply in_map_iff in Hpk. destruct Hpk as [[p' tp] [Heq Hinp]].
  simpl in Heq. subst p'.
  eexists p, _, _. split; [exact Hp|]. split.
  { apply in_map_iff. exists (p, tp). split; [reflexivity|assumption]. }
  cbn [fst snd]. rewrite uniform_fill_files.
  rewrite (name_of_named wf p tp Hn Hinp).
  split; [now left|]. split; reflexivity.
Qed.

(** In the per-category branch every input of a task [k] with parents is
    declared as output, under the same name and with the same size, by a
    task of the graph: by a task that lists [k] among its children or, when
    [k] has no children, by [k] itself. *)
Lemma per_category_inputs_are_declared_outputs
      (H : Host) (wf : Workflow) (save_dir json_path : string)
      (percent_cpu : Param PyFloat) (cpu_work gpu_work : option (Param Z))
      (data : dict Z) (lock_files_folder : option string) (w : World) :
  listed wf ->
  named wf ->
  children_are_tasks wf ->
  linked_back wf ->
  covered wf data ->
  Forall (fun kt =>
            exists params,
              task_params percent_cpu cpu_work gpu_work lock_files_folder
                          (fst (create_lock_files H lock_files_folder w))
                          (snd kt) = Ok params)
         (tasks wf) ->
  exists wf' w',
    create_benchmark H wf save_dir json_path percent_cpu cpu_work gpu_work
                     (Some (PerCategory data)) lock_files_folder w
    = Ok (json_path, wf', w') /\
    forall k t' f,
      In (k, t') (tasks wf') ->
      parents_of wf k <> [] ->
      In f (Task.files t') -> File.link f = INPUT ->
      exists p tp,
        In (p, tp) (tasks wf') /\
        File.name f = edge_output_name p k /\
        In (File.mk (edge_output_name p k) (File.size f) OUTPUT)
           (Task.files tp) /\
        (In k (children_of wf p) \/ (p = k /\ children_of wf k = [])).
Proof.
  intros Hl Hn Hch Hb Hc Hps.
  destruct (create_benchmark_per_category H wf save_dir json_path percent_cpu
              cpu_work gpu_work data lock_files_folder w Hl Hn Hch Hb Hc Hps)
    as [w' Hrun].
  eexists _, w'. split; [exact Hrun|]. clear Hrun.
  set (reset := fun t =>
                  reset_task H
                    (params_of percent_cpu cpu_work gpu_work lock_files_folder
                               (fst (create_lock_files H lock_files_folder w)) t)
                    t).
  set (wf1 := with_tasks wf
                (map (fun kt => (fst kt, reset (snd kt))) (tasks wf))).
  intros k t' f Hin' Hroot Hf Hlink. cbn [tasks with_tasks] in Hin'.
  apply in_map_iff in Hin'. destruct Hin' as [[k0 t] [Heq Hin]].
  injection Heq as <- <-. cbn [fst snd] in *.
  pose proof (name_of_named wf k0 t Hn Hin) as Hname.
  (* the input comes from the row of [k0] in the inverted dict *)
  assert (Hrow : exists r p sz,
             get k0 (inverted (outputs_of wf1 data)) = Some r /\
             In (p, sz) r /\ f = File.mk (edge_output_name p k0) sz INPUT).
  { destruct (per_category_fill_inputs wf1 data (reset t) f eq_refl Hf Hlink)
      as (r & p & sz & Hget & Hpsz & Hfile).
    - change (parents_of wf (Task.name t) <> []). now rewrite Hname.
    - change (Task.name (reset t)) with (Task.name t) in Hget, Hfile.
      rewrite Hname in Hget, Hfile. exists r, p, sz. auto. }
  destruct Hrow as (r & p & sz & Hget & Hpsz & ->).
  destruct (inverted_sound (outputs_of wf1 data) k0 r p sz Hget Hpsz)
    as (row & Hrow & Hk0).
  clear Hget Hpsz. subst wf1 reset.
  unfold outputs_of in Hrow. cbn [tasks with_tasks] in Hrow.
  rewrite map_map in Hrow. apply in_map_iff in Hrow.
  destruct Hrow as [[kp tp] [Heq Hinp]]. cbn [fst snd] in Heq.
  injection Heq as Hp Hr. cbn [Task.name reset_task] in Hp.
  pose proof (name_of_named wf kp tp Hn Hinp) as Hnamep.
  rewrite Hp in Hnamep. subst kp. rename Hp into Hnamep.
  rewrite (row_of_reset H wf data
             (params_of percent_cpu cpu_work gpu_work lock_files_folder
                        (fst (create_lock_files H lock_files_folder w))))
    in Hr.
  subst row.
  eexists p, _. split.
  { apply in_map_iff. exists (p, tp). split; [reflexivity|assumption]. }
  cbn [fst snd File.name File.size].
  split; [reflexivity|]. split.
  - match goal with
    | |- In ?g (Task.files ?tp') =>
        assert (Hout : In g (filter is_output (Task.files tp')))
    end.
    { rewrite per_category_fill_outputs. apply in_or_app. right.
      rewrite (row_of_reset H wf data
                 (params_of percent_cpu cpu_work gpu_work lock_files_folder
                            (fst (create_lock_files H lock_files_folder w)))).
      cbn [Task.name reset_task].
      rewrite Hnamep. apply in_map_iff. exists (k0, sz). auto. }
    apply filter_In in Hout. apply Hout.
  - unfold row_of in Hk0. rewrite Hnamep in Hk0.
    destruct (children_of wf p) as [|c cs] eqn:Ecs.
    + destruct Hk0 as [Heq|[]]. injection Heq as <- _. right. auto.
    + left. apply fold_set_In in Hk0. destruct Hk0 as [[Hk0 _]|[]]. exact Hk0.
Qed.

(** C1, the failing run.  On the chain A -> B with per-category sizes the
    leaf B, whose only parent is A, is given two inputs: [A_B_output.txt],
    which A declares as output, and [B_B_output.txt], which no parent
    declares: it is the output of B itself.  The dependency contract does
    not hold for the assembled graph. *)
Lemma per_category_leaf_reads_its_own_output :
  exists wf' w' tA tB,
    create_benchmark Examples.host Examples.chain "/data" "/data/chain-2.json"
                     (Scalar "0.6") None None
                     (Some (PerCategory Examples.sizes)) None
                     Examples.empty_world
    = Ok ("/data/chain-2.json", wf', w') /\
    tasks wf' = [("A", tA); ("B", tB)] /\
    parents_of Examples.chain "B" = ["A"] /\
    filter is_output (Task.files tA) = [File.mk "A_B_output.txt" 100%Z OUTPUT] /\
    filter is_output (Task.files tB) = [File.mk "B_B_output.txt" 100%Z OUTPUT] /\
    filter is_input (Task.files tB)
    = [File.mk "A_B_output.txt" 100%Z INPUT;
       File.mk "B_B_output.txt" 100%Z INPUT] /\
    ~ inputs_come_from_parents Examples.chain wf'.
Proof.
  do 4 eexists. split; [vm_compute; reflexivity|].
  repeat (split; [reflexivity|]).
  intros Hcontract.
  destruct (Hcontract "B" _ (File.mk "B_B_output.txt" 100%Z INPUT)
              (or_intror (or_introl eq_refl)))
    as (p & tp & g & Hp & Hin & Hg & Hlink & Hname).
  - discriminate.
  - simpl. tauto.
  - reflexivity.
  - vm_compute in Hp. destruct Hp as [<-|[]].
    destruct Hin as [Heq|[Heq|[]]]; [|discriminate Heq].
    injection Heq as <-. simpl in Hg.
    destruct Hg as [<-|[<-|[]]]; simpl in Hname, Hlink; discriminate.
Qed.

End ContractClaims.

(** ** The executor: invariants of the poll loop *)

Module ExecutorFacts.
Import Executor.

Lemma assigning_correct_files_spec task :
  assigning_correct_files task
  = map File.name (filter is_input (Task.files task)).
Proof.
  unfold assigning_correct_files.
  assert (H : forall fs acc,
             fold_left
               (fun files file =>
                  if is_input file then files ++ [File.name file] else files)
               fs acc
             = acc ++ map File.name (filter is_input fs)).
  { induction fs as [|f fs IH]; intros acc; simpl.
    - now rewrite app_nil_r.
    - rewrite IH. destruct (is_input f); simpl; [|reflexivity].
      now rewrite <- app_assoc. }
  apply (H _ []).
Qed.

Lemma command_line_spec task : command_line task = expected_argv task.
Proof.
  unfold command_line, expected_argv. rewrite assigning_correct_files_spec.
  destruct (mem "--out" (Task.args task)); simpl; [reflexivity|].
  now rewrite app_nil_r.
Qed.

Lemma launches_app tr1 tr2 : launches (tr1 ++ tr2) = launches tr1 ++ launches tr2.
Proof.
  induction tr1 as [|[] tr1 IH]; simpl; try assumption; [reflexivity|].
  now rewrite IH.
Qed.

Lemma spawned_app tr1 tr2 : spawned (tr1 ++ tr2) = spawned tr1 ++ spawned tr2.
Proof.
  induction tr1 as [|[] tr1 IH]; simpl; try assumption; [reflexivity|].
  now rewrite IH.
Qed.

Lemma waits_app tr1 tr2 : waits (tr1 ++ tr2) = waits tr1 ++ waits tr2.
Proof.
  induction tr1 as [|[] tr1 IH]; simpl; try assumption; [reflexivity|].
  now rewrite IH.
Qed.

Lemma launches_length_le tr : (List.length (launches tr) <= List.length tr)%nat.
Proof. induction tr as [|[] tr IH]; simpl; lia. Qed.

Lemma launches_waited ps : launches (map Waited ps) = [].
Proof. induction ps; simpl; auto. Qed.

Lemma spawned_waited ps : spawned (map Waited ps) = [].
Proof. induction ps; simpl; auto. Qed.

Lemma waits_waited ps : waits (map Waited ps) = ps.
Proof. induction ps; simpl; [reflexivity|now f_equal]. Qed.

Lemma steady_start tasks : steady tasks start.
Proof.
  split; simpl; try reflexivity; try constructor.
  - intros x [].
  - intros name p [].
Qed.

(** One visit either leaves the variables steady, having launched the
    task at most once, or fails on [Popen] without a launch. *)
Lemma visit_steady M tasks task st :
  In task tasks -> steady tasks st ->
  match visit M task st with
  | Done st' =>
      steady tasks st' /\
      ((trace st' = trace st /\ has_executed st' = has_executed st) \/
       (exists p, trace st' = trace st ++ [Spawned (Task.name task) p] /\
                  has_executed st' = has_executed st ++ [Task.name task]))
  | Failed _ st' => trace st' = trace st
  end.
Proof.
  intros Hin [H1 H2 H3 H4 H5 H6]. unfold visit.
  destruct (mem (Task.name task) (has_executed st)) eqn:Em.
  { split; [split; assumption|]. left. auto. }
  apply mem_false in Em.
  destruct (negb (all (fst (probe_all M _ (probes st))))).
  { split; [split; assumption|]. left. auto. }
  destruct (popen_ok M (command_line task)); [|reflexivity].
  split.
  - split; simpl.
    + rewrite launches_app, H1. reflexivity.
    + apply NoDup_app; [assumption|repeat constructor; intros []|].
      intros x Hx [<-|[]]. contradiction.
    + intros x Hx. apply in_app_or in Hx. destruct Hx as [Hx|[<-|[]]].
      * now apply H3.
      * now apply in_map.
    + rewrite spawned_app, H4. reflexivity.
    + rewrite waits_app, H5. reflexivity.
    + intros name p Hp. apply in_app_or in Hp.
      destruct Hp as [Hp|[Hp|[]]]; [now apply H6|].
      injection Hp as <- <-. exists task. repeat split; [assumption|].
      apply command_line_spec.
  - right. eexists. split; reflexivity.
Qed.

(** A pass: the events added are launches of distinct tasks of the pass,
    each marked. *)
Lemma scan_steady M tasks :
  forall ts st,
    incl ts tasks -> steady tasks st ->
    match scan M ts st with
    | Done st' =>
        steady tasks st' /\
        exists evs,
          trace st' = trace st ++ evs /\
          has_executed st' = has_executed st ++ launches evs /\
          List.length (launches evs) = List.length evs
    | Failed _ st' => exists st0, steady tasks st0 /\ trace st' = trace st0
    end.
Proof.
  induction ts as [|task ts IH]; intros st Hincl Hst; simpl.
  - split; [assumption|]. exists []. now rewrite !app_nil_r.
  - assert (Hin : In task tasks) by (apply Hincl; now left).
    assert (Hts : incl ts tasks) by (intros x Hx; apply Hincl; now right).
    pose proof (visit_steady M tasks task st Hin Hst) as Hv.
    destruct (visit M task st) as [st1|e st1].
    + destruct Hv as [Hst1 Hstep].
      pose proof (IH st1 Hts Hst1) as Hs.
      destruct (scan M ts st1) as [st2|e st2]; [|exact Hs].
      destruct Hs as [Hst2 [evs (Htr & Hex & Hlen)]].
      split; [assumption|].
      destruct Hstep as [[Et Eh]|[p [Et Eh]]].
      * exists evs. rewrite Htr, Hex, Et, Eh. auto.
      * exists (Spawned (Task.name task) p :: evs).
        rewrite Htr, Hex, Et, Eh, <- !app_assoc. simpl.
        repeat split. now rewrite Hlen.
    + exists st. auto.
Qed.

Lemma steady_sleep tasks st : steady tasks st -> steady tasks (sleep st).
Proof.
  intros [H1 H2 H3 H4 H5 H6]. split; simpl; try assumption.
  - rewrite launches_app, H1. simpl. now rewrite app_nil_r.
  - rewrite spawned_app, H4. simpl. now rewrite app_nil_r.
  - rewrite waits_app, H5. reflexivity.
  - intros name p Hp. apply in_app_or in Hp.
    destruct Hp as [Hp|[Hp|[]]]; [now apply H6|discriminate].
Qed.

(** The loop ends, if it does, in a steady state in which the condition
    is false, or on a failed [Popen] whose trace is that of a steady
    state. *)
Lemma poll_steady M tasks :
  forall fuel st o,
    steady tasks st ->
    poll M tasks fuel st = Some o ->
    match o with
    | Done st' =>
        steady tasks st' /\
        (List.length (has_executed st') <? List.length tasks)%nat = false
    | Failed _ st' => exists st0, steady tasks st0 /\ trace st' = trace st0
    end.
Proof.
  induction fuel as [|fuel IH]; intros st o Hst Hp; simpl in Hp.
  - destruct (List.length (has_executed st) <? List.length tasks)%nat eqn:G;
      [discriminate|]. injection Hp as <-. auto.
  - destruct (List.length (has_executed st) <? List.length tasks)%nat eqn:G.
    + pose proof (scan_steady M tasks tasks st (incl_refl _) Hst) as Hs.
      destruct (scan M tasks st) as [st1|e st1].
      * destruct Hs as [Hst1 _]. apply (IH _ _ (steady_sleep _ _ Hst1) Hp).
      * injection Hp as <-. exact Hs.
    + injection Hp as <-. auto.
Qed.

(** When the condition is false in a steady state, every task has been
    launched. *)
Lemma steady_exit tasks st :
  NoDup (map Task.name tasks) ->
  steady tasks st ->
  (List.length (has_executed st) <? List.length tasks)%nat = false <->
  (forall task, In task tasks -> In (Task.name task) (launches (trace st))).
Proof.
  intros Hnd [H1 H2 H3 _ _ _]. rewrite H1. split.
  - intros G task Hin. apply Nat.ltb_ge in G.
    apply (@NoDup_length_incl _ (has_executed st) (map Task.name tasks) H2);
      [now rewrite length_map|assumption|].
    now apply in_map.
  - intros Hall. apply Nat.ltb_ge.
    rewrite <- (length_map Task.name tasks).
    apply NoDup_incl_length; [assumption|].
    intros x Hx. apply in_map_iff in Hx. destruct Hx as [task [<- Hin]].
    now apply Hall.
Qed.

End ExecutorFacts.

(** ** The executor: what cleanup removes *)

Module CleanupFacts.
Import Executor.

Lemma filter_filter {A} (f g : A -> bool) (l : list A) :
  filter f (filter g l) = filter (fun x => g x && f x) l.
Proof.
  induction l as [|x l IH]; simpl; [reflexivity|].
  destruct (g x); simpl; [destruct (f x)|]; now rewrite IH.
Qed.

(** [remove_all] removes a prefix of the names, all of them unless it
    raises. *)
Lemma remove_all_spec :
  forall names entries e rest,
    remove_all names entries = (e, rest) ->
    exists removed remaining,
      names = removed ++ remaining /\
      rest = filter (fun x => negb (mem x removed)) entries /\
      (e = None -> remaining = []).
Proof.
  induction names as [|t names IH]; intros entries e rest H; simpl in H.
  - injection H as <- <-. exists [], []. repeat split.
    induction entries; simpl; [reflexivity|now f_equal].
  - destruct (mem t entries).
    + apply IH in H. destruct H as (removed & remaining & Hn & Hr & He).
      exists (t :: removed), remaining. split; [now rewrite Hn|].
      split; [|assumption]. rewrite Hr, filter_filter.
      apply filter_ext. intros x. unfold mem at 2. simpl.
      rewrite negb_orb. reflexivity.
    + injection H as <- <-. exists [], (t :: names). repeat split.
      * induction entries; simpl; [reflexivity|now f_equal].
      * discriminate.
Qed.

Lemma glob_In pattern entries x :
  In x (glob pattern entries) <->
  In x entries /\
  negb (prefix "." x)
  && wildcard (list_ascii_of_string pattern) (list_ascii_of_string x) = true.
Proof. unfold glob. apply filter_In. Qed.

(** The names [cleanup_sys_files] sets out to remove are the generated
    entries. *)
Lemma cleanup_targets entries x :
  In x (glob "*input*.txt" entries ++ glob "*output.txt" entries) <->
  In x entries /\ generated x = true.
Proof.
  rewrite in_app_iff, !glob_In. unfold generated.
  destruct (negb (prefix "." x)); simpl.
  - rewrite orb_true_iff. tauto.
  - intuition discriminate.
Qed.

(** Whatever its outcome, cleanup leaves the other entries as they were;
    when it does not raise, it leaves nothing else. *)
Lemma cleanup_sys_files_spec entries e rest :
  cleanup_sys_files entries = (e, rest) ->
  filter (fun x => negb (generated x)) rest
  = filter (fun x => negb (generated x)) entries /\
  (e = None -> rest = filter (fun x => negb (generated x)) entries).
Proof.
  unfold cleanup_sys_files. intros H. apply remove_all_spec in H.
  destruct H as (removed & remaining & Hn & Hr & He).
  assert (Hrem : forall x, In x removed -> generated x = true).
  { intros x Hx. apply (cleanup_targets entries x). rewrite Hn.
    apply in_or_app. now left. }
  split.
  - rewrite Hr, filter_filter. apply filter_ext. intros x.
    destruct (generated x) eqn:G; simpl; [apply andb_false_r|].
    rewrite andb_true_r. destruct (mem x removed) eqn:Em; [|reflexivity].
    apply mem_In in Em. apply Hrem in Em. congruence.
  - intros ->. rewrite (He eq_refl), app_nil_r in Hn. rewrite Hr.
    apply filter_ext_in. intros x Hx. f_equal.
    destruct (mem x removed) eqn:Em.
    + apply mem_In in Em. symmetry. now apply Hrem.
    + apply mem_false in Em. destruct (generated x) eqn:G; [|reflexivity].
      exfalso. apply Em. rewrite <- Hn. apply cleanup_targets. auto.
Qed.


(** The handler keeps the variables but for the trace, to which it may
    add [Killall]. *)
Lemma handler_final M st entries :
  has_executed (final (handler M st entries)) = has_executed st /\
  procs (final (handler M st entries)) = procs st /\
  cwd (final (handler M st entries)) = cwd st /\
  (trace (final (handler M st entries)) = trace st \/
   trace (final (handler M st entries)) = trace st ++ [Killall]).
Proof.
  unfold handler. destruct (popen_ok M _); [|simpl; auto].
  destruct (cleanup_sys_files entries) as [[e|] rest]; simpl; auto.
Qed.

(** When the handler ends with its own exception, cleanup has run to its
    end. *)
Lemma handler_wrapped M st entries :
  raised (handler M st entries) = Some wrapped_failure ->
  entries_left (handler M st entries)
  = filter (fun x => negb (generated x)) entries.
Proof.
  unfold handler. destruct (popen_ok M _); [|discriminate].
  destruct (cleanup_sys_files entries) as [[e|] rest] eqn:Ec; simpl.
  - intros H. injection H as ->. exfalso.
    unfold cleanup_sys_files in Ec. revert Ec.
    generalize (glob "*input*.txt" entries ++ glob "*output.txt" entries).
    intros names. revert entries.
    induction names as [|t names IH]; intros entries; simpl; [discriminate|].
    destruct (mem t entries); [apply IH|]. discriminate.
  - intros _. now apply (cleanup_sys_files_spec entries None rest).
Qed.

(** How a run that was given its tasks ends. *)
Lemma run_cases M tasks fuel r :
  run M (Ok tasks) fuel = Some r ->
  (exists st,
      poll M tasks fuel start = Some (Done st) /\
      ((raised r = None /\ final r = wait_all st /\
        cleanup_sys_files (listing M (cwd st)) = (None, entries_left r)) \/
       (exists e rest,
           cleanup_sys_files (listing M (cwd st)) = (Some e, rest) /\
           r = handler M (wait_all st) rest))) \/
  (exists e st,
      poll M tasks fuel start = Some (Failed e st) /\
      r = handler M st (listing M (cwd st))).
Proof.
  unfold run. destruct (poll M tasks fuel start) as [[st|e st]|];
    [| |discriminate]; intros H.
  - left. exists st. split; [reflexivity|]. simpl cwd in H.
    change (cwd (wait_all st)) with (cwd st) in H.
    destruct (cleanup_sys_files (listing M (cwd st))) as [[e|] rest].
    + right. injection H as <-. eauto.
    + left. injection H as <-. auto.
  - right. injection H as <-. eauto.
Qed.

End CleanupFacts.

(** ** The executor: a run whose inputs are all there *)

Module LivenessFacts.
Import Executor ExecutorFacts.

Lemma probe_all_present M names k :
  (forall k n, present M k n = true) ->
  all (fst (probe_all M names k)) = true.
Proof.
  intros Hp. revert k. induction names as [|n names IH]; intros k; simpl.
  - reflexivity.
  - unfold all in *. simpl. rewrite Hp. apply IH.
Qed.

(** With every input present and every command found, a pass launches the
    tasks it meets that are not yet marked. *)
Lemma scan_launches_all M :
  (forall k n, present M k n = true) ->
  (forall a, popen_ok M a = true) ->
  forall ts st,
    NoDup (has_executed st ++ map Task.name ts) ->
    exists st',
      scan M ts st = Done st' /\
      has_executed st' = has_executed st ++ map Task.name ts.
Proof.
  intros Hp Ho. induction ts as [|task ts IH]; intros st Hnd.
  - exists st. simpl. now rewrite app_nil_r.
  - cbn [scan]. unfold visit.
    assert (Hfresh : mem (Task.name task) (has_executed st) = false).
    { apply mem_false. intros Hin. simpl in Hnd.
      apply NoDup_remove_2 in Hnd. apply Hnd. apply in_or_app. now left. }
    rewrite Hfresh, probe_all_present by assumption. cbn [negb].
    rewrite Ho.
    match goal with
    | |- context [scan M ts ?s1] => destruct (IH s1) as [st' [Hs Hh]]
    end.
    { cbn [has_executed]. rewrite <- app_assoc. exact Hnd. }
    exists st'. split; [exact Hs|]. rewrite Hh. cbn [has_executed map].
    now rewrite <- app_assoc.
Qed.

(** Such a run leaves the loop after one pass, every task marked. *)
Lemma poll_ends_when_inputs_are_present M tasks fuel :
  (forall k n, present M k n = true) ->
  (forall a, popen_ok M a = true) ->
  NoDup (map Task.name tasks) ->
  exists st,
    poll M tasks (S fuel) start = Some (Done st) /\
    has_executed st = map Task.name tasks.
Proof.
  intros Hp Ho Hnd. cbn [poll].
  destruct tasks as [|task tasks].
  { exists start. split; reflexivity. }
  cbn [start has_executed List.length Nat.ltb Nat.leb].
  destruct (scan_launches_all M Hp Ho (task :: tasks) start Hnd)
    as [st' [Hs Hh]].
  rewrite Hs. simpl in Hh.
  exists (sleep st'). split; [|exact Hh].
  assert (G : (List.length (has_executed (sleep st'))
               <? List.length (task :: tasks))%nat = false).
  { simpl. rewrite Hh. simpl. rewrite length_map. apply Nat.ltb_irrefl. }
  destruct fuel; cbn [poll]; rewrite G; reflexivity.
Qed.

(** And [run] then returns a report. *)
Lemma run_returns_when_inputs_are_present M tasks fuel :
  (forall k n, present M k n = true) ->
  (forall a, popen_ok M a = true) ->
  NoDup (map Task.name tasks) ->
  exists r, run M (Ok tasks) (S fuel) = Some r.
Proof.
  intros Hp Ho Hnd.
  destruct (poll_ends_when_inputs_are_present M tasks fuel Hp Ho Hnd)
    as [st [Hpoll _]].
  unfold run. rewrite Hpoll.
  destruct (cleanup_sys_files _) as [[e|] rest]; eauto.
Qed.

End LivenessFacts.

(** ** The executor: launches, command lines and cleanup of a run *)

Section ExecutorClaims.
Import Executor ExecutorFacts CleanupFacts.

(** The trace of a finished run is that of a steady state of the loop
    followed by waits and possibly [Killall]: no launch is added. *)
Lemma run_trace M tasks fuel r :
  run M (Ok tasks) fuel = Some r ->
  exists st0 extra,
    steady tasks st0 /\
    trace (final r) = trace st0 ++ extra /\
    launches extra = [] /\ spawned extra = [].
Proof.
  intros Hrun. apply run_cases in Hrun.
  destruct Hrun as [(st & Hp & Hend)|(e & st & Hp & ->)].
  - pose proof (poll_steady M tasks fuel start _ (steady_start tasks) Hp)
      as [Hst _].
    destruct Hend as [(_ & Hf & _)|(e & rest & _ & ->)].
    + exists st, (map Waited (procs st)). rewrite Hf. simpl.
      rewrite launches_waited, spawned_waited. auto.
    + destruct (handler_final M (wait_all st) rest) as (_ & _ & _ & [Ht|Ht]);
        rewrite Ht; simpl.
      * exists st, (map Waited (procs st)).
        rewrite launches_waited, spawned_waited. auto.
      * exists st, (map Waited (procs st) ++ [Killall]).
        rewrite <- app_assoc, launches_app, spawned_app,
          launches_waited, spawned_waited. auto.
  - pose proof (poll_steady M tasks fuel start _ (steady_start tasks) Hp)
      as (st0 & Hst0 & Ht0).
    destruct (handler_final M st (listing M (cwd st))) as (_ & _ & _ & [Ht|Ht]);
      rewrite Ht, Ht0.
    + exists st0, []. rewrite app_nil_r. auto.
    + exists st0, [Killall]. auto.
Qed.

Lemma spawned_In name p tr extra :
  spawned extra = [] -> In (Spawned name p) (tr ++ extra) ->
  In (Spawned name p) tr.
Proof.
  intros Hex Hin. apply in_app_or in Hin. destruct Hin as [Hin|Hin]; [assumption|].
  exfalso. induction extra as [|[] extra IH]; simpl in *;
    try discriminate; try (destruct Hin as [Hin|Hin]; [discriminate|auto]).
  destruct Hin.
Qed.


End ExecutorClaims.

(** ** The executor on the examples *)

Section ExecutorExamples.
Import Executor.


Lemma flagged_run :
  run Examples.obliging (Ok [Examples.flagged]) 5 = Some Examples.flagged_report.
Proof. vm_compute. reflexivity. Qed.

(** C4, as the specification states it, this fails: the task whose arguments carry
    ["--out"] is started with the name [A_input.txt] appended, as the
    manifest has it; this is not an absolute path, and no resolved path is
    appended. *)
Lemma input_names_are_appended_unresolved :
  exists p,
    run Examples.obliging (Ok [Examples.flagged]) 5
    = Some Examples.flagged_report /\
    In (Spawned "A" p) (trace (final Examples.flagged_report)) /\
    argv p = ["time"; "python"; Task.program Examples.flagged]
             ++ Task.args Examples.flagged ++ ["A_input.txt"] /\
    absolute "A_input.txt" = false /\
    ~ (exists paths,
          argv p = ["time"; "python"; Task.program Examples.flagged]
                   ++ Task.args Examples.flagged ++ paths /\
          Forall (fun q => absolute q = true) paths /\
          List.length paths = 1%nat).
Proof.
  eexists. split; [exact flagged_run|].
  split; [vm_compute; left; reflexivity|].
  split; [reflexivity|]. split; [reflexivity|].
  intros (paths & Hargv & Habs & _). simpl in Hargv.
  injection Hargv as <-. inversion Habs as [|? ? Hq _]. discriminate Hq.
Qed.

(** The tasks the assembler writes carry their output-size map in one
    argument, ["--out {...}"], which is not the string ["--out"]: they are
    started with their recorded arguments and nothing more. *)
Example assembled_tasks_get_their_recorded_arguments :
  forall name p,
    In (Spawned name p) (trace (final Examples.chain_report)) ->
    exists task,
      In task Examples.assembled_chain /\ Task.name task = name /\
      argv p = ["time"; "python"; Task.program task] ++ Task.args task.
Proof.
  intros name p Hin. vm_compute in Hin.
  destruct Hin as [Hin|[Hin|[Hin|[Hin|[Hin|[Hin|[]]]]]]];
    try discriminate Hin; injection Hin as <- <-.
  - eexists. split; [left; reflexivity|split; reflexivity].
  - eexists. split; [right; left; reflexivity|split; reflexivity].
Qed.

(** On the chain the loop makes two passes, launches A then B, and the
    executor waits for both processes. *)
Example chain_events :
  map (fun e => match e with
                | Spawned n _ => "spawn " +++ n
                | Slept => "sleep"
                | Waited p => "wait " +++ str_Z (Z.of_nat (scratch p))
                | Killall => "killall"
                end)
      (trace (final Examples.chain_report))
  = ["spawn A"; "sleep"; "spawn B"; "sleep"; "wait 0"; "wait 1"].
Proof. reflexivity. Qed.



(** When [Popen] does not find [time], the exception leaves the process in
    the scratch directory of the launch; cleanup lists that directory, and
    the input of A stays in the package directory. *)
Example failed_launch_cleans_the_scratch_directory :
  exists r,
    run Examples.without_time (Ok Examples.assembled_chain) 5 = Some r /\
    raised r = Some wrapped_failure /\
    cwd (final r) = Scratch 0 /\
    after Examples.without_time r Package = ["A_input.txt"; "run.txt"].
Proof. eexists. split; [vm_compute; reflexivity|]. repeat split. Qed.

(** When the workflow cannot be read and the directory holds a name that
    matches both patterns, cleanup lists that name twice, raises at its
    second removal, and leaves the output file that came after it. *)
Example cleanup_stops_at_a_name_listed_twice :
  exists r,
    run Examples.with_double_match (Raise (OSError "read_text")) 5 = Some r /\
    raised r
    = Some (FileNotFoundError "No such file or directory: input_output.txt") /\
    after Examples.with_double_match r Launch = ["c_output.txt"] /\
    generated "c_output.txt" = true.
Proof. eexists. split; [vm_compute; reflexivity|]. repeat split. Qed.

End ExecutorExamples.

(** ** The builder: job names, file queries and repeated generation *)

Module NamingFacts.
Import Recipe Naming.









(** *** Closed forms of the generation loops *)

Lemma set_get_same {V} (k : string) (v : V) (d : dict V) :
  get k d = Some v -> set k v d = d.
Proof.
  induction d as [|[k' v'] d IH]; cbn [get set]; [discriminate|].
  destruct (String.eqb k k') eqn:E.
  - apply String.eqb_eq in E. subst k'. now intros [= ->].
  - intros H. now rewrite IH.
Qed.

Lemma set_set {V} (k : string) (v v' : V) (d : dict V) :
  set k v' (set k v d) = set k v' d.
Proof.
  induction d as [|[k0 v0] d IH]; cbn [set].
  - now rewrite String.eqb_refl.
  - destruct (String.eqb k k0) eqn:E; cbn [set]; rewrite ?String.eqb_refl, ?E;
      [reflexivity|now rewrite IH].
Qed.

Lemma repeat_append_total E job_id e recipe l d n :
  get e recipe = Some d ->
  forall st fs,
    get job_id (jobs_files st) = Some fs ->
    repeat_append E job_id e recipe l n st
    = Ok {| jobs_files := set job_id (fs ++ batch E e d l (draws st) n)
                              (jobs_files st);
            draws := draws st + n |}.
Proof.
  intros He. induction n as [|n IH]; intros [jf k] fs Hfs; cbn [draws jobs_files] in *.
  - cbn [repeat_append batch]. rewrite app_nil_r, (set_get_same _ _ _ Hfs).
    now rewrite Nat.add_0_r.
  - cbn [repeat_append batch]. unfold append_generated, _generate_file.
    cbn [draws jobs_files].
    rewrite (item_Some _ _ _ Hfs), (item_Some _ _ _ He). cbn [Py.bind].
    rewrite (IH _ (fs ++ [File.mk (uuid4 E k +++ e) (generate_rvs E k d) l]));
      [|cbn [jobs_files]; apply get_set_same].
    cbn [draws jobs_files]. rewrite set_set, <- app_assoc.
    cbn [app]. do 2 f_equal. lia.
Qed.

Lemma generate_files_loop_total E job_id recipe l files_recipe present :
  forall ks st fs,
    incl ks (keys recipe) ->
    get job_id (jobs_files st) = Some fs ->
    for_each
      (fun extension st =>
         if mem extension present then Ok st
         else repeat_append E job_id extension recipe l
                (Z.to_nat (num_files files_recipe l extension)) st)
      ks st
    = Ok {| jobs_files :=
              set job_id
                  (fs ++ fresh_files E recipe l files_recipe present ks (draws st))
                  (jobs_files st);
            draws := draws st
                     + List.length (fresh_files E recipe l files_recipe present
                                                ks (draws st)) |}.
Proof.
  induction ks as [|e ks IH]; intros [jf k] fs Hks Hfs;
    cbn [draws jobs_files] in *.
  - cbn [for_each fresh_files List.length]. rewrite app_nil_r, Nat.add_0_r.
    now rewrite (set_get_same _ _ _ Hfs).
  - cbn [for_each fresh_files].
    assert (Hks' : incl ks (keys recipe)) by (intros x Hx; apply Hks; now right).
    destruct (mem e present) eqn:Hm; cbn [Py.bind].
    + now apply (IH {| jobs_files := jf; draws := k |}).
    + destruct (get_In_keys e recipe) as [d Hd]; [apply Hks; now left|].
      rewrite Hd.
      rewrite (repeat_append_total E job_id e recipe l d _ Hd
                                   {| jobs_files := jf; draws := k |} fs Hfs).
      cbn [Py.bind draws jobs_files].
      rewrite (IH _ (fs ++ batch E e d l k
                             (Z.to_nat (num_files files_recipe l e))) Hks');
        [|cbn [jobs_files]; apply get_set_same].
      cbn [draws jobs_files].
      rewrite set_set, <- app_assoc, length_app, RecipeFacts.batch_length.
      do 2 f_equal. lia.
Qed.

Lemma generate_files_total E job_id recipe l files_recipe st fs :
  get job_id (jobs_files st) = Some fs ->
  let fresh := fresh_files E recipe l files_recipe (extension_list fs l)
                           (keys recipe) (draws st) in
  _generate_files E job_id recipe l files_recipe st
  = Ok {| jobs_files := set job_id (fs ++ fresh) (jobs_files st);
          draws := draws st + List.length fresh |}.
Proof.
  intros Hfs fresh. unfold _generate_files.
  rewrite (item_Some _ _ _ Hfs). cbn [Py.bind].
  now apply generate_files_loop_total; [apply incl_refl|].
Qed.

Lemma item_Ok {V} (k : string) (d : dict V) (v : V) :
  item k d = Ok v -> get k d = Some v.
Proof. unfold item. destruct (get k d); [now intros [= ->]|discriminate]. Qed.

Lemma generate_job_total E workflow_recipe job_name job_id input_files
      files_recipe st jr :
  get job_name workflow_recipe = Some jr ->
  let linked := match input_files with
                | Some fs => inherited fs
                | None => []
                end in
  let fresh_in :=
    fresh_files E (r_input jr) INPUT files_recipe
                (extension_list linked INPUT) (keys (r_input jr))
                (S (draws st)) in
  let fresh_out :=
    fresh_files E (r_output jr) OUTPUT files_recipe
                (extension_list (linked ++ fresh_in) OUTPUT)
                (keys (r_output jr)) (S (draws st) + List.length fresh_in) in
  _generate_job E workflow_recipe job_name job_id input_files files_recipe st
  = Ok ({| Recipe.job_name := job_id;
           job_runtime := generate_rvs E (draws st) (r_runtime jr);
           job_args := []; job_cores := 1%Z;
           job_files := linked ++ fresh_in ++ fresh_out |},
        {| jobs_files := set job_id (linked ++ fresh_in ++ fresh_out)
                             (jobs_files st);
           draws := S (draws st) + List.length fresh_in
                    + List.length fresh_out |}).
Proof.
  intros Hjr linked fresh_in fresh_out. unfold _generate_job.
  rewrite (item_Some _ _ _ Hjr). cbn [Py.bind]. fold linked.
  rewrite (generate_files_total E job_id (r_input jr) INPUT files_recipe _ linked);
    [|cbn [jobs_files]; apply get_set_same].
  cbn [Py.bind draws jobs_files]. fold fresh_in.
  rewrite (generate_files_total E job_id (r_output jr) OUTPUT files_recipe _
                                (linked ++ fresh_in));
    [|cbn [jobs_files]; apply get_set_same].
  cbn [Py.bind draws jobs_files]. fold fresh_out.
  rewrite !set_set, <- app_assoc.
  unfold item. rewrite get_set_same. reflexivity.
Qed.

Lemma batch_link E e d l k n : Forall (fun f => File.link f = l) (batch E e d l k n).
Proof.
  revert k. induction n as [|n IH]; intros k; cbn [batch]; constructor;
    [reflexivity|apply IH].
Qed.

Lemma fresh_files_link E recipe l files_recipe present ks :
  forall k, Forall (fun f => File.link f = l)
                   (fresh_files E recipe l files_recipe present ks k).
Proof.
  induction ks as [|e ks IH]; intros k; cbn [fresh_files]; [constructor|].
  destruct (mem e present); [apply IH|].
  destruct (get e recipe); [|apply IH].
  apply Forall_app. split; [apply batch_link|apply IH].
Qed.




(** *** The draws behind the fresh names *)

Lemma names_drawn_app E k a b :
  names_drawn E k a -> names_drawn E (k + List.length a) b ->
  names_drawn E k (a ++ b).
Proof.
  unfold names_drawn. intros Ha Hb.
  rewrite length_app, seq_app. now apply Forall2_app.
Qed.

Lemma batch_names_drawn E e d l n :
  forall k, names_drawn E k (batch E e d l k n).
Proof.
  unfold names_drawn. induction n as [|n IH]; intros k;
    cbn [batch List.length seq]; constructor; [now exists e|apply IH].
Qed.

Lemma fresh_files_names_drawn E recipe l files_recipe present ks :
  forall k, names_drawn E k (fresh_files E recipe l files_recipe present ks k).
Proof.
  induction ks as [|e ks IH]; intros k; cbn [fresh_files]; [constructor|].
  destruct (mem e present); [apply IH|].
  destruct (get e recipe); [|apply IH].
  apply names_drawn_app; [apply batch_names_drawn|].
  rewrite RecipeFacts.batch_length. apply IH.
Qed.

Lemma same_length_prefix (a b s t : string) :
  String.length a = String.length b -> a +++ s = b +++ t -> a = b.
Proof.
  revert b. induction a as [|c a IH]; intros [|c' b]; cbn; try discriminate.
  - reflexivity.
  - intros [= Hlen] [= -> Hrest]. f_equal. eauto.
Qed.

Lemma names_drawn_NoDup E n fs :
  collision_free E n ->
  forall k, (k + List.length fs <= n)%nat ->
            names_drawn E k fs -> NoDup (map File.name fs).
Proof.
  intros Hfree. unfold names_drawn.
  induction fs as [|f fs IH]; intros k Hk Hd; cbn [map]; [constructor|].
  cbn [List.length seq] in Hd, Hk. inversion Hd as [|j f' js fs' [e He] Hrest]; subst.
  constructor; [|apply (IH (S k)); [lia|assumption]].
  intros Hin. apply in_map_iff in Hin. destruct Hin as [g [Hname Hg]].
  destruct (Forall2_In_r _ _ _ _ Hrest Hg) as [j [Hj [e' He']]].
  apply in_seq in Hj.
  destruct (Hfree k j) as [Hlen Hinj]; [lia..|].
  rewrite He, He' in Hname. symmetry in Hname.
  apply same_length_prefix in Hname; [|assumption].
  apply Hinj in Hname. lia.
Qed.

(** *** [splitext] on a fresh name *)

Lemma rfind_from_absent (c : ascii) (s : list ascii) :
  existsb (Ascii.eqb c) s = false ->
  forall i found, rfind_from c s i found = found.
Proof.
  induction s as [|x s IH]; cbn [existsb rfind_from]; [reflexivity|].
  intros H i found. apply orb_false_iff in H. destruct H as [Hx Hs].
  rewrite Ascii.eqb_sym, Hx. now apply IH.
Qed.

Lemma rfind_from_last (c : ascii) (a b : list ascii) :
  existsb (Ascii.eqb c) b = false ->
  forall i found,
    rfind_from c (a ++ c :: b) i found = (i + Z.of_nat (List.length a))%Z.
Proof.
  intros Hb. induction a as [|x a IH]; intros i found;
    cbn [app rfind_from List.length].
  - rewrite Ascii.eqb_refl, rfind_from_absent by assumption. lia.
  - rewrite IH. lia.
Qed.

Lemma firstn_own_length {A} (a b : list A) : firstn (List.length a) (a ++ b) = a.
Proof. induction a; cbn; [reflexivity|now f_equal]. Qed.

Lemma skipn_own_length {A} (a b : list A) : skipn (List.length a) (a ++ b) = b.
Proof. induction a; cbn; [reflexivity|assumption]. Qed.

Lemma extension_of_fresh (u e : string) :
  plain u = true -> dotted e = true -> extension_of (u +++ e) = e.
Proof.
  unfold plain, dotted, has_char. intros Hu He.
  apply andb_true_iff in Hu. destruct Hu as [Hu Hslash].
  apply andb_true_iff in Hu. destruct Hu as [Hne Hdot].
  apply negb_true_iff in Hne, Hdot, Hslash.
  destruct e as [|c rest]; [discriminate|].
  apply andb_true_iff in He. destruct He as [He Hrslash].
  apply andb_true_iff in He. destruct He as [Hc Hrdot].
  apply Ascii.eqb_eq in Hc. subst c.
  apply negb_true_iff in Hrdot, Hrslash.
  unfold extension_of, has_char, splitext.
  rewrite list_ascii_of_string_append. cbn [list_ascii_of_string].
  set (lu := list_ascii_of_string u) in *.
  set (lr := list_ascii_of_string rest) in *.
  rewrite existsb_app. cbn [existsb]. rewrite Ascii.eqb_refl, orb_true_r.
  unfold rfind.
  rewrite (rfind_from_last "."%char lu lr Hrdot).
  rewrite (rfind_from_absent "/"%char (lu ++ "."%char :: lr));
    [|rewrite existsb_app; cbn [existsb]; now rewrite Hslash, Hrslash].
  replace (-1 <? 0 + Z.of_nat (List.length lu))%Z with true
    by (symmetry; apply Z.ltb_lt; lia).
  rewrite Z.add_0_l, Nat2Z.id, firstn_own_length, skipn_own_length.
  change (Z.to_nat (-1 + 1)) with 0%nat. cbn [skipn].
  assert (Hname : existsb (fun c => negb (Ascii.eqb c ".")) lu = true).
  { destruct u as [|c u']; [discriminate|]. subst lu.
    cbn [list_ascii_of_string existsb] in *.
    apply orb_false_iff in Hdot. destruct Hdot as [Hc _].
    rewrite Ascii.eqb_sym, Hc. reflexivity. }
  rewrite Hname. cbn [snd string_of_list_ascii]. subst lr.
  now rewrite string_of_list_ascii_of_string.
Qed.

(** *** A second pass of [_generate_files] *)

Lemma extension_list_app fs fs' l :
  extension_list (fs ++ fs') l = extension_list fs l ++ extension_list fs' l.
Proof. unfold extension_list. now rewrite filter_app, map_app. Qed.

Lemma batch_in_fresh_files E recipe l files_recipe present e d :
  mem e present = false ->
  get e recipe = Some d ->
  forall ks k,
    In e ks ->
    exists k0,
      (k0 + Z.to_nat (num_files files_recipe l e)
       <= k + List.length (fresh_files E recipe l files_recipe present ks k))%nat
      /\ incl (batch E e d l k0 (Z.to_nat (num_files files_recipe l e)))
              (fresh_files E recipe l files_recipe present ks k).
Proof.
  intros Hm Hd. induction ks as [|x ks IH]; intros k Hin; [destruct Hin|].
  cbn [fresh_files]. destruct (String.eqb x e) eqn:Hx.
  - apply String.eqb_eq in Hx. subst x. rewrite Hm, Hd.
    exists k. rewrite length_app, RecipeFacts.batch_length.
    split; [lia|]. now apply incl_appl, incl_refl.
  - apply String.eqb_neq in Hx. destruct Hin as [->|Hin]; [congruence|].
    destruct (mem x present).
    + apply IH, Hin.
    + destruct (get x recipe).
      * destruct (IH (k + Z.to_nat (num_files files_recipe l x)) Hin)
          as [k0 [Hle Hincl]].
        exists k0. rewrite length_app, RecipeFacts.batch_length.
        split; [lia|]. now apply incl_appr.
      * apply IH, Hin.
Qed.

Lemma fresh_files_second_pass E recipe l files_recipe fs k st_draws :
  (forall j, (j < st_draws)%nat -> plain (uuid4 E j) = true) ->
  Forall (fun e => dotted e = true) (keys recipe) ->
  let fresh := fresh_files E recipe l files_recipe (extension_list fs l)
                           (keys recipe) k in
  (k + List.length fresh <= st_draws)%nat ->
  forall ks k',
    incl ks (keys recipe) ->
    fresh_files E recipe l files_recipe (extension_list (fs ++ fresh) l) ks k'
    = [].
Proof.
  intros Hplain Hdotted fresh Hbound.
  induction ks as [|e ks IH]; intros k' Hks; [reflexivity|].
  cbn [fresh_files].
  assert (Hks' : incl ks (keys recipe)) by (intros x Hx; apply Hks; now right).
  destruct (mem e (extension_list (fs ++ fresh) l)) eqn:Hm; [now apply IH|].
  destruct (get_In_keys e recipe) as [d Hd]; [apply Hks; now left|].
  rewrite Hd.
  destruct (Z.to_nat (num_files files_recipe l e)) as [|n] eqn:Hn;
    [cbn [batch app]; now apply IH|].
  exfalso. apply mem_false in Hm. apply Hm.
  rewrite extension_list_app. apply in_or_app.
  destruct (mem e (extension_list fs l)) eqn:Hm0;
    [left; now apply mem_In|right].
  destruct (batch_in_fresh_files E recipe l files_recipe _ e d Hm0 Hd
                                 (keys recipe) k) as [k0 [Hle Hincl]];
    [apply Hks; now left|].
  rewrite Hn in Hincl, Hle. cbn [batch] in Hincl.
  assert (Hin : In (File.mk (uuid4 E k0 +++ e) (generate_rvs E k0 d) l) fresh)
    by (apply Hincl; now left).
  unfold extension_list. apply in_map_iff.
  exists (File.mk (uuid4 E k0 +++ e) (generate_rvs E k0 d) l).
  split.
  - cbn [File.name]. apply extension_of_fresh.
    + apply Hplain. fold fresh in Hle. lia.
    + rewrite Forall_forall in Hdotted. apply Hdotted, Hks. now left.
  - apply filter_In. split; [assumption|]. cbn [File.link]. now destruct l.
Qed.

End NamingFacts.

Section BuilderExtras.
Import Recipe Naming.




(** X3.  [_generate_job] writes one entry of [jobs_files]: the file lists
    of the other jobs stay as they were, the entry of [job_id] becomes
    the manifest of the job whatever it held before, and one random draw
    is made for the runtime and one for each fresh file. *)
Theorem generate_job_touches_one_entry
        (E : Entropy) (workflow_recipe : dict JobRecipe)
        (job_name job_id : string) (input_files : option (list File.t))
        (files_recipe : FilesRecipe) (st st' : State) (job : Job) :
  _generate_job E workflow_recipe job_name job_id input_files files_recipe st
  = Ok (job, st') ->
  let linked := match input_files with
                | Some fs => inherited fs
                | None => []
                end in
  (forall other, other <> job_id ->
                 get other (jobs_files st') = get other (jobs_files st)) /\
  get job_id (jobs_files st') = Some (job_files job) /\
  (draws st' + List.length linked
   = S (draws st) + List.length (job_files job))%nat.
Proof.
  intros Hrun linked.
  assert (Hjr : exists jr, get job_name workflow_recipe = Some jr).
  { unfold _generate_job in Hrun. bind_inv Hrun. apply NamingFacts.item_Ok in E0.
    eauto. }
  destruct Hjr as [jr Hjr].
  rewrite (NamingFacts.generate_job_total E _ _ job_id input_files files_recipe
                                          st jr Hjr) in Hrun.
  fold linked in Hrun. injection Hrun as <- <-.
  cbn [jobs_files job_files draws]. repeat split.
  - intros other Hne. apply get_set_other. congruence.
  - apply get_set_same.
  - rewrite !length_app. lia.
Qed.

Lemma generate_job_touches_one_entry_witness :
  (forall other, other <> "mProject_00000002" ->
                 get other (jobs_files (snd Built.montage_job))
                 = get other (jobs_files fresh_recipe)) /\
  get "mProject_00000002" (jobs_files (snd Built.montage_job))
  = Some (job_files (fst Built.montage_job)) /\
  (draws (snd Built.montage_job) + 1 = 1 + 3)%nat.
Proof.
  apply (generate_job_touches_one_entry
           Examples.entropy Examples.montage "mProject" "mProject_00000002"
           (Some [File.mk "parent.fits" 10%Z OUTPUT;
                  File.mk "parent.hdr" 5%Z INPUT])
           None fresh_recipe (snd Built.montage_job) (fst Built.montage_job)).
  reflexivity.
Defined.

(** X4.  [_generate_job], [_generate_file]: when the uuids drawn during
    the call are as long as each other and differ from each other, no two
    of the fresh files of the job bear the same name. *)
Theorem fresh_file_names_are_distinct
        (E : Entropy) (workflow_recipe : dict JobRecipe)
        (job_name job_id : string) (input_files : option (list File.t))
        (files_recipe : FilesRecipe) (st st' : State) (job : Job) :
  _generate_job E workflow_recipe job_name job_id input_files files_recipe st
  = Ok (job, st') ->
  collision_free E (draws st') ->
  let linked := match input_files with
                | Some fs => inherited fs
                | None => []
                end in
  exists fresh,
    job_files job = linked ++ fresh /\
    names_drawn E (S (draws st)) fresh /\
    NoDup (map File.name fresh).
Proof.
  intros Hrun Hfree linked.
  assert (Hjr : exists jr, get job_name workflow_recipe = Some jr).
  { unfold _generate_job in Hrun. bind_inv Hrun. apply NamingFacts.item_Ok in E0.
    eauto. }
  destruct Hjr as [jr Hjr].
  rewrite (NamingFacts.generate_job_total E _ _ job_id input_files files_recipe
                                          st jr Hjr) in Hrun.
  fold linked in Hrun. injection Hrun as <- <-.
  cbn [job_files draws] in *.
  set (fresh_in := fresh_files E (r_input jr) INPUT files_recipe _ _ _) in *.
  set (fresh_out := fresh_files E (r_output jr) OUTPUT files_recipe _ _ _) in *.
  exists (fresh_in ++ fresh_out).
  assert (Hd : names_drawn E (S (draws st)) (fresh_in ++ fresh_out)).
  { apply NamingFacts.names_drawn_app; apply NamingFacts.fresh_files_names_drawn. }
  repeat split; [assumption|].
  apply (NamingFacts.names_drawn_NoDup E _ _ Hfree (S (draws st))); [|assumption].
  rewrite length_app. lia.
Qed.

Lemma fresh_file_names_are_distinct_witness :
  exists fresh,
    job_files (fst Built.montage_job)
    = [File.mk "parent.fits" 10%Z INPUT] ++ fresh /\
    names_drawn Examples.entropy 1 fresh /\
    NoDup (map File.name fresh).
Proof.
  apply (fresh_file_names_are_distinct
           Examples.entropy Examples.montage "mProject" "mProject_00000002"
           (Some [File.mk "parent.fits" 10%Z OUTPUT;
                  File.mk "parent.hdr" 5%Z INPUT])
           None fresh_recipe (snd Built.montage_job) (fst Built.montage_job)).
  - reflexivity.
  - intros i j Hi Hj. cbn in Hi, Hj.
    destruct i as [|[|[|i]]]; [| | |lia];
      (destruct j as [|[|[|j]]]; [| | |lia]);
      (split; [reflexivity|]); first [reflexivity|discriminate].
Defined.

(** X5.  [_generate_files] called again with the same arguments adds no
    file and makes no draw, when the extensions of the recipe are a dot
    followed by characters other than dots and slashes and the uuids
    drawn so far are non-empty and free of dots and slashes: the files of
    the first call are found by their extension. *)
Theorem generate_files_twice_adds_nothing
        (E : Entropy) (job_id : string) (recipe : dict Dist) (l : FileLink)
        (files_recipe : FilesRecipe) (st st' : State) :
  Forall (fun e => dotted e = true) (keys recipe) ->
  _generate_files E job_id recipe l files_recipe st = Ok st' ->
  (forall j, (j < draws st')%nat -> plain (uuid4 E j) = true) ->
  _generate_files E job_id recipe l files_recipe st' = Ok st'.
Proof.
  intros Hdotted Hrun Hplain.
  assert (Hfs : exists fs, get job_id (jobs_files st) = Some fs).
  { unfold _generate_files in Hrun. bind_inv Hrun. apply NamingFacts.item_Ok in E0.
    eauto. }
  destruct Hfs as [fs Hfs].
  rewrite (NamingFacts.generate_files_total E job_id recipe l files_recipe st fs Hfs)
    in Hrun.
  injection Hrun as <-. cbn [draws] in Hplain.
  set (fresh := fresh_files E recipe l files_recipe (extension_list fs l)
                            (keys recipe) (draws st)) in *.
  rewrite (NamingFacts.generate_files_total E job_id recipe l files_recipe _
                                            (fs ++ fresh));
    [|cbn [jobs_files]; apply get_set_same].
  cbn [jobs_files draws].
  rewrite (NamingFacts.fresh_files_second_pass
             E recipe l files_recipe fs (draws st)
             (draws st + List.length fresh) Hplain Hdotted (Nat.le_refl _)
             (keys recipe) _ (incl_refl _)).
  cbn [List.length]. rewrite app_nil_r, Nat.add_0_r.
  rewrite NamingFacts.set_set. reflexivity.
Qed.

Lemma generate_files_twice_adds_nothing_witness :
  _generate_files Examples.entropy "mProject_00000001"
                  (r_output Examples.mProject) OUTPUT None
                  Built.one_job_with_outputs
  = Ok Built.one_job_with_outputs.
Proof.
  apply (generate_files_twice_adds_nothing
           Examples.entropy "mProject_00000001" (r_output Examples.mProject)
           OUTPUT None Built.one_job Built.one_job_with_outputs).
  - repeat constructor.
  - reflexivity.
  - intros j Hj. cbn in Hj. destruct j as [|j]; [reflexivity|lia].
Defined.

End BuilderExtras.

(** ** The builder: fresh files and the extensions on record *)

Module BuilderSpecFacts.
Import Recipe Naming BuilderSpec.

Lemma batch_drawn E e d l :
  forall n k, batch E e d l k n = drawn E e d l k n.
Proof.
  unfold drawn. induction n as [|n IH]; intros k; cbn [batch seq map];
    [reflexivity|]. now rewrite IH.
Qed.

Lemma num_files_requested files_recipe l e :
  Z.to_nat (num_files files_recipe l e) = requested files_recipe l e.
Proof.
  unfold num_files, requested.
  destruct files_recipe as [[|x fr]|]; [reflexivity| |reflexivity].
  destruct (link_get l (x :: fr)) as [per|]; [|reflexivity].
  now destruct (get e per).
Qed.

(** Two strings cut at their last occurrence of a character end alike. *)
Lemma same_after_last (c : ascii) :
  forall a a' b b',
    existsb (Ascii.eqb c) b = false ->
    existsb (Ascii.eqb c) b' = false ->
    a ++ c :: b = a' ++ c :: b' -> b = b'.
Proof.
  assert (Hin : forall a b, existsb (Ascii.eqb c) (a ++ c :: b) = true).
  { intros a b. rewrite existsb_app. cbn [existsb].
    now rewrite Ascii.eqb_refl, orb_true_r. }
  induction a as [|x a IH]; intros [|y a'] b b' Hb Hb' H; cbn [app] in H.
  - now injection H.
  - injection H as _ H. rewrite H, Hin in Hb. discriminate.
  - injection H as _ H. rewrite <- H, Hin in Hb'. discriminate.
  - injection H as _ H. now apply (IH a' b b').
Qed.

Lemma dotted_has_dot e : dotted e = true -> has_char "."%char e = true.
Proof.
  destruct e as [|c rest]; [discriminate|]. unfold dotted, has_char.
  intros H. apply andb_true_iff in H. destruct H as [H _].
  apply andb_true_iff in H. destruct H as [H _].
  apply Ascii.eqb_eq in H. subst c. cbn [list_ascii_of_string existsb].
  now rewrite Ascii.eqb_refl.
Qed.

(** A name carries at most one dotted extension. *)
Lemma same_extension (u u' e e' : string) :
  dotted e = true -> dotted e' = true ->
  u +++ e = u' +++ e' -> e = e'.
Proof.
  destruct e as [|c rest]; [discriminate|].
  destruct e' as [|c' rest']; [discriminate|].
  unfold dotted, has_char. intros He He' H.
  apply andb_true_iff in He. destruct He as [He _].
  apply andb_true_iff in He. destruct He as [Hc Hrest].
  apply andb_true_iff in He'. destruct He' as [He' _].
  apply andb_true_iff in He'. destruct He' as [Hc' Hrest'].
  apply Ascii.eqb_eq in Hc, Hc'. subst c c'.
  apply negb_true_iff in Hrest, Hrest'.
  apply (f_equal list_ascii_of_string) in H.
  rewrite !list_ascii_of_string_append in H.
  cbn [list_ascii_of_string] in H.
  apply same_after_last in H; [|assumption..].
  f_equal. now apply list_ascii_of_string_inj.
Qed.

(** For a dotted extension and files with simple names, the test of
    [_generate_files] finds the extension exactly when a file on record
    in that direction carries it. *)
Lemma found_iff_recorded (l : FileLink) (e : string) (fs : list File.t) :
  dotted e = true ->
  (forall f, In f fs -> simple (File.name f)) ->
  mem e (extension_list fs l) = true <-> recorded l e fs.
Proof.
  intros He Hsimple. rewrite mem_In. unfold extension_list, recorded.
  rewrite in_map_iff. split.
  - intros [f [Hext Hf]]. apply filter_In in Hf. destruct Hf as [Hin Hl].
    exists f. split; [exact Hin|]. split; [now destruct (File.link f), l|].
    destruct (Hsimple f Hin) as [Hplain|[e0 [He0 [base [Hbase Hname]]]]].
    + exfalso. unfold extension_of in Hext.
      unfold plain in Hplain.
      apply andb_true_iff in Hplain. destruct Hplain as [Hplain _].
      apply andb_true_iff in Hplain. destruct Hplain as [_ Hdot].
      apply negb_true_iff in Hdot. rewrite Hdot in Hext.
      apply dotted_has_dot in He. congruence.
    + rewrite Hname, (NamingFacts.extension_of_fresh base e0 Hbase He0) in Hext.
      subst e0. now exists base.
  - intros [f [Hin [Hl [base [Hbase Hname]]]]]. exists f. split.
    + rewrite Hname. now apply NamingFacts.extension_of_fresh.
    + apply filter_In. split; [exact Hin|]. rewrite Hl. now destruct l.
Qed.

(** In a direction of which no file is on record, the test finds
    nothing. *)
Lemma nothing_recorded (l l' : FileLink) (e : string) (fs : list File.t) :
  Forall (fun g => File.link g = l') fs -> l' <> l ->
  mem e (extension_list fs l) = true <-> recorded l e fs.
Proof.
  intros Hall Hne.
  rewrite (RecipeFacts.extension_list_other_link fs l l' Hall Hne).
  split; [discriminate|].
  intros [f [Hin [Hl _]]]. rewrite Forall_forall in Hall.
  apply Hall in Hin. congruence.
Qed.

(** What [_generate_files] appends is what the specification asks for,
    whenever its test agrees with the record. *)
Lemma fresh_files_fresh_for E recipe l files_recipe present on_record :
  forall ks k,
    incl ks (keys recipe) ->
    (forall e, In e ks -> mem e present = true <-> recorded l e on_record) ->
    fresh_for E recipe l files_recipe on_record ks k
              (fresh_files E recipe l files_recipe present ks k)
              (k + List.length (fresh_files E recipe l files_recipe present
                                            ks k)).
Proof.
  induction ks as [|e ks IH]; intros k Hks Hagree; cbn [fresh_files].
  - cbn [List.length]. rewrite Nat.add_0_r. constructor.
  - assert (Hks' : incl ks (keys recipe))
      by (intros x Hx; apply Hks; now right).
    assert (Hagree' : forall x, In x ks ->
                                mem x present = true <-> recorded l x on_record)
      by (intros x Hx; apply Hagree; now right).
    destruct (mem e present) eqn:Hm.
    + apply fresh_skipped; [now apply Hagree; [left|]|]. now apply IH.
    + destruct (get_In_keys e recipe) as [d Hd]; [apply Hks; now left|].
      rewrite Hd, num_files_requested, batch_drawn.
      rewrite length_app.
      assert (Hlen : List.length (drawn E e d l k (requested files_recipe l e))
                     = requested files_recipe l e)
        by (unfold drawn; now rewrite length_map, length_seq).
      rewrite Hlen, Nat.add_assoc.
      apply fresh_made; [|exact Hd|now apply IH].
      intros Hrec. apply Hagree in Hrec; [congruence|now left].
Qed.

(** Every fresh file is named by a uuid followed by a recipe extension
    that no file on record carries. *)
Lemma fresh_for_names E recipe l files_recipe on_record ks k fs k' :
  fresh_for E recipe l files_recipe on_record ks k fs k' ->
  forall g, In g fs ->
            exists e j, In e ks /\ ~ recorded l e on_record /\
                        File.name g = uuid4 E j +++ e.
Proof.
  induction 1 as [k|e es k fs k' Hrec _ IH|e d es k fs k' Hrec Hd _ IH];
    intros g Hg.
  - destruct Hg.
  - destruct (IH g Hg) as [e' [j [Hin H]]]. exists e', j. split; [now right|exact H].
  - apply in_app_or in Hg. destruct Hg as [Hg|Hg].
    + unfold drawn in Hg. apply in_map_iff in Hg.
      destruct Hg as [j [<- _]]. exists e, j. split; [now left|].
      split; [exact Hrec|reflexivity].
    + destruct (IH g Hg) as [e' [j [Hin H]]]. exists e', j.
      split; [now right|exact H].
Qed.

End BuilderSpecFacts.

Section BuilderSpecClaims.
Import Recipe Naming BuilderSpec.

(** C9 (as amended).  For a job whose input extensions in the recipe are
    each a dot followed by characters other than dots and slashes, and
    whose inherited files have simple names, [_generate_job] returns a
    job whose files are the inherited inputs, then the fresh inputs, then
    the fresh outputs.  For each direction, going through the recipe
    extensions in order, an extension carried by a file already on record
    in that direction gets no fresh file, and every other extension gets
    the requested number of fresh files, each named by a new uuid
    followed by the extension.  No fresh input has a name that ends with
    an extension that an inherited input carries. *)
Theorem fresh_files_fill_the_missing_extensions
        (E : Entropy) (workflow_recipe : dict JobRecipe)
        (job_name job_id : string) (input_files : option (list File.t))
        (files_recipe : FilesRecipe) (st : State) (jr : JobRecipe) :
  get job_name workflow_recipe = Some jr ->
  Forall (fun e => dotted e = true) (keys (r_input jr)) ->
  let linked := match input_files with
                | Some fs => inherited fs
                | None => []
                end in
  (forall f, In f linked -> simple (File.name f)) ->
  exists job st' fresh_in fresh_out k,
    _generate_job E workflow_recipe job_name job_id input_files
                  files_recipe st = Ok (job, st') /\
    job_files job = linked ++ fresh_in ++ fresh_out /\
    fresh_for E (r_input jr) INPUT files_recipe linked
              (keys (r_input jr)) (S (draws st)) fresh_in k /\
    fresh_for E (r_output jr) OUTPUT files_recipe (linked ++ fresh_in)
              (keys (r_output jr)) k fresh_out (draws st') /\
    (forall e g, dotted e = true -> recorded INPUT e linked ->
                 In g fresh_in -> forall base, File.name g <> base +++ e).
Proof.
  intros Hjr Hdotted linked Hsimple.
  pose proof (NamingFacts.generate_job_total
                E workflow_recipe job_name job_id input_files files_recipe
                st jr Hjr) as Hrun.
  cbv zeta in Hrun. fold linked in Hrun.
  set (fresh_in := fresh_files E (r_input jr) INPUT files_recipe
                               (extension_list linked INPUT)
                               (keys (r_input jr)) (S (draws st))) in *.
  set (fresh_out := fresh_files E (r_output jr) OUTPUT files_recipe
                                (extension_list (linked ++ fresh_in) OUTPUT)
                                (keys (r_output jr))
                                (S (draws st) + List.length fresh_in)) in *.
  assert (Hin : fresh_for E (r_input jr) INPUT files_recipe linked
                          (keys (r_input jr)) (S (draws st)) fresh_in
                          (S (draws st) + List.length fresh_in)).
  { apply BuilderSpecFacts.fresh_files_fresh_for; [apply incl_refl|].
    intros e He. apply BuilderSpecFacts.found_iff_recorded; [|exact Hsimple].
    rewrite Forall_forall in Hdotted. now apply Hdotted. }
  assert (Hlinks : Forall (fun g => File.link g = INPUT) (linked ++ fresh_in)).
  { apply Forall_app. split.
    - subst linked. destruct input_files;
        [apply RecipeFacts.inherited_link|constructor].
    - apply NamingFacts.fresh_files_link. }
  eexists _, _, fresh_in, fresh_out, _.
  split; [exact Hrun|]. cbn [job_files draws].
  split; [reflexivity|]. split; [exact Hin|]. split.
  - apply BuilderSpecFacts.fresh_files_fresh_for; [apply incl_refl|].
    intros e _.
    apply (BuilderSpecFacts.nothing_recorded OUTPUT INPUT e _ Hlinks).
    discriminate.
  - intros e g He Hrec Hg base Hname.
    destruct (BuilderSpecFacts.fresh_for_names _ _ _ _ _ _ _ _ _ Hin g Hg)
      as [e' [j [He' [Hnot Hfresh]]]].
    rewrite Forall_forall in Hdotted.
    rewrite Hfresh in Hname.
    apply BuilderSpecFacts.same_extension in Hname;
      [|now apply Hdotted|exact He].
    subst e'. contradiction.
Qed.

Lemma fresh_files_fill_the_missing_extensions_witness :
  exists job st' fresh_in fresh_out,
    _generate_job Examples.entropy Examples.montage "mProject"
                  "mProject_00000002"
                  (Some [File.mk "parent.fits" 10%Z OUTPUT;
                         File.mk "parent.hdr" 5%Z INPUT])
                  None {| jobs_files := []; draws := 0 |} = Ok (job, st') /\
    job_files job
    = [File.mk "parent.fits" 10%Z INPUT] ++ fresh_in ++ fresh_out /\
    forall g, In g fresh_in -> forall base, File.name g <> base +++ ".fits".
Proof.
  destruct (fresh_files_fill_the_missing_extensions
              Examples.entropy Examples.montage "mProject" "mProject_00000002"
              (Some [File.mk "parent.fits" 10%Z OUTPUT;
                     File.mk "parent.hdr" 5%Z INPUT])
              None {| jobs_files := []; draws := 0 |}
              Examples.mProject eq_refl)
    as (job & st' & fresh_in & fresh_out & k & Hrun & Hfiles & _ & _ & Hno).
  - repeat constructor.
  - intros f [<-|[]]. right. exists ".fits". split; [reflexivity|].
    exists "parent". split; reflexivity.
  - exists job, st', fresh_in, fresh_out.
    split; [exact Hrun|]. split; [exact Hfiles|].
    intros g. apply (Hno ".fits" g eq_refl).
    exists (File.mk "parent.fits" 10%Z INPUT).
    split; [now left|]. split; [reflexivity|].
    exists "parent". split; reflexivity.
Defined.

(** C9, as the specification states it, this fails: the recipe of the job asks for
    one input of extension [.tar.gz], and the job inherits the input
    [parent.tar.gz]; the builder still synthesizes a fresh input
    [uuid1.tar.gz].  The two input files have the same extension,
    whether that is read as the recipe extension that ends both names or
    as what [splitext] cuts off them. *)
Lemma compound_extension_is_synthesized_again :
  exists job st',
    _generate_job Examples.entropy archive "unpack" "unpack_00000002"
                  (Some [File.mk "parent.tar.gz" 10%Z OUTPUT])
                  None fresh_recipe = Ok (job, st') /\
    job_files job = [File.mk "parent.tar.gz" 10%Z INPUT;
                     File.mk "uuid1.tar.gz" 101%Z INPUT] /\
    keys (r_input unpack) = [".tar.gz"] /\
    inherited [File.mk "parent.tar.gz" 10%Z OUTPUT]
    = [File.mk "parent.tar.gz" 10%Z INPUT] /\
    "parent.tar.gz" = "parent" +++ ".tar.gz" /\
    "uuid1.tar.gz" = uuid4 Examples.entropy 1 +++ ".tar.gz" /\
    snd (splitext "parent.tar.gz") = snd (splitext "uuid1.tar.gz") /\
    ~ (forall e g,
          In e (keys (r_input unpack)) ->
          (exists f base,
              In f (inherited [File.mk "parent.tar.gz" 10%Z OUTPUT]) /\
              File.name f = base +++ e) ->
          In g (job_files job) -> File.link g = INPUT ->
          In g (inherited [File.mk "parent.tar.gz" 10%Z OUTPUT]) \/
          forall base, File.name g <> base +++ e).
Proof.
  do 2 eexists. split; [reflexivity|]. cbn [job_files].
  repeat (split; [reflexivity|]).
  intros Hclaim.
  destruct (Hclaim ".tar.gz" (File.mk "uuid1.tar.gz" 101%Z INPUT))
    as [Hin|Hnot].
  - now left.
  - exists (File.mk "parent.tar.gz" 10%Z INPUT), "parent".
    split; [now left|reflexivity].
  - right. now left.
  - reflexivity.
  - destruct Hin as [Hin|[]]. discriminate Hin.
  - apply (Hnot "uuid1"). reflexivity.
Qed.

(** Next to the inherited input [parent.gz] the same recipe gets its
    fresh [.tar.gz] input, which the builder's own test would record
    under [.gz], the extension of the inherited file. *)
Example compound_extension_next_to_its_last_part :
  exists job st',
    _generate_job Examples.entropy archive "unpack" "unpack_00000002"
                  (Some [File.mk "parent.gz" 10%Z OUTPUT])
                  None fresh_recipe = Ok (job, st') /\
    job_files job = [File.mk "parent.gz" 10%Z INPUT;
                     File.mk "uuid1.tar.gz" 101%Z INPUT] /\
    extension_list (job_files job) INPUT = [".gz"; ".gz"].
Proof. do 2 eexists. repeat split. Qed.

End BuilderSpecClaims.


(** ** The assembler: files on disk, errors and the layout of arguments *)

Module AssemblyFacts.
Import Bench BenchSpec AssemblySpec.

(** *** [_generate_data_for_root_nodes] *)

Lemma materialize_cases wf save_dir data t w w1 :
  materialize_root_input wf save_dir data t w = Ok w1 ->
  exists ps, get (Task.name t) (tasks_parents wf) = Some ps /\
    match ps with
    | [] =>
        exists s, lookup data (Task.category t) = Ok s /\
          match get (root_input save_dir t) (disk w) with
          | Some _ => w1 = w
          | None =>
              (0 <= s)%Z /\
              disk w1 = set (root_input save_dir t) s (disk w) /\
              saved w1 = saved w
          end
    | _ :: _ => w1 = w
    end.
Proof.
  unfold materialize_root_input, root_input. intros Hrun.
  bind_inv Hrun. apply NamingFacts.item_Ok in E. exists a. split; [assumption|].
  destruct a as [|p ps]; [|now injection Hrun as <-].
  bind_inv Hrun. exists a. split; [assumption|].
  destruct (get (joinpath save_dir (input_name (Task.name t))) (disk w));
    [now injection Hrun as <-|].
  destruct (a <? 0)%Z eqn:Hs; [discriminate|].
  injection Hrun as <-. cbn [logged disk saved].
  repeat split. lia.
Qed.

Lemma materialize_keeps wf save_dir data t w w1 :
  materialize_root_input wf save_dir data t w = Ok w1 ->
  saved w1 = saved w /\
  forall p s, get p (disk w) = Some s -> get p (disk w1) = Some s.
Proof.
  intros Hrun. destruct (materialize_cases _ _ _ _ _ _ Hrun) as [ps [_ Hc]].
  destruct ps as [|p0 ps]; [|subst w1; auto].
  destruct Hc as [s [_ Hc]].
  destruct (get (root_input save_dir t) (disk w)) eqn:Hg; [subst w1; auto|].
  destruct Hc as [_ [Hd Hs]]. split; [assumption|].
  intros p s' Hp. rewrite Hd.
  destruct (String.eqb (root_input save_dir t) p) eqn:Heq.
  - apply String.eqb_eq in Heq. subst p. congruence.
  - apply String.eqb_neq in Heq. now rewrite get_set_other.
Qed.

Lemma generate_data_loop wf save_dir data :
  forall vs w w1,
    for_each (materialize_root_input wf save_dir data) vs w = Ok w1 ->
    saved w1 = saved w /\
    (forall p s, get p (disk w) = Some s -> get p (disk w1) = Some s) /\
    (forall t, In t vs -> is_root wf t = true ->
               exists s, get (root_input save_dir t) (disk w1) = Some s) /\
    (forall p s, get p (disk w1) = Some s -> get p (disk w) = None ->
                 exists t, In t vs /\ is_root wf t = true /\
                           p = root_input save_dir t /\
                           lookup data (Task.category t) = Ok s /\
                           (0 <= s)%Z) /\
    (forall w2,
        (forall t, In t vs -> is_root wf t = true ->
                   exists s, get (root_input save_dir t) (disk w2) = Some s) ->
        for_each (materialize_root_input wf save_dir data) vs w2 = Ok w2).
Proof.
  induction vs as [|t vs IH]; intros w w1 Hrun; cbn [for_each] in Hrun.
  - injection Hrun as <-. repeat split; auto.
    + intros t [].
    + intros p s H1 H2. congruence.
  - bind_inv Hrun. rename a into wm.
    destruct (IH _ _ Hrun) as [Hsaved [Hkeep [Hroots [Hnew Hagain]]]].
    destruct (materialize_keeps _ _ _ _ _ _ E) as [Hsaved0 Hkeep0].
    destruct (materialize_cases _ _ _ _ _ _ E) as [ps [Hps Hc]].
    assert (Hroot : is_root wf t = match ps with [] => true | _ :: _ => false end).
    { unfold is_root, parents_of. rewrite Hps. now destruct ps. }
    repeat split.
    + congruence.
    + auto.
    + intros t' [<-|Hin] Ht'; [|now apply Hroots].
      rewrite Hroot in Ht'. destruct ps; [|discriminate].
      destruct Hc as [s [_ Hc]].
      destruct (get (root_input save_dir t) (disk w)) eqn:Hg.
      * subst wm. eauto.
      * destruct Hc as [_ [Hd _]].
        assert (get (root_input save_dir t) (disk wm) = Some s)
          by (rewrite Hd; apply get_set_same).
        eauto.
    + intros p s Hp Hnone.
      destruct (get p (disk wm)) as [s'|] eqn:Hm.
      * assert (s' = s) by (apply Hkeep in Hm; congruence). subst s'.
        destruct ps as [|p0 ps]; [|subst wm; congruence].
        destruct Hc as [s0 [Hlook Hc]].
        destruct (get (root_input save_dir t) (disk w)) eqn:Hg;
          [subst wm; congruence|].
        destruct Hc as [Hs0 [Hd _]]. rewrite Hd in Hm.
        destruct (String.eqb (root_input save_dir t) p) eqn:Heq.
        -- apply String.eqb_eq in Heq. subst p.
           rewrite get_set_same in Hm. injection Hm as ->.
           exists t. repeat split; auto. now left.
        -- apply String.eqb_neq in Heq. rewrite get_set_other in Hm by assumption.
           congruence.
      * destruct (Hnew p s Hp Hm) as [t' [Hin H']]. exists t'. split; [now right|assumption].
    + intros w2 Hall. cbn [for_each].
      assert (Hstep : materialize_root_input wf save_dir data t w2 = Ok w2).
      { unfold materialize_root_input. rewrite (item_Some _ _ _ Hps). cbn [Py.bind].
        destruct ps as [|p0 ps]; [|reflexivity].
        destruct Hc as [s [Hlook _]]. rewrite Hlook. cbn [Py.bind].
        destruct (Hall t) as [s' Hs']; [now left|now rewrite Hroot|].
        unfold root_input in Hs'. now rewrite Hs'. }
      rewrite Hstep. cbn [Py.bind]. apply Hagain.
      intros t' Hin. apply Hall. now right.
Qed.

Lemma generate_data_spec wf save_dir data w w1 :
  _generate_data_for_root_nodes wf save_dir data w = Ok w1 ->
  saved w1 = saved w /\
  (forall p s, get p (disk w) = Some s -> get p (disk w1) = Some s) /\
  (forall t, In t (values (tasks wf)) -> is_root wf t = true ->
             exists s, get (root_input save_dir t) (disk w1) = Some s) /\
  (forall p s, get p (disk w1) = Some s -> get p (disk w) = None ->
               exists t, In t (values (tasks wf)) /\ is_root wf t = true /\
                         p = root_input save_dir t /\
                         lookup data (Task.category t) = Ok s /\
                         (0 <= s)%Z) /\
  _generate_data_for_root_nodes wf save_dir data w1 = Ok w1.
Proof.
  unfold _generate_data_for_root_nodes. intros Hrun.
  destruct (generate_data_loop _ _ _ _ _ _ Hrun)
    as [Hsaved [Hkeep [Hroots [Hnew Hagain]]]].
  repeat split; auto.
Qed.

(** *** The phases of [create_benchmark] *)

Lemma update_tasks_raises body ts k t e :
  In (k, t) ts -> body t = Raise e -> exists e', update_tasks body ts = Raise e'.
Proof.
  induction ts as [|[k0 t0] ts IH]; intros Hin He; [destruct Hin|].
  cbn [update_tasks]. destruct Hin as [[= -> ->]|Hin].
  - rewrite He. cbn [Py.bind]. eauto.
  - destruct (body t0); cbn [Py.bind]; [|eauto].
    destruct (IH Hin He) as [e' ->]. cbn [Py.bind]. eauto.
Qed.

Lemma create_benchmark_phases H wf sd jp pc cw gw data lff w p wf' w' :
  create_benchmark H wf sd jp pc cw gw data lff w = Ok (p, wf', w') ->
  let L := fst (create_lock_files H lff w) in
  let w0 := snd (create_lock_files H lff w) in
  exists ts w1,
    update_tasks
      (fun task =>
         params <- task_params pc cw gw lff L task ;;
         Ok (reset_task H params task))
      (tasks wf) = Ok ts /\
    match data with
    | Some (PerCategory d) => per_category_footprint (with_tasks wf ts) sd d w0
    | Some (Scalar n) => uniform_footprint (with_tasks wf ts) sd n w0
    | None => Ok (with_tasks wf ts, w0)
    end = Ok (wf', w1) /\
    p = jp /\ disk w' = disk w1 /\ saved w' = saved w1 ++ [(jp, wf')].
Proof.
  intros Hrun L w0. subst L w0. unfold create_benchmark in Hrun.
  destruct (create_lock_files H lff w) as [L w0]. cbn [fst snd].
  bind_inv Hrun. rename a into ts. bind_inv Hrun. destruct a as [wf1 w1].
  injection Hrun as <- <- <-.
  exists ts, w1. cbn [disk saved logged]. repeat split; assumption.
Qed.

Lemma per_category_footprint_disk wf sd d w wf' w' :
  per_category_footprint wf sd d w = Ok (wf', w') ->
  exists w0, disk w0 = disk w /\ saved w0 = saved w /\
             _generate_data_for_root_nodes wf' sd (PerCategory d) w0 = Ok w'.
Proof.
  unfold per_category_footprint. intros Hrun.
  repeat bind_inv Hrun. injection Hrun as <- <-.
  eexists. split; [|split; [|eassumption]]; reflexivity.
Qed.

Lemma uniform_footprint_disk wf sd n w wf' w' :
  uniform_footprint wf sd n w = Ok (wf', w') ->
  exists w0 file_size,
    disk w0 = disk w /\ saved w0 = saved w /\
    _generate_data_for_root_nodes wf' sd (Scalar file_size) w0 = Ok w'.
Proof.
  unfold uniform_footprint. intros Hrun.
  repeat bind_inv Hrun. injection Hrun as <- <-.
  eexists. eexists. split; [|split; [|eassumption]]; reflexivity.
Qed.

Lemma footprint_disk wf sd data w wf' w' :
  match data with
  | PerCategory d => per_category_footprint wf sd d w
  | Scalar n => uniform_footprint wf sd n w
  end = Ok (wf', w') ->
  tasks_parents wf' = tasks_parents wf /\
  Forall2 (entrywise appended) (tasks wf) (tasks wf') /\
  exists w0 data',
    disk w0 = disk w /\ saved w0 = saved w /\
    _generate_data_for_root_nodes wf' sd data' w0 = Ok w'.
Proof.
  destruct data as [n|d]; intros Hrun.
  - destruct (BenchFacts.uniform_footprint_appended _ _ _ _ _ _ Hrun) as [Hp [_ Ht]].
    destruct (uniform_footprint_disk _ _ _ _ _ _ Hrun) as [w0 [fs [? [? ?]]]].
    repeat split; try assumption. exists w0, (Scalar fs). auto.
  - destruct (BenchFacts.per_category_footprint_appended _ _ _ _ _ _ Hrun)
      as [Hp [_ Ht]].
    destruct (per_category_footprint_disk _ _ _ _ _ _ Hrun) as [w0 [? [? ?]]].
    repeat split; try assumption. exists w0, (PerCategory d). auto.
Qed.

Lemma lock_paths_differ folder :
  joinpath folder "cores.txt.lock" <> joinpath folder "cores.txt".
Proof.
  unfold joinpath. intros Heq.
  apply append_inj_r in Heq. discriminate.
Qed.

Lemma create_lock_files_disk H lff w q :
  (forall folder, lff = Some folder ->
                  q <> joinpath folder "cores.txt.lock" /\
                  q <> joinpath folder "cores.txt") ->
  get q (disk (snd (create_lock_files H lff w))) = get q (disk w).
Proof.
  intros Hq. unfold create_lock_files.
  destruct lff as [folder|]; [|reflexivity].
  destruct (Hq folder eq_refl) as [Hl Hc].
  destruct (can_mkdir H folder); [|reflexivity].
  destruct (can_open H (joinpath folder "cores.txt.lock")); [|reflexivity].
  destruct (can_open H (joinpath folder "cores.txt"));
    cbn [snd disk touched logged].
  - rewrite !get_set_other by congruence. reflexivity.
  - rewrite get_set_other by congruence. reflexivity.
Qed.

Lemma reset_keeps_name H pc cw gw lff L t t' :
  (params <- task_params pc cw gw lff L t ;; Ok (reset_task H params t)) = Ok t' ->
  exists params, task_params pc cw gw lff L t = Ok params /\
                 t' = reset_task H params t.
Proof. intros Hrun. bind_inv Hrun. injection Hrun as <-. eauto. Qed.

Lemma assembled_task H wf sd jp pc cw gw data lff w p wf' w' :
  create_benchmark H wf sd jp pc cw gw data lff w = Ok (p, wf', w') ->
  tasks_parents wf' = tasks_parents wf /\
  Forall2
    (entrywise
       (fun t t' =>
          exists params,
            task_params pc cw gw lff (fst (create_lock_files H lff w)) t
            = Ok params /\
            appended (reset_task H params t) t'))
    (tasks wf) (tasks wf').
Proof.
  intros Hrun.
  destruct (create_benchmark_phases _ _ _ _ _ _ _ _ _ _ _ _ _ Hrun)
    as [ts [w1 [Hts [Hsized _]]]].
  apply BenchFacts.update_tasks_Forall2 in Hts.
  assert (Happ : tasks_parents wf' = tasks_parents wf /\
                 Forall2 (entrywise appended) ts (tasks wf')).
  { destruct data as [[n|d]|].
    - destruct (BenchFacts.uniform_footprint_appended _ _ _ _ _ _ Hsized)
        as [Hp [_ Ht]]. auto.
    - destruct (BenchFacts.per_category_footprint_appended _ _ _ _ _ _ Hsized)
        as [Hp [_ Ht]]. auto.
    - injection Hsized as <- <-. split; [reflexivity|].
      cbn [tasks with_tasks]. clear. induction ts; constructor; [|assumption].
      split; [reflexivity|apply BenchFacts.appended_refl]. }
  destruct Happ as [Hp Happ]. split; [assumption|].
  revert Hts Happ. apply Forall2_compose.
  intros [k t] [k1 t1] [k2 t2] [Hk1 H1] [Hk2 H2]. cbn [fst snd] in *.
  split; [cbn [fst]; congruence|]. cbn [snd].
  apply reset_keeps_name in H1. destruct H1 as [params [Hparams ->]].
  exists params. auto.
Qed.

End AssemblyFacts.

Section AssemblerExtras.
Import Bench BenchSpec AssemblySpec.

(** X6.  [_generate_data_for_root_nodes] creates what is missing and
    nothing else: a file that exists keeps its size, every root task has
    its input file afterwards, and a file that is new is the input of a
    root, of the non-negative size that [data] gives for it. *)
Theorem root_inputs_are_created_not_overwritten
        (wf : Workflow) (save_dir : string) (data : Param Z) (w w1 : World) :
  _generate_data_for_root_nodes wf save_dir data w = Ok w1 ->
  (forall p s, get p (disk w) = Some s -> get p (disk w1) = Some s) /\
  (forall t, In t (values (tasks wf)) -> is_root wf t = true ->
             exists s, get (root_input save_dir t) (disk w1) = Some s) /\
  (forall p s, get p (disk w1) = Some s -> get p (disk w) = None ->
               exists t, In t (values (tasks wf)) /\ is_root wf t = true /\
                         p = root_input save_dir t /\
                         lookup data (Task.category t) = Ok s /\
                         (0 <= s)%Z).
Proof.
  intros Hrun.
  destruct (AssemblyFacts.generate_data_spec _ _ _ _ _ Hrun)
    as [_ [Hkeep [Hroots [Hnew _]]]].
  auto.
Qed.

Lemma root_inputs_are_created_not_overwritten_witness :
  (forall p s, get p (disk Assembled.seeded) = Some s ->
               get p (disk Assembled.materialized) = Some s) /\
  (forall t, In t (values (tasks Examples.join)) ->
             is_root Examples.join t = true ->
             exists s, get (root_input "/data" t) (disk Assembled.materialized)
                       = Some s) /\
  (forall p s, get p (disk Assembled.materialized) = Some s ->
               get p (disk Assembled.seeded) = None ->
               exists t, In t (values (tasks Examples.join)) /\
                         is_root Examples.join t = true /\
                         p = root_input "/data" t /\
                         lookup (Scalar 5%Z) (Task.category t) = Ok s /\
                         (0 <= s)%Z).
Proof.
  apply (root_inputs_are_created_not_overwritten
           Examples.join "/data" (Scalar 5%Z) Assembled.seeded
           Assembled.materialized).
  reflexivity.
Defined.

(** X7.  [_generate_data_for_root_nodes] is idempotent: called again on
    the world it left, it returns that world unchanged, without a new
    file and without a new log record. *)
Theorem root_inputs_second_call_changes_nothing
        (wf : Workflow) (save_dir : string) (data : Param Z) (w w1 : World) :
  _generate_data_for_root_nodes wf save_dir data w = Ok w1 ->
  _generate_data_for_root_nodes wf save_dir data w1 = Ok w1.
Proof.
  intros Hrun. now apply (AssemblyFacts.generate_data_spec _ _ _ _ _ Hrun).
Qed.

Lemma root_inputs_second_call_changes_nothing_witness :
  _generate_data_for_root_nodes Examples.join "/data" (Scalar 5%Z)
                                Assembled.materialized
  = Ok Assembled.materialized.
Proof.
  apply (root_inputs_second_call_changes_nothing
           Examples.join "/data" (Scalar 5%Z) Assembled.seeded).
  reflexivity.
Defined.

(** X8.  [create_benchmark] on a graph without tasks: with an integer
    [data] the file size is a division by zero files and the call raises
    [ZeroDivisionError], whatever the other parameters are. *)
Theorem empty_graph_with_integer_data_raises
        (H : Host) (wf : Workflow) (save_dir json_path : string)
        (percent_cpu : Param PyFloat) (cpu_work gpu_work : option (Param Z))
        (D : Z) (lock_files_folder : option string) (w : World) :
  tasks wf = [] ->
  create_benchmark H wf save_dir json_path percent_cpu cpu_work gpu_work
                   (Some (Scalar D)) lock_files_folder w
  = Raise ZeroDivisionError.
Proof.
  intros Hempty. unfold create_benchmark.
  destruct (create_lock_files H lock_files_folder w) as [L w0].
  rewrite Hempty. cbn [update_tasks Py.bind].
  unfold uniform_footprint, _calculate_input_files.
  cbn [with_tasks tasks values map for_each Py.bind fst snd].
  reflexivity.
Qed.

Lemma empty_graph_with_integer_data_raises_witness :
  create_benchmark Examples.host Assembled.no_tasks "/data" "/data/none-0.json"
                   (Scalar "0.6") (Some (Scalar 100%Z)) None
                   (Some (Scalar 10%Z)) (Some "/locks") Examples.empty_world
  = Raise ZeroDivisionError.
Proof.
  apply (empty_graph_with_integer_data_raises
           Examples.host Assembled.no_tasks "/data" "/data/none-0.json"
           (Scalar "0.6") (Some (Scalar 100%Z)) None 10%Z (Some "/locks")
           Examples.empty_world).
  reflexivity.
Defined.

(** X9.  [create_benchmark] never fills in a missing category: when
    [cpu_work] is in force and it or [percent_cpu] is a dict without the
    category of some task, or [gpu_work] is in force and is such a dict,
    the call raises and returns no path. *)
Theorem missing_category_raises
        (H : Host) (wf : Workflow) (save_dir json_path : string)
        (percent_cpu : Param PyFloat) (cpu_work gpu_work : Param Z)
        (data : option (Param Z)) (lock_files_folder : option string)
        (w : World) (k : string) (t : Task.t) :
  In (k, t) (tasks wf) ->
  (truthy (Some cpu_work) = true /\
   (lacks percent_cpu (Task.category t) \/ lacks cpu_work (Task.category t)))
  \/ (truthy (Some gpu_work) = true /\ lacks gpu_work (Task.category t)) ->
  exists e,
    create_benchmark H wf save_dir json_path percent_cpu (Some cpu_work)
                     (Some gpu_work) data lock_files_folder w
    = Raise e.
Proof.
  intros Hin Hlack. unfold create_benchmark.
  destruct (create_lock_files H lock_files_folder w) as [L w0].
  assert (Hbody : exists e,
             (params <- task_params percent_cpu (Some cpu_work) (Some gpu_work)
                                    lock_files_folder L t ;;
              Ok (reset_task H params t)) = Raise e).
  { unfold task_params.
    destruct Hlack as [[Hcw [Hl|Hl]]|[Hgw Hl]].
    - rewrite Hcw. destruct percent_cpu as [v|d]; [destruct Hl|].
      cbn [lacks] in Hl. cbn [lookup]. unfold item. rewrite Hl.
      cbn [Py.bind]. eauto.
    - rewrite Hcw. destruct cpu_work as [v|d]; [destruct Hl|].
      cbn [lacks] in Hl.
      destruct (lookup percent_cpu (Task.category t)); cbn [Py.bind]; [|eauto].
      cbn [lookup]. unfold item. rewrite Hl. cbn [Py.bind]. eauto.
    - rewrite Hgw. destruct gpu_work as [v|d]; [destruct Hl|].
      cbn [lacks] in Hl.
      match goal with
      | |- exists e, Py.bind (Py.bind ?m _) _ = _ => destruct m
      end; cbn [Py.bind]; [|eauto].
      cbn [lookup]. unfold item. rewrite Hl. cbn [Py.bind]. eauto. }
  destruct Hbody as [e He].
  destruct (AssemblyFacts.update_tasks_raises
              (fun task =>
                 params <- task_params percent_cpu (Some cpu_work)
                                       (Some gpu_work) lock_files_folder L task ;;
                 Ok (reset_task H params task))
              _ _ _ _ Hin He) as [e' ->].
  cbn [Py.bind]. eauto.
Qed.

Lemma missing_category_raises_witness :
  exists e,
    create_benchmark Examples.host Examples.fork "/data" "/data/fork-4.json"
                     (Scalar "0.6") (Some (PerCategory [("a", 100%Z)]))
                     (Some (Scalar 0%Z)) None None Examples.empty_world
    = Raise e.
Proof.
  apply (missing_category_raises
           Examples.host Examples.fork "/data" "/data/fork-4.json"
           (Scalar "0.6") (PerCategory [("a", 100%Z)]) (Scalar 0%Z) None None
           Examples.empty_world "B" (Examples.built "B" "b")).
  - simpl. tauto.
  - left. split; [reflexivity|]. right. reflexivity.
Defined.

(** X10.  [create_benchmark] with [data]: when it returns, the input
    file of every task without parents is on disk under [save_dir], and
    every file that was on disk before still has its size, apart from the
    two lock files and from the workflow document at [json_path], which
    [write_json] rewrites. *)
Theorem create_benchmark_leaves_root_inputs_on_disk
        (H : Host) (wf : Workflow) (save_dir json_path : string)
        (percent_cpu : Param PyFloat) (cpu_work gpu_work : option (Param Z))
        (data : Param Z) (lock_files_folder : option string) (w : World)
        (path : string) (wf' : Workflow) (w' : World) :
  create_benchmark H wf save_dir json_path percent_cpu cpu_work gpu_work
                   (Some data) lock_files_folder w = Ok (path, wf', w') ->
  (forall k t, In (k, t) (tasks wf) -> parents_of wf (Task.name t) = [] ->
               exists s, get (root_input save_dir t) (disk w') = Some s) /\
  (forall q s,
      get q (disk w) = Some s ->
      q <> json_path ->
      (forall folder, lock_files_folder = Some folder ->
                      q <> joinpath folder "cores.txt.lock" /\
                      q <> joinpath folder "cores.txt") ->
      get q (disk w') = Some s).
Proof.
  intros Hrun.
  destruct (AssemblyFacts.assembled_task _ _ _ _ _ _ _ _ _ _ _ _ _ Hrun)
    as [Hparents Htasks].
  destruct (AssemblyFacts.create_benchmark_phases _ _ _ _ _ _ _ _ _ _ _ _ _ Hrun)
    as [ts [w1 [_ [Hsized [_ [Hdisk _]]]]]].
  assert (Hfoot : match data with
                  | PerCategory d =>
                      per_category_footprint (with_tasks wf ts) save_dir d
                        (snd (create_lock_files H lock_files_folder w))
                  | Scalar n =>
                      uniform_footprint (with_tasks wf ts) save_dir n
                        (snd (create_lock_files H lock_files_folder w))
                  end = Ok (wf', w1)) by (destruct data; assumption).
  destruct (AssemblyFacts.footprint_disk _ _ _ _ _ _ Hfoot)
    as [_ [_ [w0 [data' [Hw0 [_ Hgen]]]]]].
  destruct (AssemblyFacts.generate_data_spec _ _ _ _ _ Hgen)
    as [_ [Hkeep [Hroots _]]].
  split.
  - intros k t Hin Hroot.
    destruct (Forall2_In_l _ _ _ _ Htasks Hin) as [[k' t'] [Hin' [_ Hrel]]].
    cbn [snd] in Hrel. destruct Hrel as [params [_ Happ]].
    destruct Happ as [Hname _]. cbn [reset_task Task.name] in Hname.
    destruct (Hroots t') as [s Hs].
    + apply in_map_iff. exists (k', t'). auto.
    + unfold is_root, parents_of. rewrite Hparents, Hname.
      unfold parents_of in Hroot. now rewrite Hroot.
    + exists s. unfold root_input in *. rewrite Hdisk, <- Hname. assumption.
  - intros q s Hq _ Hnot. rewrite Hdisk. apply Hkeep. rewrite Hw0.
    now rewrite AssemblyFacts.create_lock_files_disk.
Qed.

Lemma create_benchmark_leaves_root_inputs_on_disk_witness :
  (forall k t, In (k, t) (tasks Examples.fork) ->
               parents_of Examples.fork (Task.name t) = [] ->
               exists s, get (root_input "/data" t)
                             (disk (snd Assembled.locked_fork)) = Some s) /\
  (forall q s,
      get q (disk Assembled.seeded) = Some s ->
      q <> "/data/fork-4.json" ->
      (forall folder, Some "/locks" = Some folder ->
                      q <> joinpath folder "cores.txt.lock" /\
                      q <> joinpath folder "cores.txt") ->
      get q (disk (snd Assembled.locked_fork)) = Some s).
Proof.
  apply (create_benchmark_leaves_root_inputs_on_disk
           Examples.host Examples.fork "/data" "/data/fork-4.json"
           (Scalar "0.6") (Some (Scalar 100%Z)) None
           (PerCategory Examples.sizes) (Some "/locks") Assembled.seeded
           (fst (fst Assembled.locked_fork)) (snd (fst Assembled.locked_fork))
           (snd Assembled.locked_fork)).
  reflexivity.
Defined.

(** X11.  [create_benchmark] with a lock folder that can be created and
    written: the two lock files are on disk, empty, when it returns, and
    when [cpu_work] is in force every task carries their paths in its
    [--path-lock] and [--path-cores] arguments. *)
Theorem lock_files_are_created_and_passed_on
        (H : Host) (wf : Workflow) (save_dir json_path : string)
        (percent_cpu : Param PyFloat) (cpu_work gpu_work data : option (Param Z))
        (folder : string) (w : World)
        (path : string) (wf' : Workflow) (w' : World) :
  can_mkdir H folder = true ->
  can_open H (joinpath folder "cores.txt.lock") = true ->
  can_open H (joinpath folder "cores.txt") = true ->
  create_benchmark H wf save_dir json_path percent_cpu cpu_work gpu_work
                   data (Some folder) w = Ok (path, wf', w') ->
  get (joinpath folder "cores.txt.lock") (disk w') = Some 0%Z /\
  get (joinpath folder "cores.txt") (disk w') = Some 0%Z /\
  (truthy cpu_work = true ->
   forall k t', In (k, t') (tasks wf') ->
                In ("--path-lock " +++ joinpath folder "cores.txt.lock")
                   (Task.args t') /\
                In ("--path-cores " +++ joinpath folder "cores.txt")
                   (Task.args t')).
Proof.
  intros Hmkdir Hlock Hcores Hrun.
  destruct (AssemblyFacts.assembled_task _ _ _ _ _ _ _ _ _ _ _ _ _ Hrun)
    as [_ Htasks].
  destruct (AssemblyFacts.create_benchmark_phases _ _ _ _ _ _ _ _ _ _ _ _ _ Hrun)
    as [ts [w1 [_ [Hsized [_ [Hdisk _]]]]]].
  assert (Hlocks : create_lock_files H (Some folder) w
                   = ({| lock := Some (joinpath folder "cores.txt.lock");
                         cores := Some (joinpath folder "cores.txt") |},
                      touched (joinpath folder "cores.txt")
                        (touched (joinpath folder "cores.txt.lock")
                           (logged DEBUG ("Creating lock files at: " +++ folder)
                                   w)))).
  { unfold create_lock_files. now rewrite Hmkdir, Hlock, Hcores. }
  rewrite Hlocks in *. cbn [fst snd] in *.
  assert (Hkept : forall q s,
             get q (disk (touched (joinpath folder "cores.txt")
                            (touched (joinpath folder "cores.txt.lock")
                               (logged DEBUG
                                  ("Creating lock files at: " +++ folder) w))))
             = Some s ->
             get q (disk w') = Some s).
  { intros q s Hq. rewrite Hdisk. destruct data as [data|].
    - assert (Hfoot : match data with
                      | PerCategory d =>
                          per_category_footprint (with_tasks wf ts) save_dir d
                            (touched (joinpath folder "cores.txt")
                               (touched (joinpath folder "cores.txt.lock")
                                  (logged DEBUG
                                     ("Creating lock files at: " +++ folder) w)))
                      | Scalar n =>
                          uniform_footprint (with_tasks wf ts) save_dir n
                            (touched (joinpath folder "cores.txt")
                               (touched (joinpath folder "cores.txt.lock")
                                  (logged DEBUG
                                     ("Creating lock files at: " +++ folder) w)))
                      end = Ok (wf', w1)) by (destruct data; assumption).
      destruct (AssemblyFacts.footprint_disk _ _ _ _ _ _ Hfoot)
        as [_ [_ [w0 [data' [Hw0 [_ Hgen]]]]]].
      destruct (AssemblyFacts.generate_data_spec _ _ _ _ _ Hgen)
        as [_ [Hkeep _]].
      apply Hkeep. now rewrite Hw0.
    - now injection Hsized as _ <-. }
  split; [|split].
  - apply Hkept. cbn [touched disk logged].
    rewrite get_set_other by (intros Heq; symmetry in Heq;
                              now apply AssemblyFacts.lock_paths_differ in Heq).
    apply get_set_same.
  - apply Hkept. cbn [touched disk logged]. apply get_set_same.
  - intros Hcw k t' Hin.
    destruct (Forall2_In_r _ _ _ _ Htasks Hin) as [[k0 t] [_ [_ Hrel]]].
    cbn [snd] in Hrel. destruct Hrel as [params [Hparams Happ]].
    destruct Happ as [_ [_ [_ [_ [[more Hargs] _]]]]].
    cbn [reset_task Task.args] in Hargs.
    unfold task_params in Hparams.
    destruct cpu_work as [cw|]; [|discriminate].
    rewrite Hcw in Hparams. cbn [lock cores read] in Hparams.
    repeat bind_inv Hparams. injection Hparams as <-.
    bind_inv E. bind_inv E. cbn [Py.bind] in E. injection E as <-.
    rewrite Hargs, !in_app_iff. cbn [In]. split; auto 10.
Qed.

Lemma lock_files_are_created_and_passed_on_witness :
  get (joinpath "/locks" "cores.txt.lock") (disk (snd Assembled.locked_fork))
  = Some 0%Z /\
  get (joinpath "/locks" "cores.txt") (disk (snd Assembled.locked_fork))
  = Some 0%Z /\
  (truthy (Some (Scalar 100%Z)) = true ->
   forall k t', In (k, t') (tasks (snd (fst Assembled.locked_fork))) ->
                In ("--path-lock " +++ joinpath "/locks" "cores.txt.lock")
                   (Task.args t') /\
                In ("--path-cores " +++ joinpath "/locks" "cores.txt")
                   (Task.args t')).
Proof.
  apply (lock_files_are_created_and_passed_on
           Examples.host Examples.fork "/data" "/data/fork-4.json"
           (Scalar "0.6") (Some (Scalar 100%Z)) None
           (Some (PerCategory Examples.sizes)) "/locks" Assembled.seeded
           (fst (fst Assembled.locked_fork)) (snd (fst Assembled.locked_fork))
           (snd Assembled.locked_fork));
    reflexivity.
Defined.

End AssemblerExtras.

(** ** The assembler: arguments and manifest of an assembled task *)

Module LayoutFacts.
Import Bench BenchSpec AssemblySpec.

Lemma set_new {V} (k : string) (v : V) (d : dict V) :
  ~ In k (keys d) -> set k v d = d ++ [(k, v)].
Proof.
  induction d as [|[k' v'] d IH]; cbn [set keys map fst app In]; [reflexivity|].
  intros Hk. destruct (String.eqb k k') eqn:E.
  - apply String.eqb_eq in E. subst. tauto.
  - rewrite IH; [reflexivity|]. unfold keys. tauto.
Qed.

Lemma set_keeps_keys_distinct {V} (k : string) (v : V) (d : dict V) :
  NoDup (keys d) -> NoDup (keys (set k v d)).
Proof.
  intros Hd. destruct (in_dec string_dec k (keys d)) as [Hin|Hout].
  - assert (Hsame : keys (set k v d) = keys d).
    { clear Hd. induction d as [|[k' v'] d IH]; [destruct Hin|].
      cbn [set]. destruct (String.eqb k k') eqn:E.
      - apply String.eqb_eq in E. now subst.
      - cbn [keys map fst]. f_equal. apply IH.
        destruct Hin as [Heq|Hin]; [|assumption].
        apply String.eqb_neq in E. cbn [fst] in Heq. congruence. }
    now rewrite Hsame.
  - rewrite set_new by assumption. unfold keys. rewrite map_app.
    cbn [map fst]. apply NoDup_app; [assumption|repeat constructor; tauto|].
    intros x Hx [<-|[]]. auto.
Qed.

Lemma row_of_keys_distinct wf data t : NoDup (keys (row_of wf data t)).
Proof.
  unfold row_of. destruct (children_of wf (Task.name t)) as [|c cs].
  - repeat constructor. tauto.
  - remember (c :: cs) as l eqn:Hl. clear Hl.
    assert (H : forall row, NoDup (keys row) ->
                            NoDup (keys (fold_left
                                           (fun row c =>
                                              set c (category_size wf data c) row)
                                           l row))).
    { induction l as [|x l IH]; intros row Hrow; [assumption|].
      cbn [fold_left]. apply IH. now apply set_keeps_keys_distinct. }
    apply H. constructor.
Qed.

Lemma out_dict_of_row (n : string) (row : dict Z) :
  NoDup (keys row) ->
  forall acc,
    (forall c, In c (keys row) -> ~ In (edge_output_name n c) (keys acc)) ->
    fold_left (fun acc cs => set (edge_output_name n (fst cs)) (snd cs) acc)
              row acc
    = acc ++ map (fun cs => (edge_output_name n (fst cs), snd cs)) row.
Proof.
  induction row as [|[c sz] row IH]; intros Hnd acc Hacc;
    cbn [fold_left map fst snd]; [now rewrite app_nil_r|].
  inversion Hnd as [|? ? Hc Hrow]; subst.
  rewrite set_new by (apply Hacc; now left).
  rewrite IH; [now rewrite <- app_assoc| assumption |].
  intros c' Hc' Hin. unfold keys in Hin. rewrite map_app in Hin.
  apply in_app_or in Hin. destruct Hin as [Hin|[Heq|[]]].
  - apply (Hacc c'); [now right|assumption].
  - cbn [fst] in Heq. apply NameFacts.edge_output_name_inj in Heq. subst c'.
    now apply Hc.
Qed.

Lemma filter_all_inputs (g : string -> Z -> File.t) (row : dict Z) :
  (forall a b, File.link (g a b) = INPUT) ->
  filter is_input (map (fun ps => g (fst ps) (snd ps)) row)
  = map (fun ps => g (fst ps) (snd ps)) row
  /\ filter is_output (map (fun ps => g (fst ps) (snd ps)) row) = [].
Proof.
  intros Hg. induction row as [|[a b] row [IH1 IH2]]; [auto|].
  cbn [map filter fst snd]. unfold is_input, is_output at 1.
  rewrite Hg. cbn [FileLink_eqb]. fold (is_input). rewrite IH1.
  split; [reflexivity|]. exact IH2.
Qed.

Lemma filter_all_outputs (g : string -> Z -> File.t) (row : dict Z) :
  (forall a b, File.link (g a b) = OUTPUT) ->
  filter is_output (map (fun ps => g (fst ps) (snd ps)) row)
  = map (fun ps => g (fst ps) (snd ps)) row
  /\ filter is_input (map (fun ps => g (fst ps) (snd ps)) row) = [].
Proof.
  intros Hg. induction row as [|[a b] row [IH1 IH2]]; [auto|].
  cbn [map filter fst snd]. unfold is_output, is_input at 1.
  rewrite Hg. cbn [FileLink_eqb]. fold (is_output). rewrite IH1.
  split; [reflexivity|]. exact IH2.
Qed.

Lemma uniform_fill_layout H wf file_size ps t :
  let t' := uniform_fill wf file_size (reset_task H ps t) in
  Task.args t'
  = Task.name t :: ps ++ [declared_outputs (Task.files t')]
    ++ map File.name (filter is_input (Task.files t')).
Proof.
  intros t'. subst t'. rewrite FootprintFacts.uniform_fill_files.
  unfold declared_outputs, uniform_fill, uniform_inputs.
  cbn [reset_task extend_args append_files Task.name Task.args Task.files].
  destruct (parents_of wf (Task.name t)) as [|p parents].
  - cbn [extend_args append_files Task.args filter is_output is_input
           FileLink_eqb File.link map File.name File.size app].
    now rewrite <- app_assoc.
  - cbn [extend_args append_files Task.args].
    remember (p :: parents) as l eqn:Hl. clear Hl.
    cbn [filter is_output is_input FileLink_eqb File.link].
    assert (Hin : filter is_input
                    (map (fun parent => File.mk (output_name parent) file_size INPUT) l)
                  = map (fun parent => File.mk (output_name parent) file_size INPUT) l
                  /\ filter is_output
                       (map (fun parent =>
                               File.mk (output_name parent) file_size INPUT) l)
                     = []).
    { clear. induction l as [|x l [IH1 IH2]]; [auto|].
      cbn [map filter is_input is_output FileLink_eqb File.link].
      fold is_input. fold is_output. rewrite IH1, IH2. auto. }
    destruct Hin as [-> ->]. rewrite map_map.
    cbn [File.name File.size map app]. now rewrite <- app_assoc.
Qed.

Lemma per_category_fill_layout H wf data ps t :
  let t' := per_category_fill wf data (reset_task H ps t) in
  Task.args t'
  = Task.name t :: ps ++ [declared_outputs (Task.files t')]
    ++ map File.name (filter is_input (Task.files t')).
Proof.
  intros t'. subst t'. unfold declared_outputs, per_category_fill.
  set (row := row_of wf data (reset_task H ps t)).
  cbn [reset_task Task.name].
  rewrite (out_dict_of_row (Task.name t) row (row_of_keys_distinct _ _ _) [])
    by (intros c _ []).
  cbn [app].
  destruct (filter_all_outputs
              (fun c sz => File.mk (edge_output_name (Task.name t) c) sz OUTPUT)
              row (fun _ _ => eq_refl)) as [Hout Hnone].
  unfold per_category_inputs.
  cbn [reset_task extend_args append_files Task.name Task.args Task.files app].
  destruct (parents_of wf (Task.name t)) as [|p parents].
  - cbn [reset_task extend_args append_files Task.args Task.files filter app].
    rewrite !filter_app, Hout, Hnone.
    cbn [filter is_output is_input FileLink_eqb File.link app map File.name].
    rewrite app_nil_r, map_map. cbn [File.name File.size].
    now rewrite <- app_assoc.
  - cbn [reset_task extend_args append_files Task.args Task.files filter app].
    set (inrow := match get (Task.name t) (inverted (outputs_of wf data)) with
                  | Some r => r
                  | None => []
                  end).
    destruct (filter_all_inputs
                (fun q sz => File.mk (edge_output_name q (Task.name t)) sz INPUT)
                inrow (fun _ _ => eq_refl)) as [Hin Hnone'].
    rewrite !filter_app, Hout, Hnone, Hin, Hnone'.
    rewrite app_nil_r, !map_map. cbn [File.name File.size app].
    rewrite ?map_map. cbn [File.name]. now rewrite <- app_assoc.
Qed.

End LayoutFacts.

Section LayoutExtras.
Import Bench BenchSpec AssemblySpec.

Lemma Forall2_map_of {A B} (R : A -> B -> Prop) (f : A -> B) (l : list A) :
  (forall x, In x l -> R x (f x)) -> Forall2 R l (map f l).
Proof.
  induction l as [|x l IH]; intros HR; cbn [map]; constructor.
  - apply HR. now left.
  - apply IH. intros y Hy. apply HR. now right.
Qed.

(** X12.  [create_benchmark] with [data]: the arguments of every task are
    its name, its parameters, one [--out] argument that is the dict from
    the names of the output files of its manifest to their sizes, and then
    the names of the input files of its manifest, in manifest order. *)
Theorem arguments_mirror_the_manifest
        (H : Host) (wf : Workflow) (save_dir json_path : string)
        (percent_cpu : Param PyFloat) (cpu_work gpu_work : option (Param Z))
        (data : Param Z) (lock_files_folder : option string) (w : World) :
  listed wf ->
  sizes_the_graph wf data ->
  Forall (fun kt =>
            exists params,
              task_params percent_cpu cpu_work gpu_work lock_files_folder
                          (fst (create_lock_files H lock_files_folder w))
                          (snd kt) = Ok params)
         (tasks wf) ->
  exists wf' w',
    create_benchmark H wf save_dir json_path percent_cpu cpu_work gpu_work
                     (Some data) lock_files_folder w
    = Ok (json_path, wf', w') /\
    Forall2
      (entrywise
         (fun t t' =>
            exists params,
              task_params percent_cpu cpu_work gpu_work lock_files_folder
                          (fst (create_lock_files H lock_files_folder w)) t
              = Ok params /\
              Task.args t'
              = Task.name t :: params ++ [declared_outputs (Task.files t')]
                ++ map File.name (filter is_input (Task.files t'))))
      (tasks wf) (tasks wf').
Proof.
  intros Hlisted Hdata Hparams.
  assert (Hps : forall kt, In kt (tasks wf) ->
                  task_params percent_cpu cpu_work gpu_work lock_files_folder
                              (fst (create_lock_files H lock_files_folder w))
                              (snd kt)
                  = Ok (params_of percent_cpu cpu_work gpu_work lock_files_folder
                                  (fst (create_lock_files H lock_files_folder w))
                                  (snd kt))).
  { rewrite Forall_forall in Hparams. intros kt Hin.
    destruct (Hparams kt Hin) as [params Hok].
    unfold params_of. now rewrite Hok. }
  destruct data as [D|d].
  - destruct Hdata as [HD Hne].
    destruct (UniformFacts.create_benchmark_uniform
                H wf save_dir json_path percent_cpu cpu_work gpu_work D
                lock_files_folder w Hlisted Hne Hparams HD) as [w' Hrun].
    eexists. exists w'. split; [exact Hrun|].
    cbn [tasks with_tasks]. apply Forall2_map_of.
    intros [k t] Hin. split; [reflexivity|]. cbn [snd].
    eexists. split; [apply (Hps _ Hin)|].
    apply LayoutFacts.uniform_fill_layout.
  - destruct Hdata as [Hnamed [Hchildren [Hback Hcov]]].
    destruct (PerCategoryFacts.create_benchmark_per_category
                H wf save_dir json_path percent_cpu cpu_work gpu_work d
                lock_files_folder w Hlisted Hnamed Hchildren Hback Hcov Hparams)
      as [w' Hrun].
    eexists. exists w'. split; [exact Hrun|].
    cbn [tasks with_tasks]. apply Forall2_map_of.
    intros [k t] Hin. split; [reflexivity|]. cbn [snd].
    eexists. split; [apply (Hps _ Hin)|].
    apply LayoutFacts.per_category_fill_layout.
Qed.

Lemma arguments_mirror_the_manifest_witness :
  exists wf' w',
    create_benchmark Examples.host Examples.fork "/data" "/data/fork-4.json"
                     (Scalar "0.6") (Some (Scalar 100%Z)) None
                     (Some (PerCategory Examples.sizes)) None
                     Examples.empty_world
    = Ok ("/data/fork-4.json", wf', w') /\
    Forall2
      (entrywise
         (fun t t' =>
            exists params,
              task_params (Scalar "0.6") (Some (Scalar 100%Z)) None None
                          (fst (create_lock_files Examples.host None
                                                  Examples.empty_world)) t
              = Ok params /\
              Task.args t'
              = Task.name t :: params ++ [declared_outputs (Task.files t')]
                ++ map File.name (filter is_input (Task.files t'))))
      (tasks Examples.fork) (tasks wf').
Proof.
  apply (arguments_mirror_the_manifest
           Examples.host Examples.fork "/data" "/data/fork-4.json"
           (Scalar "0.6") (Some (Scalar 100%Z)) None
           (PerCategory Examples.sizes) None Examples.empty_world).
  - apply fork_listed.
  - repeat split.
    + apply fork_named.
    + apply fork_named.
    + apply fork_named.
    + apply fork_children_are_tasks.
    + apply fork_linked_back.
    + apply fork_covered.
  - repeat constructor; eexists; reflexivity.
Defined.

Lemma uniform_outputs_of_graph H wf file_size (ps : string * Task.t -> list string) :
  forall ts,
    filter is_output
           (flat_map Task.files
              (values
                 (map (fun kt =>
                         (fst kt,
                          uniform_fill wf file_size
                            (reset_task H (ps kt) (snd kt))))
                      ts)))
    = map (fun kt => File.mk (output_name (Task.name (snd kt))) file_size OUTPUT)
          ts.
Proof.
  induction ts as [|[k t] ts IH]; [reflexivity|].
  cbn [map values snd fst flat_map]. unfold values in IH.
  rewrite filter_app, IH, FootprintFacts.uniform_fill_files.
  cbn [filter is_output FileLink_eqb File.link app]. f_equal.
  assert (Hno : forall l file_size,
             filter is_output
                    (map (fun parent => File.mk (output_name parent) file_size INPUT) l)
             = []).
  { clear. induction l as [|x l IHl]; intros fs; [reflexivity|].
    cbn [map filter is_output FileLink_eqb File.link]. apply IHl. }
  destruct (parents_of wf (Task.name t)) as [|p parents]; [reflexivity|].
  now rewrite Hno.
Qed.

(** X13.  [create_benchmark] with an integer [data]: the graph has
    exactly one output file per task, named [<task>_output.txt], and no
    two output files of the graph share a name. *)
Theorem uniform_outputs_are_one_per_task
        (H : Host) (wf : Workflow) (save_dir json_path : string)
        (percent_cpu : Param PyFloat) (cpu_work gpu_work : option (Param Z))
        (D : Z) (lock_files_folder : option string) (w : World) :
  listed wf ->
  named wf ->
  tasks wf <> [] ->
  Forall (fun kt =>
            exists params,
              task_params percent_cpu cpu_work gpu_work lock_files_folder
                          (fst (create_lock_files H lock_files_folder w))
                          (snd kt) = Ok params)
         (tasks wf) ->
  (0 <= D)%Z ->
  exists wf' w',
    create_benchmark H wf save_dir json_path percent_cpu cpu_work gpu_work
                     (Some (Scalar D)) lock_files_folder w
    = Ok (json_path, wf', w') /\
    map File.name (filter is_output (all_files wf'))
    = map output_name (keys (tasks wf)) /\
    NoDup (map File.name (filter is_output (all_files wf'))).
Proof.
  intros Hlisted Hnamed Hne Hparams HD.
  destruct (UniformFacts.create_benchmark_uniform
              H wf save_dir json_path percent_cpu cpu_work gpu_work D
              lock_files_folder w Hlisted Hne Hparams HD) as [w' Hrun].
  eexists. exists w'. split; [exact Hrun|].
  unfold all_files. cbn [tasks with_tasks].
  rewrite (uniform_outputs_of_graph
             H wf _
             (fun kt => params_of percent_cpu cpu_work gpu_work lock_files_folder
                                  (fst (create_lock_files H lock_files_folder w))
                                  (snd kt))).
  rewrite map_map. cbn [File.name].
  assert (Hnames : map (fun kt : string * Task.t => output_name (Task.name (snd kt)))
                       (tasks wf)
                   = map output_name (keys (tasks wf))).
  { rewrite <- (FootprintFacts.named_values wf Hnamed).
    unfold values. now rewrite !map_map. }
  rewrite Hnames. split; [reflexivity|].
  apply FootprintFacts.NoDup_map_injective; [apply NameFacts.output_name_inj|].
  apply Hnamed.
Qed.

Lemma uniform_outputs_are_one_per_task_witness :
  exists wf' w',
    create_benchmark Examples.host Examples.join "/data" "/data/join-4.json"
                     (Scalar "0.6") None None (Some (Scalar 1%Z)) None
                     Examples.empty_world
    = Ok ("/data/join-4.json", wf', w') /\
    map File.name (filter is_output (all_files wf'))
    = map output_name (keys (tasks Examples.join)) /\
    NoDup (map File.name (filter is_output (all_files wf'))).
Proof.
  apply (uniform_outputs_are_one_per_task
           Examples.host Examples.join "/data" "/data/join-4.json"
           (Scalar "0.6") None None 1%Z None Examples.empty_world).
  - apply join_listed.
  - apply join_named.
  - discriminate.
  - repeat constructor; eexists; reflexivity.
  - lia.
Defined.

End LayoutExtras.

(** ** The executor: readiness, blocked runs, failed launches and cleanup *)

Module RunFacts.
Import Executor RunSpec ExecutorFacts.

Lemma probe_all_found M names :
  forall k, all (fst (probe_all M names k)) = true -> found_all M k names.
Proof.
  induction names as [|a names IH]; intros k Hall i n Hn.
  - destruct i; discriminate.
  - cbn [probe_all fst all forallb] in Hall.
    apply andb_true_iff in Hall. destruct Hall as [Ha Hrest].
    destruct i as [|i]; cbn [nth_error] in Hn.
    + injection Hn as <-. now rewrite Nat.add_0_r.
    + rewrite Nat.add_succ_r. apply (IH (S k) Hrest i n Hn).
Qed.

Lemma probe_all_missing M names n :
  In n names -> (forall k, present M k n = false) ->
  forall k, all (fst (probe_all M names k)) = false.
Proof.
  intros Hin Hnever. induction names as [|a names IH]; intros k; [destruct Hin|].
  cbn [probe_all fst all forallb]. destruct Hin as [->|Hin].
  - now rewrite Hnever.
  - apply andb_false_iff. right. now apply IH.
Qed.

Lemma visit_ready M tasks task st :
  In task tasks ->
  launched_when_ready M tasks (trace st) ->
  match visit M task st with
  | Done st' | Failed _ st' => launched_when_ready M tasks (trace st')
  end.
Proof.
  intros Hin Hst. unfold visit.
  destruct (mem (Task.name task) (has_executed st)); [assumption|].
  destruct (all (fst (probe_all M _ (probes st)))) eqn:Hready;
    cbn [negb]; [|assumption].
  destruct (popen_ok M (command_line task)); cbn [trace]; [|assumption].
  intros name p Hp. apply in_app_or in Hp.
  destruct Hp as [Hp|[Hp|[]]]; [exact (Hst _ _ Hp)|].
  injection Hp as <- _. exists task, (probes st).
  repeat split; [assumption|]. now apply probe_all_found.
Qed.

Lemma scan_ready M tasks :
  forall ts st,
    incl ts tasks ->
    launched_when_ready M tasks (trace st) ->
    match scan M ts st with
    | Done st' | Failed _ st' => launched_when_ready M tasks (trace st')
    end.
Proof.
  induction ts as [|task ts IH]; intros st Hincl Hst; cbn [scan]; [assumption|].
  assert (Hin : In task tasks) by (apply Hincl; now left).
  assert (Hts : incl ts tasks) by (intros x Hx; apply Hincl; now right).
  pose proof (visit_ready M tasks task st Hin Hst) as Hv.
  destruct (visit M task st) as [st1|e st1]; [|assumption].
  now apply IH.
Qed.

Lemma sleep_ready M tasks st :
  launched_when_ready M tasks (trace st) ->
  launched_when_ready M tasks (trace (sleep st)).
Proof.
  intros Hst name p Hp. cbn [sleep trace] in Hp. apply in_app_or in Hp.
  destruct Hp as [Hp|[Hp|[]]]; [exact (Hst _ _ Hp)|discriminate].
Qed.

Lemma poll_ready M tasks :
  forall fuel st o,
    launched_when_ready M tasks (trace st) ->
    poll M tasks fuel st = Some o ->
    match o with
    | Done st' | Failed _ st' => launched_when_ready M tasks (trace st')
    end.
Proof.
  induction fuel as [|fuel IH]; intros st o Hst Hp; cbn [poll] in Hp.
  - destruct (List.length (has_executed st) <? List.length tasks)%nat;
      [discriminate|]. now injection Hp as <-.
  - destruct (List.length (has_executed st) <? List.length tasks)%nat;
      [|now injection Hp as <-].
    pose proof (scan_ready M tasks tasks st (incl_refl _) Hst) as Hs.
    destruct (scan M tasks st) as [st1|e st1].
    + apply (IH _ _ (sleep_ready _ _ _ Hs) Hp).
    + now injection Hp as <-.
Qed.

Lemma passes_ready M tasks :
  forall n st,
    launched_when_ready M tasks (trace st) ->
    launched_when_ready
      M tasks (trace (Polling.state_of (Polling.passes M tasks n st))).
Proof.
  induction n as [|n IH]; intros st Hst; cbn [Polling.passes].
  - now destruct (List.length (has_executed st) <? List.length tasks)%nat.
  - destruct (List.length (has_executed st) <? List.length tasks)%nat;
      [|assumption].
    pose proof (scan_ready M tasks tasks st (incl_refl _) Hst) as Hs.
    destruct (scan M tasks st) as [st1|e st1]; [|assumption].
    apply IH. now apply sleep_ready.
Qed.

(** *** A task whose input never appears *)

Lemma same_name_same_task (tasks : list Task.t) (a b : Task.t) :
  NoDup (map Task.name tasks) -> In a tasks -> In b tasks ->
  Task.name a = Task.name b -> a = b.
Proof.
  induction tasks as [|t tasks IH]; intros Hnd Ha Hb Hname; [destruct Ha|].
  cbn [map] in Hnd. inversion Hnd as [|? ? Hout Hrest]; subst.
  destruct Ha as [->|Ha], Hb as [->|Hb]; [reflexivity| | |now apply IH].
  - exfalso. apply Hout. rewrite Hname. now apply in_map.
  - exfalso. apply Hout. rewrite <- Hname. now apply in_map.
Qed.

Section Blocked.
Variable M : Machine.
Variable tasks : list Task.t.
Variable stuck : Task.t.
Variable n : string.
Hypothesis distinct : NoDup (map Task.name tasks).
Hypothesis stuck_is_task : In stuck tasks.
Hypothesis n_is_input : In n (inputs_of stuck).
Hypothesis n_never_appears : forall k, present M k n = false.

Lemma visit_blocked task st :
  In task tasks ->
  ~ In (Task.name stuck) (launches (trace st)) ->
  match visit M task st with
  | Done st' | Failed _ st' => ~ In (Task.name stuck) (launches (trace st'))
  end.
Proof.
  intros Hin Hst. unfold visit.
  destruct (mem (Task.name task) (has_executed st)); [assumption|].
  destruct (all (fst (probe_all M _ (probes st)))) eqn:Hready;
    cbn [negb]; [|assumption].
  destruct (popen_ok M (command_line task)); cbn [trace]; [|assumption].
  rewrite launches_app. cbn [launches]. intros Hl. apply in_app_or in Hl.
  destruct Hl as [Hl|[Hl|[]]]; [now apply Hst|].
  assert (task = stuck) by (now apply (same_name_same_task tasks)).
  subst task.
  rewrite (probe_all_missing M _ n n_is_input n_never_appears) in Hready.
  discriminate.
Qed.

Lemma scan_blocked :
  forall ts st,
    incl ts tasks ->
    ~ In (Task.name stuck) (launches (trace st)) ->
    match scan M ts st with
    | Done st' | Failed _ st' => ~ In (Task.name stuck) (launches (trace st'))
    end.
Proof.
  induction ts as [|task ts IH]; intros st Hincl Hst; cbn [scan]; [assumption|].
  assert (Hin : In task tasks) by (apply Hincl; now left).
  assert (Hts : incl ts tasks) by (intros x Hx; apply Hincl; now right).
  pose proof (visit_blocked task st Hin Hst) as Hv.
  destruct (visit M task st) as [st1|e st1]; [|assumption].
  now apply IH.
Qed.

Lemma blocked_test st :
  steady tasks st ->
  ~ In (Task.name stuck) (launches (trace st)) ->
  (List.length (has_executed st) <? List.length tasks)%nat = true.
Proof.
  intros [H1 H2 H3 _ _ _] Hst. rewrite H1 in Hst. apply Nat.ltb_lt.
  rewrite <- (length_map Task.name tasks).
  assert (Hle : (List.length (Task.name stuck :: has_executed st)
                 <= List.length (map Task.name tasks))%nat).
  { apply NoDup_incl_length; [now constructor|].
    intros x [<-|Hx]; [now apply in_map|now apply H3]. }
  cbn [List.length] in Hle. lia.
Qed.

Lemma poll_blocked :
  forall fuel st,
    steady tasks st ->
    ~ In (Task.name stuck) (launches (trace st)) ->
    poll M tasks fuel st = None \/
    exists e st', poll M tasks fuel st = Some (Failed e st') /\
                  ~ In (Task.name stuck) (launches (trace st')).
Proof.
  induction fuel as [|fuel IH]; intros st Hsteady Hst; cbn [poll];
    rewrite (blocked_test st Hsteady Hst); [now left|].
  pose proof (scan_steady M tasks tasks st (incl_refl _) Hsteady) as Hs.
  pose proof (scan_blocked tasks st (incl_refl _) Hst) as Hb.
  destruct (scan M tasks st) as [st1|e st1].
  - destruct Hs as [Hsteady1 _]. apply IH; [now apply steady_sleep|].
    cbn [sleep trace]. rewrite launches_app. cbn [launches].
    now rewrite app_nil_r.
  - right. eauto.
Qed.

End Blocked.

Lemma handler_raises M st entries : raised (handler M st entries) <> None.
Proof.
  unfold handler. destruct (popen_ok M ["killall"; "stress-ng"]);
    [|discriminate].
  destruct (cleanup_sys_files entries) as [[e|] rest]; discriminate.
Qed.

Lemma handler_launches M st entries :
  launches (trace (final (handler M st entries))) = launches (trace st) /\
  waits (trace (final (handler M st entries))) = waits (trace st) /\
  spawned (trace (final (handler M st entries))) = spawned (trace st).
Proof.
  destruct (CleanupFacts.handler_final M st entries) as [_ [_ [_ [->| ->]]]];
    [auto|].
  rewrite launches_app, waits_app, spawned_app. cbn. now rewrite !app_nil_r.
Qed.

(** *** A failed launch *)

Lemma visit_failed_in_scratch M task st e st' :
  visit M task st = Failed e st' -> exists k, cwd st' = Scratch k.
Proof.
  unfold visit.
  destruct (mem (Task.name task) (has_executed st)); [discriminate|].
  destruct (negb (all (fst (probe_all M _ (probes st))))); [discriminate|].
  destruct (popen_ok M (command_line task)); [discriminate|].
  intros [= _ <-]. cbn [cwd]. eauto.
Qed.

Lemma scan_failed_in_scratch M :
  forall ts st e st',
    scan M ts st = Failed e st' -> exists k, cwd st' = Scratch k.
Proof.
  induction ts as [|task ts IH]; intros st e st' Hs; cbn [scan] in Hs;
    [discriminate|].
  destruct (visit M task st) as [st1|e1 st1] eqn:Hv.
  - now apply (IH _ _ _ Hs).
  - injection Hs as <- <-. now apply (visit_failed_in_scratch _ _ _ _ _ Hv).
Qed.

Lemma poll_failed_in_scratch M tasks :
  forall fuel st e st',
    poll M tasks fuel st = Some (Failed e st') -> exists k, cwd st' = Scratch k.
Proof.
  induction fuel as [|fuel IH]; intros st e st' Hp; cbn [poll] in Hp;
    destruct (List.length (has_executed st) <? List.length tasks)%nat;
    try discriminate.
  destruct (scan M tasks st) as [st1|e1 st1] eqn:Hs.
  - now apply (IH _ _ _ Hp).
  - injection Hp as <- <-. now apply (scan_failed_in_scratch _ _ _ _ _ Hs).
Qed.

(** *** [cleanup_sys_files] *)

Lemma remove_all_succeeds :
  forall names entries,
    fst (remove_all names entries) = None <->
    NoDup names /\ incl names entries.
Proof.
  induction names as [|t names IH]; intros entries; cbn [remove_all].
  - split; [intros _; split; [constructor|intros x []]|reflexivity].
  - destruct (mem t entries) eqn:Hm.
    + apply mem_In in Hm. rewrite IH. split.
      * intros [Hnd Hincl]. split.
        -- constructor; [|assumption]. intros Hin. apply Hincl in Hin.
           apply filter_In in Hin. destruct Hin as [_ Hne].
           now rewrite String.eqb_refl in Hne.
        -- intros x [<-|Hx]; [assumption|].
           apply Hincl in Hx. apply filter_In in Hx. tauto.
      * intros [Hnd Hincl]. inversion Hnd as [|? ? Hout Hrest]; subst.
        split; [assumption|]. intros x Hx. apply filter_In.
        split; [apply Hincl; now right|].
        apply negb_true_iff, String.eqb_neq. intros ->. contradiction.
    + apply mem_false in Hm. cbn [fst]. split; [discriminate|].
      intros [_ Hincl]. exfalso. apply Hm, Hincl. now left.
Qed.

Lemma glob_distinct pattern entries : NoDup entries -> NoDup (glob pattern entries).
Proof. intros Hnd. unfold glob. now apply NoDup_filter. Qed.

Lemma apart_of_distinct (l l' : list string) :
  NoDup (l ++ l') -> forall x, In x l -> ~ In x l'.
Proof.
  intros Hnd x Hx Hx'. apply in_split in Hx'. destruct Hx' as [a [b ->]].
  rewrite app_assoc in Hnd.
  apply NoDup_remove_2 in Hnd. apply Hnd. apply in_or_app. left.
  apply in_or_app. now left.
Qed.

End RunFacts.

(** ** The executor: every test of the loop condition *)

Module PollingFacts.
Import Executor Polling RunSpec ExecutorFacts.

(** [poll] is [passes] with the answer withheld while the condition
    still holds. *)
Lemma poll_passes M tasks :
  forall n st,
    poll M tasks n st
    = match passes M tasks n st with
      | Done st' =>
          if (List.length (has_executed st') <? List.length tasks)%nat
          then None else Some (Done st')
      | Failed e st' => Some (Failed e st')
      end.
Proof.
  induction n as [|n IH]; intros st; cbn [poll passes].
  - destruct (List.length (has_executed st) <? List.length tasks)%nat eqn:G;
      rewrite G; reflexivity.
  - destruct (List.length (has_executed st) <? List.length tasks)%nat eqn:G;
      [|rewrite G; reflexivity].
    destruct (scan M tasks st) as [st1|e st1]; [apply IH|reflexivity].
Qed.

Lemma passes_ended M tasks n st :
  (List.length (has_executed st) <? List.length tasks)%nat = false ->
  passes M tasks n st = Done st.
Proof. intros G. destruct n; cbn [passes]; rewrite G; reflexivity. Qed.

Lemma passes_add M tasks :
  forall n k st,
    passes M tasks (n + k) st
    = match passes M tasks n st with
      | Done st' => passes M tasks k st'
      | Failed e st' => Failed e st'
      end.
Proof.
  induction n as [|n IH]; intros k st; cbn [Nat.add passes].
  - now destruct (List.length (has_executed st) <? List.length tasks)%nat.
  - destruct (List.length (has_executed st) <? List.length tasks)%nat eqn:G.
    + destruct (scan M tasks st) as [st1|e st1]; [apply IH|reflexivity].
    + symmetry. now apply passes_ended.
Qed.

(** *** The events only grow *)

Lemma visit_extends M task st :
  exists evs, trace (state_of (visit M task st)) = trace st ++ evs.
Proof.
  unfold visit.
  destruct (mem (Task.name task) (has_executed st));
    [exists []; cbn; now rewrite app_nil_r|].
  destruct (negb (all (fst (probe_all M _ (probes st)))));
    [exists []; cbn; now rewrite app_nil_r|].
  destruct (popen_ok M (command_line task)); cbn [state_of trace].
  - eexists. reflexivity.
  - exists []. now rewrite app_nil_r.
Qed.

Lemma scan_extends M :
  forall ts st, exists evs, trace (state_of (scan M ts st)) = trace st ++ evs.
Proof.
  induction ts as [|task ts IH]; intros st; cbn [scan].
  - exists []. cbn. now rewrite app_nil_r.
  - destruct (visit_extends M task st) as [evs Hv].
    destruct (visit M task st) as [st1|e st1]; cbn [state_of] in *.
    + destruct (IH st1) as [evs' Hs]. exists (evs ++ evs').
      now rewrite Hs, Hv, app_assoc.
    + now exists evs.
Qed.

Lemma passes_extends M tasks :
  forall n st,
    exists evs, trace (state_of (passes M tasks n st)) = trace st ++ evs.
Proof.
  induction n as [|n IH]; intros st; cbn [passes].
  - exists [].
    destruct (List.length (has_executed st) <? List.length tasks)%nat;
      cbn; now rewrite app_nil_r.
  - destruct (List.length (has_executed st) <? List.length tasks)%nat;
      [|exists []; cbn; now rewrite app_nil_r].
    destruct (scan_extends M tasks st) as [evs Hs].
    destruct (scan M tasks st) as [st1|e st1]; cbn [state_of] in *.
    + destruct (IH (sleep st1)) as [evs' Hp].
      exists (evs ++ Slept :: evs'). rewrite Hp. cbn [sleep trace].
      now rewrite Hs, <- !app_assoc.
    + now exists evs.
Qed.

Lemma events_grow M tasks n m :
  (n <= m)%nat ->
  exists later, events M tasks m = events M tasks n ++ later.
Proof.
  intros Hle. unfold events.
  replace m with (n + (m - n))%nat by lia. rewrite passes_add.
  destruct (passes M tasks n start) as [st|e st]; cbn [state_of].
  - apply passes_extends.
  - exists []. now rewrite app_nil_r.
Qed.

(** *** The condition is tested in steady states *)

Lemma passes_steady M tasks :
  forall n st,
    steady tasks st ->
    match passes M tasks n st with
    | Done st' => steady tasks st'
    | Failed _ st' => exists st0, steady tasks st0 /\ trace st' = trace st0
    end.
Proof.
  induction n as [|n IH]; intros st Hst; cbn [passes].
  - now destruct (List.length (has_executed st) <? List.length tasks)%nat.
  - destruct (List.length (has_executed st) <? List.length tasks)%nat;
      [|assumption].
    pose proof (scan_steady M tasks tasks st (incl_refl _) Hst) as Hs.
    destruct (scan M tasks st) as [st1|e st1]; [|exact Hs].
    destruct Hs as [Hst1 _]. apply IH. now apply steady_sleep.
Qed.

Lemma events_steady M tasks n :
  exists st0, steady tasks st0 /\ events M tasks n = trace st0.
Proof.
  unfold events.
  pose proof (passes_steady M tasks n start (steady_start tasks)) as H.
  destruct (passes M tasks n start) as [st|e st]; cbn [state_of]; eauto.
Qed.

Lemma launches_In name tr :
  In name (launches tr) -> exists p, In (Spawned name p) tr.
Proof.
  induction tr as [|[task p| |p|] tr IH]; cbn [launches In]; intros H;
    try (destruct (IH H) as [q Hq]; eauto).
  - destruct H.
  - destruct H as [->|H]; [eauto|]. destruct (IH H) as [q Hq]. eauto.
Qed.

(** *** A task whose inputs are there is launched *)

Lemma probe_all_there M names :
  (forall k f, In f names -> present M k f = true) ->
  forall k, all (fst (probe_all M names k)) = true.
Proof.
  induction names as [|a names IH]; intros Hp k; [reflexivity|].
  cbn [probe_all fst all forallb]. rewrite Hp by now left.
  apply IH. intros k' f Hf. apply Hp. now right.
Qed.

Lemma visit_marks_kept M task st st' :
  visit M task st = Done st' -> incl (has_executed st) (has_executed st').
Proof.
  unfold visit.
  destruct (mem (Task.name task) (has_executed st));
    [intros [= <-]; apply incl_refl|].
  destruct (negb (all (fst (probe_all M _ (probes st)))));
    [intros [= <-]; apply incl_refl|].
  destruct (popen_ok M (command_line task)); [|discriminate].
  intros [= <-]. cbn [has_executed]. apply incl_appl, incl_refl.
Qed.

Lemma scan_marks_kept M :
  forall ts st st',
    scan M ts st = Done st' -> incl (has_executed st) (has_executed st').
Proof.
  induction ts as [|task ts IH]; intros st st' Hs; cbn [scan] in Hs.
  - injection Hs as <-. apply incl_refl.
  - destruct (visit M task st) as [st1|e st1] eqn:Hv; [|discriminate].
    eapply incl_tran; [exact (visit_marks_kept _ _ _ _ Hv)|now apply IH].
Qed.

Lemma visit_launches_ready M task st st' :
  always_there M task ->
  visit M task st = Done st' -> In (Task.name task) (has_executed st').
Proof.
  intros Hthere. unfold visit.
  destruct (mem (Task.name task) (has_executed st)) eqn:Hm.
  { intros [= <-]. now apply mem_In. }
  rewrite (probe_all_there M _ Hthere). cbn [negb].
  destruct (popen_ok M (command_line task)); [|discriminate].
  intros [= <-]. cbn [has_executed]. apply in_or_app. right. now left.
Qed.

Lemma scan_launches_ready M task :
  always_there M task ->
  forall ts st st',
    In task ts -> scan M ts st = Done st' ->
    In (Task.name task) (has_executed st').
Proof.
  intros Hthere. induction ts as [|t ts IH]; intros st st' Hin Hs;
    [destruct Hin|].
  cbn [scan] in Hs.
  destruct (visit M t st) as [st1|e st1] eqn:Hv; [|discriminate].
  destruct Hin as [->|Hin]; [|now apply (IH st1)].
  apply (scan_marks_kept _ _ _ _ Hs).
  now apply (visit_launches_ready M task st).
Qed.

(** When no launch fails, the first pass launches every task whose input
    files exist. *)
Lemma first_pass_launches M tasks task n st :
  In task tasks -> always_there M task ->
  passes M tasks (S n) start = Done st ->
  steady tasks st /\ In (Task.name task) (launches (trace st)).
Proof.
  intros Hin Hthere Hp.
  pose proof (passes_steady M tasks (S n) start (steady_start tasks)) as Hst.
  rewrite Hp in Hst. split; [exact Hst|].
  cbn [passes] in Hp.
  assert (G : (List.length (has_executed start) <? List.length tasks)%nat
              = true).
  { destruct tasks; [destruct Hin|reflexivity]. }
  rewrite G in Hp.
  pose proof (scan_steady M tasks tasks start (incl_refl _)
                          (steady_start tasks)) as Hs.
  destruct (scan M tasks start) as [st1|e st1] eqn:Hscan; [|discriminate].
  destruct Hs as [Hst1 _].
  pose proof (scan_launches_ready M task Hthere tasks start st1 Hin Hscan)
    as Hmarked.
  destruct (passes_extends M tasks n (sleep st1)) as [evs Hevs].
  rewrite Hp in Hevs. cbn [state_of] in Hevs.
  rewrite Hevs, launches_app. apply in_or_app. left.
  rewrite (launched_all_marked tasks _ (steady_sleep _ _ Hst1)).
  exact Hmarked.
Qed.

(** And its process has the command line of the task. *)
Lemma ready_task_is_spawned M tasks task n st :
  NoDup (map Task.name tasks) ->
  In task tasks -> always_there M task ->
  passes M tasks (S n) start = Done st ->
  exists p, In (Spawned (Task.name task) p) (trace st) /\
            argv p = expected_argv task.
Proof.
  intros Hnd Hin Hthere Hp.
  destruct (first_pass_launches M tasks task n st Hin Hthere Hp)
    as [Hst Hl].
  destruct (launches_In _ _ Hl) as [p Hsp].
  exists p. split; [exact Hsp|].
  destruct (command_lines tasks st Hst _ _ Hsp) as [task' [Hin' [Hname Hargv]]].
  now rewrite (RunFacts.same_name_same_task tasks task task' Hnd Hin Hin'
                                            (eq_sym Hname)).
Qed.

(** *** How the loop ends *)

Lemma ended_run M tasks n st :
  passes M tasks n start = Done st ->
  (List.length (has_executed st) <? List.length tasks)%nat = false ->
  exists r rest,
    run M (Ok tasks) n = Some r /\
    trace (final r) = trace st ++ map Waited (procs st) ++ rest /\
    (rest = [] \/ rest = [Killall]).
Proof.
  intros Hp G. unfold run. rewrite poll_passes, Hp, G.
  destruct (cleanup_sys_files (listing M (cwd (wait_all st))))
    as [[e|] left_over].
  - destruct (CleanupFacts.handler_final M (wait_all st) left_over)
      as (_ & _ & _ & [Ht|Ht]).
    + exists (handler M (wait_all st) left_over), [].
      rewrite Ht, app_nil_r. auto.
    + exists (handler M (wait_all st) left_over), [Killall].
      rewrite Ht. cbn [wait_all trace]. rewrite <- app_assoc. auto.
  - eexists _, []. split; [reflexivity|]. cbn [final wait_all trace].
    rewrite app_nil_r. auto.
Qed.

Lemma polling_run M tasks n st :
  passes M tasks n start = Done st ->
  (List.length (has_executed st) <? List.length tasks)%nat = true ->
  run M (Ok tasks) n = None.
Proof. intros Hp G. unfold run. now rewrite poll_passes, Hp, G. Qed.

(** *** The readiness test *)

Lemma found_all_probed M names :
  forall k, found_all M k names -> all (fst (probe_all M names k)) = true.
Proof.
  induction names as [|a names IH]; intros k Hall; [reflexivity|].
  cbn [probe_all fst all forallb]. apply andb_true_iff. split.
  - rewrite <- (Nat.add_0_r k). now apply (Hall 0%nat a).
  - apply IH. intros i f Hf.
    replace (S k + i)%nat with (k + S i)%nat by lia.
    now apply (Hall (S i) f).
Qed.

Lemma visit_launches_iff M task st :
  (exists p, trace (state_of (visit M task st))
             = trace st ++ [Spawned (Task.name task) p]) <->
  mem (Task.name task) (has_executed st) = false /\
  found_all M (probes st) (inputs_of task) /\
  popen_ok M (command_line task) = true.
Proof.
  assert (Hsame : forall ev, trace st <> trace st ++ [ev]).
  { intros ev H. rewrite <- (app_nil_r (trace st)) in H at 1.
    apply app_inv_head in H. discriminate. }
  unfold visit, inputs_of.
  destruct (mem (Task.name task) (has_executed st)).
  { cbn [state_of]. split; [intros [p Hp]; now apply Hsame in Hp|].
    intros [H _]. discriminate. }
  destruct (all (fst (probe_all M _ (probes st)))) eqn:Hready; cbn [negb].
  - apply RunFacts.probe_all_found in Hready.
    destruct (popen_ok M (command_line task)); cbn [state_of trace].
    + split; [auto|]. intros _. eexists. reflexivity.
    + split; [intros [p Hp]; now apply Hsame in Hp|].
      intros [_ [_ H]]. discriminate.
  - cbn [state_of trace]. split; [intros [p Hp]; now apply Hsame in Hp|].
    intros [_ [Hall _]]. apply found_all_probed in Hall. congruence.
Qed.

End PollingFacts.

Section PollingClaims.
Import Executor Polling RunSpec ExecutorFacts.

(** C4 (as amended).  At every point of a run, whether the loop is still
    polling after [n] passes or the run has returned, each process
    started is that of a task of the workflow, and when the string
    ["--out"] is itself one of the recorded arguments of the task the
    command line is [time python <program>], the recorded arguments, and
    then the names of the task's input files exactly as the manifest
    records them.  Such a task is started with that command line by the
    end of the first pass when its input files exist, task names are
    distinct and no launch fails. *)
Theorem spawned_command_lines
        (M : Machine) (tasks : list Task.t) (n : nat) :
  (forall name p,
      In (Spawned name p) (trace (state_of (passes M tasks n start))) \/
      (exists r, run M (Ok tasks) n = Some r /\
                 In (Spawned name p) (trace (final r))) ->
      exists task,
        In task tasks /\ Task.name task = name /\
        (mem "--out" (Task.args task) = true ->
         argv p = ["time"; "python"; Task.program task] ++ Task.args task
                  ++ map File.name (filter is_input (Task.files task)))) /\
  (forall task st,
      NoDup (map Task.name tasks) ->
      In task tasks ->
      mem "--out" (Task.args task) = true ->
      (forall k f, In f (inputs_of task) -> present M k f = true) ->
      passes M tasks (S n) start = Done st ->
      exists p,
        In (Spawned (Task.name task) p) (trace st) /\
        argv p = ["time"; "python"; Task.program task] ++ Task.args task
                 ++ map File.name (filter is_input (Task.files task))).
Proof.
  split.
  - intros name p Hin.
    assert (Hsteady : exists st0, steady tasks st0 /\
                                  In (Spawned name p) (trace st0)).
    { destruct Hin as [Hin|[r [Hrun Hin]]].
      - destruct (PollingFacts.events_steady M tasks n) as [st0 [Hst Ht]].
        exists st0. split; [exact Hst|]. now rewrite <- Ht.
      - destruct (run_trace M tasks n r Hrun)
          as (st0 & extra & Hst & Ht & _ & Hs).
        exists st0. split; [exact Hst|].
        rewrite Ht in Hin. now apply (spawned_In _ _ _ _ Hs) in Hin. }
    destruct Hsteady as [st0 [Hst Hsp]].
    destruct (command_lines tasks st0 Hst name p Hsp)
      as [task [Htask [Hname Hargv]]].
    exists task. split; [exact Htask|]. split; [exact Hname|].
    intros Hout. rewrite Hargv. unfold expected_argv. now rewrite Hout.
  - intros task st Hnd Hin Hout Hthere Hp.
    destruct (PollingFacts.ready_task_is_spawned M tasks task n st
                                                 Hnd Hin Hthere Hp)
      as [p [Hsp Hargv]].
    exists p. split; [exact Hsp|].
    rewrite Hargv. unfold expected_argv. now rewrite Hout.
Qed.

Lemma spawned_command_lines_witness :
  exists p,
    In (Spawned "A" p)
       (trace (state_of (passes Examples.obliging [Examples.flagged] 1 start)))
    /\ argv p = ["time"; "python"; "/opt/wfcommons/wfbench/wfbench.py";
                 "A"; "--out"; "{'A_output.txt': 5}"; "A_input.txt"].
Proof.
  refine (proj2 (spawned_command_lines Examples.obliging [Examples.flagged] 0)
                Examples.flagged _ _ _ _ _ _).
  - repeat constructor. simpl. tauto.
  - simpl. auto.
  - reflexivity.
  - intros k f [<-|[]]. reflexivity.
  - reflexivity.
Defined.

(** C5.  At every test of the loop condition, after any number [n] of
    passes, no task has been launched twice, only tasks of the workflow
    have been launched, and no process has been waited for; what later
    passes add comes after the launches made so far, so that a task once
    launched is never launched again.  A task whose input files exist is
    launched by the end of the first pass, if no launch fails.  When task
    names are distinct the loop ends exactly when every task has been
    launched: at a test where all are launched [run] leaves the loop,
    waits for every process it started, in the order of their start, and
    returns; at a test where some task is not launched the loop goes on,
    and [run] has not returned. *)
Theorem each_task_is_launched_once
        (M : Machine) (tasks : list Task.t) (n : nat) :
  NoDup (launches (events M tasks n)) /\
  incl (launches (events M tasks n)) (map Task.name tasks) /\
  waits (events M tasks n) = [] /\
  (forall m, (n <= m)%nat ->
             exists later, events M tasks m = events M tasks n ++ later) /\
  (forall task st,
      In task tasks ->
      (forall k f, In f (inputs_of task) -> present M k f = true) ->
      passes M tasks (S n) start = Done st ->
      In (Task.name task) (launches (trace st))) /\
  (NoDup (map Task.name tasks) ->
   forall st,
     passes M tasks n start = Done st ->
     ((forall task, In task tasks ->
                    In (Task.name task) (launches (trace st))) ->
      exists r rest,
        run M (Ok tasks) n = Some r /\
        trace (final r)
        = trace st ++ map Waited (spawned (trace st)) ++ rest /\
        (rest = [] \/ rest = [Killall])) /\
     (forall task, In task tasks ->
                   ~ In (Task.name task) (launches (trace st)) ->
                   run M (Ok tasks) n = None)).
Proof.
  destruct (PollingFacts.events_steady M tasks n) as [st0 [Hst0 Ht0]].
  rewrite Ht0, (launched_all_marked tasks st0 Hst0).
  split; [apply Hst0|]. split; [apply Hst0|]. split; [apply Hst0|].
  split.
  { intros m Hle. rewrite <- Ht0. now apply PollingFacts.events_grow. }
  split.
  { intros task st Hin Hthere Hp.
    now apply (PollingFacts.first_pass_launches M tasks task n st). }
  intros Hnd st Hp.
  pose proof (PollingFacts.passes_steady M tasks n start (steady_start tasks))
    as Hst.
  rewrite Hp in Hst. split.
  - intros Hall. apply (steady_exit tasks st Hnd Hst) in Hall.
    rewrite (started_all_kept tasks st Hst).
    now apply PollingFacts.ended_run.
  - intros task Hin Hnot.
    apply (PollingFacts.polling_run M tasks n st Hp).
    destruct (List.length (has_executed st) <? List.length tasks)%nat eqn:G;
      [reflexivity|].
    exfalso. apply Hnot.
    now apply (proj1 (steady_exit tasks st Hnd Hst) G).
Qed.

Lemma each_task_is_launched_once_witness :
  (exists r rest,
      run Examples.obliging (Ok Examples.assembled_chain) 2 = Some r /\
      trace (final r)
      = trace (final Examples.chain_report) ++ rest /\
      (rest = [] \/ rest = [Killall])) /\
  run Examples.obliging (Ok Examples.assembled_chain) 1 = None.
Proof.
  split.
  - destruct (proj2 (proj2 (proj2 (proj2 (proj2
               (each_task_is_launched_once
                  Examples.obliging Examples.assembled_chain 2))))))
      with (st := state_of (passes Examples.obliging
                                   Examples.assembled_chain 2 start))
      as [Hend _].
    + repeat constructor; simpl; intuition discriminate.
    + reflexivity.
    + destruct Hend as [r [rest [Hrun [Htrace Hrest]]]].
      * intros task [<-|[<-|[]]]; vm_compute; tauto.
      * exists r, rest. split; [exact Hrun|]. split; [|exact Hrest].
        rewrite Htrace. reflexivity.
  - destruct (proj2 (proj2 (proj2 (proj2 (proj2
               (each_task_is_launched_once
                  Examples.obliging Examples.assembled_chain 1))))))
      with (st := first_chain_pass) as [_ Hgoes_on].
    + repeat constructor; simpl; intuition discriminate.
    + reflexivity.
    + apply (Hgoes_on (nth 1 Examples.assembled_chain RunSpec.free)).
      * simpl. auto.
      * vm_compute. intros [H|[]]. discriminate H.
Defined.

End PollingClaims.

Section ExecutorExtras.
Import Executor RunSpec ExecutorFacts.

Lemma ready_extended M tasks tr extra :
  spawned extra = [] ->
  launched_when_ready M tasks tr ->
  launched_when_ready M tasks (tr ++ extra).
Proof.
  intros Hextra Htr name p Hp. apply (Htr name p).
  now apply (spawned_In name p tr extra).
Qed.

Lemma handler_ready M tasks st entries :
  launched_when_ready M tasks (trace st) ->
  launched_when_ready M tasks (trace (final (handler M st entries))).
Proof.
  intros Hst.
  destruct (CleanupFacts.handler_final M st entries) as [_ [_ [_ [->| ->]]]];
    [assumption|].
  now apply ready_extended.
Qed.

(** X14.  [run] launches a task only after a readiness test in which
    every input file of the task was found: each launch made so far,
    while the loop is still polling after [n] passes as well as in the
    report of a run that has returned, is that of a task all of whose
    inputs existed at consecutive probes.  The body of the loop launches
    the task it visits exactly when the task is not marked, every input
    is found at its probe and [Popen] finds the command. *)
Theorem launched_tasks_were_ready
        (M : Machine) (tasks : list Task.t) (n : nat) :
  (forall name p,
      In (Spawned name p) (trace (Polling.state_of
                                    (Polling.passes M tasks n start))) \/
      (exists r, run M (Ok tasks) n = Some r /\
                 In (Spawned name p) (trace (final r))) ->
      exists task k,
        In task tasks /\ Task.name task = name /\
        forall i f, nth_error (inputs_of task) i = Some f ->
                    present M (k + i) f = true) /\
  (forall task st,
      (exists p, trace (Polling.state_of (visit M task st))
                 = trace st ++ [Spawned (Task.name task) p]) <->
      mem (Task.name task) (has_executed st) = false /\
      (forall i f, nth_error (inputs_of task) i = Some f ->
                   present M (probes st + i) f = true) /\
      popen_ok M (command_line task) = true).
Proof.
  split; [|intros task st; apply PollingFacts.visit_launches_iff].
  intros name p Hin.
  assert (Hstart : launched_when_ready M tasks (trace start))
    by (intros ? ? []).
  destruct Hin as [Hin|[r [Hrun Hin]]].
  - revert name p Hin.
    change (launched_when_ready
              M tasks
              (trace (Polling.state_of (Polling.passes M tasks n start)))).
    apply RunFacts.passes_ready. exact Hstart.
  - revert name p Hin.
    change (launched_when_ready M tasks (trace (final r))).
    destruct (CleanupFacts.run_cases M tasks n r Hrun)
      as [[st [Hpoll Hend]]|[e [st [Hpoll ->]]]].
    + pose proof (RunFacts.poll_ready M tasks n start _ Hstart Hpoll) as Hst.
      cbn beta iota in Hst.
      assert (Hwait : launched_when_ready M tasks (trace (wait_all st))).
      { cbn [wait_all trace].
        apply ready_extended; [apply spawned_waited|assumption]. }
      destruct Hend as [[_ [-> _]]|[e [rest [_ ->]]]]; [assumption|].
      now apply handler_ready.
    + pose proof (RunFacts.poll_ready M tasks n start _ Hstart Hpoll) as Hst.
      cbn beta iota in Hst. now apply handler_ready.
Qed.

Lemma launched_tasks_were_ready_witness :
  exists task k,
    In task [free; waiting] /\ Task.name task = "W" /\
    forall i f, nth_error (inputs_of task) i = Some f ->
                present lavish (k + i) f = true.
Proof.
  apply (proj1 (launched_tasks_were_ready lavish [free; waiting] 1) "W"
               {| argv := ["time"; "python";
                           "/opt/wfcommons/wfbench/wfbench.py"; "W"];
                  scratch := 1 |}).
  left. simpl. auto.
Defined.

(** X15.  [run] never gets past a task whose input never appears: when
    task names are distinct and some input file of a task is found at no
    probe, the run does not end normally with any number of passes; it is
    still polling, or it ends by an exception, and the task is not
    launched. *)
Theorem missing_input_blocks_the_run
        (M : Machine) (tasks : list Task.t) (stuck : Task.t) (n : string)
        (fuel : nat) :
  NoDup (map Task.name tasks) ->
  In stuck tasks ->
  In n (inputs_of stuck) ->
  (forall k, present M k n = false) ->
  match run M (Ok tasks) fuel with
  | None => True
  | Some r => raised r <> None /\
              ~ In (Task.name stuck) (launches (trace (final r)))
  end.
Proof.
  intros Hnd Hin Hn Hnever.
  destruct (RunFacts.poll_blocked M tasks stuck n Hnd Hin Hn Hnever fuel start
                                  (steady_start tasks))
    as [Hpoll|[e [st [Hpoll Hst]]]]; [intros []| |]; unfold run; rewrite Hpoll.
  - exact I.
  - split; [apply RunFacts.handler_raises|].
    now rewrite (proj1 (RunFacts.handler_launches M st _)).
Qed.

Lemma missing_input_blocks_the_run_witness :
  raised barren_report <> None /\
  ~ In "W" (launches (trace (final barren_report))).
Proof.
  apply (missing_input_blocks_the_run barren [free; waiting] waiting
                                      "F_output.txt" 3).
  - repeat constructor; simpl; intuition discriminate.
  - simpl. auto.
  - simpl. auto.
  - reflexivity.
Defined.

(** X16.  [cleanup_sys_files] raises whenever the directory holds a
    visible entry that matches both [*input*.txt] and [*output.txt]: the
    entry is listed by both patterns, so that it is removed twice, and
    its second removal fails if nothing failed before. *)
Theorem cleanup_raises_on_a_double_match (entries : list string) (x : string) :
  In x entries -> matches_both x = true ->
  fst (cleanup_sys_files entries) <> None.
Proof.
  intros Hx Hboth Hnone. unfold cleanup_sys_files in Hnone.
  apply RunFacts.remove_all_succeeds in Hnone. destruct Hnone as [Hdistinct _].
  unfold matches_both in Hboth.
  apply andb_true_iff in Hboth. destruct Hboth as [Hboth Hout].
  apply andb_true_iff in Hboth. destruct Hboth as [Hvis Hinp].
  apply (RunFacts.apart_of_distinct _ _ Hdistinct x);
    apply CleanupFacts.glob_In; (split; [assumption|]);
    apply andb_true_iff; auto.
Qed.

Lemma cleanup_raises_on_a_double_match_witness :
  fst (cleanup_sys_files ["b_output.txt"; "input_output.txt"; "c_output.txt"])
  <> None.
Proof.
  apply (cleanup_raises_on_a_double_match
           ["b_output.txt"; "input_output.txt"; "c_output.txt"]
           "input_output.txt").
  - simpl. auto.
  - reflexivity.
Defined.

(** X17.  [cleanup_sys_files] touches nothing else: whether or not it
    raises, the entries it leaves were there before, and every entry
    that is hidden or matches neither pattern is still there. *)
Theorem cleanup_keeps_other_files (entries : list string) (x : string) :
  (In x (snd (cleanup_sys_files entries)) -> In x entries) /\
  (In x entries -> generated x = false ->
   In x (snd (cleanup_sys_files entries))).
Proof.
  destruct (cleanup_sys_files entries) as [e rest] eqn:Hc. cbn [snd]. split.
  - unfold cleanup_sys_files in Hc.
    destruct (CleanupFacts.remove_all_spec _ _ _ _ Hc)
      as [removed [remaining [_ [-> _]]]].
    intros Hx. apply filter_In in Hx. tauto.
  - intros Hx Hgen.
    destruct (CleanupFacts.cleanup_sys_files_spec _ _ _ Hc) as [Hsame _].
    assert (Hin : In x (filter (fun x => negb (generated x)) entries))
      by (apply filter_In; split; [assumption|now rewrite Hgen]).
    rewrite <- Hsame in Hin. apply filter_In in Hin. tauto.
Qed.

(** X18.  [run] after a failed launch: the exception handler is entered
    in the scratch directory of that launch, so the run ends by an
    exception without waiting for any process it started, and the
    package directory keeps all its entries, generated files included. *)
Theorem failed_launch_skips_wait_and_cleanup
        (M : Machine) (tasks : list Task.t) (fuel : nat) (r : Report)
        (e : exn) (st : State) :
  poll M tasks fuel start = Some (Failed e st) ->
  run M (Ok tasks) fuel = Some r ->
  raised r <> None /\
  waits (trace (final r)) = [] /\
  (exists k, cwd (final r) = Scratch k) /\
  after M r Package = listing M Package.
Proof.
  intros Hpoll Hrun. unfold run in Hrun. rewrite Hpoll in Hrun.
  injection Hrun as <-.
  destruct (RunFacts.poll_failed_in_scratch M tasks fuel start e st Hpoll)
    as [k Hk].
  pose proof (poll_steady M tasks fuel start _ (steady_start tasks) Hpoll)
    as [st0 [Hsteady Htrace]].
  destruct (CleanupFacts.handler_final M st (listing M (cwd st)))
    as [_ [_ [Hcwd _]]].
  destruct (RunFacts.handler_launches M st (listing M (cwd st)))
    as [_ [Hwaits _]].
  repeat split.
  - apply RunFacts.handler_raises.
  - rewrite Hwaits, Htrace. apply Hsteady.
  - exists k. congruence.
  - unfold after. rewrite Hcwd, Hk. reflexivity.
Qed.

Lemma failed_launch_skips_wait_and_cleanup_witness :
  raised barren_report <> None /\
  waits (trace (final barren_report)) = [] /\
  (exists k, cwd (final barren_report) = Scratch k) /\
  after barren barren_report Package = listing barren Package.
Proof.
  eapply (failed_launch_skips_wait_and_cleanup barren [free; waiting] 3
                                               barren_report);
    reflexivity.
Defined.

Lemma spawned_as_many_as_launched tr :
  List.length (spawned tr) = List.length (launches tr).
Proof.
  induction tr as [|[name p| |p|] tr IH]; cbn [spawned launches List.length];
    auto.
Qed.

(** X19.  [run] when every probed file exists, every command is found
    and task names are distinct: the first pass launches all the tasks
    in the order of the workflow document, and every process started is
    waited for, in that order. *)
Theorem one_pass_when_inputs_are_present
        (M : Machine) (tasks : list Task.t) (fuel : nat) :
  (forall k n, present M k n = true) ->
  (forall a, popen_ok M a = true) ->
  NoDup (map Task.name tasks) ->
  exists r,
    run M (Ok tasks) (S fuel) = Some r /\
    launches (trace (final r)) = map Task.name tasks /\
    waits (trace (final r)) = spawned (trace (final r)) /\
    List.length (waits (trace (final r))) = List.length tasks.
Proof.
  intros Hpresent Hpopen Hnd.
  destruct (LivenessFacts.poll_ends_when_inputs_are_present
              M tasks fuel Hpresent Hpopen Hnd) as [st [Hpoll Hall]].
  pose proof (poll_steady M tasks (S fuel) start _ (steady_start tasks) Hpoll)
    as [Hsteady _].
  destruct Hsteady as [H1 _ _ H4 H5 _].
  assert (Hwait : launches (trace (wait_all st)) = map Task.name tasks /\
                  waits (trace (wait_all st)) = spawned (trace (wait_all st)) /\
                  List.length (waits (trace (wait_all st))) = List.length tasks).
  { cbn [wait_all trace].
    rewrite launches_app, waits_app, spawned_app.
    rewrite launches_waited, waits_waited, spawned_waited, !app_nil_r.
    rewrite H1, H5, H4, Hall. cbn [app]. repeat split.
    rewrite <- H4, spawned_as_many_as_launched, H1, Hall.
    apply length_map. }
  unfold run. rewrite Hpoll.
  destruct (cleanup_sys_files (listing M (cwd (wait_all st)))) as [[e|] rest].
  - eexists. split; [reflexivity|].
    destruct (RunFacts.handler_launches M (wait_all st) rest) as [-> [-> ->]].
    exact Hwait.
  - eexists. split; [reflexivity|]. exact Hwait.
Qed.

Lemma one_pass_when_inputs_are_present_witness :
  exists r,
    run lavish (Ok [free; waiting]) 1 = Some r /\
    launches (trace (final r)) = map Task.name [free; waiting] /\
    waits (trace (final r)) = spawned (trace (final r)) /\
    List.length (waits (trace (final r))) = List.length [free; waiting].
Proof.
  apply (one_pass_when_inputs_are_present lavish [free; waiting] 0).
  - reflexivity.
  - reflexivity.
  - repeat constructor; simpl; intuition discriminate.
Defined.

End ExecutorExtras.

(** ** The data generator and the input file of parameters *)

Module ToolFacts.
Import Bench BenchSpec Tools.

Lemma written_get (f : string -> string) (v : Z) (q : string) :
  forall names d,
    get q (fold_left (fun d name => set (f name) v d) names d)
    = if existsb (fun name => String.eqb (f name) q) names then Some v
      else get q d.
Proof.
  induction names as [|a names IH]; intros d; cbn [fold_left existsb];
    [reflexivity|].
  rewrite IH. destruct (existsb _ names); [now rewrite orb_true_r|].
  rewrite orb_false_r. destruct (String.eqb (f a) q) eqn:E.
  - apply String.eqb_eq in E. subst q. apply get_set_same.
  - apply String.eqb_neq in E. now apply get_set_other.
Qed.

Lemma one_round H size save_dir :
  (0 <= size)%Z ->
  forall names sh,
    (forall name, In name names ->
                  can_open H (joinpath save_dir (input_name name)) = true) ->
    for_each (write_input H size save_dir) names sh
    = Ok {| files :=
              fold_left
                (fun d name => set (joinpath save_dir (input_name name)) size d)
                names (files sh);
            printed :=
              printed sh
              ++ map (fun name => "Created file: "
                                  +++ joinpath save_dir (input_name name))
                     names |}.
Proof.
  intros Hsize. induction names as [|a names IH]; intros sh Hopen;
    cbn [for_each fold_left map].
  - rewrite app_nil_r. now destruct sh.
  - unfold write_input at 1. rewrite Hopen by now left.
    destruct (size <? 0)%Z eqn:E; [lia|]. cbn [Py.bind].
    rewrite IH by (intros name Hn; apply Hopen; now right).
    cbn [files printed]. now rewrite <- app_assoc.
Qed.

Lemma rounds H size save_dir names :
  (0 <= size)%Z ->
  (forall name, In name names ->
                can_open H (joinpath save_dir (input_name name)) = true) ->
  forall (l : list nat) sh,
  exists sh',
    for_each (fun _ sh => for_each (write_input H size save_dir) names sh) l sh
    = Ok sh' /\
    (forall q,
        get q (files sh')
        = if existsb
               (fun name => String.eqb (joinpath save_dir (input_name name)) q)
               names && negb (Nat.eqb (List.length l) 0)
          then Some size else get q (files sh)) /\
    List.length (printed sh')
    = (List.length (printed sh) + List.length l * List.length names)%nat /\
    (l = [] -> sh' = sh).
Proof.
  intros Hsize Hopen. induction l as [|x l IH]; intros sh; cbn [for_each].
  - exists sh. repeat split; [|cbn; lia].
    intros q. cbn. now rewrite andb_false_r.
  - rewrite (one_round H size save_dir Hsize names sh Hopen). cbn [Py.bind].
    destruct (IH {| files :=
                      fold_left
                        (fun d name =>
                           set (joinpath save_dir (input_name name)) size d)
                        names (files sh);
                    printed :=
                      printed sh
                      ++ map (fun name => "Created file: "
                                          +++ joinpath save_dir (input_name name))
                             names |}) as [sh' [Hrun [Hget [Hlen _]]]].
    exists sh'. split; [assumption|]. repeat split.
    + intros q. rewrite Hget. cbn [files List.length Nat.eqb negb].
      rewrite andb_true_r, written_get.
      destruct (existsb _ names); [|reflexivity].
      now destruct (negb (Nat.eqb (List.length l) 0)).
    + rewrite Hlen. cbn [printed List.length]. rewrite length_app, length_map. lia.
    + discriminate.
Qed.

(** *** Task types *)

Lemma before_first_absent (sep s : string) :
  occurs sep s = false -> before_first sep s = s.
Proof.
  induction s as [|c s IH]; cbn [occurs before_first]; [reflexivity|].
  intros H. apply orb_false_iff in H. destruct H as [Hp Hs].
  rewrite Hp. now rewrite IH.
Qed.

Lemma task_type_of_numbered (p r : string) :
  occurs "_0" p = false -> task_type (p +++ "_0" +++ r) = p.
Proof.
  unfold task_type. induction p as [|c p IH]; intros Hp.
  - cbn. now destruct r.
  - cbn [occurs] in Hp. apply orb_false_iff in Hp. destruct Hp as [Hhere Hp].
    change (String c p +++ "_0" +++ r) with (String c (p +++ "_0" +++ r)).
    cbn [before_first].
    assert (Hno : prefix "_0" (String c (p +++ "_0" +++ r)) = false).
    { cbn [prefix] in *. destruct (Ascii.ascii_dec "_" c) as [Heq|Hne];
        [|reflexivity].
      destruct p as [|d p].
      - reflexivity.
      - change (String d p +++ "_0" +++ r) with (String d (p +++ "_0" +++ r)).
        cbn [prefix] in *. destruct (Ascii.ascii_dec "0" d); [|reflexivity].
        destruct p; discriminate. }
    rewrite Hno. now rewrite IH.
Qed.

(** *** The dict written by [generate_input_file] *)

Lemma get_constant {V} (v : V) (x : string) (seen : list string) :
  get x (map (fun y => (y, v)) seen) = if mem x seen then Some v else None.
Proof.
  induction seen as [|y seen IH]; cbn [map get mem existsb]; [reflexivity|].
  fold (mem x seen). destruct (String.eqb x y); [reflexivity|exact IH].
Qed.

Lemma setdefault_constant {V} (v : V) (x : string) (seen : list string) :
  setdefault x v (map (fun y => (y, v)) seen)
  = map (fun y => (y, v)) (if mem x seen then seen else seen ++ [x]).
Proof.
  unfold setdefault. rewrite get_constant.
  destruct (mem x seen); [reflexivity|]. now rewrite map_app.
Qed.

Lemma generate_input_file_from (nodes : list Task.t) :
  forall seen,
    fold_left add_task_type nodes
              {| percent_cpu := map (fun y => (y, "0.6")) seen;
                 cpu_work := map (fun y => (y, 1000%Z)) seen;
                 gpu_work := map (fun y => (y, 100%Z)) seen;
                 data := map (fun y => (y, 10%Z)) seen |}
    = let types :=
        fold_left (fun seen x => if mem x seen then seen else seen ++ [x])
                  (map (fun task => task_type (Task.name task)) nodes) seen in
      {| percent_cpu := map (fun y => (y, "0.6")) types;
         cpu_work := map (fun y => (y, 1000%Z)) types;
         gpu_work := map (fun y => (y, 100%Z)) types;
         data := map (fun y => (y, 10%Z)) types |}.
Proof.
  induction nodes as [|task nodes IH]; intros seen; [reflexivity|].
  cbn [fold_left map]. unfold add_task_type at 2.
  cbn [percent_cpu cpu_work gpu_work data].
  rewrite !setdefault_constant. apply IH.
Qed.

Lemma generate_input_file_closed (nodes : list Task.t) :
  generate_input_file nodes
  = {| percent_cpu := map (fun y => (y, "0.6")) (task_types nodes);
       cpu_work := map (fun y => (y, 1000%Z)) (task_types nodes);
       gpu_work := map (fun y => (y, 100%Z)) (task_types nodes);
       data := map (fun y => (y, 10%Z)) (task_types nodes) |}.
Proof. exact (generate_input_file_from nodes []). Qed.

Lemma first_occurrences_cover (l : list string) :
  forall seen x,
    In x seen \/ In x l ->
    In x (fold_left (fun seen x => if mem x seen then seen else seen ++ [x])
                    l seen).
Proof.
  induction l as [|a l IH]; intros seen x Hx; cbn [fold_left].
  - destruct Hx as [Hx|[]]. assumption.
  - apply IH. destruct (mem a seen) eqn:Hm.
    + destruct Hx as [Hx|[<-|Hx]]; auto. left. now apply mem_In.
    + destruct Hx as [Hx|[<-|Hx]]; auto; left; apply in_or_app; cbn; auto.
Qed.

Lemma first_occurrences_distinct (l : list string) :
  forall seen,
    NoDup seen ->
    NoDup (fold_left (fun seen x => if mem x seen then seen else seen ++ [x])
                     l seen).
Proof.
  induction l as [|a l IH]; intros seen Hseen; cbn [fold_left]; [assumption|].
  apply IH. destruct (mem a seen) eqn:Hm; [assumption|].
  apply mem_false in Hm.
  apply NoDup_app; [assumption|repeat constructor; intros []|].
  intros x Hx [<-|[]]. contradiction.
Qed.

End ToolFacts.

Section ToolExtras.
Import Bench BenchSpec Tools.

(** X20.  [generate_sys_data] with a non-negative size and files that
    can be opened: however many rounds [num_files] asks for, each name
    ends with one input file of exactly [file_total_size] bytes, what the
    file held before being replaced; every other file is left alone, one
    line is printed per write, and nothing happens when [num_files] is
    not positive. *)
Theorem generate_sys_data_rewrites_one_file_per_name
        (H : Host) (num_files file_total_size : Z) (task_name : list string)
        (save_dir : string) (sh : Shell) :
  (0 <= file_total_size)%Z ->
  (forall name, In name task_name ->
                can_open H (joinpath save_dir (input_name name)) = true) ->
  exists sh',
    generate_sys_data H num_files file_total_size task_name save_dir sh
    = Ok sh' /\
    ((0 < num_files)%Z ->
     forall name, In name task_name ->
                  get (joinpath save_dir (input_name name)) (files sh')
                  = Some file_total_size) /\
    (forall q, (forall name, In name task_name ->
                             q <> joinpath save_dir (input_name name)) ->
               get q (files sh') = get q (files sh)) /\
    List.length (printed sh')
    = (List.length (printed sh)
       + Z.to_nat num_files * List.length task_name)%nat /\
    ((num_files <= 0)%Z -> sh' = sh).
Proof.
  intros Hsize Hopen. unfold generate_sys_data.
  destruct (ToolFacts.rounds H file_total_size save_dir task_name Hsize Hopen
                             (seq 0 (Z.to_nat num_files)) sh)
    as [sh' [Hrun [Hget [Hlen Hnone]]]].
  rewrite length_seq in Hget, Hlen.
  exists sh'. split; [assumption|]. repeat split.
  - intros Hpos name Hname. rewrite Hget.
    assert (Hex : existsb
                    (fun name0 =>
                       String.eqb (joinpath save_dir (input_name name0))
                                  (joinpath save_dir (input_name name)))
                    task_name = true).
    { apply existsb_exists. exists name. split; [assumption|apply String.eqb_refl]. }
    rewrite Hex. destruct (Z.to_nat num_files) eqn:E; [lia|reflexivity].
  - intros q Hq. rewrite Hget.
    assert (Hex : existsb
                    (fun name => String.eqb (joinpath save_dir (input_name name)) q)
                    task_name = false).
    { destruct (existsb _ task_name) eqn:E; [|reflexivity].
      apply existsb_exists in E. destruct E as [name [Hname Heq]].
      apply String.eqb_eq in Heq. exfalso. now apply (Hq name). }
    now rewrite Hex.
  - assumption.
  - intros Hle. apply Hnone. replace (Z.to_nat num_files) with 0%nat by lia.
    reflexivity.
Qed.

Lemma generate_sys_data_rewrites_one_file_per_name_witness :
  exists sh',
    generate_sys_data Examples.host 2 5 ["A"; "B"] "/data"
                      {| files := [("/data/A_input.txt", 99%Z)];
                         printed := [] |}
    = Ok sh' /\
    ((0 < 2)%Z ->
     forall name, In name ["A"; "B"] ->
                  get (joinpath "/data" (input_name name)) (files sh')
                  = Some 5%Z) /\
    (forall q, (forall name, In name ["A"; "B"] ->
                             q <> joinpath "/data" (input_name name)) ->
               get q (files sh')
               = get q [("/data/A_input.txt", 99%Z)]) /\
    List.length (printed sh') = (0 + Z.to_nat 2 * 2)%nat /\
    ((2 <= 0)%Z -> sh' = {| files := [("/data/A_input.txt", 99%Z)];
                            printed := [] |}).
Proof.
  apply (generate_sys_data_rewrites_one_file_per_name
           Examples.host 2 5 ["A"; "B"] "/data"
           {| files := [("/data/A_input.txt", 99%Z)]; printed := [] |}).
  - lia.
  - reflexivity.
Defined.

(** X21.  [generate_input_file] writes, under each of its four keys, one
    entry per task type in the order in which the types first occur among
    the nodes, with the default of the key: 0.6, 1000, 100 and 10.  Every
    node finds its type there, and no type is listed twice. *)
Theorem generate_input_file_has_one_entry_per_task_type
        (nodes : list Task.t) :
  percent_cpu (generate_input_file nodes)
  = map (fun ty => (ty, "0.6")) (task_types nodes) /\
  cpu_work (generate_input_file nodes)
  = map (fun ty => (ty, 1000%Z)) (task_types nodes) /\
  gpu_work (generate_input_file nodes)
  = map (fun ty => (ty, 100%Z)) (task_types nodes) /\
  data (generate_input_file nodes)
  = map (fun ty => (ty, 10%Z)) (task_types nodes) /\
  NoDup (task_types nodes) /\
  Forall (fun task => In (task_type (Task.name task)) (task_types nodes)) nodes.
Proof.
  rewrite ToolFacts.generate_input_file_closed.
  cbn [percent_cpu cpu_work gpu_work data].
  unfold task_types, first_occurrences. repeat split.
  - apply ToolFacts.first_occurrences_distinct. constructor.
  - apply Forall_forall. intros task Hin.
    apply ToolFacts.first_occurrences_cover. right.
    apply in_map_iff. eauto.
Qed.

(** X22.  The task type that [generate_input_file] gives a name is what
    precedes the first ["_0"]: a prefix free of ["_0"] is recovered from
    any name made of it, ["_0"] and a suffix, and is its own type. *)
Theorem task_type_strips_the_numbered_suffix (prefix_ suffix : string) :
  occurs "_0" prefix_ = false ->
  task_type (prefix_ +++ "_0" +++ suffix) = prefix_ /\
  task_type prefix_ = prefix_.
Proof.
  intros Hfree. split.
  - now apply ToolFacts.task_type_of_numbered.
  - now apply ToolFacts.before_first_absent.
Qed.

Lemma task_type_strips_the_numbered_suffix_witness :
  task_type ("mProject" +++ "_0" +++ "0000012") = "mProject" /\
  task_type "mProject" = "mProject".
Proof.
  apply (task_type_strips_the_numbered_suffix "mProject" "0000012").
  reflexivity.
Defined.

Lemma default_params (types : list string) (L : Locals) (t : Task.t) :
  In (Task.category t) types ->
  task_params (PerCategory (map (fun ty => (ty, "0.6")) types))
              (Some (PerCategory (map (fun ty => (ty, 1000%Z)) types)))
              (Some (PerCategory (map (fun ty => (ty, 100%Z)) types)))
              None L t
  = Ok ["--percent-cpu 0.6"; "--cpu-work 1000"; "--gpu-work 100"].
Proof.
  intros Hin. unfold task_params.
  assert (Hm : mem (Task.category t) types = true) by now apply mem_In.
  assert (Hcw : truthy (Some (PerCategory (map (fun ty => (ty, 1000%Z)) types)))
                = true) by (destruct types; [destruct Hin|reflexivity]).
  assert (Hgw : truthy (Some (PerCategory (map (fun ty => (ty, 100%Z)) types)))
                = true) by (destruct types; [destruct Hin|reflexivity]).
  rewrite Hcw, Hgw. cbn [lookup]. unfold item.
  rewrite !ToolFacts.get_constant, Hm. cbn [Py.bind]. reflexivity.
Qed.

(** X23.  [generate_input_file] followed by
    [create_benchmark_from_input_file] on the unedited file: for a
    consistent graph all of whose categories are among the task types
    listed in the file, the benchmark is created, and the first arguments
    of every task are its name and the defaults
    [--percent-cpu 0.6], [--cpu-work 1000] and [--gpu-work 100]. *)
Theorem unedited_input_file_is_accepted
        (H : Host) (wf : Workflow) (save_dir json_path : string)
        (nodes : list Task.t) (w : World) :
  listed wf ->
  named wf ->
  children_are_tasks wf ->
  linked_back wf ->
  (forall k t, In (k, t) (tasks wf) ->
               In (Task.category t) (task_types nodes)) ->
  exists wf' w',
    create_benchmark_from_input_file
      H wf save_dir json_path (as_written (generate_input_file nodes)) None w
    = Ok (json_path, wf', w') /\
    Forall2
      (entrywise
         (fun t t' =>
            exists rest,
              Task.args t'
              = [Task.name t; "--percent-cpu 0.6"; "--cpu-work 1000";
                 "--gpu-work 100"] ++ rest))
      (tasks wf) (tasks wf').
Proof.
  intros Hlisted Hnamed Hchildren Hback Htypes.
  unfold create_benchmark_from_input_file, as_written.
  rewrite ToolFacts.generate_input_file_closed.
  cbn [p_percent_cpu p_cpu_work p_gpu_work p_data
       percent_cpu cpu_work gpu_work data].
  set (types := task_types nodes) in *.
  assert (Hcov : covered wf (map (fun ty => (ty, 10%Z)) types)).
  { intros k t Hin. exists 10%Z. split; [|lia].
    rewrite ToolFacts.get_constant.
    now rewrite (proj2 (mem_In _ _) (Htypes k t Hin)). }
  assert (Hparams :
            Forall (fun kt =>
                      exists params,
                        task_params
                          (PerCategory (map (fun ty => (ty, "0.6")) types))
                          (Some (PerCategory (map (fun ty => (ty, 1000%Z)) types)))
                          (Some (PerCategory (map (fun ty => (ty, 100%Z)) types)))
                          None (fst (create_lock_files H None w)) (snd kt)
                        = Ok params)
                   (tasks wf)).
  { apply Forall_forall. intros [k t] Hin. eexists.
    apply default_params. now apply (Htypes k t). }
  destruct (PerCategoryFacts.create_benchmark_per_category
              H wf save_dir json_path _ _ _ _ None w
              Hlisted Hnamed Hchildren Hback Hcov Hparams) as [w' Hrun].
  eexists. exists w'. split; [exact Hrun|].
  cbn [tasks with_tasks]. apply Forall2_map_of.
  intros [k t] Hin. split; [reflexivity|]. cbn [snd].
  rewrite LayoutFacts.per_category_fill_layout.
  unfold params_of. rewrite (default_params types _ t (Htypes k t Hin)).
  eexists. cbn [app]. reflexivity.
Qed.

Lemma unedited_input_file_is_accepted_witness :
  exists wf' w',
    create_benchmark_from_input_file
      Examples.host ToolExamples.typed_fork "/data" "/data/fork-4.json"
      (as_written (generate_input_file ToolExamples.nodes)) None
      Examples.empty_world
    = Ok ("/data/fork-4.json", wf', w') /\
    Forall2
      (entrywise
         (fun t t' =>
            exists rest,
              Task.args t'
              = [Task.name t; "--percent-cpu 0.6"; "--cpu-work 1000";
                 "--gpu-work 100"] ++ rest))
      (tasks ToolExamples.typed_fork) (tasks wf').
Proof.
  apply (unedited_input_file_is_accepted
           Examples.host ToolExamples.typed_fork "/data" "/data/fork-4.json"
           ToolExamples.nodes Examples.empty_world).
  - intros k t Hin. simpl in Hin.
    repeat (destruct Hin as [Hin|Hin]; [injection Hin as <- <-|]);
      [..|destruct Hin]; simpl; eauto.
  - repeat split.
    + repeat constructor.
    + repeat constructor; simpl; intuition discriminate.
    + intros k ps Hk Hps. simpl in Hk.
      repeat (destruct Hk as [<-|Hk]); [..|destruct Hk];
        simpl in Hps; injection Hps as <-; intros x Hx; simpl in *; tauto.
  - intros k cs Hk Hcs. simpl in Hk.
    repeat (destruct Hk as [<-|Hk]); [..|destruct Hk];
      simpl in Hcs; injection Hcs as <-; intros x Hx; simpl in *; tauto.
  - intros k t p Hin Hp. simpl in Hin.
    repeat (destruct Hin as [Hin|Hin]; [injection Hin as <- <-|]);
      [..|destruct Hin]; simpl in *; intuition (subst; simpl; auto).
  - intros k t Hin. simpl in Hin.
    repeat (destruct Hin as [Hin|Hin]; [injection Hin as <- <-|]);
      [..|destruct Hin]; vm_compute; auto.
Defined.

End ToolExtras.

(** ** Iterating over a trace *)

Section TraceExtras.
Import TraceIter.

Lemma drain_rest (order : list string) :
  forall k n,
    (n + k = List.length order)%nat ->
    drain (List.length order) (S k) {| _n := n; _order := Some order |}
    = Some (skipn n order, None,
            {| _n := List.length order; _order := Some order |}).
Proof.
  induction k as [|k IH]; intros n Hn.
  - cbn [drain]. unfold __next__. cbn [_n _order].
    replace (n <? List.length order)%nat with false
      by (symmetry; apply Nat.ltb_ge; lia).
    replace n with (List.length order) by lia.
    now rewrite skipn_all.
  - remember (S k) as fuel eqn:Hfuel. cbn [drain]. unfold __next__.
    cbn [_n _order].
    replace (n <? List.length order)%nat with true
      by (symmetry; apply Nat.ltb_lt; lia).
    destruct (nth_error order n) as [val|] eqn:Hnth.
    + subst fuel. rewrite (IH (S n)) by lia.
      f_equal. f_equal. f_equal.
      clear IH Hn. revert n Hnth.
      induction order as [|x order IHo]; intros [|n] Hnth;
        cbn [nth_error skipn] in *; try discriminate.
      * now injection Hnth as ->.
      * now apply IHo.
    + apply nth_error_None in Hnth. lia.
Qed.

(** X24.  [__iter__] and [__next__]: a [for] loop over a trace whose
    topological order lists each of its nodes once obtains the jobs of
    that order, all of them and in that order, and ends on
    [StopIteration] after one more call than there are nodes, whatever
    an earlier loop left in the cursor. *)
Theorem for_loop_visits_the_topological_order
        (topological_sort : list string) (size : nat) (c : Cursor) :
  List.length topological_sort = size ->
  for_loop topological_sort size (S size) c
  = Some (topological_sort, None,
          {| _n := size; _order := Some topological_sort |}).
Proof.
  intros <-. unfold for_loop, __iter__.
  now rewrite (drain_rest topological_sort (List.length topological_sort) 0).
Qed.

Lemma for_loop_visits_the_topological_order_witness :
  for_loop ["A"; "B"; "C"] 3 4 {| _n := 2; _order := Some ["C"; "A"] |}
  = Some (["A"; "B"; "C"], None, {| _n := 3; _order := Some ["A"; "B"; "C"] |}).
Proof.
  apply (for_loop_visits_the_topological_order
           ["A"; "B"; "C"] 3 {| _n := 2; _order := Some ["C"; "A"] |}).
  reflexivity.
Defined.

End TraceExtras.

(** ** The executor: the directory that is cleaned, and the names it
    looks for *)

Module DirectoryFacts.
Import Executor RunSpec ExecutorFacts.

Lemma visit_standing M task st :
  standing st ->
  match visit M task st with
  | Done st' => standing st'
  | Failed _ _ => True
  end.
Proof.
  intros Hst. unfold visit.
  destruct (mem (Task.name task) (has_executed st)); [assumption|].
  destruct (negb (all (fst (probe_all M _ (probes st))))); [assumption|].
  destruct (popen_ok M (command_line task)); [|exact I].
  unfold standing. cbn [cwd has_executed].
  now destruct (has_executed st).
Qed.

Lemma scan_standing M :
  forall ts st,
    standing st ->
    match scan M ts st with
    | Done st' => standing st'
    | Failed _ _ => True
    end.
Proof.
  induction ts as [|task ts IH]; intros st Hst; cbn [scan]; [assumption|].
  pose proof (visit_standing M task st Hst) as Hv.
  destruct (visit M task st) as [st1|e st1]; [|exact I].
  now apply IH.
Qed.

Lemma poll_standing M tasks :
  forall fuel st st',
    standing st ->
    poll M tasks fuel st = Some (Done st') -> standing st'.
Proof.
  induction fuel as [|fuel IH]; intros st st' Hst Hp; cbn [poll] in Hp.
  - destruct (List.length (has_executed st) <? List.length tasks)%nat;
      [discriminate|]. now injection Hp as <-.
  - destruct (List.length (has_executed st) <? List.length tasks)%nat;
      [|now injection Hp as <-].
    pose proof (scan_standing M tasks st Hst) as Hs.
    destruct (scan M tasks st) as [st1|e st1]; [|discriminate].
    apply (IH (sleep st1)); assumption.
Qed.

(** *** Matching the two patterns *)

Lemma wildcard_after_star (pat : list ascii) :
  forall pre s,
    wildcard pat s = true -> wildcard ("*"%char :: pat) (pre ++ s) = true.
Proof.
  intros pre s Hs. induction pre as [|a pre IH].
  - cbn [app wildcard]. rewrite Ascii.eqb_refl. destruct s; now rewrite Hs.
  - cbn [app wildcard] in *. rewrite Ascii.eqb_refl in *.
    rewrite IH. apply orb_true_r.
Qed.

Lemma visible_with_suffix (k rest : string) :
  prefix "." k = false -> prefix "." ("_" +++ rest) = false ->
  prefix "." (k +++ "_" +++ rest) = false.
Proof.
  destruct k as [|c k]; intros Hk Hrest; [assumption|].
  change (String c k +++ "_" +++ rest) with (String c (k +++ "_" +++ rest)).
  cbn [prefix] in *. destruct (Ascii.ascii_dec "." c); [|reflexivity].
  destruct k; discriminate.
Qed.

End DirectoryFacts.

Section DirectoryExtras.
Import Bench Executor RunSpec ExecutorFacts.

(** X25.  [run] that ends without an exception has cleaned the directory
    the process stood in after the loop: the directory of bench.py when
    the document lists a task, but the directory the process was started
    in when it lists none, where every visible file matching one of the
    two patterns is removed. *)
Theorem normal_run_cleans_where_it_stands
        (M : Machine) (tasks : list Task.t) (fuel : nat) (r : Report) :
  run M (Ok tasks) fuel = Some r ->
  raised r = None ->
  let d := match tasks with
           | [] => Launch
           | _ :: _ => Package
           end in
  cwd (final r) = d /\
  entries_left r = filter (fun n => negb (generated n)) (listing M d).
Proof.
  intros Hrun Hraised d.
  destruct (CleanupFacts.run_cases M tasks fuel r Hrun)
    as [[st [Hpoll Hend]]|[e [st [_ ->]]]];
    [|now apply RunFacts.handler_raises in Hraised].
  destruct Hend as [[_ [Hfinal Hclean]]|[e [rest [_ ->]]]];
    [|now apply RunFacts.handler_raises in Hraised].
  pose proof (DirectoryFacts.poll_standing M tasks fuel start st eq_refl Hpoll)
    as Hstand.
  pose proof (poll_steady M tasks fuel start _ (steady_start tasks) Hpoll)
    as [Hsteady Hexit].
  assert (Hcwd : cwd st = d).
  { unfold standing in Hstand. rewrite Hstand. subst d.
    destruct tasks as [|t tasks].
    - destruct (has_executed st) as [|x l] eqn:Hx; [reflexivity|].
      exfalso. apply (marked_are_tasks _ _ Hsteady x). rewrite Hx. now left.
    - apply Nat.ltb_ge in Hexit. cbn [List.length] in Hexit.
      destruct (has_executed st); [cbn in Hexit; lia|reflexivity]. }
  rewrite Hfinal. cbn [wait_all cwd]. split; [assumption|].
  rewrite <- Hcwd.
  now apply (CleanupFacts.cleanup_sys_files_spec _ _ _ Hclean).
Qed.

Lemma normal_run_cleans_where_it_stands_witness :
  cwd (final lavish_report) = Package /\
  entries_left lavish_report
  = filter (fun n => negb (generated n)) (listing lavish Package).
Proof.
  apply (normal_run_cleans_where_it_stands lavish [free; waiting] 1
                                           lavish_report);
    reflexivity.
Defined.

(** X26.  The files that [create_benchmark] names are the ones that
    [cleanup_sys_files] looks for: when the name of a task does not start
    with a dot, its root input [<task>_input.txt], its output
    [<task>_output.txt] and its per-child outputs
    [<task>_<child>_output.txt] all match a pattern of the cleanup. *)
Theorem assembled_names_are_cleanup_targets (task child : string) :
  prefix "." task = false ->
  generated (input_name task) = true /\
  generated (output_name task) = true /\
  generated (edge_output_name task child) = true.
Proof.
  intros Hvisible. unfold generated, input_name, output_name, edge_output_name.
  change (list_ascii_of_string "*input*.txt")
    with ("*"%char :: list_ascii_of_string "input*.txt").
  change (list_ascii_of_string "*output.txt")
    with ("*"%char :: list_ascii_of_string "output.txt").
  repeat split; apply andb_true_iff; split.
  - apply negb_true_iff.
    now apply (DirectoryFacts.visible_with_suffix task "input.txt" Hvisible).
  - apply orb_true_iff. left.
    rewrite list_ascii_of_string_append.
    replace (list_ascii_of_string task ++ list_ascii_of_string "_input.txt")
      with ((list_ascii_of_string task ++ ["_"%char])
            ++ list_ascii_of_string "input.txt")
      by (now rewrite <- app_assoc).
    now apply DirectoryFacts.wildcard_after_star.
  - apply negb_true_iff.
    now apply (DirectoryFacts.visible_with_suffix task "output.txt" Hvisible).
  - apply orb_true_iff. right.
    rewrite list_ascii_of_string_append.
    replace (list_ascii_of_string task ++ list_ascii_of_string "_output.txt")
      with ((list_ascii_of_string task ++ ["_"%char])
            ++ list_ascii_of_string "output.txt")
      by (now rewrite <- app_assoc).
    now apply DirectoryFacts.wildcard_after_star.
  - apply negb_true_iff.
    now apply (DirectoryFacts.visible_with_suffix
                 task (child +++ "_output.txt") Hvisible).
  - apply orb_true_iff. right.
    rewrite !list_ascii_of_string_append.
    replace (list_ascii_of_string task
             ++ list_ascii_of_string "_"
             ++ list_ascii_of_string child
             ++ list_ascii_of_string "_output.txt")
      with ((list_ascii_of_string task ++ list_ascii_of_string "_"
             ++ list_ascii_of_string child ++ ["_"%char])
            ++ list_ascii_of_string "output.txt")
      by (now rewrite <- !app_assoc).
    now apply DirectoryFacts.wildcard_after_star.
Qed.

Lemma assembled_names_are_cleanup_targets_witness :
  generated (input_name "A") = true /\
  generated (output_name "A") = true /\
  generated (edge_output_name "A" "B") = true.
Proof.
  apply (assembled_names_are_cleanup_targets "A" "B"). reflexivity.
Defined.

End DirectoryExtras.

(** ** The assembler: the table of inputs is the table of outputs turned
    around *)

Module TransposeFacts.
Import Bench BenchSpec AssemblySpec.

Lemma set_has {V} (k : string) (v : V) (d : dict V) : In (k, v) (set k v d).
Proof.
  induction d as [|[k' v'] d IH]; cbn [set]; [now left|].
  destruct (String.eqb k k'); [now left|now right].
Qed.

Lemma set_keeps {V} (k k' : string) (v v' : V) (d : dict V) :
  k' <> k -> In (k, v) d -> In (k, v) (set k' v' d).
Proof.
  intros Hne. induction d as [|[k0 v0] d IH]; cbn [set]; [intros []|].
  intros [Heq|Hin].
  - injection Heq as -> ->.
    destruct (String.eqb k' k) eqn:E; [|now left].
    apply String.eqb_eq in E. congruence.
  - destruct (String.eqb k' k0); right; auto.
Qed.

Lemma turn_one (c p : string) (sz : Z) (acc : dict (dict Z)) :
  exists r0,
    set_inner c p sz (setdefault c [] acc)
    = Ok (set c (set p sz r0) (setdefault c [] acc)) /\
    (forall q s, reads acc q c s -> In (q, s) r0) /\
    (forall c', c' <> c ->
                get c' (setdefault c [] acc) = get c' acc).
Proof.
  unfold set_inner, setdefault, item.
  destruct (get c acc) as [r|] eqn:Hc.
  - exists r. rewrite Hc. cbn [Py.bind]. repeat split.
    intros q s [r' [Hr' Hin]]. congruence.
  - exists []. rewrite InvertFacts.get_app, Hc. cbn [get].
    rewrite String.eqb_refl. cbn [Py.bind]. repeat split.
    + intros q s [r' [Hr' _]]. congruence.
    + intros c' Hne. rewrite InvertFacts.get_app.
      destruct (get c' acc); [reflexivity|]. cbn [get].
      destruct (String.eqb c' c) eqn:E; [|reflexivity].
      apply String.eqb_eq in E. congruence.
Qed.

Lemma turn_one_new c p sz acc acc' :
  set_inner c p sz (setdefault c [] acc) = Ok acc' -> reads acc' p c sz.
Proof.
  destruct (turn_one c p sz acc) as [r0 [-> _]]. intros [= <-].
  eexists. split; [apply get_set_same|apply set_has].
Qed.

Lemma turn_one_keeps c2 p2 sz2 acc acc' p c sz :
  set_inner c2 p2 sz2 (setdefault c2 [] acc) = Ok acc' ->
  reads acc p c sz ->
  (c2 = c -> p2 = p -> sz2 = sz) ->
  reads acc' p c sz.
Proof.
  destruct (turn_one c2 p2 sz2 acc) as [r0 [-> [Hr0 Hother]]]. intros [= <-].
  intros Hreads Hsame.
  destruct (String.eqb_spec c2 c) as [->|Hc].
  - eexists. split; [apply get_set_same|].
    destruct (String.eqb_spec p2 p) as [->|Hp].
    + rewrite (Hsame eq_refl eq_refl). apply set_has.
    + apply set_keeps; [assumption|]. now apply Hr0.
  - destruct Hreads as [r [Hr Hin]]. exists r. split; [|assumption].
    rewrite get_set_other by assumption.
    rewrite Hother by congruence. assumption.
Qed.

Lemma turn_row_keeps p2 p c sz :
  forall row acc acc',
    for_each
      (fun cs input_files =>
         set_inner (fst cs) p2 (snd cs) (setdefault (fst cs) [] input_files))
      row acc = Ok acc' ->
    reads acc p c sz ->
    (forall sz2, In (c, sz2) row -> p2 = p -> sz2 = sz) ->
    reads acc' p c sz.
Proof.
  induction row as [|[c2 sz2] row IH]; intros acc acc' Hrun Hreads Hsame;
    cbn [for_each fst snd] in Hrun.
  - now injection Hrun as <-.
  - bind_inv Hrun. apply (IH _ _ Hrun).
    + apply (turn_one_keeps _ _ _ _ _ _ _ _ E Hreads).
      intros -> Hp. apply Hsame; [now left|assumption].
    + intros sz' Hin. apply Hsame. now right.
Qed.

Lemma turn_row_new p :
  forall row acc acc',
    NoDup (keys row) ->
    for_each
      (fun cs input_files =>
         set_inner (fst cs) p (snd cs) (setdefault (fst cs) [] input_files))
      row acc = Ok acc' ->
    forall c sz, In (c, sz) row -> reads acc' p c sz.
Proof.
  induction row as [|[c0 sz0] row IH]; intros acc acc' Hnd Hrun c sz Hin;
    [destruct Hin|].
  cbn [for_each fst snd] in Hrun. bind_inv Hrun.
  cbn [keys map fst] in Hnd. inversion Hnd as [|? ? Hout Hrest]; subst.
  destruct Hin as [[= -> ->]|Hin].
  - apply (turn_row_keeps p p c sz row a acc' Hrun).
    + now apply (turn_one_new _ _ _ _ _ E).
    + intros sz2 Hin2 _. exfalso. apply Hout.
      apply in_map_iff. exists (c, sz2). auto.
  - now apply (IH _ _ Hrest Hrun).
Qed.

Lemma turn_table_keeps p c sz :
  forall outs acc acc',
    for_each
      (fun pc input_files =>
         for_each
           (fun cs input_files =>
              set_inner (fst cs) (fst pc) (snd cs)
                        (setdefault (fst cs) [] input_files))
           (snd pc) input_files)
      outs acc = Ok acc' ->
    reads acc p c sz ->
    (forall row sz2, In (p, row) outs -> In (c, sz2) row -> sz2 = sz) ->
    reads acc' p c sz.
Proof.
  induction outs as [|[p2 row] outs IH]; intros acc acc' Hrun Hreads Hsame;
    cbn [for_each fst snd] in Hrun.
  - now injection Hrun as <-.
  - bind_inv Hrun. apply (IH _ _ Hrun).
    + apply (turn_row_keeps p2 p c sz row acc a E Hreads).
      intros sz2 Hin ->. apply (Hsame row); [now left|assumption].
    + intros row' sz2 Hin. apply Hsame. now right.
Qed.

Lemma turn_table_new :
  forall outs acc acc',
    proper_table outs ->
    for_each
      (fun pc input_files =>
         for_each
           (fun cs input_files =>
              set_inner (fst cs) (fst pc) (snd cs)
                        (setdefault (fst cs) [] input_files))
           (snd pc) input_files)
      outs acc = Ok acc' ->
    forall p c sz, writes outs p c sz -> reads acc' p c sz.
Proof.
  induction outs as [|[p0 row0] outs IH];
    intros acc acc' [Hnd Hrows] Hrun p c sz [row [Hrow Hin]]; [destruct Hrow|].
  cbn [for_each fst snd] in Hrun. bind_inv Hrun.
  cbn [keys map fst] in Hnd. inversion Hnd as [|? ? Hout Hrest]; subst.
  assert (Hproper : proper_table outs).
  { split; [assumption|]. intros q r Hq. apply (Hrows q r). now right. }
  destruct Hrow as [[= -> ->]|Hrow].
  - apply (turn_table_keeps p c sz outs a acc' Hrun).
    + apply (turn_row_new p row acc a (Hrows p row (or_introl eq_refl)) E c sz Hin).
    + intros row' sz2 Hin' _. exfalso. apply Hout.
      apply in_map_iff. exists (p, row'). auto.
  - apply (IH _ _ Hproper Hrun). exists row. auto.
Qed.

End TransposeFacts.

Section TransposeExtras.
Import Bench BenchSpec AssemblySpec.

(** X27.  The first loop of [_add_input_files] turns the table of
    outputs around: for a table with distinct keys it raises nothing, and
    a task [c] is given an input of size [sz] from [p] exactly when [p]
    has an output of size [sz] for [c]. *)
Theorem input_table_is_the_output_table_turned_around
        (output_files : dict (dict Z)) :
  proper_table output_files ->
  exists input_files,
    invert output_files = Ok input_files /\
    forall p c sz,
      writes output_files p c sz <-> reads input_files p c sz.
Proof.
  intros Hproper.
  destruct (UniformFacts.invert_total output_files) as [input_files Hrun].
  exists input_files. split; [assumption|]. intros p c sz. split.
  - now apply (TransposeFacts.turn_table_new output_files [] input_files).
  - intros [r [Hr Hin]].
    pose proof (InvertFacts.inverted_sound output_files) as Hsound.
    unfold inverted in Hsound. rewrite Hrun in Hsound.
    apply (Hsound c r p sz Hr Hin).
Qed.

Lemma input_table_is_the_output_table_turned_around_witness :
  exists input_files,
    invert [("A", [("B", 100%Z); ("C", 200%Z)]); ("B", [("D", 50%Z)])]
    = Ok input_files /\
    forall p c sz,
      writes [("A", [("B", 100%Z); ("C", 200%Z)]); ("B", [("D", 50%Z)])] p c sz
      <-> reads input_files p c sz.
Proof.
  apply (input_table_is_the_output_table_turned_around
           [("A", [("B", 100%Z); ("C", 200%Z)]); ("B", [("D", 50%Z)])]).
  split.
  - repeat constructor; simpl; intuition discriminate.
  - intros p row Hin. simpl in Hin.
    destruct Hin as [[= <- <-]|[[= <- <-]|[]]];
      repeat constructor; simpl; intuition discriminate.
Defined.

End TransposeExtras.

(** ** The assembler applied to its own result *)

Module AgainFacts.
Import Bench BenchSpec AssemblySpec.

Lemma create_lock_files_locals H lff w w2 :
  fst (create_lock_files H lff w2) = fst (create_lock_files H lff w).
Proof.
  unfold create_lock_files. destruct lff as [folder|]; [|reflexivity].
  destruct (can_mkdir H folder); [|reflexivity].
  destruct (can_open H (joinpath folder "cores.txt.lock")); [|reflexivity].
  now destruct (can_open H (joinpath folder "cores.txt")).
Qed.

Lemma create_lock_files_keeps H lff w q s :
  get q (disk w) = Some s ->
  exists s', get q (disk (snd (create_lock_files H lff w))) = Some s'.
Proof.
  intros Hq.
  assert (Hset : forall k (d : dict Z),
             (exists s', get q d = Some s') ->
             exists s', get q (set k 0%Z d) = Some s').
  { intros k d [s' Hs']. destruct (String.eqb_spec k q) as [->|Hne].
    - rewrite get_set_same. eauto.
    - rewrite get_set_other by assumption. eauto. }
  unfold create_lock_files. destruct lff as [folder|]; [|cbn [snd]; eauto].
  destruct (can_mkdir H folder); [|cbn [snd disk logged]; eauto].
  destruct (can_open H (joinpath folder "cores.txt.lock"));
    [|cbn [snd disk logged]; eauto].
  destruct (can_open H (joinpath folder "cores.txt"));
    cbn [snd disk touched logged]; repeat apply Hset; eauto.
Qed.

Lemma per_category_footprint_factors wf sd d w wf' w1 :
  per_category_footprint wf sd d w = Ok (wf', w1) ->
  forall w2,
    per_category_footprint wf sd d w2
    = (w3 <- _generate_data_for_root_nodes
               wf' sd (PerCategory d)
               (logged DEBUG "Generating system files." w2) ;;
       Ok (wf', w3)).
Proof.
  unfold per_category_footprint. intros Hrun w2.
  destruct (_output_files wf d) as [outputs|]; [|discriminate].
  cbn [Py.bind] in *.
  destruct (update_tasks _ (tasks wf)) as [ts|]; [|discriminate].
  cbn [Py.bind] in *.
  destruct (_add_output_files (PerEdge outputs) (with_tasks wf ts)) as [wf1|];
    [|discriminate].
  cbn [Py.bind] in *.
  destruct (_add_input_files outputs (PerCategory d) wf1) as [wf2|];
    [|discriminate].
  cbn [Py.bind] in *.
  destruct (_generate_data_for_root_nodes wf2 sd (PerCategory d) _) as [w3|];
    [|discriminate].
  cbn [Py.bind] in Hrun. now injection Hrun as <- _.
Qed.

Lemma uniform_footprint_factors wf sd n w wf' w1 :
  uniform_footprint wf sd n w = Ok (wf', w1) ->
  exists file_size (g : World -> World),
    (forall w2, disk (g w2) = disk w2) /\
    forall w2,
      uniform_footprint wf sd n w2
      = (w3 <- _generate_data_for_root_nodes wf' sd (Scalar file_size) (g w2) ;;
         Ok (wf', w3)).
Proof.
  unfold uniform_footprint. intros Hrun.
  destruct (_calculate_input_files wf) as [counts|]; [|discriminate].
  cbn [Py.bind] in *.
  destruct (snd counts =? 0)%Z; [discriminate|]. cbn [Py.bind] in *.
  destruct (uniform_out_loop wf _ (tasks wf) None) as [looped|]; [|discriminate].
  cbn [Py.bind] in *.
  destruct (_add_output_files _ (with_tasks wf (fst looped))) as [wf1|];
    [|discriminate].
  cbn [Py.bind] in *.
  destruct (snd looped) as [outputs|]; [|discriminate]. cbn [Py.bind] in *.
  destruct (_add_input_files outputs _ wf1) as [wf2|]; [|discriminate].
  cbn [Py.bind] in *.
  destruct (_generate_data_for_root_nodes wf2 sd _ _) as [w3|]; [|discriminate].
  cbn [Py.bind] in Hrun. injection Hrun as <- _.
  eexists. eexists (fun w2 => logged DEBUG _ (logged DEBUG _ (logged DEBUG _
                                (logged DEBUG _ w2)))).
  split; [reflexivity|]. intros w2. reflexivity.
Qed.

Lemma assembled_adjacency H wf sd jp pc cw gw data lff w p wf' w' :
  create_benchmark H wf sd jp pc cw gw data lff w = Ok (p, wf', w') ->
  tasks_parents wf' = tasks_parents wf /\
  tasks_children wf' = tasks_children wf.
Proof.
  intros Hrun.
  destruct (AssemblyFacts.create_benchmark_phases _ _ _ _ _ _ _ _ _ _ _ _ _ Hrun)
    as [ts [w1 [_ [Hsized _]]]].
  destruct data as [[n|d]|].
  - destruct (BenchFacts.uniform_footprint_appended _ _ _ _ _ _ Hsized)
      as [Hp [Hc _]]. auto.
  - destruct (BenchFacts.per_category_footprint_appended _ _ _ _ _ _ Hsized)
      as [Hp [Hc _]]. auto.
  - injection Hsized as <- _. auto.
Qed.

Lemma forget_assembled H wf sd jp pc cw gw data lff w p wf' w' :
  create_benchmark H wf sd jp pc cw gw data lff w = Ok (p, wf', w') ->
  forget_all wf' = forget_all wf.
Proof.
  intros Hrun.
  destruct (assembled_adjacency _ _ _ _ _ _ _ _ _ _ _ _ _ Hrun) as [Hp Hc].
  destruct (AssemblyFacts.assembled_task _ _ _ _ _ _ _ _ _ _ _ _ _ Hrun)
    as [_ Htasks].
  unfold forget_all, with_tasks. rewrite Hp, Hc. f_equal.
  induction Htasks as [|[k t] [k' t'] ts ts' [Hk [params [_ Happ]]] _ IH];
    [reflexivity|].
  cbn [map fst snd] in *. rewrite IH. f_equal. subst k'. f_equal.
  destruct Happ as [Hname [Hcat _]].
  cbn [reset_task Task.name Task.category] in Hname, Hcat.
  unfold forget. now rewrite Hname, Hcat.
Qed.

Lemma create_benchmark_other_world H wf sd jp pc cw gw data lff w p wf' w' w2 :
  create_benchmark H wf sd jp pc cw gw data lff w = Ok (p, wf', w') ->
  (data <> None ->
   forall t, In t (values (tasks wf')) -> is_root wf' t = true ->
             exists s, get (root_input sd t) (disk w2) = Some s) ->
  exists w2',
    create_benchmark H wf sd jp pc cw gw data lff w2 = Ok (p, wf', w2').
Proof.
  intros Hrun Hroots.
  destruct (AssemblyFacts.create_benchmark_phases _ _ _ _ _ _ _ _ _ _ _ _ _ Hrun)
    as [ts [w1 [Hts [Hsized [-> _]]]]].
  unfold create_benchmark.
  pose proof (create_lock_files_locals H lff w w2) as HL.
  assert (Hkept : data <> None ->
                  forall t, In t (values (tasks wf')) -> is_root wf' t = true ->
                            exists s, get (root_input sd t)
                                          (disk (snd (create_lock_files H lff w2)))
                                      = Some s).
  { intros Hdata t Hin Hroot. destruct (Hroots Hdata t Hin Hroot) as [s Hs].
    apply (create_lock_files_keeps H lff w2 _ s Hs). }
  destruct (create_lock_files H lff w2) as [L2 w02]. cbn [fst snd] in *.
  subst L2. rewrite Hts. cbn [Py.bind].
  destruct data as [[n|d]|].
  - destruct (uniform_footprint_factors _ _ _ _ _ _ Hsized)
      as [fs [g [Hg Hfactor]]].
    pose proof Hsized as Hfirst. rewrite Hfactor in Hfirst. bind_inv Hfirst.
    injection Hfirst as <-.
    unfold _generate_data_for_root_nodes in E.
    destruct (AssemblyFacts.generate_data_loop _ _ _ _ _ _ E)
      as [_ [_ [_ [_ Hagain]]]].
    rewrite Hfactor. unfold _generate_data_for_root_nodes.
    rewrite (Hagain (g w02))
      by (intros t Hin Hroot; rewrite Hg; apply Hkept; [discriminate|assumption..]).
    cbn [Py.bind]. eauto.
  - pose proof (per_category_footprint_factors _ _ _ _ _ _ Hsized) as Hfactor.
    pose proof Hsized as Hfirst. rewrite Hfactor in Hfirst. bind_inv Hfirst.
    injection Hfirst as <-.
    unfold _generate_data_for_root_nodes in E.
    destruct (AssemblyFacts.generate_data_loop _ _ _ _ _ _ E)
      as [_ [_ [_ [_ Hagain]]]].
    rewrite Hfactor. unfold _generate_data_for_root_nodes.
    rewrite (Hagain (logged DEBUG "Generating system files." w02))
      by (intros t Hin Hroot; cbn [logged disk]; apply Hkept;
          [discriminate|assumption..]).
    cbn [Py.bind]. eauto.
  - injection Hsized as <- _. cbn [Py.bind]. eauto.
Qed.

End AgainFacts.

Section AgainExtras.
Import Bench BenchSpec AssemblySpec.

(** X28.  [create_benchmark] applied again, with the same parameters, to
    the workflow and the disk it left (as a second call with
    [regenerate=False] does) returns the same workflow: every task is
    reset before it is filled, so neither arguments nor files pile up. *)
Theorem assembling_again_gives_the_same_graph
        (H : Host) (wf : Workflow) (save_dir json_path : string)
        (percent_cpu : Param PyFloat) (cpu_work gpu_work data : option (Param Z))
        (lock_files_folder : option string) (w : World)
        (path : string) (wf' : Workflow) (w' : World) :
  create_benchmark H wf save_dir json_path percent_cpu cpu_work gpu_work
                   data lock_files_folder w = Ok (path, wf', w') ->
  exists w'',
    create_benchmark H wf' save_dir json_path percent_cpu cpu_work gpu_work
                     data lock_files_folder w' = Ok (path, wf', w'').
Proof.
  intros Hrun.
  rewrite <- create_benchmark_forget.
  rewrite (AgainFacts.forget_assembled _ _ _ _ _ _ _ _ _ _ _ _ _ Hrun).
  rewrite create_benchmark_forget.
  apply (AgainFacts.create_benchmark_other_world
           _ _ _ _ _ _ _ _ _ _ _ _ _ w' Hrun).
  destruct (AssemblyFacts.create_benchmark_phases _ _ _ _ _ _ _ _ _ _ _ _ _ Hrun)
    as [ts [w1 [_ [Hsized [_ [Hdisk _]]]]]].
  destruct data as [data|]; [intros _|congruence].
  assert (Hfoot : match data with
                  | PerCategory d =>
                      per_category_footprint (with_tasks wf ts) save_dir d
                        (snd (create_lock_files H lock_files_folder w))
                  | Scalar n =>
                      uniform_footprint (with_tasks wf ts) save_dir n
                        (snd (create_lock_files H lock_files_folder w))
                  end = Ok (wf', w1)) by (destruct data; assumption).
  destruct (AssemblyFacts.footprint_disk _ _ _ _ _ _ Hfoot)
    as [_ [_ [w0 [data' [_ [_ Hgen]]]]]].
  destruct (AssemblyFacts.generate_data_spec _ _ _ _ _ Hgen)
    as [_ [_ [Hroots _]]].
  intros t Hin Hroot. rewrite Hdisk. now apply Hroots.
Qed.

Lemma assembling_again_gives_the_same_graph_witness :
  exists w'',
    create_benchmark Examples.host (snd (fst Assembled.locked_fork)) "/data"
                     "/data/fork-4.json" (Scalar "0.6")
                     (Some (Scalar 100%Z)) None
                     (Some (PerCategory Examples.sizes)) (Some "/locks")
                     (snd Assembled.locked_fork)
    = Ok (fst (fst Assembled.locked_fork), snd (fst Assembled.locked_fork), w'').
Proof.
  apply (assembling_again_gives_the_same_graph
           Examples.host Examples.fork "/data" "/data/fork-4.json"
           (Scalar "0.6") (Some (Scalar 100%Z)) None
           (Some (PerCategory Examples.sizes)) (Some "/locks") Assembled.seeded).
  reflexivity.
Defined.

End AgainExtras.

Section ErrorPathExtras.
Import Executor RunSpec ExecutorFacts.

(** X29.  [run] when the workflow document cannot be read: no task is
    launched, the run ends by an exception, and the handler works in the
    directory the process was started in; there, every entry that is
    hidden or matches neither pattern is kept, and when the exception
    that leaves [run] is the executor's own, every visible entry that
    matches a pattern has been removed. *)
Theorem unreadable_document_cleans_the_launch_directory
        (M : Machine) (e : exn) (fuel : nat) :
  exists r,
    run M (Raise e) fuel = Some r /\
    raised r <> None /\
    cwd (final r) = Launch /\
    spawned (trace (final r)) = [] /\
    (forall n, In n (listing M Launch) -> generated n = false ->
               In n (entries_left r)) /\
    (raised r = Some wrapped_failure ->
     entries_left r
     = filter (fun n => negb (generated n)) (listing M Launch)).
Proof.
  exists (handler M start (listing M Launch)).
  destruct (CleanupFacts.handler_final M start (listing M Launch))
    as [_ [_ [Hcwd _]]].
  destruct (RunFacts.handler_launches M start (listing M Launch))
    as [_ [_ Hspawned]].
  repeat split.
  - apply RunFacts.handler_raises.
  - assumption.
  - assumption.
  - intros n Hin Hgen. unfold handler.
    destruct (popen_ok M ["killall"; "stress-ng"]); [|assumption].
    destruct (cleanup_sys_files (listing M Launch)) as [[e'|] rest] eqn:Hc;
      cbn [entries_left];
      destruct (CleanupFacts.cleanup_sys_files_spec _ _ _ Hc) as [Hsame _];
      assert (Hkept : In n (filter (fun x => negb (generated x))
                                   (listing M Launch)))
        by (apply filter_In; split; [assumption|now rewrite Hgen]);
      rewrite <- Hsame in Hkept; apply filter_In in Hkept; tauto.
  - apply CleanupFacts.handler_wrapped.
Qed.

End ErrorPathExtras.
